(* ===== verification/_CoqProject ===== *)
-Q . S2P
Prelude.v
Text.v
ConfigLexer.v
ConfigTree.v
ConfigParser.v
ConfigRoundtrip.v
ConfigRedact.v
Role.v
Sessions.v
Store.v
CommitEngine.v
Net.v
LinkMode.v
Lacp.v
Stp.v
Rib.v
Lldp.v
SnoopWire.v
Snoop.v
DhcpWire.v
SnoopSec.v
Dot1x.v
Sflow.v
AgentX.v
SnmpSub.v
SaiMock.v
Refcount.v
Qos.v
QosSound.v
QosExact.v
IntentTypes.v
IntentPorts.v
IntentSecurity.v
IntentSystem.v
IntentRouting.v
IntentServices.v
IntentExtract.v
IntentSound.v
IntentAccept.v
IntentDiff.v
IntentApply.v
CommitIntents.v
