(* ===== verification/Prelude.v ===== *)
(** * Hemlock: a verification library for the switch operating system

    Hemlock is a network operating system in Rust (src/src/): daemons around
    a switch chip.  [hemlock-mgmtd] owns the configuration: a text in a block
    language is drafted, validated, committed, confirmed or rolled back.
    [hemlock-orch] runs the protocol engines (LACP, spanning tree, IGMP/MLD
    snooping, DHCP snooping and ARP inspection, 802.1X, LLDP), exports sFlow,
    serves SNMP and mirrors the kernel's routes to the switch daemon.
    [hemlock-config] and [hemlock-common] are the libraries they share: the
    configuration language, and the syntax of addresses, rates, link modes
    and roles.  [hemlock-syncd] programs the switch through [hemlock-sai], a
    trait with a vendor binding and a mock.  The other crates (CLI, web daemon,
    monitors, installer) are front-ends.

    ** Files and what they model

    - [Prelude]: results, machine integers, fallible indexing, time, ordered
      maps; the hint databases and tactics.  [Text]: the standard library's
      [char] and [str] operations the sources use.
    - [ConfigLexer], [ConfigParser], [ConfigTree]: hemlock-config's lexer.rs,
      parser.rs and tree.rs.  [ConfigRoundtrip] proves printing and parsing
      inverse; [ConfigRedact] what redaction hides.
    - [Role], [Net], [LinkMode]: hemlock-common's role.rs, net.rs, link.rs.
    - [Sessions], [Store], [CommitEngine]: hemlock-mgmtd's sessions.rs and
      store.rs, and the configuration lifecycle of service.rs.  The store is
      the set of files of the state directory; the engine is a transition
      system of RPC handlers and commit-confirm timer tasks.  It is proved
      against the class [IntentEngine], an interface to intents.rs, and the
      store against the class of the metadata's JSON form.
    - [IntentTypes] to [IntentExtract]: the readers and checks of
      hemlock-mgmtd's intents.rs.  [IntentTypes] has the families of intents
      and the errors, [IntentPorts], [IntentSecurity], [IntentSystem],
      [IntentRouting] and [IntentServices] the readers of the sections of a
      configuration tree, [IntentExtract] the interface blocks, the checks
      across families and [extract].  [IntentDiff] has the change records and
      the diffs a commit pushes.  [IntentSound] and [IntentAccept] prove what
      an accepted configuration satisfies, [IntentApply] that a delta leads
      from the running configuration to the candidate, and
      [CommitIntents] discharges the commit engine's class with [extract].
    - [Lacp], [Stp], [SnoopWire], [Snoop], [Lldp]: the engines of
      hemlock-orch (lacp.rs, stp.rs, snoop.rs, lldp.rs), each with its frame
      codec; [DhcpWire] and [SnoopSec] are snoopsec.rs, the codec and the
      engine, whose binding file is written through the class
      [JsonBindings]; [Dot1x] is dot1x.rs with the runtime of the
      authenticator process and its control sockets.  [Sflow] is sflow.rs;
      [AgentX] and [SnmpSub] are agentx.rs and snmpsub.rs, the wire format and
      the IF-MIB sub-agent; both files also write down the other end (a
      collector, a master) against which the encoders are proved.  [Rib]:
      rib.rs and the pusher [push_fib] of main.rs.
    - [SaiMock]: the QoS calls of hemlock-sai's mock backend (mock.rs).  [Qos]:
      the QoS engine of hemlock-syncd (qos.rs, state.rs), a state and error
      monad over the daemon's tables and the backend.  [Refcount] is the theory
      of shared, counted objects; [QosSound] proves what each step keeps,
      [QosExact] the requests and what the switch then does.

    Every engine has the same shape, which follows the code: [Inner] is the
    record behind the mutex, an event handler updates it, [step] is the
    evaluation pass that runs after every event, [handle] is one turn of the
    [select!] loop (event, then pass), and [run] is a sequence of turns
    interleaved with the configuration calls of the gRPC side.  Channels are
    lists of outputs in the order of the sends.  The Rust function a
    definition translates has the same name unless the comment says so.

    ** Conventions

    Unsigned integers are [N] with wrap-around written out ([wrap]); a
    subtraction that saturates in the source is [N]'s own.  Instants and
    durations are nanoseconds; every reading of the clock is an argument.
    [BTreeMap] is a [gmap] read in key order by [btree_iter], with the key
    order given by the class [BTreeKey]; [BTreeSet] is a [gset].  A
    [Result] is [result]; an index or slice that could panic is an [index] or
    [range] in the error monad, and a decoder is total when it never returns
    [Err].  Text is a list of characters of one byte; [Lldp] treats its texts
    as UTF-8.  The text of an intent error is a [Reason]: the format string
    of the source and its arguments.  The time-zone database is an argument
    of [extract].  A poisoned mutex has no counterpart: it needs a panic while
    the lock is held.

    Recursion that is not structural takes fuel.  The lexer and the parser
    get the length of their input plus one, and [parse_terminates] shows it
    is never exhausted; the DHCP option loop gets the length of the field; the LLDP decoder gets the frame length, of which each
    TLV takes at least two; a 32-bit checksum is folded by three passes
    ([fold_carries_small]); the decimal printer gets the bit length of the
    number; the search for a sampling rate gets fourteen rounds for thirteen
    candidates ([nearest_go_spec]); the AgentX readers get the payload length,
    of which a search range takes at least eight bytes ([parse_request_push]),
    and the session loop the stream's, of which a PDU takes at least twenty
    ([session_loop_turns]).

    ** What the theorems show

    - Configuration language: the canonical text of a tree parses back to it
      ([parse_to_text]); lexing and parsing always return; edits touch what
      they name; redaction hides every secret when no section is repeated.
    - Lifecycle: the state directory refines an abstract history with a ring
      of fifty rollback points; a pending confirmation always has exactly one
      live timer, whose expiry restores the previous configuration, and a
      confirmation is final.
    - Intents: what [extract] accepts is consistent across families
      ([extract_valid]), and the running configuration is always one it
      accepts, with someone left to administer ([running_never_locks_out]); the changes of a
      commit lead from the running configuration to the candidate, family by
      family ([commit_delta_converges]), and none are pushed when nothing
      changed; the port channels pushed have one mode and at most eight
      members.
    - LACP: a gate is open only on a live link with a current partner in
      sync (or by fallback), never below min-links; the pusher has seen every
      change; the PDU codec is total and inverse.
    - Spanning tree: the election is optimal, forwarding is only for root and
      designated ports and only after both delays, guarded ports stay shut,
      a segment has one designated bridge; the BPDU codec.
    - Snooping: after every turn the switch forwards a group to exactly its
      live members and mrouters; joins, leaves, fast-leave; queries are sent
      exactly when due and the lowest-addressed querier wins; the parsers are
      total and agree with a reference layout of the RFCs; checksums verify.
    - DHCP snooping: an ARP is forwarded exactly when its sender is bound and
      the enabled checks pass; every binding comes from an acknowledgement of
      a trusted server and the file on disk always holds the table; requests
      leave only by trusted ports or a relay, stamped, and a relayed reply
      reaches the client byte for byte; the switch's redirects are exactly
      the wanted ones.
    - 802.1X: the switch lets a port through exactly when it is not enforced
      or its last report was a success; the process runs on the current
      configuration, whose files read back as what was configured.
    - LLDP: a frame sent is a neighbor learned, tables hold exactly what was
      heard within its TTL, the TLV codec.
    - sFlow: every datagram fits its payload limit, a collector reads back
      the records queued, numbered without a gap, and none is lost while the
      exporter is on ([sflow_stream]).
    - SNMP: a walk over the wire reads the whole MIB in order and ends
      ([snmp_walk_complete]); GetBulk is GetNext repeated; Get is exact; the
      session answers every PDU in order.
    - Switch QoS: after requests that succeed or are refused outright, every
      port of the switch is programmed as asked and no object is leaked or
      dangling ([qos_asic_exact]); a request that fails half way can leave the
      switch at odds with the record ([qos_failed_request_sticks]).
    - Routes: a push round converges entry by entry whatever is refused, and
      never leaves a route pointing at an unprogrammed neighbor.
    - Deviations found on the way are theorems too: a stale timer can undo a
      newer commit, a rejected commit disarms the pending window, two
      looped ports of one bridge both forward, a backup route overrides the
      primary, a repeated section escapes redaction, a learned binding hides
      the static one of its client, the readers of the authenticator's
      reports share one address, a Get beside the interface table is taken for
      a missing instance of it.

    ** Not modelled

    The checks that need the platform and the pushes to the other daemons
    are booleans chosen by the environment.  The [describe] methods, which
    render a change for the operator, and the system appliers are not
    modelled.  The processes that read
    the kernel (ip monitor, ip route) and the JSON reader are arguments of
    the route mirror.  The DHCP server's lease views, the switch daemon's other
    tables and the front-ends are left for later or out: sockets, files, system commands, terminal and
    HTTP rendering, and the vendor SDK have no semantics to state here. *)

From Stdlib Require Import NArith Lia.
From stdpp Require Import base tactics list gmap sets strings sorting numbers option.

Local Open Scope N_scope.

(** ** Fallible code

    Rust's [Result<A, E>]: the error type comes first so that [result E] is
    a monad in the sense of stdpp's [x ← m; k] notation (the [?] operator). *)

Inductive result (E A : Type) : Type :=
| Ok (a : A)
| Err (e : E).
Arguments Ok {E A} a.
Arguments Err {E A} e.

#[export] Instance result_ret {E} : MRet (result E) := λ A a, Ok a.
#[export] Instance result_bind {E} : MBind (result E) := λ A B f m,
  match m with Ok a => f a | Err e => Err e end.

#[export] Instance result_eq_dec {E A} `{EqDecision E, EqDecision A} :
  EqDecision (result E A).
Proof. solve_decision. Defined.

(** ** Machine integers and bytes

    Every unsigned Rust integer is an [N]; the width is a side condition
    ([fits w n]) and wrap-around is written out with [wrap].  [N.sub]
    truncates at zero, which is [saturating_sub] and
    [saturating_duration_since]. *)

Definition fits (w n : N) : Prop := n < 2 ^ w.
Definition wrap (w n : N) : N := n mod 2 ^ w.

#[export] Instance fits_dec w n : Decision (fits w n).
Proof. unfold fits. apply _. Defined.

Lemma wrap_fits w n : fits w (wrap w n).
Proof. apply N.mod_lt. apply N.pow_nonzero. lia. Qed.

Lemma wrap_id w n : fits w n → wrap w n = n.
Proof. apply N.mod_small. Qed.

(** [u16::to_be_bytes], [u32::to_be_bytes] and the inverse readings. *)
Definition be16 (n : N) : list N := [n / 256; n mod 256].
Definition of_be16 (hi lo : N) : N := hi * 256 + lo.
Definition be32 (n : N) : list N :=
  [n / 16777216; (n / 65536) mod 256; (n / 256) mod 256; n mod 256].
Definition of_be32 (a b c d : N) : N :=
  a * 16777216 + b * 65536 + c * 256 + d.

Lemma of_be16_be16 n : of_be16 (n / 256) (n mod 256) = n.
Proof. unfold of_be16. pose proof (N.div_mod n 256). lia. Qed.

Lemma of_be32_be32 n :
  of_be32 (n / 16777216) ((n / 65536) mod 256) ((n / 256) mod 256) (n mod 256) = n.
Proof.
  unfold of_be32.
  replace (n / 65536) with (n / 256 / 256) by (rewrite N.Div0.div_div; done).
  replace (n / 16777216) with (n / 256 / 256 / 256)
    by (rewrite !N.Div0.div_div; done).
  pose proof (N.div_mod n 256). pose proof (N.div_mod (n / 256) 256).
  pose proof (N.div_mod (n / 256 / 256) 256). lia.
Qed.

(** A byte string is a list of octets. *)
Definition is_byte (b : N) : Prop := fits 8 b.

Lemma is_byte_mod n : is_byte (n mod 256).
Proof. apply (wrap_fits 8). Qed.

Lemma is_byte_be16 n : fits 16 n → Forall is_byte (be16 n).
Proof.
  intros Hn. repeat constructor; [|apply is_byte_mod].
  apply N.Div0.div_lt_upper_bound. apply Hn.
Qed.

(** [&l[a..b]], for [a <= b <= l.len()]. *)
Definition slice {A} (a b : nat) (l : list A) : list A := take (b - a) (drop a l).

(** Indexing panics out of range: [l[i]] and [&l[a..b]] in code whose bounds
    checks are part of what is proved. *)
Inductive panic := IndexOutOfBounds | ClampMinAboveMax.

Definition index {A} (l : list A) (i : nat) : result panic A :=
  match l !! i with Some x => Ok x | None => Err IndexOutOfBounds end.

Definition range {A} (a b : nat) (l : list A) : result panic (list A) :=
  if decide (a ≤ b ∧ b ≤ length l)%nat then Ok (slice a b l) else Err IndexOutOfBounds.

(** [l.get(a..)]. *)
Definition get_from {A} (a : nat) (l : list A) : option (list A) :=
  if (a <=? length l)%nat then Some (drop a l) else None.

(** [l.get(a..b)]. *)
Definition get_range {A} (a b : nat) (l : list A) : option (list A) :=
  if ((a <=? b) && (b <=? length l))%nat then Some (slice a b l) else None.

(** [usize::clamp], which panics when its bounds are crossed. *)
Definition clamp (n lo hi : nat) : result panic nat :=
  if (hi <? lo)%nat then Err ClampMinAboveMax else Ok (Nat.max lo (Nat.min n hi)).

Definition no_panic {A} (r : result panic A) : Prop := ∃ a, r = Ok a.

Lemma index_ok {A} (l : list A) i : (i < length l)%nat → ∃ x, index l i = Ok x ∧ l !! i = Some x.
Proof. intros [x Hx]%lookup_lt_is_Some_2. exists x. unfold index. by rewrite Hx. Qed.

Lemma range_ok {A} (l : list A) a b :
  (a ≤ b)%nat → (b ≤ length l)%nat →
  range a b l = Ok (slice a b l) ∧ length (slice a b l) = (b - a)%nat.
Proof.
  intros H1 H2. unfold range, slice. rewrite decide_True by done. split; [done|].
  rewrite length_take, length_drop. lia.
Qed.

(** ** Time

    [Instant] and [Duration] are nanoseconds. *)

Definition from_secs (s : N) : N := s * 1000000000.
Definition from_millis (ms : N) : N := ms * 1000000.
Definition as_secs (d : N) : N := d / 1000000000.
Definition since (now at_ : N) : N := now - at_.

(** ** Ordered maps

    Rust's [BTreeMap<K, V>] is a [gmap K V] (so equality is extensional and
    stdpp's map lemmas apply) read in key order by [btree_iter]. *)

Class BTreeKey (K : Type) := {
  key_le : relation K;
  key_le_dec :: RelDecision key_le;
  key_le_po :: PartialOrder key_le;
  key_le_total :: Total key_le;
}.
Arguments key_le : simpl never.

#[export] Instance btree_key_string : BTreeKey string := {
  key_le := String.le;
}.

#[export] Instance btree_key_N : BTreeKey N := {
  key_le := N.le;
}.

(** Lexicographic order on pairs: the derived [Ord] of a tuple. *)
Section pair_key.
Context {K1 K2 : Type} `{EqDecision K1} `{BTreeKey K1} `{BTreeKey K2}.

Definition pair_le (p q : K1 * K2) : Prop :=
  (p.1 ≠ q.1 ∧ key_le p.1 q.1) ∨ (p.1 = q.1 ∧ key_le p.2 q.2).

#[export] Instance pair_le_dec : RelDecision pair_le.
Proof. intros p q. unfold pair_le. apply _. Defined.

#[export] Instance pair_le_po : PartialOrder pair_le.
Proof.
  split; [split|].
  - intros [a b]. right. done.
  - intros [a1 b1] [a2 b2] [a3 b3]; unfold pair_le; simpl.
    intros [[Hn1 H1]|[-> H1]] [[Hn2 H2]|[-> H2]].
    + left. split; [|by etrans].
      intros ->. apply Hn1. by apply (anti_symm key_le).
    + by left.
    + by left.
    + right. split; [done|by etrans].
  - intros [a1 b1] [a2 b2]; unfold pair_le; simpl.
    intros [[Hn1 H1]|[-> H1]] [[Hn2 H2]|[E H2]]; simplify_eq; try done.
    + destruct Hn1. by apply (anti_symm key_le).
    + f_equal. by apply (anti_symm key_le).
Qed.

#[export] Instance pair_le_total : Total pair_le.
Proof.
  intros [a1 b1] [a2 b2]; unfold pair_le; simpl.
  destruct (decide (a1 = a2)) as [->|Hne].
  - destruct (total key_le b1 b2); eauto.
  - destruct (total key_le a1 a2); eauto.
Qed.

#[export] Instance btree_key_pair : BTreeKey (K1 * K2) := {
  key_le := pair_le;
}.
End pair_key.

(** Lexicographic order on byte strings: the derived [Ord] of [[u8; n]]. *)
Fixpoint bytes_le (a b : list N) : bool :=
  match a, b with
  | [], _ => true
  | _ :: _, [] => false
  | x :: a', y :: b' => (x <? y) || ((x =? y) && bytes_le a' b')
  end.

Lemma bytes_le_cons x y a b : bytes_le (x :: a) (y :: b) ↔ x < y ∨ x = y ∧ bytes_le a b.
Proof.
  simpl. rewrite !Is_true_true, orb_true_iff, andb_true_iff, N.ltb_lt, N.eqb_eq. done.
Qed.

#[export] Instance btree_key_bytes : BTreeKey (list N).
Proof.
  refine {| key_le := λ a b, bytes_le a b |}.
  - intros a b. apply _.
  - split; [split|].
    + intros a. induction a as [|x a IH]; [done|]. apply bytes_le_cons. auto.
    + intros a. induction a as [|x a IH]; intros [|y b] [|z c]; try done.
      rewrite !bytes_le_cons. intros [?|[-> H1]] [?|[-> H2]]; [left; lia|by left|by left|].
      right. split; [done|]. by eapply IH.
    + intros a. induction a as [|x a IH]; intros [|y b]; try done.
      rewrite !bytes_le_cons. intros [?|[-> H1]] [?|[? H2]]; try lia. f_equal. by apply IH.
  - intros a. induction a as [|x a IH]; intros [|y b]; try by (left + right).
    rewrite !bytes_le_cons. destruct (N.lt_trichotomy x y) as [?|[->|?]]; [auto| |auto].
    destruct (IH b); auto.
Defined.

(** [a < b]. *)
Definition key_lt {K} `{BTreeKey K} (a b : K) : Prop := ¬ key_le b a.

#[export] Instance key_lt_dec {K} `{BTreeKey K} : RelDecision (@key_lt K _).
Proof. intros a b. unfold key_lt. apply _. Defined.

Section btree.
Context {K : Type} `{Countable K} `{!BTreeKey K}.

Definition entry_le {V} (e1 e2 : K * V) : Prop := key_le e1.1 e2.1.

#[export] Instance entry_le_dec {V} : RelDecision (@entry_le V).
Proof. intros e1 e2. unfold entry_le. apply _. Defined.
#[export] Instance entry_le_trans {V} : Transitive (@entry_le V).
Proof. intros ???. unfold entry_le. apply transitivity. Qed.
#[export] Instance entry_le_total {V} : Total (@entry_le V).
Proof. intros e1 e2. apply (total key_le). Qed.

(** [map.iter()]: the entries in ascending key order. *)
Definition btree_iter {V} (m : gmap K V) : list (K * V) :=
  merge_sort entry_le (map_to_list m).

(** [map.keys()] and [map.values()]. *)
Definition btree_keys {V} (m : gmap K V) : list K := (btree_iter m).*1.
Definition btree_values {V} (m : gmap K V) : list V := (btree_iter m).*2.

(** [map.retain(|k, v| p(k, v))]. *)
Definition btree_retain {V} (p : K → V → bool) (m : gmap K V) : gmap K V :=
  filter (λ kv, p kv.1 kv.2 = true) m.

(** [for (k, v) in map.iter_mut()] whose body rewrites [v] and sends a
    list of messages; the messages come out in key order. *)
Definition btree_each {V O} (f : K → V → V * list O) (m : gmap K V) :
    gmap K V * list O :=
  (map_imap (λ k v, Some (f k v).1) m,
   mjoin ((λ kv, (f kv.1 kv.2).2) <$> btree_iter m)).

Lemma btree_iter_permutation {V} (m : gmap K V) :
  btree_iter m ≡ₚ map_to_list m.
Proof. apply merge_sort_Permutation. Qed.

Lemma elem_of_btree_iter {V} (m : gmap K V) k v :
  (k, v) ∈ btree_iter m ↔ m !! k = Some v.
Proof. by rewrite btree_iter_permutation, elem_of_map_to_list. Qed.

Lemma NoDup_btree_keys {V} (m : gmap K V) : NoDup (btree_keys m).
Proof.
  unfold btree_keys. rewrite btree_iter_permutation. apply NoDup_fst_map_to_list.
Qed.

Lemma elem_of_btree_keys {V} (m : gmap K V) k :
  k ∈ btree_keys m ↔ is_Some (m !! k).
Proof.
  unfold btree_keys. rewrite list_elem_of_fmap. split.
  - intros ([k' v] & -> & Hin). apply elem_of_btree_iter in Hin. eauto.
  - intros [v Hv]. exists (k, v). by rewrite elem_of_btree_iter.
Qed.

Lemma btree_iter_sorted {V} (m : gmap K V) : StronglySorted entry_le (btree_iter m).
Proof. apply StronglySorted_merge_sort; apply _. Qed.

(** The key-ordered reading is canonical. *)
Lemma btree_iter_unique {V} (m : gmap K V) (l : list (K * V)) :
  l ≡ₚ map_to_list m → StronglySorted entry_le l → btree_iter m = l.
Proof.
  intros Hp Hs.
  apply (StronglySorted_unique_strong entry_le); [|apply btree_iter_sorted|done|].
  - intros [k1 v1] [k2 v2] Hin1 Hin2 H1 H2.
    apply elem_of_btree_iter in Hin1.
    rewrite Hp, elem_of_map_to_list in Hin2.
    assert (k1 = k2) as -> by (by apply (anti_symm key_le)). congruence.
  - by rewrite btree_iter_permutation, Hp.
Qed.

Lemma btree_iter_empty {V} : btree_iter (∅ : gmap K V) = [].
Proof. apply btree_iter_unique; [by rewrite map_to_list_empty|constructor]. Qed.

Lemma btree_iter_imap {V W} (f : K → V → W) (m : gmap K V) :
  btree_iter (map_imap (λ k v, Some (f k v)) m)
  = (λ kv, (kv.1, f kv.1 kv.2)) <$> btree_iter m.
Proof.
  apply btree_iter_unique.
  - apply NoDup_Permutation.
    + apply (NoDup_fmap_1 fst). rewrite <-list_fmap_compose. apply NoDup_btree_keys.
    + apply NoDup_map_to_list.
    + intros [k w]. rewrite elem_of_map_to_list, map_lookup_imap, list_elem_of_fmap.
      split.
      * intros ([k' v] & ? & Hin). simplify_eq/=.
        apply elem_of_btree_iter in Hin. by rewrite Hin.
      * rewrite bind_Some. intros (v & Hv & ?). simplify_eq/=.
        exists (k, v). by rewrite elem_of_btree_iter.
  - apply (StronglySorted_fmap _ entry_le entry_le); [by intros|].
    apply btree_iter_sorted.
Qed.

Lemma btree_each_lookup {V O} (f : K → V → V * list O) m k :
  (btree_each f m).1 !! k = (λ v, (f k v).1) <$> m !! k.
Proof. unfold btree_each; simpl. rewrite map_lookup_imap. by destruct (m !! k). Qed.

Lemma elem_of_btree_each {V O} (f : K → V → V * list O) m o :
  o ∈ (btree_each f m).2 ↔ ∃ k v, m !! k = Some v ∧ o ∈ (f k v).2.
Proof.
  unfold btree_each; simpl. rewrite list_elem_of_join. split.
  - intros (l & Ho & Hl). apply list_elem_of_fmap in Hl as ([k v] & -> & Hin).
    apply elem_of_btree_iter in Hin. eauto.
  - intros (k & v & Hk & Ho). exists (f k v).2. split; [done|].
    apply list_elem_of_fmap. exists (k, v). by rewrite elem_of_btree_iter.
Qed.

Lemma btree_retain_lookup {V} (p : K → V → bool) (m : gmap K V) k :
  btree_retain p m !! k =
  match m !! k with Some v => if p k v then Some v else None | None => None end.
Proof.
  unfold btree_retain. rewrite map_lookup_filter.
  destruct (m !! k) as [v|]; simpl; [|done].
  destruct (p k v) eqn:E.
  - rewrite option_guard_True; done.
  - rewrite option_guard_False; [done|]. simpl. congruence.
Qed.

(** Reading a retained map is filtering its reading. *)
Lemma btree_iter_retain {V} (p : K → V → bool) (m : gmap K V) :
  btree_iter (btree_retain p m) = filter (λ kv, p kv.1 kv.2 = true) (btree_iter m).
Proof.
  apply btree_iter_unique.
  - apply NoDup_Permutation.
    + eapply sublist_NoDup; [|apply sublist_filter]. apply (NoDup_fmap_1 fst), NoDup_btree_keys.
    + apply NoDup_map_to_list.
    + intros [k v]. rewrite list_elem_of_filter, elem_of_btree_iter, elem_of_map_to_list,
        btree_retain_lookup. simpl. destruct (m !! k) as [w|].
      * destruct (p k w) eqn:E; split; [intros [_ [= ->]]|intros [= ->]|intros [? [= ->]]|]; congruence || done.
      * split; [by intros [_ ?]|done].
  - pose proof (btree_iter_sorted m) as Hs. induction Hs as [|x l Hs IH Hx]; [constructor|].
    rewrite filter_cons. case_decide; [|done]. constructor; [done|].
    rewrite Forall_forall in *. intros y Hy. apply Hx. revert Hy.
    rewrite <-!list_elem_of_In, list_elem_of_filter. tauto.
Qed.

(** Counting entries is counting keys. *)
Lemma btree_count_eq {V W} (m1 : gmap K V) (m2 : gmap K W)
    (P : K * V → Prop) (Q : K * W → Prop) `{∀ x, Decision (P x)} `{∀ x, Decision (Q x)} :
  (∀ k, (∃ v, m1 !! k = Some v ∧ P (k, v)) ↔ (∃ w, m2 !! k = Some w ∧ Q (k, w))) →
  length (filter P (btree_iter m1)) = length (filter Q (btree_iter m2)).
Proof.
  intros Hiff.
  rewrite <-(length_fmap fst (filter P _)), <-(length_fmap fst (filter Q _)).
  apply Permutation_length, NoDup_Permutation.
  - eapply sublist_NoDup; [apply (NoDup_btree_keys m1)|]. apply fmap_sublist, sublist_filter.
  - eapply sublist_NoDup; [apply (NoDup_btree_keys m2)|]. apply fmap_sublist, sublist_filter.
  - intros k. specialize (Hiff k). rewrite !list_elem_of_fmap. split.
    + intros ([k' v] & -> & [HP Hin%elem_of_btree_iter]%list_elem_of_filter).
      destruct (proj1 Hiff) as (w & Hw & HQ); [by eexists|].
      exists (k', w). by rewrite list_elem_of_filter, elem_of_btree_iter.
    + intros ([k' v] & -> & [HP Hin%elem_of_btree_iter]%list_elem_of_filter).
      destruct (proj2 Hiff) as (w & Hw & HQ); [by eexists|].
      exists (k', w). by rewrite list_elem_of_filter, elem_of_btree_iter.
Qed.
End btree.

Lemma key_le_trans {K} `{BTreeKey K} (a b c : K) : key_le a b → key_le b c → key_le a c.
Proof. apply transitivity. Qed.

Lemma key_le_antisym {K} `{BTreeKey K} (a b : K) : key_le a b → key_le b a → a = b.
Proof. apply (anti_symm key_le). Qed.

Lemma key_lt_le {K} `{BTreeKey K} (a b : K) : key_lt a b → key_le a b.
Proof. intros Hn. by destruct (total key_le a b). Qed.

(** [iter.min_by_key(f)]: the first element of least key. *)
Section min_by_key.
Context {A K : Type} `{!BTreeKey K} (f : A → K).

Fixpoint min_by_key (l : list A) : option A :=
  match l with
  | [] => None
  | x :: l =>
      match min_by_key l with
      | None => Some x
      | Some y => if decide (key_le (f x) (f y)) then Some x else Some y
      end
  end.

Lemma min_by_key_None l : min_by_key l = None ↔ l = [].
Proof. destruct l; simpl; [done|]. repeat case_match; naive_solver. Qed.

Lemma min_by_key_Some l x :
  min_by_key l = Some x → x ∈ l ∧ ∀ y, y ∈ l → key_le (f x) (f y).
Proof.
  revert x. induction l as [|z l IH]; intros x; simpl; [done|].
  destruct (min_by_key l) as [w|] eqn:E.
  - destruct (IH w eq_refl) as [Hw Hmin]. case_decide as Hle; intros [= <-].
    + split; [left|]. intros y [->|Hy]%elem_of_cons; [done|]. etrans; [done|by apply Hmin].
    + split; [by right|]. intros y [->|Hy]%elem_of_cons; [|by apply Hmin].
      by destruct (total key_le (f z) (f w)).
  - apply min_by_key_None in E as ->. intros [= ->]. split; [left|].
    intros y [->|Hy%elem_of_nil]%elem_of_cons; done.
Qed.
End min_by_key.

(** [v.sort_by_key(f)]: insertion keeps equal keys in their order. *)
Section sort_by_key.
Context {A K : Type} `{!BTreeKey K} (f : A → K).

Fixpoint insert_by_key (x : A) (l : list A) : list A :=
  match l with
  | [] => [x]
  | y :: l' => if decide (key_le (f x) (f y)) then x :: l else y :: insert_by_key x l'
  end.

Definition sort_by_key (l : list A) : list A := foldr insert_by_key [] l.

Lemma insert_by_key_perm x l : insert_by_key x l ≡ₚ x :: l.
Proof.
  induction l as [|y l IH]; simpl; [done|]. case_decide; [done|]. rewrite IH. by constructor.
Qed.

Lemma sort_by_key_perm l : sort_by_key l ≡ₚ l.
Proof. induction l as [|x l IH]; simpl; [done|]. by rewrite insert_by_key_perm, IH. Qed.

Lemma sort_by_key_sorted l : StronglySorted (λ x y, key_le (f x) (f y)) (sort_by_key l).
Proof.
  induction l as [|x l IH]; simpl; [constructor|]. induction IH as [|y m Hm IHm Hy]; simpl; [repeat constructor|].
  case_decide as Hxy.
  - constructor; [by constructor|]. constructor; [done|].
    eapply Forall_impl; [|exact Hy]. intros z Hz. by etrans.
  - constructor; [exact IHm|]. rewrite insert_by_key_perm. constructor; [|done].
    by destruct (total key_le (f x) (f y)).
Qed.
End sort_by_key.

(** A loop over entries of distinct keys, seen from one key: only its own
    entry matters. *)
Lemma foldl_one_key {A B K} (key : A → K) (f : B → A → B) (k : K) (l : list A) (b : B) :
  (∀ b a, a ∈ l → key a ≠ k → f b a = b) → NoDup (key <$> l) →
  (k ∉ key <$> l → foldl f b l = b) ∧ (∀ a, a ∈ l → key a = k → foldl f b l = f b a).
Proof.
  revert b. induction l as [|x l IH]; intros b Hf Hnd; simpl.
  { split; [done|]. by intros a ?%elem_of_nil. }
  inversion_clear Hnd as [|? ? Hx Hnd'].
  assert (∀ b a, a ∈ l → key a ≠ k → f b a = b) as Hf' by (intros; apply Hf; [by right|done]).
  split.
  - intros [Hne Hni]%not_elem_of_cons. rewrite (Hf b x) by (done || left). by apply IH.
  - intros a [->|Ha]%elem_of_cons Hk.
    + apply IH; [done..|]. by rewrite <-Hk.
    + rewrite (Hf b x); [by apply IH|left|]. intros Hxk. apply Hx.
      apply list_elem_of_fmap. exists a. split; [congruence|done].
Qed.

Lemma foldl_omap {A B C} (f : C → B → C) (g : A → option B) (l : list A) (c : C) :
  foldl f c (omap g l) = foldl (λ c a, match g a with Some b => f c b | None => c end) c l.
Proof.
  revert c. induction l as [|x l IH]; intros c; simpl; [done|]. by destruct (g x); simpl.
Qed.

(** ** Ordered sets and collected maps *)

(** [set.iter()] of a [BTreeSet]. *)
Definition bset_iter {K} `{Countable K} `{!BTreeKey K} (s : gset K) : list K :=
  merge_sort key_le (elements s).

Lemma elem_of_bset_iter {K} `{Countable K} `{!BTreeKey K} (s : gset K) k : k ∈ bset_iter s ↔ k ∈ s.
Proof. unfold bset_iter. by rewrite merge_sort_Permutation, elem_of_elements. Qed.

Lemma NoDup_bset_iter {K} `{Countable K} `{!BTreeKey K} (s : gset K) : NoDup (bset_iter s).
Proof. unfold bset_iter. rewrite merge_sort_Permutation. apply NoDup_elements. Qed.

(** [iter.collect::<BTreeMap<_, _>>()]: a later entry replaces an earlier
    one of the same key. *)
Definition collect_map {K V} `{Countable K} (l : list (K * V)) : gmap K V :=
  foldl (λ m kv, <[kv.1 := kv.2]> m) ∅ l.

Lemma collect_map_lookup {K V} `{Countable K} (l : list (K * V)) k v :
  (∀ v1 v2, (k, v1) ∈ l → (k, v2) ∈ l → v1 = v2) → collect_map l !! k = Some v ↔ (k, v) ∈ l.
Proof.
  unfold collect_map. induction l as [|[k' v'] l IH] using rev_ind; intros Hf.
  { cbn. rewrite lookup_empty, elem_of_nil. done. }
  rewrite foldl_app, elem_of_app, list_elem_of_singleton. cbn [foldl fst snd].
  destruct (decide (k = k')) as [->|Hne].
  - rewrite lookup_insert_eq. split; [intros [= ->]; by right|].
    intros [Hin|[= ->]]; [|done]. f_equal. apply Hf; set_solver.
  - rewrite lookup_insert_ne by done. rewrite IH; [naive_solver|].
    intros v1 v2 H1 H2. apply Hf; set_solver.
Qed.

(** ** Hints and tactics *)

Create HintDb hemlock.
Create Rewrite HintDb hemlock.
#[export] Hint Resolve wrap_fits is_byte_mod is_byte_be16 : hemlock.
#[export] Hint Rewrite @btree_each_lookup @btree_retain_lookup : hemlock.

(** Split every [match]/[if] of the goal or a hypothesis, closing the
    contradictory branches. *)
Ltac case_all :=
  repeat (case_match; simplify_eq/=; try done).

(** Resolve every indexing of the goal, its bound by arithmetic. *)
Ltac in_bounds :=
  repeat match goal with
  | |- context [index ?l ?i] =>
      let x := fresh "x" in let E := fresh "E" in let L := fresh "L" in
      destruct (index_ok l i) as (x & E & L); [try lia|rewrite E; simpl]
  | |- context [range ?a ?b ?l] =>
      let E := fresh "E" in let L := fresh "L" in
      destruct (range_ok l a b) as [E L]; [try lia..|rewrite E; simpl]
  end.

(** Split every [decide] of the goal, substituting the equalities. *)
Ltac decide_all :=
  simpl; try done; repeat (case_decide; simplify_eq; simpl; try done).
