(* ===== verification/Text.v ===== *)
(** * Text: what the sources use of [char] and [str]

    Characters are [ascii] (code points below 256), strings are [string].
    Decimal parsing and printing follow [str::parse::<uN>] and [{}] on
    unsigned integers. *)

From Stdlib Require Import Ascii NArith Lia.
From stdpp Require Import base tactics list strings option numbers.
From S2P Require Import Prelude.

Local Open Scope N_scope.

(** ** Characters *)

Definition ascii_between (lo hi c : ascii) : bool :=
  (N_of_ascii lo <=? N_of_ascii c) && (N_of_ascii c <=? N_of_ascii hi).

(** [char::is_ascii_digit], [char::is_ascii_alphanumeric] and
    [char::is_ascii_hexdigit]. *)
Definition is_ascii_digit (c : ascii) : bool := ascii_between "0"%char "9"%char c.
Definition is_ascii_alphanumeric (c : ascii) : bool :=
  ascii_between "a"%char "z"%char c || ascii_between "A"%char "Z"%char c || is_ascii_digit c.
Definition is_ascii_hexdigit (c : ascii) : bool :=
  is_ascii_digit c || ascii_between "a"%char "f"%char c || ascii_between "A"%char "F"%char c.

(** [char::is_whitespace] below code point 256. *)
Definition is_whitespace (c : ascii) : bool :=
  let n := N_of_ascii c in
  ((9 <=? n) && (n <=? 13)) || (n =? 32) || (n =? 133) || (n =? 160).

(** [to_ascii_lowercase]. *)
Definition lower_char (c : ascii) : ascii :=
  if ascii_between "A"%char "Z"%char c then ascii_of_N (N_of_ascii c + 32) else c.

(** ** Strings *)

(** [str.chars().all(p)]. *)
Fixpoint string_all (p : ascii → bool) (s : string) : bool :=
  match s with
  | EmptyString => true
  | String c s' => p c && string_all p s'
  end.

Fixpoint string_map (f : ascii → ascii) (s : string) : string :=
  match s with
  | EmptyString => EmptyString
  | String c s' => String (f c) (string_map f s')
  end.

Definition to_ascii_lowercase : string → string := string_map lower_char.

(** [chars().filter(p).collect()]. *)
Fixpoint string_filter (p : ascii → bool) (s : string) : string :=
  match s with
  | EmptyString => EmptyString
  | String c s' => if p c then String c (string_filter p s') else string_filter p s'
  end.

(** [chars().skip_while(p)] and [chars().take_while(p)]. *)
Fixpoint skip_while (p : ascii → bool) (s : string) : string :=
  match s with
  | EmptyString => EmptyString
  | String c s' => if p c then skip_while p s' else s
  end.

Fixpoint take_while (p : ascii → bool) (s : string) : string :=
  match s with
  | EmptyString => EmptyString
  | String c s' => if p c then String c (take_while p s') else EmptyString
  end.

(** [str.split_once(c)]. *)
Fixpoint split_once (c : ascii) (s : string) : option (string * string) :=
  match s with
  | EmptyString => None
  | String d s' =>
      if decide (d = c) then Some (EmptyString, s')
      else match split_once c s' with
           | Some (a, b) => Some (String d a, b)
           | None => None
           end
  end.

(** [str.split(c)]: always at least one part. *)
Fixpoint split (c : ascii) (s : string) : list string :=
  match s with
  | EmptyString => [EmptyString]
  | String d s' =>
      if decide (d = c) then EmptyString :: split c s'
      else match split c s' with
           | p :: ps => String d p :: ps
           | [] => [String d EmptyString]
           end
  end.

(** [parts.join(sep)]. *)
Fixpoint join (sep : string) (parts : list string) : string :=
  match parts with
  | [] => EmptyString
  | [p] => p
  | p :: ps => p +:+ sep +:+ join sep ps
  end.

(** [str.trim_end()] and [str.trim()]. *)
Fixpoint trim_end (s : string) : string :=
  match s with
  | EmptyString => EmptyString
  | String c s' =>
      match trim_end s' with
      | EmptyString => if is_whitespace c then EmptyString else String c EmptyString
      | t => String c t
      end
  end.

Definition trim (s : string) : string := trim_end (skip_while is_whitespace s).

(** [str.strip_suffix([c, d])]. *)
Fixpoint strip_suffix (p : ascii → bool) (s : string) : option string :=
  match s with
  | EmptyString => None
  | String c EmptyString => if p c then Some EmptyString else None
  | String c s' => match strip_suffix p s' with Some t => Some (String c t) | None => None end
  end.

(** ** Decimal numbers *)

Definition digit_char (d : N) : ascii := ascii_of_N (48 + d).
Definition digit_value (c : ascii) : N := N_of_ascii c - 48.

Fixpoint parse_digits (s : string) (acc : N) : option N :=
  match s with
  | EmptyString => Some acc
  | String c s' => if is_ascii_digit c then parse_digits s' (acc * 10 + digit_value c) else None
  end.

(** [s.parse::<uW>()]: an optional plus sign, at least one digit, in range. *)
Definition parse_uint (w : N) (s : string) : option N :=
  let digits := match s with String "+" t => t | _ => s end in
  match digits with
  | EmptyString => None
  | _ => match parse_digits digits 0 with
         | Some n => if n <? 2 ^ w then Some n else None
         | None => None
         end
  end.

Fixpoint dec_go (fuel : nat) (n : N) (acc : string) : string :=
  match fuel with
  | O => acc
  | S f =>
      let acc := String (digit_char (n mod 10)) acc in
      if n <? 10 then acc else dec_go f (n / 10) acc
  end.

(** [n.to_string()]. *)
Definition to_dec (n : N) : string := dec_go (S (N.to_nat (N.log2 n))) n EmptyString.

(** ** Hexadecimal octets *)

Definition hex_char (n : N) : ascii := ascii_of_N (if n <? 10 then 48 + n else 87 + n).

(** [format!("{b:02x}")]. *)
Definition hex2 (b : N) : string := String (hex_char (b / 16)) (String (hex_char (b mod 16)) "").

(** [str.rsplit_once(c)]. *)
Fixpoint rsplit_once (c : ascii) (s : string) : option (string * string) :=
  match s with
  | EmptyString => None
  | String d s' =>
      match rsplit_once c s' with
      | Some (a, b) => Some (String d a, b)
      | None => if decide (d = c) then Some (EmptyString, s') else None
      end
  end.

(** [strip_prefix], [contains] and [split] on a non-empty pattern text:
    [split_str_second] is [split(p).nth(1)]. *)
Fixpoint strip_prefix_str (p s : string) : option string :=
  match p, s with
  | "", _ => Some s
  | String a p', String b s' => if decide (a = b) then strip_prefix_str p' s' else None
  | String _ _, "" => None
  end.

Fixpoint split_once_str (p s : string) : option (string * string) :=
  match strip_prefix_str p s with
  | Some rest => Some ("", rest)
  | None =>
      match s with
      | "" => None
      | String c s' => match split_once_str p s' with
                       | Some (a, rest) => Some (String c a, rest)
                       | None => None
                       end
      end
  end.

Definition contains_str (p s : string) : bool := bool_decide (is_Some (split_once_str p s)).

Definition split_str_second (p s : string) : option string :=
  match split_once_str p s with
  | None => None
  | Some (_, rest) => Some (match split_once_str p rest with Some (mid, _) => mid | None => rest end)
  end.

(** ** Lemmas *)

Lemma digit_char_value d : d < 10 → is_ascii_digit (digit_char d) = true ∧ digit_value (digit_char d) = d.
Proof.
  intros Hd. unfold is_ascii_digit, ascii_between, digit_value, digit_char.
  rewrite N_ascii_embedding by lia. change (N_of_ascii "0") with 48. change (N_of_ascii "9") with 57.
  split; [|lia]. apply andb_true_iff. split; apply N.leb_le; lia.
Qed.

Lemma digit_char_is_digit n : is_ascii_digit (digit_char (n mod 10)) = true.
Proof. apply digit_char_value. apply N.mod_lt. lia. Qed.

Lemma digit_char_val n : digit_value (digit_char (n mod 10)) = n mod 10.
Proof. apply digit_char_value. apply N.mod_lt. lia. Qed.

Lemma dec_go_parse fuel n acc :
  n < 2 ^ N.of_nat fuel → fuel ≠ O → parse_digits (dec_go fuel n acc) 0 = parse_digits acc n.
Proof.
  revert n acc. induction fuel as [|f IH]; intros n acc Hn Hf; [done|].
  cbn [dec_go]. destruct (N.ltb_spec n 10) as [Hlt|Hge].
  - cbn [parse_digits]. rewrite digit_char_is_digit, digit_char_val, N.mod_small by lia. done.
  - rewrite Nat2N.inj_succ, N.pow_succ_r' in Hn.
    rewrite IH.
    + cbn [parse_digits]. rewrite digit_char_is_digit, digit_char_val. f_equal.
      pose proof (N.div_mod n 10). lia.
    + apply N.Div0.div_lt_upper_bound. lia.
    + intros ->. simpl in Hn. lia.
Qed.

Lemma parse_digits_to_dec n : parse_digits (to_dec n) 0 = Some n.
Proof.
  unfold to_dec. rewrite dec_go_parse; [done| |done].
  rewrite Nat2N.inj_succ, N2Nat.id. destruct (N.eq_dec n 0) as [->|]; [done|].
  apply N.log2_spec. lia.
Qed.

Lemma dec_go_digits fuel n acc :
  string_all is_ascii_digit acc = true → string_all is_ascii_digit (dec_go fuel n acc) = true.
Proof.
  revert n acc. induction fuel as [|f IH]; intros n acc Ha; [done|].
  cbn [dec_go]. case_match; [|apply IH]; cbn [string_all]; by rewrite digit_char_is_digit.
Qed.

Lemma to_dec_digits n : string_all is_ascii_digit (to_dec n) = true.
Proof. by apply dec_go_digits. Qed.

Lemma dec_go_cons fuel n acc : acc ≠ "" → dec_go fuel n acc ≠ "".
Proof.
  revert n acc. induction fuel as [|f IH]; intros n acc Ha; [done|].
  cbn [dec_go]. case_match; [done|by apply IH].
Qed.

Lemma to_dec_cons n : ∃ c s, to_dec n = String c s ∧ is_ascii_digit c = true.
Proof.
  pose proof (to_dec_digits n) as Hd.
  destruct (to_dec n) as [|c s] eqn:E.
  - exfalso. revert E. unfold to_dec. cbn [dec_go]. case_match; [done|by apply dec_go_cons].
  - exists c, s. split; [done|]. cbn in Hd. by apply andb_true_iff in Hd as [? _].
Qed.

Lemma parse_uint_digits w s :
  s ≠ "" → string_all is_ascii_digit s = true →
  parse_uint w s = match parse_digits s 0 with
                   | Some n => if n <? 2 ^ w then Some n else None
                   | None => None
                   end.
Proof.
  intros Hs Hd. unfold parse_uint. destruct s as [|c s]; [done|].
  cbn in Hd. apply andb_true_iff in Hd as [Hc _].
  assert (c ≠ "+"%char) by (by intros ->).
  destruct c as [[] [] [] [] [] [] [] []]; try done.
Qed.

(** Printing then parsing is the identity within the width. *)
Lemma parse_uint_to_dec w n : fits w n → parse_uint w (to_dec n) = Some n.
Proof.
  intros Hn. destruct (to_dec_cons n) as (c & s & E & _).
  rewrite parse_uint_digits, parse_digits_to_dec; [|by rewrite E|apply to_dec_digits].
  by rewrite (proj2 (N.ltb_lt _ _) Hn).
Qed.

Lemma parse_uint_fits w s n : parse_uint w s = Some n → fits w n.
Proof.
  unfold parse_uint. generalize (match s with String "+" t => t | _ => s end).
  intros d. destruct d; [done|]. destruct (parse_digits _ _); [|done].
  destruct (N.ltb_spec n0 (2 ^ w)); [|done]. by intros [= <-].
Qed.

(** A run of characters satisfying [p] followed by one that does not. *)
Lemma take_while_app p a b :
  string_all p a = true → (match b with String c _ => p c = false | _ => True end) →
  take_while p (a +:+ b) = a ∧ skip_while p (a +:+ b) = b.
Proof.
  intros Ha Hb. induction a as [|c a IH]; simpl in *.
  - destruct b; [done|]. simpl. by rewrite Hb.
  - apply andb_true_iff in Ha as [Hc Ha]. rewrite Hc.
    destruct (IH Ha) as [H1 H2]. split; [by f_equal|done].
Qed.

Lemma split_once_app c a b :
  string_all (λ d, negb (bool_decide (d = c))) a = true →
  split_once c (a +:+ String c b) = Some (a, b).
Proof.
  induction a as [|d a IH]; simpl; [by rewrite decide_True|].
  intros [Hd Ha]%andb_true_iff. apply negb_true_iff, bool_decide_eq_false in Hd.
  rewrite decide_False by done. by rewrite (IH Ha).
Qed.

Lemma split_once_none c s :
  string_all (λ d, negb (bool_decide (d = c))) s = true → split_once c s = None.
Proof.
  induction s as [|d s IH]; cbn; [done|].
  intros [Hd Hs]%andb_true_iff. apply negb_true_iff, bool_decide_eq_false in Hd.
  rewrite decide_False by done. by rewrite (IH Hs).
Qed.

Lemma string_all_impl (p q : ascii → bool) s :
  (∀ c, p c = true → q c = true) → string_all p s = true → string_all q s = true.
Proof.
  intros Hpq. induction s as [|c s IH]; cbn; [done|].
  intros [Hc Hs]%andb_true_iff. by rewrite (Hpq _ Hc), IH.
Qed.

Lemma string_all_app p a b : string_all p (a +:+ b) = string_all p a && string_all p b.
Proof.
  induction a as [|c a IH]; simpl; [done|]. by rewrite IH, andb_assoc.
Qed.

(** No digit is a given non-digit. *)
Lemma digits_avoid c s :
  is_ascii_digit c = false → string_all is_ascii_digit s = true →
  string_all (λ d, negb (bool_decide (d = c))) s = true.
Proof.
  intros Hc. apply string_all_impl. intros d Hd.
  apply negb_true_iff, bool_decide_eq_false. intros ->. congruence.
Qed.

Lemma rsplit_once_none c s :
  string_all (λ d, negb (bool_decide (d = c))) s = true → rsplit_once c s = None.
Proof.
  induction s as [|d s IH]; cbn; [done|].
  intros [Hd Hs]%andb_true_iff. apply negb_true_iff, bool_decide_eq_false in Hd.
  rewrite (IH Hs). by destruct (decide (d = c)).
Qed.

Lemma rsplit_once_app c a b :
  string_all (λ d, negb (bool_decide (d = c))) b = true →
  rsplit_once c (a +:+ String c b) = Some (a, b).
Proof.
  intros Hb. induction a as [|d a IH].
  - change (rsplit_once c ("" +:+ String c b)) with
      (match rsplit_once c b with
       | Some (a, b) => Some (String c a, b)
       | None => if decide (c = c) then Some ("", b) else None
       end). by rewrite (rsplit_once_none _ _ Hb), decide_True.
  - change (rsplit_once c (String d a +:+ String c b)) with
      (match rsplit_once c (a +:+ String c b) with
       | Some (a, b) => Some (String d a, b)
       | None => if decide (d = c) then Some ("", a +:+ String c b) else None
       end). by rewrite IH.
Qed.

Lemma hex_char_inj a b : a < 16 → b < 16 → hex_char a = hex_char b → a = b.
Proof.
  intros Ha Hb H. unfold hex_char in H. apply (f_equal N_of_ascii) in H.
  revert H. destruct (N.ltb_spec a 10), (N.ltb_spec b 10); rewrite !N_ascii_embedding by lia; lia.
Qed.

Lemma hex2_inj a b : a < 256 → b < 256 → hex2 a = hex2 b → a = b.
Proof.
  intros Ha Hb [= H1 H2].
  apply hex_char_inj in H1; [|apply N.Div0.div_lt_upper_bound; lia..].
  apply hex_char_inj in H2; [|apply N.mod_lt; lia..].
  rewrite (N.Div0.div_mod a 16), (N.Div0.div_mod b 16). congruence.
Qed.

(** Octets printed with two digits and joined are read off unambiguously. *)
Lemma join_hex2_inj sep (a b : list N) :
  length a = length b → Forall is_byte a → Forall is_byte b →
  join sep (hex2 <$> a) = join sep (hex2 <$> b) → a = b.
Proof.
  revert b. induction a as [|x a IH]; intros [|y b] Hl Ha Hb; try done.
  inversion_clear Ha as [|? ? Hx Ha']. inversion_clear Hb as [|? ? Hy Hb'].
  destruct a as [|x' a], b as [|y' b]; try done.
  - intros H. cbn in H. f_equal. apply hex2_inj; [exact Hx|exact Hy|exact H].
  - intros H.
    change (hex2 x +:+ sep +:+ join sep (hex2 <$> x' :: a) = hex2 y +:+ sep +:+ join sep (hex2 <$> y' :: b)) in H.
    unfold hex2 in H at 1 3. cbn in H. injection H as H1 H2 H3.
    assert (x = y) as -> by (apply hex2_inj; [exact Hx|exact Hy|]; unfold hex2; congruence).
    f_equal. apply IH; [cbn in *; lia|done..|]. by apply (inj (String.app sep)) in H3.
Qed.

#[export] Hint Resolve to_dec_digits parse_uint_to_dec : hemlock.
