(* ===== verification/ConfigLexer.v ===== *)
(** * The tokenizer of the configuration language (hemlock-config/src/lexer.rs)

    A Rust [char] is an [ascii] (a code point below 256): every test the
    lexer makes is against an ASCII constant, so code points above the ASCII
    range all behave like the upper half of [ascii].  Each inner [while] loop
    of [lex] is a structural [Fixpoint] over the remaining input; the outer
    loop carries fuel, and [lex_loop_total] shows that the fuel [lex] passes
    is never exhausted. *)

From Stdlib Require Import Ascii NArith Lia.
From stdpp Require Import base tactics list strings option.
From S2P Require Import Prelude Text.

Local Open Scope N_scope.

(** ** Characters *)

Definition ch_quote : ascii := "034"%char.
Definition ch_backslash : ascii := "092"%char.
Definition ch_newline : ascii := "010"%char.
Definition ch_tab : ascii := "009"%char.
Definition ch_cr : ascii := "013"%char.

(** True for characters that may appear in a bare word. *)
Definition is_word_char (ch : ascii) : bool :=
  is_ascii_alphanumeric ch
  || match ch with
     | "-" | "_" | "." | ":" | "/" | "*" | "@" | "+" | "," => true
     | _ => false
     end%char.

(** ** Tokens *)

Inductive Token :=
| Word (w : string)
| LBrace
| RBrace
| Semi
| Newline.

#[export] Instance Token_eq_dec : EqDecision Token.
Proof. solve_decision. Defined.

(** Rust's [{:?}] of a string, for code points below 256. *)
Definition hex_digit (n : N) : ascii :=
  if n <? 10 then ascii_of_N (48 + n) else ascii_of_N (87 + n).

Definition debug_char (c : ascii) : string :=
  let n := N_of_ascii c in
  if decide (c = ch_quote) then String ch_backslash (String c "")
  else if decide (c = ch_backslash) then String c (String c "")
  else if decide (c = ch_newline) then String ch_backslash "n"
  else if decide (c = ch_tab) then String ch_backslash "t"
  else if decide (c = ch_cr) then String ch_backslash "r"
  else if n =? 0 then String ch_backslash "0"
  else if (n <? 32) || ((127 <=? n) && (n <? 160)) || (n =? 173) then
    String ch_backslash "u{" +:+
    (if n <? 16 then "" else String (hex_digit (n / 16)) "") +:+
    String (hex_digit (n mod 16)) "}"
  else String c "".

Fixpoint debug_body (s : string) : string :=
  match s with
  | EmptyString => ""
  | String c s' => debug_char c +:+ debug_body s'
  end.

Definition debug_str (s : string) : string :=
  String ch_quote (debug_body s) +:+ String ch_quote "".

(** [impl Display for Token]. *)
Definition token_to_string (t : Token) : string :=
  match t with
  | Word w => debug_str w
  | LBrace => "'{'"
  | RBrace => "'}'"
  | Semi => "';'"
  | Newline => "end of line"
  end.

Record Spanned := mkSpanned { token : Token; line : N; col : N }.

Inductive LexError :=
| UnterminatedString (l c : N)
| UnterminatedComment (l c : N)
| UnexpectedChar (l c : N) (ch : ascii).

(** ** The cursor

    The [Peekable<Chars>] iterator with the [u32] line and column counters;
    [bump] is the lexer's [bump!] macro. *)

Record cursor := mkCursor { rest : string; cline : N; ccol : N }.

Definition bump (k : cursor) : option ascii * cursor :=
  match rest k with
  | EmptyString => (None, k)
  | String c s =>
      (Some c,
       if decide (c = ch_newline)
       then mkCursor s (wrap 32 (cline k + 1)) 1
       else mkCursor s (cline k) (wrap 32 (ccol k + 1)))
  end.

Definition advance (c : ascii) (s : string) (l k : N) : cursor :=
  (bump (mkCursor (String c s) l k)).2.

(** [while let Some(&c) = chars.peek() { if c == '\n' { break } bump!() }] *)
Fixpoint skip_line (s : string) (l k : N) : cursor :=
  match s with
  | EmptyString => mkCursor s l k
  | String c s' =>
      if decide (c = ch_newline) then mkCursor s l k
      else let n := advance c s' l k in skip_line s' (cline n) (ccol n)
  end.

(** The bare-word loop. *)
Fixpoint take_word (s : string) (l k : N) : string * cursor :=
  match s with
  | EmptyString => (EmptyString, mkCursor s l k)
  | String c s' =>
      if is_word_char c then
        let n := advance c s' l k in
        let '(w, k') := take_word s' (cline n) (ccol n) in (String c w, k')
      else (EmptyString, mkCursor s l k)
  end.

(** The block-comment loop, entered after the opening [/*]; [None] is an
    unterminated comment. *)
Fixpoint block_comment (s : string) (l k : N) : option cursor :=
  match s with
  | EmptyString => None
  | String c s' =>
      let n := advance c s' l k in
      match s' with
      | String c' s'' =>
          if decide (c = "*"%char ∧ c' = "/"%char)
          then Some (advance c' s'' (cline n) (ccol n))
          else block_comment s' (cline n) (ccol n)
      | EmptyString => block_comment s' (cline n) (ccol n)
      end
  end.

(** The quoted-string loop, entered after the opening quote; [None] is an
    unterminated string. *)
Fixpoint quoted (s : string) (l k : N) : option (string * cursor) :=
  match s with
  | EmptyString => None
  | String c s' =>
      let n := advance c s' l k in
      if decide (c = ch_quote) then Some (EmptyString, n)
      else if decide (c = ch_backslash) then
        match s' with
        | EmptyString => None
        | String e s'' =>
            let n' := advance e s'' (cline n) (ccol n) in
            '(v, k') ← quoted s'' (cline n') (ccol n');
            Some (if decide (e = ch_quote) then String ch_quote v
                  else if decide (e = ch_backslash) then String ch_backslash v
                  else if decide (e = "n"%char) then String ch_newline v
                  else String ch_backslash (String e v), k')
        end
      else
        '(v, k') ← quoted s' (cline n) (ccol n);
        Some (String c v, k')
  end.

(** ** The lexer *)

Definition push (t : Token) (l k : N)
    (r : option (result LexError (list Spanned))) :
    option (result LexError (list Spanned)) :=
  match r with
  | Some (Ok ts) => Some (Ok (mkSpanned t l k :: ts))
  | r => r
  end.

(** The main loop; [None] means the fuel ran out. *)
Fixpoint lex_loop (fuel : nat) (k : cursor) :
    option (result LexError (list Spanned)) :=
  match fuel with
  | O => None
  | S fuel =>
    let '(mkCursor s l c) := k in
    match s with
    | EmptyString => Some (Ok [])
    | String ch s' =>
      let n := advance ch s' l c in
      if decide (ch = " "%char ∨ ch = ch_tab ∨ ch = ch_cr) then lex_loop fuel n
      else if decide (ch = ch_newline) then push Newline l c (lex_loop fuel n)
      else if decide (ch = "{"%char) then push LBrace l c (lex_loop fuel n)
      else if decide (ch = "}"%char) then push RBrace l c (lex_loop fuel n)
      else if decide (ch = ";"%char) then push Semi l c (lex_loop fuel n)
      else if decide (ch = "#"%char) then lex_loop fuel (skip_line s l c)
      else if decide (ch = "/"%char) then
        match s' with
        | String "/"%char _ => lex_loop fuel (skip_line s' (cline n) (ccol n))
        | String "*"%char s'' =>
            let n' := advance "*"%char s'' (cline n) (ccol n) in
            match block_comment s'' (cline n') (ccol n') with
            | Some k' => lex_loop fuel k'
            | None => Some (Err (UnterminatedComment l c))
            end
        | _ =>
            let '(w, k') := take_word s' (cline n) (ccol n) in
            push (Word (String "/"%char w)) l c (lex_loop fuel k')
        end
      else if decide (ch = ch_quote) then
        match quoted s' (cline n) (ccol n) with
        | Some (v, k') => push (Word v) l c (lex_loop fuel k')
        | None => Some (Err (UnterminatedString l c))
        end
      else if is_word_char ch then
        let '(w, k') := take_word s l c in
        push (Word w) l c (lex_loop fuel k')
      else Some (Err (UnexpectedChar l c ch))
    end
  end.

Definition start_cursor (input : string) : cursor := mkCursor input 1 1.

Definition lex (input : string) : result LexError (list Spanned) :=
  match lex_loop (S (String.length input)) (start_cursor input) with
  | Some r => r
  | None => Ok []
  end.

(** ** Termination *)

Lemma rest_advance c s l k : rest (advance c s l k) = s.
Proof. unfold advance, bump; simpl. by case_decide. Qed.

Lemma advance_eta c s l k :
  advance c s l k = mkCursor s (cline (advance c s l k)) (ccol (advance c s l k)).
Proof. unfold advance, bump; simpl. by case_decide. Qed.

Lemma skip_line_length s l k :
  (String.length (rest (skip_line s l k)) ≤ String.length s)%nat.
Proof.
  revert l k. induction s as [|c s IH]; intros l k; simpl; [done|].
  case_decide; simpl; [done|]. etrans; [apply IH|lia].
Qed.

Lemma take_word_length s l k :
  (String.length (rest (take_word s l k).2) ≤ String.length s)%nat.
Proof.
  revert l k. induction s as [|c s IH]; intros l k; simpl; [done|].
  destruct (is_word_char c); simpl; [|done].
  specialize (IH (cline (advance c s l k)) (ccol (advance c s l k))).
  destruct (take_word s _ _) as [w k']; simpl in *. lia.
Qed.

(** The word loop consumes at least the character it was entered on. *)
Lemma take_word_progress c s l k :
  is_word_char c = true →
  (String.length (rest (take_word (String c s) l k).2) ≤ String.length s)%nat.
Proof.
  intros Hc. simpl. rewrite Hc.
  pose proof (take_word_length s (cline (advance c s l k)) (ccol (advance c s l k))).
  by destruct (take_word s _ _).
Qed.

Lemma block_comment_length s l k k' :
  block_comment s l k = Some k' →
  (String.length (rest k') ≤ String.length s)%nat.
Proof.
  revert l k k'. induction s as [|c s IH]; intros l k k'; simpl; [done|].
  destruct s as [|c' s'].
  - intros Hb%IH. simpl in *. lia.
  - case_decide.
    + intros [= <-]. rewrite rest_advance. simpl. lia.
    + intros Hb%IH. simpl in *. lia.
Qed.

Lemma quoted_length s l k v k' :
  quoted s l k = Some (v, k') →
  (String.length (rest k') ≤ String.length s)%nat.
Proof.
  remember (String.length s) as n eqn:Hn. revert s Hn l k v k'.
  induction n as [n IH] using lt_wf_ind; intros s -> l k v k'.
  destruct s as [|c s]; simpl; [done|].
  case_decide; [intros [= <- <-]; rewrite rest_advance; lia|].
  case_decide.
  - destruct s as [|e s]; [done|].
    intros ([v' k''] & Hq & [= <- <-])%bind_Some.
    eapply (IH (String.length s)) in Hq; [|by simpl; lia|done]. simpl. lia.
  - intros ([v' k''] & Hq & [= <- <-])%bind_Some.
    eapply (IH (String.length s)) in Hq; [|by simpl; lia|done]. lia.
Qed.

Lemma push_is_Some t l k r : is_Some r → is_Some (push t l k r).
Proof. intros [[ts|e] ->]; simpl; eauto. Qed.

#[export] Hint Resolve push_is_Some : hemlock.

(** Every pass of the main loop consumes a character, so the length of the
    input bounds the number of passes. *)
Lemma lex_loop_total fuel k :
  (String.length (rest k) < fuel)%nat → is_Some (lex_loop fuel k).
Proof.
  revert k. induction fuel as [|fuel IH]; intros [s l c] Hlen; [simpl in *; lia|].
  destruct s as [|ch s]; simpl in *; [by eauto|].
  assert (Hadv : is_Some (lex_loop fuel (advance ch s l c)))
    by (apply IH; rewrite rest_advance; lia).
  pose proof (take_word_length s (cline (advance ch s l c)) (ccol (advance ch s l c))) as Htw.
  assert (Hslash : is_Some
    (let '(w, k') := take_word s (cline (advance ch s l c)) (ccol (advance ch s l c)) in
     push (Word (String "/" w)) l c (lex_loop fuel k'))).
  { destruct (take_word s _ _) as [w k']; simpl in *. apply push_is_Some, IH. lia. }
  repeat (case_decide; [by auto with hemlock|]).
  case_decide.
  { subst ch. simpl. apply IH. eapply Nat.le_lt_trans; [apply skip_line_length|lia]. }
  case_decide.
  { destruct s as [|c2 s2]; [done|].
    destruct (decide (c2 = "/"%char)) as [->|Hn1].
    { apply IH. eapply Nat.le_lt_trans; [apply skip_line_length|simpl in *; lia]. }
    destruct (decide (c2 = "*"%char)) as [->|Hn2].
    { destruct (block_comment s2 _ _) as [k'|] eqn:Hb; [|by eauto].
      apply block_comment_length in Hb. apply IH. simpl in *. lia. }
    destruct c2 as [[] [] [] [] [] [] [] []]; done. }
  case_decide.
  { destruct (quoted s _ _) as [[v k']|] eqn:Hq; [|by eauto].
    apply quoted_length in Hq. apply push_is_Some, IH. lia. }
  destruct (is_word_char ch) eqn:Hw; [|by eauto].
  pose proof (take_word_length s (cline (advance ch s l c)) (ccol (advance ch s l c))).
  destruct (take_word s _ _) as [w k']; simpl in *. apply push_is_Some, IH. lia.
Qed.

(** ** What a piece of text lexes to

    [lexes s ts]: started anywhere with enough fuel, the lexer turns [s]
    into the tokens [ts].  The lemmas below build such facts from the end of
    the text towards its start, the way the printer's output is composed. *)

Definition lexes (s : string) (ts : list Token) : Prop :=
  ∀ fuel l c, (String.length s < fuel)%nat →
    ∃ out, lex_loop fuel (mkCursor s l c) = Some (Ok out) ∧ token <$> out = ts.

Lemma lexes_lex s ts :
  lexes s ts → ∃ out, lex s = Ok out ∧ token <$> out = ts.
Proof.
  intros H. destruct (H (S (String.length s)) 1 1) as (out & Hl & Ht); [lia|].
  exists out. unfold lex, start_cursor. by rewrite Hl.
Qed.

Lemma lexes_empty : lexes "" [].
Proof. intros [|fuel] l c ?; [lia|]. by exists []. Qed.

Lemma lexes_blank s ts : lexes s ts → lexes (String " " s) ts.
Proof.
  intros H [|fuel] l c Hf; [lia|]. simpl in *. apply H. lia.
Qed.

(** One-character tokens. *)
Definition char_token (c : ascii) : option Token :=
  if decide (c = ch_newline) then Some Newline
  else if decide (c = "{"%char) then Some LBrace
  else if decide (c = "}"%char) then Some RBrace
  else if decide (c = ";"%char) then Some Semi else None.

Lemma lexes_char_token c t s ts :
  char_token c = Some t → lexes s ts → lexes (String c s) (t :: ts).
Proof.
  intros Ht H [|fuel] l k Hf; [lia|]. simpl in Hf.
  destruct (H fuel (cline (advance c s l k)) (ccol (advance c s l k)))
    as (out & Hl & Hout); [lia|].
  rewrite <-advance_eta in Hl.
  exists (mkSpanned t l k :: out). split; [|by rewrite fmap_cons, Hout].
  cbn [lex_loop]. rewrite Hl. unfold char_token in Ht.
  repeat case_decide; simplify_eq/=; naive_solver.
Qed.

(** A bare word is non-empty and made of word characters; the two openings
    of a comment are also word characters. *)
Definition bare (w : string) : bool :=
  negb (String.eqb w "") && string_all is_word_char w.

Definition comment_start (w : string) : bool :=
  match w with
  | String "/" (String "/" _) | String "/" (String "*" _) => true
  | _ => false
  end%char.

(** The text after a word cannot extend it. *)
Definition ends_word (s : string) : Prop :=
  match s with EmptyString => True | String c _ => is_word_char c = false end.

Lemma take_word_app w s l k :
  string_all is_word_char w = true → ends_word s →
  ∃ l' k', take_word (w +:+ s) l k = (w, mkCursor s l' k').
Proof.
  intros Hw Hs. revert l k. induction w as [|c w IH]; intros l k.
  - exists l, k. destruct s as [|c s]; simpl in *; [done|]. by rewrite Hs.
  - simpl in Hw. apply andb_true_iff in Hw as [Hc Hw].
    change (String c w +:+ s) with (String c (w +:+ s)). simpl. rewrite Hc.
    destruct (IH Hw (cline (advance c (w +:+ s) l k)) (ccol (advance c (w +:+ s) l k)))
      as (l' & k' & ->). by exists l', k'.
Qed.

(** No word character is a blank, a token of its own, a quote or [#]. *)
Lemma word_char_cases c :
  is_word_char c = true →
  ¬ (c = " "%char ∨ c = ch_tab ∨ c = ch_cr) ∧ c ≠ ch_newline ∧ c ≠ "{"%char ∧
  c ≠ "}"%char ∧ c ≠ ";"%char ∧ c ≠ "#"%char ∧ c ≠ ch_quote.
Proof. intros Hc. repeat split; intros ?; destruct_or?; subst; done. Qed.

(** A slash followed by neither [/] nor [*] starts a word. *)
Lemma slash_cases {A} (s : string) (a : A) (f : string → A) (b : A) :
  comment_start (String "/" s) = false →
  match s with
  | String "/" _ => a
  | String "*" s' => f s'
  | _ => b
  end%char = b.
Proof.
  destruct s as [|c s]; [done|].
  destruct c as [[] [] [] [] [] [] [] []]; done.
Qed.

Lemma lexes_word w s ts :
  bare w = true → comment_start w = false → ends_word s → lexes s ts →
  lexes (w +:+ s) (Word w :: ts).
Proof.
  intros Hb Hcs Hs H [|fuel] l k Hf; [lia|].
  unfold bare in Hb. apply andb_true_iff in Hb as [Hne Hall].
  destruct w as [|c w]; [done|].
  change (String c w +:+ s) with (String c (w +:+ s)) in *. simpl in Hf.
  simpl in Hall. apply andb_true_iff in Hall as [Hc Hall].
  destruct (word_char_cases c Hc) as (?&?&?&?&?&?&?).
  destruct (take_word_app w s (cline (advance c (w +:+ s) l k))
    (ccol (advance c (w +:+ s) l k)) Hall Hs) as (l' & k' & Htw).
  destruct (H fuel l' k') as (out & Hl & Hout).
  { pose proof (take_word_length (w +:+ s) (cline (advance c (w +:+ s) l k))
      (ccol (advance c (w +:+ s) l k))) as Hlen. rewrite Htw in Hlen. simpl in Hlen. lia. }
  simpl. rewrite !decide_False by done.
  exists (mkSpanned (Word (String c w)) l k :: out). split; [|by rewrite fmap_cons, Hout].
  case_decide as Hslash.
  - subst c. rewrite slash_cases.
    + rewrite Htw. by rewrite Hl.
    + destruct w as [|c2 w]; [|by destruct c2 as [[] [] [] [] [] [] [] []]].
      destruct s as [|c2 s]; [done|]. simpl in Hs.
      destruct c2 as [[] [] [] [] [] [] [] []]; done.
  - rewrite decide_False by done. rewrite Hc, Htw. by rewrite Hl.
Qed.
