(* ===== verification/ConfigTree.v ===== *)
(** * The configuration tree (hemlock-config/src/tree.rs)

    Data, queries, in-place edits, the migration of legacy interface forms,
    secret redaction and the canonical printer.  A function that hands out
    [&mut Vec<Item>] ([ensure_block], [block_mut]) takes the update that its
    caller performs through the reference as an argument. *)

From Stdlib Require Import Ascii NArith Lia.
From stdpp Require Import base tactics list strings option.
From S2P Require Import Prelude Text ConfigLexer.

(** ** The tree *)

Inductive Item :=
| Leaf (name : string) (values : list string)
| Block (name : string) (keys : list string) (children : list Item).

(** Induction through the list of children. *)
Section Item_ind.
Variable P : Item → Prop.
Hypothesis Hleaf : ∀ n vs, P (Leaf n vs).
Hypothesis Hblock : ∀ n ks cs, Forall P cs → P (Block n ks cs).

Fixpoint Item_nested_ind (i : Item) : P i :=
  match i with
  | Leaf n vs => Hleaf n vs
  | Block n ks cs =>
      Hblock n ks cs
        ((fix go (l : list Item) : Forall P l :=
            match l with
            | [] => Forall_nil_2 P
            | x :: l => Forall_cons_2 P x l (Item_nested_ind x) (go l)
            end) cs)
  end.
End Item_ind.

Record ConfigTree := mkTree { items : list Item }.

Definition item_name (i : Item) : string :=
  match i with Leaf n _ | Block n _ _ => n end.

(** ** Queries *)

(** [iter().find_map(f)]: the first [Some]. *)
Fixpoint find_map {A B} (f : A → option B) (l : list A) : option B :=
  match l with
  | [] => None
  | x :: l => match f x with Some b => Some b | None => find_map f l end
  end.

Definition block_in (its : list Item) (name : string) : option (list string * list Item) :=
  find_map (λ i, match i with
                 | Block n ks cs => if decide (n = name) then Some (ks, cs) else None
                 | Leaf _ _ => None
                 end) its.

Definition block (t : ConfigTree) (name : string) := block_in (items t) name.

Definition blocks_named (its : list Item) (name : string) : list (list string * list Item) :=
  omap (λ i, match i with
             | Block n ks cs => if decide (n = name) then Some (ks, cs) else None
             | Leaf _ _ => None
             end) its.

(** A value-less leaf of the right name does not stop the search. *)
Definition leaf_value (its : list Item) (name : string) : option string :=
  find_map (λ i, match i with
                 | Leaf n vs => if decide (n = name) then head vs else None
                 | Block _ _ _ => None
                 end) its.

Definition leaf_values (its : list Item) (name : string) : option (list string) :=
  find_map (λ i, match i with
                 | Leaf n vs => if decide (n = name) then Some vs else None
                 | Block _ _ _ => None
                 end) its.

Definition is_leaf (name : string) (i : Item) : bool :=
  match i with
  | Leaf n _ => bool_decide (n = name)
  | Block _ _ _ => false
  end.

Definition has_leaf (its : list Item) (name : string) : bool := existsb (is_leaf name) its.

Definition phrase_values (its : list Item) (first second : string) : option (list string) :=
  find_map (λ i, match i with
                 | Leaf n (v :: rest) =>
                     if decide (n = first ∧ v = second) then Some rest else None
                 | _ => None
                 end) its.

Definition has_phrase (its : list Item) (first second : string) : bool :=
  match phrase_values its first second with Some _ => true | None => false end.

(** ** Edits *)

Definition is_block (name : string) (keys : list string) (i : Item) : bool :=
  match i with
  | Block n ks _ => bool_decide (n = name ∧ ks = keys)
  | Leaf _ _ => false
  end.

(** The caller's edit [f] runs on the children of the first block
    [name keys], which is appended empty when there is none. *)
Fixpoint ensure_block (its : list Item) (name : string) (keys : list string)
    (f : list Item → list Item) : list Item :=
  match its with
  | [] => [Block name keys (f [])]
  | Block n ks cs :: its' =>
      if decide (n = name ∧ ks = keys) then Block n ks (f cs) :: its'
      else Block n ks cs :: ensure_block its' name keys f
  | i :: its' => i :: ensure_block its' name keys f
  end.

Definition block_mut (t : ConfigTree) (name : string) (f : list Item → list Item) : ConfigTree :=
  mkTree (ensure_block (items t) name [] f).

Fixpoint set_leaf (its : list Item) (name : string) (values : list string) : list Item :=
  match its with
  | [] => [Leaf name values]
  | Leaf n vs :: its' =>
      if decide (n = name) then Leaf n values :: its'
      else Leaf n vs :: set_leaf its' name values
  | i :: its' => i :: set_leaf its' name values
  end.

Definition remove_leaf (its : list Item) (name : string) : list Item :=
  filter (λ i, is_leaf name i = false) its.

Definition remove_block (its : list Item) (name : string) (keys : list string) : list Item :=
  filter (λ i, is_block name keys i = false) its.

Definition set_phrase (its : list Item) (first second : string) (rest : list string) : list Item :=
  set_leaf its first (second :: rest).

(** ** Legacy forms *)

Definition normalize_admin_leaf (i : Item) : Item :=
  match i with
  | Leaf n vs =>
      if decide (n = "no-shutdown") then Leaf "no" ["shutdown"]
      else if decide (n = "admin-state") then
        match vs with
        | v :: _ =>
            if decide (v = "enabled") then Leaf "no" ["shutdown"]
            else if decide (v = "disabled") then Leaf "shutdown" []
            else i
        | [] => i
        end
      else i
  | Block _ _ _ => i
  end.

Definition normalize_admin_leaves (cs : list Item) : list Item := normalize_admin_leaf <$> cs.

Definition normalize_switchport_leaf (i : Item) : Item :=
  match i with
  | Leaf n vs =>
      if decide (n = "access-vlan") then Leaf "access" ("vlan" :: vs)
      else if decide (n = "trunk-vlans") then Leaf "trunk" ("vlans" :: vs)
      else if decide (n = "native-vlan") then Leaf "native" ("vlan" :: vs)
      else i
  | Block _ _ _ => i
  end.

Definition normalize_switchport_leaves (cs : list Item) : list Item :=
  normalize_switchport_leaf <$> cs.

(** One pass over an [interfaces] child. *)
Definition normalize_sub (i : Item) : Item :=
  match i with
  | Block n ks cs =>
      if decide (n = "switchport") then Block n ks (normalize_switchport_leaves cs) else i
  | Leaf _ _ => i
  end.

Definition normalize_interface (i : Item) : Item :=
  match i with
  | Block n ks cs =>
      let cs := normalize_sub <$> normalize_admin_leaves cs in
      match ks with
      | [k] => if decide (n = "ethernet" ∨ n = "management") then Block k [] cs
               else Block n ks cs
      | _ => Block n ks cs
      end
  | Leaf _ _ => i
  end.

Definition normalize_interfaces (t : ConfigTree) : ConfigTree :=
  mkTree ((λ i, match i with
                | Block n ks cs =>
                    if decide (n = "interfaces") then Block n ks (normalize_interface <$> cs)
                    else i
                | Leaf _ _ => i
                end) <$> items t).

(** ** Redaction *)

Definition hidden : string := "<hidden>".

(** [items.iter_mut().find_map(..)]: the first block of that name only. *)
Fixpoint on_first_block (name : string) (f : list Item → list Item) (its : list Item) : list Item :=
  match its with
  | [] => []
  | Block n ks cs :: its' =>
      if decide (n = name) then Block n ks (f cs) :: its'
      else Block n ks cs :: on_first_block name f its'
  | i :: its' => i :: on_first_block name f its'
  end.

(** [for item in items.iter_mut()], skipping all but the blocks of that name. *)
Definition on_blocks (name : string) (f : list Item → list Item) (its : list Item) : list Item :=
  (λ i, match i with
        | Block n ks cs => if decide (n = name) then Block n ks (f cs) else i
        | Leaf _ _ => i
        end) <$> its.

(** Overwrite the values of every leaf of that name. *)
Definition hide_leaf (name : string) (its : list Item) : list Item :=
  (λ i, match i with
        | Leaf n vs => if decide (n = name) then Leaf n [hidden] else i
        | Block _ _ _ => i
        end) <$> its.

Definition redact_login_hashes (t : ConfigTree) : ConfigTree :=
  mkTree (on_first_block "system"
    (on_blocks "login" (on_blocks "user" (hide_leaf "password-hash"))) (items t)).

(** [values[3]] and [values[6]] of a seven-word [user] leaf. *)
Definition redact_snmp_user (i : Item) : Item :=
  match i with
  | Leaf n vs =>
      if decide (n = "user" ∧ length vs = 7%nat)
      then Leaf n (<[6%nat := hidden]> (<[3%nat := hidden]> vs)) else i
  | Block _ _ _ => i
  end.

Definition redact_snmp_users (t : ConfigTree) : ConfigTree :=
  mkTree (on_first_block "services" (on_blocks "snmp" (fmap redact_snmp_user)) (items t)).

Definition redact_radius_keys (t : ConfigTree) : ConfigTree :=
  mkTree (on_first_block "security"
    (on_blocks "dot1x" (on_blocks "radius-server" (hide_leaf "key"))) (items t)).

Definition redact_secrets_impl (t : ConfigTree) : ConfigTree :=
  redact_radius_keys (redact_login_hashes (redact_snmp_users t)).

Definition redact_secrets (t : ConfigTree) : ConfigTree := redact_secrets_impl t.

(** ** The printer *)

(** [str::replace(char, &str)]. *)
Fixpoint replace_char (c : ascii) (r s : string) : string :=
  match s with
  | EmptyString => ""
  | String d s' => (if decide (d = c) then r else String d "") +:+ replace_char c r s'
  end.

Definition escape (w : string) : string :=
  replace_char ch_quote (String ch_backslash (String ch_quote ""))
    (replace_char ch_backslash (String ch_backslash (String ch_backslash "")) w).

(** Quote a word unless it is safe as a bare token. *)
Definition atom (word : string) : string :=
  if bare word then word
  else String ch_quote (escape word) +:+ String ch_quote "".

Fixpoint repeat_str (s : string) (n : nat) : string :=
  match n with O => "" | S n => s +:+ repeat_str s n end.

Definition newline : string := String ch_newline "".

Fixpoint render_words (ws : list string) : string :=
  match ws with
  | [] => ""
  | w :: ws => " " +:+ atom w +:+ render_words ws
  end.

Fixpoint render (i : Item) (depth : nat) : string :=
  let indent := repeat_str "    " depth in
  match i with
  | Leaf n vs => indent +:+ n +:+ render_words vs +:+ newline
  | Block n ks cs =>
      indent +:+ n +:+ render_words ks +:+ " {" +:+ newline +:+
      (fix go (l : list Item) : string :=
         match l with [] => "" | c :: l => render c (S depth) +:+ go l end) cs +:+
      indent +:+ "}" +:+ newline
  end.

Fixpoint render_all (its : list Item) (depth : nat) : string :=
  match its with
  | [] => ""
  | i :: its => render i depth +:+ render_all its depth
  end.

Definition to_text (t : ConfigTree) : string := render_all (items t) 0.

(** ** Laws of the edits *)

Lemma leaf_values_set_leaf its n vs m :
  leaf_values (set_leaf its n vs) m = if decide (n = m) then Some vs else leaf_values its m.
Proof.
  unfold leaf_values. induction its as [|[n' vs'|n' ks cs] its IH]; simpl; [| |done].
  - by destruct (decide (n = m)).
  - destruct (decide (n' = n)) as [->|Hn]; simpl; [by destruct (decide (n = m))|].
    rewrite IH. destruct (decide (n' = m)) as [->|]; [by rewrite decide_False|done].
Qed.

Lemma blocks_named_set_leaf its n vs m :
  blocks_named (set_leaf its n vs) m = blocks_named its m.
Proof.
  unfold blocks_named.
  induction its as [|[n' vs'|n' ks cs] its IH]; csimpl; [done| |by rewrite IH].
  destruct (decide (n' = n)); csimpl; [done|apply IH].
Qed.

(** [set_leaf] writes exactly one leaf: reading it back gives the new
    values, every other leaf and every block reads as before. *)
Theorem set_leaf_frame its n vs m :
  leaf_values (set_leaf its n vs) m = (if decide (n = m) then Some vs else leaf_values its m)
  ∧ blocks_named (set_leaf its n vs) m = blocks_named its m.
Proof. split; [apply leaf_values_set_leaf|apply blocks_named_set_leaf]. Qed.

(** The children of the first block [name keys]. *)
Definition find_block (its : list Item) (name : string) (keys : list string) : option (list Item) :=
  find_map (λ i, match i with
                 | Block n ks cs => if decide (n = name ∧ ks = keys) then Some cs else None
                 | Leaf _ _ => None
                 end) its.

Lemma find_block_ensure its n ks f m ls :
  find_block (ensure_block its n ks f) m ls =
  if decide (m = n ∧ ls = ks) then Some (f (default [] (find_block its n ks)))
  else find_block its m ls.
Proof.
  unfold find_block. induction its as [|[n' vs'|n' ks' cs] its IH]; simpl.
  - repeat case_decide; naive_solver.
  - apply IH.
  - destruct (decide (n' = n ∧ ks' = ks)) as [[-> ->]|H1]; simpl.
    + repeat case_decide; naive_solver.
    + rewrite IH. destruct (decide (n' = m ∧ ks' = ls)) as [[-> ->]|H2]; [|done].
      by rewrite decide_False.
Qed.

(** [ensure_block] addresses one block: its children become the
    caller's edit of what was there (or of nothing), every other keyed block
    and every leaf is untouched. *)
Theorem ensure_block_frame its n ks f m ls :
  find_block (ensure_block its n ks f) m ls
    = (if decide (m = n ∧ ls = ks) then Some (f (default [] (find_block its n ks)))
       else find_block its m ls)
  ∧ leaf_values (ensure_block its n ks f) m = leaf_values its m.
Proof.
  split; [apply find_block_ensure|].
  unfold leaf_values. induction its as [|[n' vs'|n' ks' cs] its IH]; simpl; [done| |].
  - by destruct (decide (n' = m)).
  - by destruct (decide (n' = n ∧ ks' = ks)).
Qed.

Lemma has_leaf_remove its n : has_leaf (remove_leaf its n) n = false.
Proof.
  unfold has_leaf, remove_leaf. apply not_true_iff_false. rewrite existsb_exists.
  intros (i & Hin & Hi). apply list_elem_of_In, list_elem_of_filter in Hin as [Hf _].
  congruence.
Qed.

(** ** The migration is idempotent *)

Lemma normalize_admin_leaf_idem i :
  normalize_admin_leaf (normalize_admin_leaf i) = normalize_admin_leaf i.
Proof. destruct i as [n [|v vs]|]; decide_all. Qed.

Lemma normalize_switchport_leaf_idem i :
  normalize_switchport_leaf (normalize_switchport_leaf i) = normalize_switchport_leaf i.
Proof. destruct i as [n vs|]; decide_all. Qed.

Lemma fmap_idem {A} (f : A → A) (l : list A) :
  (∀ x, f (f x) = f x) → f <$> (f <$> l) = f <$> l.
Proof. intros Hf. rewrite <-list_fmap_compose. apply list_fmap_ext. intros ? x _. apply Hf. Qed.

Lemma normalize_sub_idem i : normalize_sub (normalize_sub i) = normalize_sub i.
Proof.
  destruct i as [n vs|n ks cs]; simpl; [done|].
  case_decide; simpl; rewrite ?decide_True by done; [|by rewrite decide_False].
  unfold normalize_switchport_leaves.
  by rewrite fmap_idem by apply normalize_switchport_leaf_idem.
Qed.

(** The two child passes touch different constructors, so they commute. *)
Lemma normalize_sub_admin i :
  normalize_admin_leaf (normalize_sub i) = normalize_sub (normalize_admin_leaf i).
Proof.
  destruct i as [n [|v vs]|n ks cs]; decide_all.
Qed.

Lemma normalize_children_idem cs :
  normalize_sub <$> normalize_admin_leaves (normalize_sub <$> normalize_admin_leaves cs)
  = normalize_sub <$> normalize_admin_leaves cs.
Proof.
  unfold normalize_admin_leaves. rewrite <-!list_fmap_compose.
  apply list_fmap_ext. intros _ i _. simpl.
  by rewrite normalize_sub_admin, normalize_admin_leaf_idem, normalize_sub_idem.
Qed.

Lemma normalize_interface_idem i :
  normalize_interface (normalize_interface i) = normalize_interface i.
Proof.
  destruct i as [n vs|n ks cs]; [done|].
  unfold normalize_interface at 2 3. destruct ks as [|k [|k' ks]].
  - simpl. by rewrite normalize_children_idem.
  - case_decide; simpl; rewrite normalize_children_idem; [done|].
    by rewrite decide_False.
  - simpl. by rewrite normalize_children_idem.
Qed.

(** Migrating an already migrated configuration changes nothing, so the
    migration can run on every load. *)
Theorem normalize_interfaces_idem t :
  normalize_interfaces (normalize_interfaces t) = normalize_interfaces t.
Proof.
  unfold normalize_interfaces; simpl. f_equal. apply fmap_idem.
  intros [n vs|n ks cs]; [done|]. case_decide; [|by rewrite decide_False].
  rewrite decide_True by done.
  by rewrite fmap_idem by apply normalize_interface_idem.
Qed.
