(* ===== verification/ConfigParser.v ===== *)
(** * The parser of the configuration language (hemlock-config/src/parser.rs)

    [Parser { tokens, pos }] is the list of tokens from [pos] on.  The two
    mutually recursive methods become [statements], which carries fuel, and
    [statement], which receives the recursive call; [statements_total] shows
    that the fuel [parse] passes is enough for every input. *)

From Stdlib Require Import Ascii NArith Lia.
From stdpp Require Import base tactics list strings option.
From S2P Require Import Prelude Text ConfigLexer ConfigTree.

Inductive ParseError :=
| Lex (e : LexError)
| Unexpected (l c : N) (expected found : string)
| UnexpectedEof.

Definition unexpected (sp : Spanned) (expected : string) : ParseError :=
  Unexpected (line sp) (col sp) expected (token_to_string (token sp)).

(** The word loop of [statement]: words up to the first other token. *)
Fixpoint take_words (ts : list Spanned) : list string * list Spanned :=
  match ts with
  | mkSpanned (Word w) _ _ :: ts' => let '(ws, r) := take_words ts' in (w :: ws, r)
  | _ => ([], ts)
  end.

Abbreviation parsed A := (option (result ParseError (A * list Spanned))).

Definition statement (sub : list Spanned → parsed (list Item)) (ts : list Spanned) :
    parsed Item :=
  match ts with
  | [] => Some (Err UnexpectedEof)
  | mkSpanned (Word name) _ _ :: ts' =>
      let '(words, r) := take_words ts' in
      match r with
      | [] => Some (Ok (Leaf name words, []))
      | sp :: r' =>
          match token sp with
          | Semi | Newline => Some (Ok (Leaf name words, r'))
          | LBrace =>
              match sub r' with
              | Some (Ok (children, r'')) => Some (Ok (Block name words children, r''))
              | Some (Err e) => Some (Err e)
              | None => None
              end
          | RBrace | Word _ => Some (Ok (Leaf name words, r))
          end
      end
  | other :: _ => Some (Err (unexpected other "a name"))
  end.

(** Statements up to the end of input (top level) or a closing brace. *)
Fixpoint statements (fuel : nat) (top_level : bool) (ts : list Spanned) :
    parsed (list Item) :=
  match fuel with
  | O => None
  | S fuel =>
      match ts with
      | [] => if top_level then Some (Ok ([], [])) else Some (Err UnexpectedEof)
      | sp :: ts' =>
          match token sp with
          | Newline => statements fuel top_level ts'
          | RBrace =>
              if top_level then Some (Err (unexpected sp "a statement"))
              else Some (Ok ([], ts'))
          | _ =>
              match statement (statements fuel false) ts with
              | Some (Ok (item, r)) =>
                  match statements fuel top_level r with
                  | Some (Ok (its, r')) => Some (Ok (item :: its, r'))
                  | other => other
                  end
              | Some (Err e) => Some (Err e)
              | None => None
              end
          end
      end
  end.

Definition parse_tokens (ts : list Spanned) : parsed (list Item) :=
  statements (S (length ts)) true ts.

Definition parse (input : string) : result ParseError ConfigTree :=
  match lex input with
  | Err e => Err (Lex e)
  | Ok tokens =>
      match parse_tokens tokens with
      | Some (Ok (its, _)) => Ok (mkTree its)
      | Some (Err e) => Err e
      | None => Err UnexpectedEof
      end
  end.

(** ** Termination *)

Lemma take_words_length ts : (length (take_words ts).2 ≤ length ts)%nat.
Proof.
  induction ts as [|[t l c] ts IH]; simpl; [done|].
  destruct t; simpl; try done. destruct (take_words ts); simpl in *. lia.
Qed.

(** A parse step that succeeds leaves at most [n] tokens. *)
Definition leaves {A} (n : nat) (res : parsed A) : Prop :=
  ∃ x, res = Some x ∧ ∀ a r, x = Ok (a, r) → (length r ≤ n)%nat.

(** [statement] consumes its name, and the body of a block through [sub]. *)
Lemma statement_total sub t ts :
  (∀ ts', (length ts' ≤ length ts)%nat → leaves (length ts') (sub ts')) →
  leaves (length ts) (statement sub (t :: ts)).
Proof.
  intros Hsub. destruct t as [[w| | | |] l c]; simpl; try (by eexists).
  pose proof (take_words_length ts) as Htw. destruct (take_words ts) as [ws r].
  simpl in *. destruct r as [|sp r']; simpl in *.
  { eexists. split; [done|]. intros i r [= <- <-]. simpl. lia. }
  destruct (token sp);
    try (eexists; split; [done|]; intros i r [= <- <-]; simpl in *; lia).
  destruct (Hsub r') as ([[cs r'']|e] & -> & Hl); [lia| |by eexists].
  eexists. split; [done|]. intros i r [= <- <-]. specialize (Hl cs r'' eq_refl). lia.
Qed.

Lemma statements_total fuel top ts :
  (length ts < fuel)%nat → leaves (length ts) (statements fuel top ts).
Proof.
  revert top ts. induction fuel as [|fuel IH]; intros top ts Hf; [lia|].
  destruct ts as [|sp ts]; simpl in *.
  { destruct top; eexists; split; try done. intros its r [= <- <-]. done. }
  assert (Hst : leaves (S (length ts))
    match statement (statements fuel false) (sp :: ts) with
    | Some (Ok (item, r)) =>
        match statements fuel top r with
        | Some (Ok (its, r')) => Some (Ok (item :: its, r'))
        | other => other
        end
    | Some (Err e) => Some (Err e)
    | None => None
    end).
  { destruct (statement_total (statements fuel false) sp ts) as ([[i r]|e] & -> & Hl);
      [intros ts' Hts'; apply IH; lia| |by eexists].
    specialize (Hl i r eq_refl).
    destruct (IH top r) as ([[its r']|e] & -> & Hl'); [lia| |by eexists].
    eexists. split; [done|]. intros ?? [= <- <-]. specialize (Hl' its r' eq_refl). lia. }
  destruct (token sp) eqn:Ht; try done.
  - destruct top; eexists; (split; [done|]); intros ?? [= <- <-]; simpl; lia.
  - destruct (IH top ts) as (x & Hx & Hl); [lia|].
    exists x. split; [done|]. intros a r Hr. specialize (Hl a r Hr). lia.
Qed.

(** C37: the lexer and the parser return on every input: neither loop can
    outrun the length of what it reads, so [parse] never falls into the
    out-of-fuel branches. *)
Theorem parse_terminates input :
  (∃ r, lex_loop (S (String.length input)) (start_cursor input) = Some r)
  ∧ ∀ tokens, ∃ r, parse_tokens tokens = Some r.
Proof.
  split; [apply lex_loop_total; simpl; lia|].
  intros ts. destruct (statements_total (S (length ts)) true ts) as (x & Hx & _);
    [lia|eauto].
Qed.

(** ** What a token sequence parses to *)

Definition parses (top : bool) (ts : list Token) (its : list Item) (ts' : list Token) : Prop :=
  ∀ fuel sp, token <$> sp = ts → (length sp < fuel)%nat →
    ∃ r, statements fuel top sp = Some (Ok (its, r)) ∧ token <$> r = ts'.

Lemma parses_end : parses true [] [] [].
Proof. intros [|fuel] [|sp sps] Ht ?; simplify_eq/=; [lia|]. by exists []. Qed.

Lemma parses_newline top ts its ts' :
  parses top ts its ts' → parses top (Newline :: ts) its ts'.
Proof.
  intros H [|fuel] [|[t l c] sps] Ht ?; simplify_eq/=; [lia|].
  apply H; [done|lia].
Qed.

Lemma parses_close ts : parses false (RBrace :: ts) [] ts.
Proof.
  intros [|fuel] [|[t l c] sps] Ht ?; simplify_eq/=; [lia|].
  by exists sps.
Qed.

Definition not_word (ts : list Token) : Prop :=
  match ts with Word _ :: _ => False | _ => True end.

Lemma take_words_app ws ts sp :
  token <$> sp = (Word <$> ws) ++ ts → not_word ts →
  ∃ r, take_words sp = (ws, r) ∧ token <$> r = ts.
Proof.
  revert sp. induction ws as [|w ws IH]; intros sp Hsp Hts; simpl in *.
  - exists sp. split; [|done]. destruct sp as [|[t l c] sp]; [done|]. simpl in *.
    subst ts. by destruct t.
  - destruct sp as [|[t l c] sp]; simplify_eq/=.
    destruct (IH sp) as (r & -> & Hr); eauto.
Qed.

Lemma parses_leaf top n vs ts its ts' :
  parses top ts its ts' →
  parses top (Word n :: (Word <$> vs) ++ Newline :: ts) (Leaf n vs :: its) ts'.
Proof.
  intros H [|fuel] [|[t l c] sps] Ht ?; simplify_eq/=; [lia|].
  pose proof (take_words_length sps) as Hlen.
  destruct (take_words_app vs (Newline :: ts) sps) as (r & Htw & Hr); [done..|].
  rewrite Htw in *. destruct r as [|[t l' c'] r]; simplify_eq/=.
  destruct (H fuel r) as (r' & -> & Hr'); [done|lia|]. by exists r'.
Qed.

Lemma parses_block top n ks tsc cs tsr its ts' :
  parses false tsc cs tsr → parses top tsr its ts' →
  parses top (Word n :: (Word <$> ks) ++ LBrace :: tsc) (Block n ks cs :: its) ts'.
Proof.
  intros Hc H [|fuel] [|[t l c] sps] Ht ?; simplify_eq/=; [lia|].
  pose proof (take_words_length sps) as Hlen.
  destruct (take_words_app ks (LBrace :: tsc) sps) as (r & Htw & Hr); [done..|].
  rewrite Htw in *. destruct r as [|[t l' c'] r]; simplify_eq/=.
  destruct (Hc fuel r) as (rc & Hs & Hrc); [done|lia|]. rewrite Hs.
  destruct (statements_total fuel false r) as (x & Hx & Hl); [lia|].
  rewrite Hs in Hx. simplify_eq. specialize (Hl cs rc eq_refl).
  destruct (H fuel rc) as (r' & -> & Hr'); [done|lia|]. by exists r'.
Qed.

(** ** The tokens of a tree *)

Fixpoint item_tokens (i : Item) : list Token :=
  match i with
  | Leaf n vs => Word n :: (Word <$> vs) ++ [Newline]
  | Block n ks cs =>
      Word n :: (Word <$> ks) ++ LBrace :: Newline ::
      (fix go (l : list Item) : list Token :=
         match l with [] => [] | c :: l => item_tokens c ++ go l end) cs
      ++ [RBrace; Newline]
  end.

Fixpoint items_tokens (its : list Item) : list Token :=
  match its with
  | [] => []
  | i :: its => item_tokens i ++ items_tokens its
  end.

Lemma item_tokens_block n ks cs :
  item_tokens (Block n ks cs) =
  Word n :: (Word <$> ks) ++ LBrace :: Newline :: items_tokens cs ++ [RBrace; Newline].
Proof. done. Qed.

Lemma parses_items_with cs ts its ts' top :
  Forall (λ i, ∀ top ts its ts',
    parses top ts its ts' → parses top (item_tokens i ++ ts) (i :: its) ts') cs →
  parses top ts its ts' → parses top (items_tokens cs ++ ts) (cs ++ its) ts'.
Proof.
  intros Hcs H. induction Hcs as [|i cs Hi Hcs IH]; simpl; [done|].
  rewrite <-app_assoc. by apply Hi.
Qed.

Lemma parses_item i top ts its ts' :
  parses top ts its ts' → parses top (item_tokens i ++ ts) (i :: its) ts'.
Proof.
  revert top ts its ts'. induction i as [n vs|n ks cs IH] using Item_nested_ind;
    intros top ts its ts' H.
  - simpl. rewrite <-app_assoc. by apply parses_leaf.
  - rewrite item_tokens_block. cbn [app]. rewrite <-app_assoc. cbn [app].
    eapply parses_block; [|by apply parses_newline].
    apply parses_newline. rewrite <-app_assoc. rewrite <-(app_nil_r cs) at 2.
    apply parses_items_with; [done|]. apply parses_close.
Qed.

Lemma parses_items its : parses true (items_tokens its) its [].
Proof.
  pose proof (parses_items_with its [] [] [] true) as H.
  rewrite !app_nil_r in H. apply H; [|apply parses_end].
  apply Forall_forall. intros i _. apply parses_item.
Qed.

Lemma parse_of_tokens input its :
  lexes input (items_tokens its) → parse input = Ok (mkTree its).
Proof.
  intros (out & Hl & Ht)%lexes_lex. unfold parse, parse_tokens. rewrite Hl.
  destruct (parses_items its (S (length out)) out) as (r & -> & _); [done|lia|done].
Qed.
