(* ===== verification/ConfigRoundtrip.v ===== *)
(** * Printing and parsing a configuration are inverse

    [tree_ok] is the class of trees whose canonical text reads back: node
    names are bare words (the printer never quotes a name), and no bare word
    opens a comment.  Inside the class the round trip holds; outside it the
    crate's documented claim "[parse(to_text(t)) == t] holds for every tree"
    fails, as two concrete trees show. *)

From Stdlib Require Import Ascii NArith Lia.
From stdpp Require Import base tactics list strings option.
From S2P Require Import Prelude Text ConfigLexer ConfigTree ConfigParser.

Definition word_ok (w : string) : bool := negb (bare w && comment_start w).
Definition name_ok (n : string) : bool := bare n && negb (comment_start n).

Fixpoint item_ok (i : Item) : bool :=
  match i with
  | Leaf n vs => name_ok n && forallb word_ok vs
  | Block n ks cs => name_ok n && forallb word_ok ks && forallb item_ok cs
  end.

Definition tree_ok (t : ConfigTree) : bool := forallb item_ok (items t).

(** ** Strings *)

Lemma app_cons c s1 s2 : String c s1 +:+ s2 = String c (s1 +:+ s2).
Proof. done. Qed.

Lemma app_empty_l s : "" +:+ s = s.
Proof. done. Qed.

Lemma str_app_assoc s1 s2 s3 : (s1 +:+ s2) +:+ s3 = s1 +:+ s2 +:+ s3.
Proof. induction s1 as [|c s1 IH]; [done|]. by rewrite !app_cons, IH. Qed.

Lemma replace_char_app c r s1 s2 :
  replace_char c r (s1 +:+ s2) = replace_char c r s1 +:+ replace_char c r s2.
Proof.
  induction s1 as [|d s1 IH]; [done|]. rewrite app_cons. cbn [replace_char].
  by rewrite IH, str_app_assoc.
Qed.

(** The two sequential replacements act character by character. *)
Lemma escape_cons c w :
  escape (String c w) =
  (if decide (c = ch_quote) then String ch_backslash (String ch_quote "")
   else if decide (c = ch_backslash) then String ch_backslash (String ch_backslash "")
   else String c "") +:+ escape w.
Proof.
  unfold escape. cbn [replace_char]. rewrite replace_char_app. f_equal.
  repeat case_decide; simplify_eq; try done. cbn [replace_char].
  by rewrite decide_False.
Qed.

(** ** Quoted words *)

Lemma quoted_escape w s l k :
  ∃ l' k', quoted (escape w +:+ String ch_quote s) l k = Some (w, mkCursor s l' k').
Proof.
  revert l k. induction w as [|c w IH]; intros l k.
  { change (escape "") with "". rewrite app_empty_l. simpl. by do 2 eexists. }
  rewrite escape_cons. destruct (decide (c = ch_quote)) as [->|Hq].
  { rewrite !app_cons, app_empty_l. simpl.
    match goal with |- context [quoted _ ?a ?b] => destruct (IH a b) as (l' & k' & ->) end.
    by do 2 eexists. }
  destruct (decide (c = ch_backslash)) as [->|Hb].
  { rewrite !app_cons, app_empty_l. simpl.
    match goal with |- context [quoted _ ?a ?b] => destruct (IH a b) as (l' & k' & ->) end.
    by do 2 eexists. }
  rewrite !app_cons, app_empty_l. cbn [quoted]. rewrite !decide_False by done.
  match goal with |- context [quoted _ ?a ?b] => destruct (IH a b) as (l' & k' & ->) end.
  by do 2 eexists.
Qed.

Lemma lexes_quoted w s ts :
  lexes s ts → lexes (String ch_quote (escape w) +:+ String ch_quote s) (Word w :: ts).
Proof.
  intros H [|fuel] l k Hf; [lia|]. rewrite app_cons in *. simpl in Hf.
  set (n := advance ch_quote (escape w +:+ String ch_quote s) l k).
  destruct (quoted_escape w s (cline n) (ccol n)) as (l' & k' & Hq).
  destruct (H fuel l' k') as (out & Hl & Hout).
  { apply quoted_length in Hq. simpl in Hq. lia. }
  exists (mkSpanned (Word w) l k :: out). split; [|by rewrite fmap_cons, Hout].
  cbn [lex_loop]. fold n. rewrite Hq, Hl. repeat case_decide; naive_solver.
Qed.

Lemma lexes_atom w s ts :
  word_ok w = true → ends_word s → lexes s ts → lexes (atom w +:+ s) (Word w :: ts).
Proof.
  unfold word_ok, atom. intros Hok Hs H. destruct (bare w) eqn:Hb.
  - apply lexes_word; auto. by apply negb_true_iff in Hok.
  - rewrite str_app_assoc. by apply lexes_quoted.
Qed.

(** ** Statements *)

Lemma lexes_words ws s ts :
  forallb word_ok ws = true → ends_word s → lexes s ts →
  lexes (render_words ws +:+ s) ((Word <$> ws) ++ ts).
Proof.
  intros Hws Hs H. induction ws as [|w ws IH]; [done|].
  cbn [forallb] in Hws. apply andb_true_iff in Hws as [Hw Hws].
  cbn [render_words]. rewrite !str_app_assoc.
  change (" " +:+ ?x) with (String " " x). apply lexes_blank.
  apply lexes_atom; [done| |by apply IH].
  destruct ws; [done|]. by cbn [render_words].
Qed.

Lemma lexes_indent d s ts : lexes s ts → lexes (repeat_str "    " d +:+ s) ts.
Proof.
  intros H. induction d as [|d IH]; [done|]. cbn [repeat_str].
  rewrite str_app_assoc, !app_cons, app_empty_l. by do 4 apply lexes_blank.
Qed.

Lemma ends_render_words ws s : ends_word s → ends_word (render_words ws +:+ s).
Proof. by destruct ws. Qed.

Lemma lexes_head d n ws s ts :
  name_ok n = true → forallb word_ok ws = true → ends_word s → lexes s ts →
  lexes (repeat_str "    " d +:+ n +:+ render_words ws +:+ s) (Word n :: (Word <$> ws) ++ ts).
Proof.
  intros [Hb Hc]%andb_true_iff Hws Hs H. apply lexes_indent.
  apply lexes_word; [done|by apply negb_true_iff| |by apply lexes_words].
  by apply ends_render_words.
Qed.

Lemma render_block n ks cs d :
  render (Block n ks cs) d =
  repeat_str "    " d +:+ n +:+ render_words ks +:+ " {" +:+ newline +:+
  render_all cs (S d) +:+ repeat_str "    " d +:+ "}" +:+ newline.
Proof. cbn [render]. do 5 f_equal. induction cs as [|c cs IH]; [done|]. cbn [render_all]. by rewrite !str_app_assoc, IH. Qed.

Lemma lexes_items_with cs d s ts :
  Forall (λ i, ∀ d s ts, item_ok i = true → lexes s ts →
    lexes (render i d +:+ s) (item_tokens i ++ ts)) cs →
  forallb item_ok cs = true → lexes s ts →
  lexes (render_all cs d +:+ s) (items_tokens cs ++ ts).
Proof.
  intros Hcs Hok H. induction Hcs as [|i cs Hi Hcs IH]; [done|].
  cbn [forallb] in Hok. apply andb_true_iff in Hok as [Hi' Hok].
  cbn [render_all items_tokens]. rewrite str_app_assoc, <-app_assoc. auto.
Qed.

Lemma lexes_item i d s ts :
  item_ok i = true → lexes s ts → lexes (render i d +:+ s) (item_tokens i ++ ts).
Proof.
  revert d s ts. induction i as [n vs|n ks cs IH] using Item_nested_ind;
    intros d s ts Hok H; cbn [item_ok] in Hok.
  - apply andb_true_iff in Hok as [Hn Hvs]. cbn [render item_tokens].
    rewrite !str_app_assoc, <-app_comm_cons, <-app_assoc.
    apply lexes_head; [done..|]. by apply (lexes_char_token ch_newline).
  - apply andb_true_iff in Hok as [[Hn Hks]%andb_true_iff Hcs].
    rewrite render_block, item_tokens_block, !str_app_assoc.
    cbn [app]. rewrite <-app_assoc. cbn [app].
    apply lexes_head; [done..|]. rewrite <-app_assoc. cbn [app].
    change (" {" +:+ ?x) with (String " " (String "{" x)). apply lexes_blank.
    apply (lexes_char_token "{"); [done|]. apply (lexes_char_token ch_newline); [done|].
    apply lexes_items_with; [done..|]. apply lexes_indent.
    apply (lexes_char_token "}"); [done|]. by apply (lexes_char_token ch_newline).
Qed.

(** C1: the canonical text of a well-formed tree parses back to that tree. *)
Theorem parse_to_text t : tree_ok t = true → parse (to_text t) = Ok t.
Proof.
  intros Hok. destruct t as [its]. apply parse_of_tokens. unfold to_text; simpl.
  rewrite <-(app_nil_r (items_tokens its)).
  assert (Happ : render_all its 0 = render_all its 0 +:+ "").
  { generalize (render_all its 0). intros s. induction s as [|c s IH]; [done|].
    by rewrite app_cons, <-IH. }
  rewrite Happ. apply lexes_items_with; [|done|apply lexes_empty].
  apply Forall_forall. intros i _. apply lexes_item.
Qed.

Definition sample_tree : ConfigTree :=
  mkTree [Block "system" [] [Leaf "hostname" ["sw1"]; Leaf "path" ["/etc/hemlock"]];
          Block "interfaces" []
            [Block "ethernet" ["Ethernet0"] [Leaf "description" ["uplink to core"]]]].

Lemma parse_to_text_witness : parse (to_text sample_tree) = Ok sample_tree.
Proof. apply parse_to_text. vm_compute. reflexivity. Defined.

Definition quote_str (s : string) : string := String ch_quote (s +:+ String ch_quote "").

(** Outside the class the round trip loses configuration.  Both trees
    below are themselves results of [parse]: a quoted value that opens a
    comment is printed bare and disappears, and a quoted name is printed bare
    and splits into a name and a value. *)
Theorem to_text_loses_configuration :
  (∃ t, parse ("path " +:+ quote_str "//srv/images") = Ok t ∧
        parse (to_text t) = Ok (mkTree [Leaf "path" []]) ∧
        t = mkTree [Leaf "path" ["//srv/images"]])
  ∧ (∃ t, parse (quote_str "display name" +:+ " x") = Ok t ∧
        parse (to_text t) = Ok (mkTree [Leaf "display" ["name"; "x"]]) ∧
        t = mkTree [Leaf "display name" ["x"]]).
Proof.
  split; [exists (mkTree [Leaf "path" ["//srv/images"]])|exists (mkTree [Leaf "display name" ["x"]])];
    split_and!; vm_compute; reflexivity.
Qed.
