(* ===== verification/ConfigRedact.v ===== *)
(** * Redaction hides every stored secret (hemlock-config/src/tree.rs)

    The reference notion of a stored secret, [stored_secrets], walks every
    block on the path of each of the three secret families; redaction is
    shown against it. *)

From Stdlib Require Import Ascii NArith Lia.
From stdpp Require Import base tactics list strings option.
From S2P Require Import Prelude Text ConfigLexer ConfigTree ConfigParser ConfigRoundtrip.

(** ** The secrets of a configuration *)

(** The children of every block of that name. *)
Definition sub (name : string) (its : list Item) : list Item :=
  mjoin (snd <$> blocks_named its name).

Definition all_leaf_values (name : string) (its : list Item) : list string :=
  mjoin (omap (λ i, match i with
                    | Leaf n vs => if decide (n = name) then Some vs else None
                    | Block _ _ _ => None
                    end) its).

(** [user <name> auth sha <pass> priv aes <pass>]: the two passphrases. *)
Definition snmp_passphrases (its : list Item) : list string :=
  mjoin ((λ i, match i with
               | Leaf n vs =>
                   if decide (n = "user" ∧ length vs = 7%nat)
                   then omap (vs !!.) [3%nat; 6%nat] else []
               | Block _ _ _ => []
               end) <$> its).

Definition radius_keys (t : ConfigTree) : list string :=
  all_leaf_values "key" (sub "radius-server" (sub "dot1x" (sub "security" (items t)))).
Definition login_hashes (t : ConfigTree) : list string :=
  all_leaf_values "password-hash" (sub "user" (sub "login" (sub "system" (items t)))).
Definition snmp_secrets (t : ConfigTree) : list string :=
  snmp_passphrases (sub "snmp" (sub "services" (items t))).

Definition stored_secrets (t : ConfigTree) : list string :=
  radius_keys t ++ login_hashes t ++ snmp_secrets t.

(** No section that can hold a secret is written twice at the top level. *)
Definition sections_once (t : ConfigTree) : Prop :=
  Forall (λ n, length (blocks_named (items t) n) ≤ 1)%nat ["security"; "system"; "services"].

#[export] Instance sections_once_dec t : Decision (sections_once t).
Proof. unfold sections_once. apply _. Defined.

(** The shape of a tree: everything but the values of its leaves. *)
Fixpoint shape (i : Item) : Item :=
  match i with
  | Leaf n _ => Leaf n []
  | Block n ks cs => Block n ks (shape <$> cs)
  end.

(** ** How the passes act on [sub] *)

Section passes.
Variable f : list Item → list Item.

Lemma blocks_on_first n its :
  blocks_named (on_first_block n f its) n =
  match blocks_named its n with
  | [] => []
  | (ks, cs) :: bs => (ks, f cs) :: bs
  end.
Proof.
  unfold blocks_named. induction its as [|[m vs|m ks cs] its IH]; csimpl; [done..|].
  destruct (decide (m = n)) as [->|Hm]; csimpl.
  - by rewrite decide_True.
  - by rewrite decide_False.
Qed.

Lemma blocks_on_first_ne n m its :
  m ≠ n → blocks_named (on_first_block n f its) m = blocks_named its m.
Proof.
  intros Hne. unfold blocks_named.
  induction its as [|[k vs|k ks cs] its IH]; csimpl; [done..|].
  destruct (decide (k = n)) as [->|Hk]; csimpl.
  - by rewrite !decide_False by congruence.
  - by rewrite IH.
Qed.

Lemma blocks_on_first_length n m its :
  length (blocks_named (on_first_block n f its) m) = length (blocks_named its m).
Proof.
  destruct (decide (m = n)) as [->|Hne]; [|by rewrite blocks_on_first_ne].
  rewrite blocks_on_first. by destruct (blocks_named its n) as [|[]].
Qed.

Lemma sub_on_first n its :
  f [] = [] → (length (blocks_named its n) ≤ 1)%nat →
  sub n (on_first_block n f its) = f (sub n its).
Proof.
  intros Hnil Hlen. unfold sub. rewrite blocks_on_first.
  destruct (blocks_named its n) as [|[ks cs] [|b bs]]; simpl in *; [done| |lia].
  by rewrite !app_nil_r.
Qed.

Lemma sub_on_first_ne n m its : m ≠ n → sub m (on_first_block n f its) = sub m its.
Proof. intros Hne. unfold sub. by rewrite blocks_on_first_ne. Qed.

(** Passes over every child distribute over concatenation. *)
Hypothesis f_app : ∀ l1 l2, f (l1 ++ l2) = f l1 ++ f l2.
Hypothesis f_nil : f [] = [].

Lemma sub_on_blocks n its : sub n (on_blocks n f its) = f (sub n its).
Proof.
  unfold sub, blocks_named, on_blocks.
  induction its as [|[m vs|m ks cs] its IH]; csimpl; [done..|].
  destruct (decide (m = n)) as [->|Hm]; csimpl.
  - rewrite decide_True by done. csimpl. by rewrite f_app, <-IH.
  - by rewrite decide_False.
Qed.

Lemma on_blocks_app n l1 l2 : on_blocks n f (l1 ++ l2) = on_blocks n f l1 ++ on_blocks n f l2.
Proof. apply fmap_app. Qed.
End passes.

Lemma hide_leaf_app n l1 l2 : hide_leaf n (l1 ++ l2) = hide_leaf n l1 ++ hide_leaf n l2.
Proof. apply fmap_app. Qed.

Lemma hide_leaf_hides n its : Forall (hidden =.) (all_leaf_values n (hide_leaf n its)).
Proof.
  unfold all_leaf_values, hide_leaf.
  induction its as [|[m vs|m ks cs] its IH]; csimpl; [constructor| |done].
  destruct (decide (m = n)) as [->|Hm]; csimpl.
  - rewrite decide_True by done. csimpl. by constructor.
  - by rewrite decide_False.
Qed.

Lemma snmp_hides (its : list Item) : Forall (hidden =.) (snmp_passphrases (redact_snmp_user <$> its)).
Proof.
  unfold snmp_passphrases. induction its as [|[m vs|m ks cs] its IH]; csimpl; [constructor| |done].
  destruct (decide (m = "user" ∧ length vs = 7%nat)) as [[-> Hlen]|Hm].
  - rewrite decide_True by (by rewrite !length_insert).
    do 8 (destruct vs as [|? vs]; simplify_eq/=). by repeat constructor.
  - by rewrite decide_False.
Qed.

(** ** The shape is preserved *)

Lemma shape_on_first n f its :
  (∀ l, shape <$> f l = shape <$> l) → shape <$> on_first_block n f its = shape <$> its.
Proof.
  intros Hf. induction its as [|[m vs|m ks cs] its IH]; csimpl; [done|by rewrite IH|].
  destruct (decide (m = n)); csimpl; [by rewrite Hf|by rewrite IH].
Qed.

Lemma shape_pass (g : Item → Item) (its : list Item) :
  (∀ i, shape (g i) = shape i) → shape <$> (g <$> its) = shape <$> its.
Proof. intros Hg. rewrite <-list_fmap_compose. apply list_fmap_ext. intros ? i _. apply Hg. Qed.

Lemma shape_on_blocks n f its :
  (∀ l, shape <$> f l = shape <$> l) → shape <$> on_blocks n f its = shape <$> its.
Proof.
  intros Hf. apply shape_pass. intros [m vs|m ks cs]; [done|].
  case_decide; csimpl; [by rewrite Hf|done].
Qed.

Lemma shape_hide_leaf n its : shape <$> hide_leaf n its = shape <$> its.
Proof. apply shape_pass. intros [m vs|m ks cs]; [by case_decide|done]. Qed.

Lemma shape_snmp (its : list Item) : shape <$> (redact_snmp_user <$> its) = shape <$> its.
Proof. apply shape_pass. intros [m vs|m ks cs]; simpl; [by case_decide|done]. Qed.

(** C11: when no secret-bearing section is written twice, redaction replaces
    every stored secret by [<hidden>] and changes nothing but leaf values. *)
Theorem redact_hides_all t :
  sections_once t →
  Forall (hidden =.) (stored_secrets (redact_secrets t))
  ∧ shape <$> items (redact_secrets t) = shape <$> items t.
Proof.
  intros [Hsec [Hsys [Hsrv _]%Forall_cons_1]%Forall_cons_1]%Forall_cons_1. split.
  - unfold stored_secrets, redact_secrets, redact_secrets_impl, radius_keys, login_hashes,
      snmp_secrets, redact_radius_keys, redact_login_hashes, redact_snmp_users.
    cbn [items]. rewrite !Forall_app. split_and!.
    + rewrite sub_on_first; [|done|by rewrite !blocks_on_first_length].
      rewrite sub_on_blocks, sub_on_blocks; try done; try (intros; apply fmap_app).
      apply hide_leaf_hides.
    + rewrite sub_on_first_ne, sub_on_first; [|done|by rewrite !blocks_on_first_length|done].
      rewrite sub_on_blocks, sub_on_blocks; try done; try (intros; apply fmap_app).
      apply hide_leaf_hides.
    + rewrite !sub_on_first_ne, sub_on_first by done.
      rewrite sub_on_blocks; try done; [|intros; apply fmap_app]. apply snmp_hides.
  - unfold redact_secrets, redact_secrets_impl, redact_radius_keys, redact_login_hashes,
      redact_snmp_users. cbn [items].
    rewrite shape_on_first, shape_on_first, shape_on_first; [done|..];
      intros; repeat (rewrite shape_on_blocks; [done|intros]);
      first [apply shape_hide_leaf|apply shape_snmp].
Qed.

Definition secret_tree : ConfigTree :=
  mkTree [Block "security" [] [Block "dot1x" []
            [Block "radius-server" ["10.42.0.5"] [Leaf "key" ["s3cret"]]]];
          Block "services" [] [Block "snmp" []
            [Leaf "user" ["monitor"; "auth"; "sha"; "authpass1"; "priv"; "aes"; "privpass1"]]]].

Lemma redact_hides_all_witness :
  stored_secrets secret_tree = ["s3cret"; "authpass1"; "privpass1"]
  ∧ Forall (hidden =.) (stored_secrets (redact_secrets secret_tree)).
Proof.
  split; [vm_compute; reflexivity|].
  apply (redact_hides_all secret_tree). vm_compute. repeat constructor.
Defined.

(** The restriction is needed: the parser accepts a section written
    twice, and the passes visit only the first one, so the key in the second
    [security] section survives redaction verbatim. *)
Theorem redact_misses_repeated_section :
  ∃ t, parse "security { } security { dot1x { radius-server 10.42.0.5 { key s3cret } } }" = Ok t
    ∧ redact_secrets t = t ∧ stored_secrets (redact_secrets t) = ["s3cret"].
Proof.
  exists (mkTree [Block "security" [] []; Block "security" [] [Block "dot1x" []
    [Block "radius-server" ["10.42.0.5"] [Leaf "key" ["s3cret"]]]]]).
  split_and!; vm_compute; reflexivity.
Qed.
