(* ===== verification/Role.v ===== *)
(** * Login roles and the privileged-operation tables (hemlock-common/src/role.rs)

    Both front-ends ask the two predicates below before running a verb or
    serving a POST. *)

From Stdlib Require Import Ascii NArith Lia.
From stdpp Require Import base tactics list strings option sorting sets.
From S2P Require Import Prelude.

Inductive Role := Admin | Operator.

#[export] Instance Role_eq_dec : EqDecision Role.
Proof. solve_decision. Defined.

(** [impl Default for Role]. *)
Definition default_role : Role := Operator.

Definition as_str (r : Role) : string :=
  match r with Admin => "admin" | Operator => "operator" end.

Definition parse_role (text : string) : option Role :=
  if decide (text = "admin") then Some Admin
  else if decide (text = "operator") then Some Operator else None.

Definition is_admin (r : Role) : bool := match r with Admin => true | Operator => false end.

Definition ROLES : list string := ["admin"; "operator"].

Definition ADMIN_CLI_VERBS : list string :=
  ["configure";
   "set";
   "delete";
   "commit";
   "rollback";
   "discard";
   "request";
   "upgrade"].

Definition ADMIN_WEB_PATHS : list string :=
  ["/api/acls/bindings/edit";
   "/api/acls/clear";
   "/api/acls/edit";
   "/api/arp/edit";
   "/api/arp/flush";
   "/api/bgp/edit";
   "/api/config/restore";
   "/api/copp/clear";
   "/api/copp/edit";
   "/api/dhcp/leases/clear";
   "/api/dhcp/relay/edit";
   "/api/dhcp/server/edit";
   "/api/dot1x/edit";
   "/api/dot1x/reauth";
   "/api/interfaces/edit";
   "/api/lags/edit";
   "/api/lldp/edit";
   "/api/mac-table/edit";
   "/api/mac-table/flush";
   "/api/mirror/edit";
   "/api/ntp/edit";
   "/api/ospf/edit";
   "/api/port-security/clear";
   "/api/port-security/edit";
   "/api/qos/maps/edit";
   "/api/qos/ports/edit";
   "/api/qos/wred/edit";
   "/api/reboot";
   "/api/reboot/cancel";
   "/api/routes/static/edit";
   "/api/sflow/edit";
   "/api/snmp/edit";
   "/api/snooping-sec/bindings/clear";
   "/api/snooping-sec/edit";
   "/api/snooping/edit";
   "/api/spanning-tree/clear-errdisable";
   "/api/spanning-tree/edit";
   "/api/storm-control/edit";
   "/api/svis/edit";
   "/api/system/certificate/regenerate";
   "/api/system/diag/cable";
   "/api/system/diag/ping";
   "/api/system/diag/traceroute";
   "/api/system/identity/edit";
   "/api/system/logging/edit";
   "/api/system/rollback";
   "/api/system/tech-support";
   "/api/system/users/edit";
   "/api/system/web/edit";
   "/api/upgrade/apply";
   "/api/upgrade/discard";
   "/api/upgrade/upload";
   "/api/users/add";
   "/api/vlans/edit";
   "/api/vrrp/edit"].

Definition cli_requires_admin (verb : string) : bool := bool_decide (verb ∈ ADMIN_CLI_VERBS).

Definition web_requires_admin (path : string) : bool := bool_decide (path ∈ ADMIN_WEB_PATHS).

(** The two spellings are inverse, an operator is the default, and the
    web table is strictly ascending (so it has no duplicate) and holds API
    paths only. *)
Theorem role_tables_well_formed :
  (∀ r, parse_role (as_str r) = Some r)
  ∧ (∀ s r, parse_role s = Some r → as_str r = s ∧ s ∈ ROLES)
  ∧ is_admin default_role = false
  ∧ StronglySorted String.le ADMIN_WEB_PATHS ∧ NoDup ADMIN_WEB_PATHS
  ∧ Forall (λ p, String.prefix "/api/" p = true) ADMIN_WEB_PATHS.
Proof.
  split_and!.
  - by intros [].
  - intros s r. unfold parse_role, ROLES. decide_all; intros [= <-]; (split; [done|set_solver]).
  - done.
  - apply (bool_decide_unpack _). vm_compute. exact I.
  - apply (bool_decide_unpack _). vm_compute. exact I.
  - apply (bool_decide_unpack _). vm_compute. exact I.
Qed.
