(* ===== verification/Sessions.v ===== *)
(** * The login-session registry (hemlock-mgmtd/src/sessions.rs)

    Both clocks the code reads are arguments: [now] is [Instant::now()] and
    [wall] is [SystemTime::now()]. *)

From Stdlib Require Import Ascii NArith Lia.
From stdpp Require Import base tactics list strings option gmap sorting sets.
From S2P Require Import Prelude Role.

Local Open Scope N_scope.

Definition STALE_AFTER : N := from_secs (36 * 60 * 60).

Record Session := mkSession {
  user : string;
  role : Role;
  client : string;
  from : string;
  login_time : N;
  last_active : N;
}.

(** Seconds since this session last did anything. *)
Definition idle (s : Session) (now : N) : N := as_secs (since now (last_active s)).

Record Sessions := mkSessions {
  next_id : N;
  live : gmap N Session;
}.

Definition new_sessions : Sessions := mkSessions 0 ∅.

Definition reap (now : N) (t : Sessions) : Sessions :=
  mkSessions (next_id t)
    (btree_retain (λ _ s, since now (last_active s) <? STALE_AFTER) (live t)).

Definition open_session (u : string) (r : Role) (c f : string) (now wall : N) (t : Sessions) :
    N * Sessions :=
  let t := reap now t in
  let id := wrap 64 (next_id t + 1) in
  (id, mkSessions id (<[id := mkSession u r c f wall now]> (live t))).

Definition set_last_active (now : N) (s : Session) : Session :=
  mkSession (user s) (role s) (client s) (from s) (login_time s) now.

Definition touch (id now : N) (t : Sessions) : bool * Sessions :=
  let t := reap now t in
  match live t !! id with
  | Some s => (true, mkSessions (next_id t) (<[id := set_last_active now s]> (live t)))
  | None => (false, t)
  end.

Definition close (id : N) (t : Sessions) : Sessions :=
  mkSessions (next_id t) (delete id (live t)).

(** [left.login_time.cmp(&right.login_time).then(left_id.cmp(right_id))] *)
Definition login_le (a b : N * Session) : Prop :=
  pair_le (login_time a.2, a.1) (login_time b.2, b.1).

#[export] Instance login_le_dec : RelDecision login_le.
Proof. intros a b. unfold login_le. apply _. Defined.
#[export] Instance login_le_trans : Transitive login_le.
Proof. intros a b c. unfold login_le. apply transitivity. Qed.
#[export] Instance login_le_total : Total login_le.
Proof. intros a b. unfold login_le. apply (total pair_le). Qed.

Definition list_sessions (now : N) (t : Sessions) : list (N * Session) * Sessions :=
  let t := reap now t in
  (merge_sort login_le (btree_iter (live t)), t).

Definition set_session_role (r : Role) (s : Session) : Session :=
  mkSession (user s) r (client s) (from s) (login_time s) (last_active s).

Definition set_role (u : string) (r : Role) (t : Sessions) : Sessions :=
  mkSessions (next_id t)
    ((λ s, if decide (user s = u) then set_session_role r s else s) <$> live t).

(** ** The registry as a machine *)

Inductive session_op :=
| OpOpen (u : string) (r : Role) (c f : string) (now wall : N)
| OpTouch (id now : N)
| OpClose (id : N)
| OpList (now : N)
| OpSetRole (u : string) (r : Role).

Definition run_op (o : session_op) (t : Sessions) : Sessions :=
  match o with
  | OpOpen u r c f now wall => (open_session u r c f now wall t).2
  | OpTouch id now => (touch id now t).2
  | OpClose id => close id t
  | OpList now => (list_sessions now t).2
  | OpSetRole u r => set_role u r t
  end.

Definition run_ops (os : list session_op) (t : Sessions) : Sessions :=
  foldl (λ t o, run_op o t) t os.

(** Ids are handed out in order and never reused while the counter has not
    wrapped. *)
Definition ids_below (t : Sessions) : Prop := ∀ id s, live t !! id = Some s → id ≤ next_id t.

Lemma reap_lookup now t id s :
  live (reap now t) !! id = Some s ↔
  live t !! id = Some s ∧ since now (last_active s) < STALE_AFTER.
Proof.
  unfold reap; simpl. rewrite btree_retain_lookup.
  destruct (live t !! id) as [s'|]; [|naive_solver].
  destruct (N.ltb_spec (since now (last_active s')) STALE_AFTER);
    (split; [intros ?|intros [? ?]]; simplify_eq; (done || lia)).
Qed.

Lemma run_op_next o t :
  next_id (run_op o t) = next_id t ∨ next_id (run_op o t) = wrap 64 (next_id t + 1).
Proof.
  destruct o; simpl; auto. unfold touch.
  by destruct (live (reap now t) !! id); auto.
Qed.

Lemma run_op_ids o t :
  next_id t + 1 < 2 ^ 64 → ids_below t → ids_below (run_op o t).
Proof.
  intros Hw Hb. assert (Hr : ∀ now, ids_below (reap now t)).
  { intros now id s [Hs _]%reap_lookup. by apply Hb in Hs. }
  destruct o; simpl; try done.
  - intros id s. simpl. rewrite wrap_id by done. rewrite lookup_insert.
    case_decide; [intros _; lia|]. intros Hs%Hr. simpl in Hs. lia.
  - unfold touch. destruct (live (reap now t) !! id) eqn:E; simpl; [|done].
    intros id' s'. simpl. rewrite lookup_insert.
    case_decide; [subst; intros _; exact (Hr now _ _ E)|]. intros Hs. exact (Hr now _ _ Hs).
  - intros id' s'. simpl. rewrite lookup_delete. case_decide; [done|]. apply Hb.
  - intros id' s'. simpl. rewrite lookup_fmap.
    destruct (live t !! id') eqn:E; [|done]. intros _. exact (Hb _ _ E).
Qed.

(** An operation that does not wrap the counter moves it by at most one. *)
Lemma run_ops_ids os t :
  next_id t + N.of_nat (length os) < 2 ^ 64 → ids_below t →
  ids_below (run_ops os t) ∧ next_id t ≤ next_id (run_ops os t)
  ∧ next_id (run_ops os t) ≤ next_id t + N.of_nat (length os).
Proof.
  revert t. induction os as [|o os IH]; intros t Hw Hb; cbn [run_ops foldl length] in *;
    [split_and!; [done|lia|lia]|].
  fold (run_ops os (run_op o t)).
  assert (Hn : next_id t ≤ next_id (run_op o t) ≤ next_id t + 1).
  { destruct (run_op_next o t) as [->| ->]; [lia|]. rewrite wrap_id; [lia|unfold fits; lia]. }
  destruct (IH (run_op o t)) as (? & ? & ?); [lia|apply run_op_ids; [lia|done]|].
  split_and!; [done|lia|lia].
Qed.

(** Whatever sequence of operations ran before (fewer than [2^64] of
    them), opening a session returns an id no live session has, the table
    gains exactly that session, and every other live session is the one it
    was, unless it had gone stale. *)
Theorem open_session_fresh os u r c f now wall :
  N.of_nat (length os) + 1 < 2 ^ 64 →
  let t := run_ops os new_sessions in
  let '(id, t') := open_session u r c f now wall t in
  live t !! id = None
  ∧ live t' !! id = Some (mkSession u r c f wall now)
  ∧ ∀ id', id' ≠ id → live t' !! id' = live (reap now t) !! id'.
Proof.
  intros Hw. cbn zeta.
  destruct (run_ops_ids os new_sessions) as (Hb & _ & Hn); [simpl; lia|by intros ??|].
  simpl in Hn. set (t := run_ops os new_sessions) in *. simpl.
  rewrite wrap_id by (unfold fits; lia). split_and!.
  - destruct (live t !! (next_id t + 1)) eqn:E; [|done]. apply Hb in E. lia.
  - apply lookup_insert_eq.
  - intros id' Hne. by rewrite lookup_insert_ne.
Qed.

Lemma open_session_fresh_witness :
  let t := run_ops [OpOpen "cody" Admin "cli" "console" 1 1; OpClose 1] new_sessions in
  live t !! (open_session "noc" Operator "web" "10.0.0.1" 5 5 t).1 = None.
Proof.
  apply (open_session_fresh [OpOpen "cody" Admin "cli" "console" 1 1; OpClose 1]
           "noc" Operator "web" "10.0.0.1" 5 5).
  vm_compute. reflexivity.
Defined.

(** [list] returns every session touched within [STALE_AFTER], once,
    oldest login first with the id breaking ties, and forgets the others. *)
Theorem list_sessions_spec now t :
  let '(l, t') := list_sessions now t in
  (∀ id s, (id, s) ∈ l ↔ live t !! id = Some s ∧ since now (last_active s) < STALE_AFTER)
  ∧ NoDup l.*1 ∧ StronglySorted login_le l
  ∧ (∀ id s, live t' !! id = Some s ↔ (id, s) ∈ l).
Proof.
  unfold list_sessions.
  assert (Hin : ∀ id s, (id, s) ∈ merge_sort login_le (btree_iter (live (reap now t))) ↔
    live (reap now t) !! id = Some s).
  { intros id s. by rewrite merge_sort_Permutation, elem_of_btree_iter. }
  split_and!.
  - intros id s. by rewrite Hin, reap_lookup.
  - rewrite merge_sort_Permutation. apply NoDup_btree_keys.
  - apply StronglySorted_merge_sort; apply _.
  - intros id s. by rewrite Hin.
Qed.
