(* ===== verification/Store.v ===== *)
(** * The configuration store and its rollback ring (hemlock-mgmtd/src/store.rs)

    The state directory is a record of optional files; a rename moves a
    file over its target, a write replaces it.  I/O errors are not modelled:
    every file operation succeeds.  [serde_json] is a parameter ([JsonMeta]):
    the store relies on reading back the metadata it wrote. *)

From Stdlib Require Import Ascii NArith Lia.
From stdpp Require Import base tactics list strings option gmap.
From S2P Require Import Prelude.

Definition RING_SIZE : nat := 50.

Record RollbackMeta := mkMeta {
  committed_at : string;
  comment : string;
  meta_user : string;
  meta_client : string;
}.

(** [RollbackMeta::default()]. *)
Definition default_meta : RollbackMeta := mkMeta "" "" "" "".

(** What the store uses of [serde_json]. *)
Class JsonMeta := {
  to_json : RollbackMeta → string;
  from_json : string → option RollbackMeta;
}.

(** Its documented contract: reading back what was serialized. *)
Class JsonMetaOk `{JsonMeta} : Prop := {
  from_to_json : ∀ m, from_json (to_json m) = Some m;
}.

(** The files of the state directory. *)
Record files := mkFiles {
  running_conf : option string;
  running_json : option string;
  candidate_conf : option string;
  ring_conf : gmap nat string;
  ring_json : gmap nat string;
}.

Definition empty_store : files := mkFiles None None None ∅ ∅.

Section store.
Context {J : JsonMeta}.

Definition read_or_empty (f : option string) : string := default "" f.

(** [read_to_string(..).ok().and_then(from_str).unwrap_or_default()] *)
Definition read_meta (f : option string) : RollbackMeta :=
  default default_meta (f ≫= from_json).

Definition running_meta (s : files) : RollbackMeta := read_meta (running_json s).
Definition running (s : files) : string := read_or_empty (running_conf s).

Definition candidate (s : files) : string :=
  match candidate_conf s with
  | Some text => text
  | None => running s
  end.

Definition set_candidate (text : string) (s : files) : files :=
  mkFiles (running_conf s) (running_json s) (Some text) (ring_conf s) (ring_json s).

Definition discard_candidate (s : files) : files := set_candidate (running s) s.

(** [std::fs::rename(from, to)] of an existing file. *)
Definition rename (m : gmap nat string) (from to : nat) : gmap nat string :=
  match m !! from with
  | Some text => <[to := text]> (delete from m)
  | None => m
  end.

(** One pass of the rotation loop: [n -> n + 1], when there is an [n]. *)
Definition shift_one (s : files) (n : nat) : files :=
  match ring_conf s !! n with
  | Some _ =>
      mkFiles (running_conf s) (running_json s) (candidate_conf s)
        (rename (ring_conf s) n (S n)) (rename (ring_json s) n (S n))
  | None => s
  end.

(** [for n in (1..RING_SIZE).rev()] *)
Definition rotate (s : files) : files := foldl shift_one s (reverse (seq 1 (RING_SIZE - 1))).

Definition commit (new_running : string) (meta : RollbackMeta) (s : files) : files :=
  let s := rotate s in
  let s := mkFiles (running_conf s) (running_json s) (candidate_conf s)
             (<[1%nat := running s]> (ring_conf s))
             (<[1%nat := to_json (running_meta s)]> (ring_json s)) in
  let s := mkFiles (Some new_running) (Some (to_json meta)) (candidate_conf s)
             (ring_conf s) (ring_json s) in
  set_candidate new_running s.

(** Text of rollback point [n]. *)
Definition rollback (n : nat) (s : files) : option string := ring_conf s !! n.

Definition list_rollbacks (s : files) : list (nat * RollbackMeta) :=
  omap (λ n, match ring_conf s !! n with
             | Some _ => Some (n, read_meta (ring_json s !! n))
             | None => None
             end) (seq 1 RING_SIZE).

(** ** The abstract store

    The running configuration, the draft and the bounded list of displaced
    configurations, newest first, each with the metadata of the commit that
    created it. *)

Record history := mkHistory {
  h_running : string * RollbackMeta;
  h_candidate : string;
  h_ring : list (string * RollbackMeta);
}.

Definition h_commit (text : string) (m : RollbackMeta) (h : history) : history :=
  mkHistory (text, m) text (take RING_SIZE (h_running h :: h_ring h)).

Definition h_set_candidate (text : string) (h : history) : history :=
  mkHistory (h_running h) text (h_ring h).

Definition h_discard (h : history) : history :=
  mkHistory (h_running h) (h_running h).1 (h_ring h).

(** Slot [n] of the directory is entry [n - 1] of the list; there is
    nothing at 0 or past the end, and a metadata file exactly where there
    is a configuration. *)
Definition slot {A} (l : list A) (n : nat) : option A :=
  match n with O => None | S i => l !! i end.

Record represents (s : files) (h : history) : Prop := {
  rep_running : running s = (h_running h).1;
  rep_meta : running_meta s = (h_running h).2;
  rep_candidate : candidate s = h_candidate h;
  rep_length : (length (h_ring h) ≤ RING_SIZE)%nat;
  rep_conf : ∀ n, ring_conf s !! n = slot (h_ring h).*1 n;
  rep_json : ∀ n, from_json <$> ring_json s !! n = Some <$> slot (h_ring h).*2 n;
}.

(** ** The rotation *)

(** After the first [i] passes ([49, .., 50 - i]): the slots from [50 - i]
    on have moved up by one and the hole is at [50 - i]. *)
Definition shifted {A} (i : nat) (l : list A) (n : nat) : option A :=
  if decide (i = 0 ∨ n < RING_SIZE - i)%nat then slot l n
  else if decide (n = RING_SIZE - i)%nat then None
  else if decide (n ≤ RING_SIZE)%nat then slot l (n - 1) else None.

Lemma slot_is_Some {A} (l : list A) n : is_Some (slot l n) ↔ (0 < n ≤ length l)%nat.
Proof. destruct n; simpl; [split; [by intros []|lia]|]. rewrite lookup_lt_is_Some. lia. Qed.

Lemma slot_None {A} (l : list A) n : (length l < n)%nat → slot l n = None.
Proof. intros Hn. destruct n; [done|]. apply lookup_ge_None. lia. Qed.

Lemma rename_lookup m a b n :
  is_Some (m !! a) → a ≠ b →
  rename m a b !! n = if decide (n = b) then m !! a else if decide (n = a) then None else m !! n.
Proof.
  intros [x Hx] Hab. unfold rename. rewrite Hx, lookup_insert, lookup_delete.
  repeat case_decide; naive_solver.
Qed.

(** One pass, seen through any reading [f] of the file contents. *)
Lemma shift_map {B} (f : string → B) (m : gmap nat string) (l : list B) i :
  (S i < RING_SIZE)%nat → (length l ≤ RING_SIZE)%nat →
  (∀ n, f <$> m !! n = shifted i l n) →
  ∀ n, f <$> rename m (RING_SIZE - S i) (RING_SIZE - i) !! n = shifted (S i) l n.
Proof.
  unfold RING_SIZE. intros Hi Hl Hm n.
  assert (Ha : f <$> m !! (50 - S i)%nat = slot l (50 - S i)%nat).
  { rewrite Hm. unfold shifted, RING_SIZE. by rewrite decide_True by lia. }
  specialize (Hm n). unfold shifted, RING_SIZE in *.
  destruct (m !! (50 - S i)%nat) as [x|] eqn:Ex.
  - rewrite rename_lookup; [|by eauto|lia]. rewrite Ex.
    repeat case_decide; subst; try lia; try done;
      first [rewrite Ha; f_equal; lia | rewrite Hm; apply slot_None; lia].
  - unfold rename. rewrite Ex.
    assert (Hlen : (length l < 50 - S i)%nat).
    { apply Nat.nle_gt. intros Hle.
      assert (is_Some (slot l (50 - S i))) as [y Hy] by (apply slot_is_Some; lia).
      by rewrite Hy in Ha. }
    rewrite Hm. repeat case_decide; subst; try lia; try done;
      rewrite ?slot_None by lia; done.
Qed.

Lemma seq_reverse_snoc i :
  (S i < RING_SIZE)%nat →
  reverse (seq (RING_SIZE - S i) (S i)) =
  reverse (seq (RING_SIZE - i) i) ++ [(RING_SIZE - S i)%nat].
Proof.
  unfold RING_SIZE. intros Hi. cbn [seq]. rewrite reverse_cons.
  by replace (S (50 - S i)) with (50 - i)%nat by lia.
Qed.

(** The first [i] passes of the rotation. *)
Definition passes (i : nat) (s : files) : files :=
  foldl shift_one s (reverse (seq (RING_SIZE - i) i)).

Lemma rotate_passes s : rotate s = passes (RING_SIZE - 1) s.
Proof.
  unfold rotate, passes. by replace (RING_SIZE - (RING_SIZE - 1))%nat with 1%nat by reflexivity.
Qed.

Lemma rotate_steps s h i :
  represents s h → (i < RING_SIZE)%nat →
  running_conf (passes i s) = running_conf s ∧ running_json (passes i s) = running_json s
  ∧ candidate_conf (passes i s) = candidate_conf s
  ∧ (∀ n, ring_conf (passes i s) !! n = shifted i (h_ring h).*1 n)
  ∧ (∀ n, from_json <$> ring_json (passes i s) !! n = shifted i (Some <$> (h_ring h).*2) n).
Proof.
  intros Hrep Hi. induction i as [|i IH].
  - split_and!; try done.
    + intros n. unfold shifted. rewrite decide_True by auto. apply Hrep.
    + intros n. unfold shifted. rewrite decide_True by auto. rewrite (rep_json _ _ Hrep).
      destruct n; [done|]. symmetry. apply list_lookup_fmap.
  - unfold passes. rewrite seq_reverse_snoc, foldl_app by done. cbn [foldl].
    destruct IH as (Hr & Hj & Hc & Hconf & Hjson); [lia|].
    fold (passes i s). set (s' := passes i s) in *.
    pose proof (rep_length _ _ Hrep) as Hl.
    assert (Hconf' : ∀ n, id <$> ring_conf s' !! n = shifted i (h_ring h).*1 n)
      by (intros n; by rewrite option_fmap_id).
    assert (Hl1 : (length (h_ring h).*1 ≤ RING_SIZE)%nat) by (by rewrite length_fmap).
    assert (Hl2 : (length (Some <$> (h_ring h).*2) ≤ RING_SIZE)%nat) by (by rewrite !length_fmap).
    pose proof (shift_map id _ _ i Hi Hl1 Hconf') as H1.
    pose proof (shift_map from_json _ _ i Hi Hl2 Hjson) as H2.
    replace (RING_SIZE - i)%nat with (S (RING_SIZE - S i)) in H1, H2 by (unfold RING_SIZE in *; lia).
    unfold shift_one. destruct (ring_conf s' !! (RING_SIZE - S i)%nat) eqn:E; simpl.
    + split_and!; try done. intros n. by rewrite <-H1, option_fmap_id.
    + assert (Ej : ring_json s' !! (RING_SIZE - S i)%nat = None).
      { specialize (Hjson (RING_SIZE - S i)%nat). rewrite Hconf in E. unfold shifted in *.
        rewrite decide_True in E by lia. rewrite decide_True in Hjson by lia. apply (fmap_None from_json). rewrite Hjson.
        unfold slot in *. destruct (RING_SIZE - S i)%nat; [done|].
        rewrite !list_lookup_fmap in *. by destruct (h_ring h !! n). }
      unfold rename in H1, H2. rewrite E in H1. rewrite Ej in H2.
      split_and!; try done. intros n. by rewrite <-H1, option_fmap_id.
Qed.

Lemma slot_cons {A} (x : A) l n : slot (x :: l) (S n) = if decide (n = 0)%nat then Some x else slot l n.
Proof. by destruct n. Qed.

Lemma slot_take {A} (l : list A) k n : (n ≤ k)%nat → slot (take k l) n = slot l n.
Proof. destruct n; simpl; [done|]. intros Hn. by rewrite lookup_take_lt by lia. Qed.

(** The slots after a whole rotation and the write of slot 1 are the
    bounded push. *)
Lemma pushed_slot {A} (x : A) (l : list A) n :
  (if decide (1 = n)%nat then Some x else shifted (RING_SIZE - 1) l n)
  = slot (take RING_SIZE (x :: l)) n.
Proof.
  unfold shifted, RING_SIZE. repeat case_decide; subst; try lia; try done.
  - destruct n; [done|lia].
  - rewrite slot_take by lia. destruct n as [|n]; [lia|].
    rewrite slot_cons, decide_False by lia. f_equal. lia.
  - symmetry. apply slot_None. rewrite length_take. lia.
Qed.

(** The rotation never touches the running configuration, so slot 1
    receives the text that was running. *)
Lemma rotate_running s : running_conf (rotate s) = running_conf s.
Proof.
  unfold rotate. generalize (reverse (seq 1 (RING_SIZE - 1))). intros ns. revert s.
  induction ns as [|n ns IH]; intros s; simpl; [done|].
  rewrite IH. unfold shift_one. by destruct (ring_conf s !! n).
Qed.

Lemma rollback_commit text m s : rollback 1 (commit text m s) = Some (running s).
Proof.
  unfold rollback, commit, set_candidate; cbn [ring_conf].
  rewrite lookup_insert_eq. unfold running. by rewrite rotate_running.
Qed.

Context {JOk : JsonMetaOk}.

Lemma commit_refines text m s h :
  represents s h → represents (commit text m s) (h_commit text m h).
Proof.
  intros Hrep.
  assert (Hlt : (RING_SIZE - 1 < RING_SIZE)%nat) by (unfold RING_SIZE; lia).
  pose proof (rotate_steps s h (RING_SIZE - 1) Hrep Hlt) as Hrot.
  rewrite <-rotate_passes in Hrot. destruct Hrot as (Hr & Hj & Hc & Hconf & Hjson).
  assert (Hrun : running (rotate s) = (h_running h).1)
    by (unfold running; rewrite Hr; apply Hrep).
  assert (Hmeta : running_meta (rotate s) = (h_running h).2)
    by (unfold running_meta; rewrite Hj; apply Hrep).
  split; cbn [h_commit h_running h_candidate h_ring].
  - done.
  - unfold running_meta, read_meta; simpl. by rewrite from_to_json.
  - done.
  - rewrite length_take. lia.
  - intros n. unfold commit, set_candidate; cbn [ring_conf].
    rewrite lookup_insert, Hconf, Hrun, fmap_take, fmap_cons. apply pushed_slot.
  - intros n. unfold commit, set_candidate; cbn [ring_json].
    rewrite lookup_insert, Hmeta.
    transitivity (slot (take RING_SIZE (Some (h_running h).2 :: (Some <$> (h_ring h).*2))) n).
    + rewrite <-pushed_slot. case_decide; [by simpl; rewrite from_to_json|apply Hjson].
    + rewrite <-fmap_cons, <-fmap_cons, <-fmap_take, <-fmap_take.
      destruct n; [done|]. apply list_lookup_fmap.
Qed.

(** ** Whole runs *)

Inductive store_op :=
| SetCandidate (text : string)
| Discard
| Commit (text : string) (m : RollbackMeta).

Definition run_store (o : store_op) (s : files) : files :=
  match o with
  | SetCandidate text => set_candidate text s
  | Discard => discard_candidate s
  | Commit text m => commit text m s
  end.

Definition run_history (o : store_op) (h : history) : history :=
  match o with
  | SetCandidate text => h_set_candidate text h
  | Discard => h_discard h
  | Commit text m => h_commit text m h
  end.

Definition empty_history : history := mkHistory ("", default_meta) "" [].

Lemma empty_represents : represents empty_store empty_history.
Proof.
  split; try done.
  - simpl. unfold RING_SIZE. lia.
  - intros [|n]; [done|]. by cbn [slot h_ring empty_history fmap list_fmap].
  - intros [|n]; [done|]. by cbn [slot h_ring empty_history fmap list_fmap].
Qed.

Lemma run_store_refines o s h :
  represents s h → represents (run_store o s) (run_history o h).
Proof.
  intros Hrep. destruct o; simpl; [| |by apply commit_refines].
  - destruct Hrep. by split.
  - destruct Hrep as [Hr Hm Hc Hl Hconf Hjson]. by split.
Qed.

(** Reading the slots of a list in order gives back the numbered list. *)
Lemma slot_zip {A} (l p : list A) :
  omap (λ n, (λ m, (n, m)) <$> slot (p ++ l) n) (seq (S (length p)) (length l))
  = zip (seq (S (length p)) (length l)) l.
Proof.
  revert p. induction l as [|x l IH]; intros p; [done|]. cbn [length seq]. csimpl.
  rewrite list_lookup_middle by done. simpl. f_equal.
  specialize (IH (p ++ [x])). rewrite length_app in IH. simpl in IH.
  rewrite <-app_assoc, Nat.add_1_r in IH. apply IH.
Qed.

Lemma slot_past {A} (l : list A) a k :
  (length l < a)%nat → omap (λ n, (λ m, (n, m)) <$> slot l n) (seq a k) = [].
Proof.
  revert a. induction k as [|k IH]; intros a Ha; [done|]. cbn [seq]. csimpl.
  rewrite slot_None by done. simpl. apply IH. lia.
Qed.

Lemma list_rollbacks_spec s h :
  represents s h →
  list_rollbacks s = zip (seq 1 (length (h_ring h))) (h_ring h).*2.
Proof.
  intros Hrep. unfold list_rollbacks.
  assert (Hn : ∀ n, match ring_conf s !! n with
                    | Some _ => Some (n, read_meta (ring_json s !! n))
                    | None => None
                    end = (λ m, (n, m)) <$> slot (h_ring h).*2 n).
  { intros n. rewrite (rep_conf _ _ Hrep). pose proof (rep_json _ _ Hrep n) as Hj.
    destruct n as [|n]; [done|]. simpl in *. rewrite list_lookup_fmap in *.
    rewrite list_lookup_fmap in Hj |- *.
    destruct (h_ring h !! n) as [[t m]|]; simpl in *; [|done].
    destruct (ring_json s !! S n) as [j|]; simplify_eq/=. unfold read_meta. simpl. by rewrite Hj. }
  pose proof (rep_length _ _ Hrep) as Hl.
  transitivity (omap (λ n, (λ m, (n, m)) <$> slot (h_ring h).*2 n) (seq 1 RING_SIZE)).
  { clear Hl. induction (seq 1 RING_SIZE) as [|n ns IH]; csimpl; [done|]. by rewrite Hn, IH. }
  rewrite <-(length_fmap snd) in Hl |- *. revert Hl. generalize ((h_ring h).*2). clear.
  intros l Hl. rewrite <-(Nat.sub_add _ _ Hl), Nat.add_comm, seq_app, omap_app.
  transitivity (zip (seq 1 (length l)) l ++ []); [f_equal|by rewrite app_nil_r].
  - apply (slot_zip l []).
  - apply slot_past. lia.
Qed.

Lemma run_ops_represents ops s h :
  represents s h →
  represents (foldl (λ s o, run_store o s) s ops) (foldl (λ h o, run_history o h) h ops).
Proof.
  revert s h. induction ops as [|o ops IH]; intros s h Hrep; simpl; [done|].
  by apply IH, run_store_refines.
Qed.

(** C2: after any sequence of drafts, discards and commits the state
    directory is exactly the abstract history: running, candidate, and at
    most [RING_SIZE] displaced configurations, newest first, each with the
    metadata of its own commit; [rollback n] reads entry [n] and
    [list_rollbacks] numbers the entries from 1. *)
Theorem store_refines_history ops :
  let s := foldl (λ s o, run_store o s) empty_store ops in
  let h := foldl (λ h o, run_history o h) empty_history ops in
  represents s h
  ∧ (∀ n, rollback n s = slot (h_ring h).*1 n)
  ∧ list_rollbacks s = zip (seq 1 (length (h_ring h))) (h_ring h).*2.
Proof.
  intros s h. assert (Hrep : represents s h) by apply run_ops_represents, empty_represents.
  split_and!; [done|apply Hrep|by apply list_rollbacks_spec].
Qed.
End store.

(** ** A concrete metadata format, for the witness *)

Module FieldFormat.
Fixpoint put (s rest : string) : string :=
  match s with
  | EmptyString => String "." rest
  | String c s => String "x" (String c (put s rest))
  end.

Fixpoint get (s : string) {struct s} : option (string * string) :=
  match s with
  | String m s' =>
      if decide (m = "."%char) then Some ("", s')
      else match s' with
           | String c s'' => '(v, r) ← get s''; Some (String c v, r)
           | EmptyString => None
           end
  | EmptyString => None
  end.

Lemma get_put s rest : get (put s rest) = Some (s, rest).
Proof. induction s as [|c s IH]; simpl; [done|]. by rewrite IH. Qed.

#[export] Instance json : JsonMeta := {
  to_json m := put (committed_at m) (put (comment m) (put (meta_user m) (put (meta_client m) "")));
  from_json s :=
    '(a, s) ← get s; '(b, s) ← get s; '(c, s) ← get s; '(d, s) ← get s; Some (mkMeta a b c d);
}.

#[export] Instance json_ok : JsonMetaOk.
Proof. split. intros [a b c d]. simpl. by do 4 (rewrite get_put; simpl). Qed.
End FieldFormat.

Definition test_meta (c : string) : RollbackMeta := mkMeta "2026-01-01T00:00:00Z" c "cody" "cli".

Lemma store_refines_history_witness :
  let s := foldl (λ s o, run_store (J := FieldFormat.json) o s) empty_store
             [Commit "v1" (test_meta "first"); Commit "v2" (test_meta "second");
              Commit "v3" (test_meta "third")] in
  list_rollbacks (J := FieldFormat.json) s
    = [(1, test_meta "second"); (2, test_meta "first"); (3, default_meta)]%nat.
Proof.
  etransitivity.
  - apply (store_refines_history (J := FieldFormat.json) (JOk := FieldFormat.json_ok)
      [Commit "v1" (test_meta "first"); Commit "v2" (test_meta "second");
       Commit "v3" (test_meta "third")]).
  - vm_compute. reflexivity.
Defined.
