(* ===== verification/CommitEngine.v ===== *)
(** * The commit engine (hemlock-mgmtd/src/service.rs)

    The handlers that move the configuration lifecycle, each run under the
    engine mutex, and the timer task a commit-confirm spawns.  A task first
    sleeps ([Sleeping]); when its window ends before a cancellation reaches it
    it queues for the mutex ([Expired]) and later runs its body.  Handlers and
    task bodies are atomic (the mutex), their interleaving is not.

    What the engine relies on and cannot be read off this file is an
    argument: the intent extractor ([IntentEngine]), the outcome of the
    checks and of the pushes that depend on the other daemons' answers
    ([checks_ok], [push_ok]) and the clock ([stamp]). *)

From Stdlib Require Import Ascii NArith Lia.
From stdpp Require Import base tactics list strings option gmap relations.
From S2P Require Import Prelude ConfigTree ConfigParser Role Sessions Store.

Local Open Scope N_scope.

Record LoginIntent := mkLogin { login_role : Role; password_hash : option string }.

(** What the engine uses of [intents::extract]. *)
Class IntentEngine := {
  Intents : Type;
  extract : ConfigTree → option Intents;
  login : Intents → gmap string LoginIntent;
}.

Inductive Status :=
| FailedPrecondition
| Internal
| NotFound.

Inductive phase := Sleeping | Expired.

(** A spawned timer: the text it restores, where it is, and whether its
    cancel channel has fired (a send or a dropped sender, the [select!] arm
    takes both). *)
Record Task := mkTask { pre_commit_running : string; task_phase : phase; cancelled : bool }.

Record Engine := mkEngine {
  store : files;
  commit_seq : N;
  sessions : Sessions;
  pending_confirm : option N;
}.

Record system := mkSystem {
  engine : Engine;
  tasks : gmap N Task;
  next_task : N;
}.

Record CommitRequest := mkCommit {
  req_user : string;
  req_client : string;
  req_comment : string;
  confirm_timeout_secs : N;
}.

Record CommitResponse := mkResponse { commit_id : N; warnings : list string }.

Section engine.
Context {J : JsonMeta} {I : IntentEngine}.

Definition parse_intents (text : string) : option Intents :=
  match parse text with Ok t => extract t | Err _ => None end.

(** Syntax and intents, then the checks against the platform. *)
Definition validate (checks_ok : bool) (text : string) : bool :=
  match parse_intents text with Some _ => checks_ok | None => false end.

Definition login_of (text : string) : gmap string LoginIntent :=
  match parse_intents text with Some i => login i | None => ∅ end.

(** The role an account has, and whether the configuration said so. *)
Definition role_of (os_role : string → Role) (u : string) (e : Engine) : Role * bool :=
  match login_of (running (store e)) !! u with
  | Some configured => (login_role configured, true)
  | None => (os_role u, false)
  end.

Definition self_change_warnings (u : string) (candidate_text : string) (e : Engine) :
    list string :=
  if decide (u = "") then []
  else match login_of (running (store e)) !! u with
  | None => []
  | Some before =>
      match login_of candidate_text !! u with
      | None => ["warning: this commit removes your own account (" +:+ u +:+
                 "); the current session keeps working until it ends"]
      | Some after =>
          if is_admin (login_role before) && negb (is_admin (login_role after)) then
            ["warning: this commit demotes your own account (" +:+ u +:+ ") to operator"]
          else if decide (password_hash before ≠ password_hash after) then
            ["warning: this commit changes your own password (" +:+ u +:+
             "); the next login needs the new one"]
          else []
      end
  end.

(** Push the delta, then persist; [None] when the text does not parse or a
    push fails, before anything is persisted. *)
Definition apply_and_persist (push_ok : bool) (stamp new_text comment by_user by_client : string)
    (e : Engine) : option Engine :=
  match parse_intents new_text with
  | None => None
  | Some _ =>
      if push_ok then
        Some (mkEngine (Store.commit new_text (mkMeta stamp comment by_user by_client) (store e))
                (wrap 64 (commit_seq e + 1)) (sessions e) (pending_confirm e))
      else None
  end.

(** ** The handlers *)

(** [pending_confirm.take()] and the cancel channel of what it held. *)
Definition cancel_task (id : N) (ts : gmap N Task) : gmap N Task :=
  alter (λ t, mkTask (pre_commit_running t) (task_phase t) true) id ts.

Definition take_pending (s : system) : option N * system :=
  let e := engine s in
  (pending_confirm e,
   mkSystem (mkEngine (store e) (commit_seq e) (sessions e) None)
     (match pending_confirm e with Some id => cancel_task id (tasks s) | None => tasks s end)
     (next_task s)).

Definition with_store (f : files → files) (s : system) : system :=
  let e := engine s in
  mkSystem (mkEngine (f (store e)) (commit_seq e) (sessions e) (pending_confirm e))
    (tasks s) (next_task s).

Definition set_candidate_rpc (checks_ok : bool) (text : string) (s : system) : bool * system :=
  if validate checks_ok text then (true, with_store (set_candidate text) s) else (false, s).

(** [for (user, configured) in &intents.login { sessions.set_role(..) }] *)
Definition push_roles (text : string) (t : Sessions) : Sessions :=
  match parse_intents text with
  | Some i => foldl (λ t ul, set_role ul.1 (login_role ul.2) t) t (btree_iter (login i))
  | None => t
  end.

Definition commit_rpc (checks_ok push_ok : bool) (stamp : string) (req : CommitRequest)
    (s : system) : result Status CommitResponse * system :=
  let s := (take_pending s).2 in
  let cand := candidate (store (engine s)) in
  if validate checks_ok cand then
    let pre := running (store (engine s)) in
    let ws := self_change_warnings (req_user req) cand (engine s) in
    match apply_and_persist push_ok stamp cand (req_comment req) (req_user req)
            (req_client req) (engine s) with
    | None => (Err Internal, s)
    | Some e =>
        let e := mkEngine (store e) (commit_seq e) (push_roles cand (sessions e))
                   (pending_confirm e) in
        let resp := mkResponse (commit_seq e) ws in
        if 0 <? confirm_timeout_secs req then
          (Ok resp,
           mkSystem (mkEngine (store e) (commit_seq e) (sessions e) (Some (next_task s)))
             (<[next_task s := mkTask pre Sleeping false]> (tasks s)) (next_task s + 1))
        else (Ok resp, mkSystem e (tasks s) (next_task s))
    end
  else (Err FailedPrecondition, s).

Definition confirm_rpc (s : system) : bool * system :=
  let '(was, s) := take_pending s in
  (match was with Some _ => true | None => false end, s).

Definition rollback_rpc (n : nat) (s : system) : result Status string * system :=
  match rollback n (store (engine s)) with
  | None => (Err NotFound, s)
  | Some text => (Ok text, with_store (set_candidate text) s)
  end.

Definition discard_rpc (s : system) : system := with_store discard_candidate s.

(** The body of the timer task, once it holds the mutex. *)
Definition timer_body (push_ok : bool) (stamp : string) (id : N) (t : Task) (s : system) : system :=
  let s := mkSystem (engine s) (delete id (tasks s)) (next_task s) in
  match take_pending s with
  | (None, _) => s
  | (Some _, s) =>
      match apply_and_persist push_ok stamp (pre_commit_running t)
              "auto-rollback (commit-confirm expired)" "" "system" (engine s) with
      | Some e => mkSystem e (tasks s) (next_task s)
      | None => s
      end
  end.

(** ** The system: handlers and timer tasks interleaved *)

Inductive label :=
| LSetCandidate (checks_ok : bool) (text : string)
| LCommit (checks_ok push_ok : bool) (stamp : string) (req : CommitRequest)
| LConfirm
| LRollback (n : nat)
| LDiscard
| LExpire (id : N)
| LTimer (push_ok : bool) (stamp : string) (id : N)
| LReap (id : N).

Inductive step (s : system) : label → system → Prop :=
| step_set_candidate ok text :
    step s (LSetCandidate ok text) (set_candidate_rpc ok text s).2
| step_commit ok push stamp req :
    step s (LCommit ok push stamp req) (commit_rpc ok push stamp req s).2
| step_confirm : step s LConfirm (confirm_rpc s).2
| step_rollback n : step s (LRollback n) (rollback_rpc n s).2
| step_discard : step s LDiscard (discard_rpc s)
| step_expire id text :
    tasks s !! id = Some (mkTask text Sleeping false) →
    step s (LExpire id)
      (mkSystem (engine s) (<[id := mkTask text Expired false]> (tasks s)) (next_task s))
| step_timer push stamp id t :
    tasks s !! id = Some t → task_phase t = Expired →
    step s (LTimer push stamp id) (timer_body push stamp id t s)
| step_reap id t :
    tasks s !! id = Some t → task_phase t = Sleeping → cancelled t = true →
    step s (LReap id) (mkSystem (engine s) (delete id (tasks s)) (next_task s)).

Definition boot (st : files) : system :=
  mkSystem (mkEngine st 0 new_sessions None) ∅ 0.

Inductive runs : system → list label → system → Prop :=
| runs_nil s : runs s [] s
| runs_cons s l s' ls s'' : step s l s' → runs s' ls s'' → runs s (l :: ls) s''.

(** ** The armed window *)

Record armed_inv (s : system) : Prop := {
  inv_ids : ∀ id t, tasks s !! id = Some t → id < next_task s;
  inv_pending : ∀ p, pending_confirm (engine s) = Some p →
    ∃ t, tasks s !! p = Some t ∧ cancelled t = false ∧
      rollback 1 (store (engine s)) = Some (pre_commit_running t);
  inv_sleep : ∀ id text, tasks s !! id = Some (mkTask text Sleeping false) →
    pending_confirm (engine s) = Some id;
}.

Lemma boot_inv st : armed_inv (boot st).
Proof. split; simpl; intros; simplify_map_eq. Qed.

Lemma cancel_task_lookup p ts id t :
  cancel_task p ts !! id = Some t →
  ∃ t0, ts !! id = Some t0 ∧ pre_commit_running t0 = pre_commit_running t ∧
    task_phase t0 = task_phase t ∧ cancelled t = (bool_decide (id = p) || cancelled t0).
Proof.
  unfold cancel_task. rewrite lookup_alter. case_decide; subst.
  - intros (t0 & -> & ->)%fmap_Some. exists t0. simpl. by rewrite bool_decide_true.
  - intros ->. exists t. rewrite bool_decide_false by congruence. naive_solver.
Qed.

(** Taking the pending handle leaves no live sleeper behind. *)
Lemma take_pending_inv s :
  armed_inv s →
  armed_inv (take_pending s).2
  ∧ (∀ id text, tasks (take_pending s).2 !! id ≠ Some (mkTask text Sleeping false)).
Proof.
  intros Hinv.
  assert (Hno : ∀ id text, tasks (take_pending s).2 !! id ≠ Some (mkTask text Sleeping false)).
  { intros id text. simpl. destruct (pending_confirm (engine s)) as [p|] eqn:Hp.
    - intros (t0 & Ht0 & Hpre & Hph & Hc)%cancel_task_lookup. simpl in *.
      symmetry in Hc. apply orb_false_iff in Hc as [Hne Hc]. apply bool_decide_eq_false in Hne.
      destruct t0; simpl in *; subst. apply (inv_sleep _ Hinv) in Ht0. congruence.
    - intros Ht. apply (inv_sleep _ Hinv) in Ht. congruence. }
  split; [|done]. split; simpl; [|done|intros; by exfalso; eapply Hno].
  intros id t. destruct (pending_confirm (engine s)).
  - intros (t0 & Ht0 & _)%cancel_task_lookup. by eapply inv_ids.
  - by apply inv_ids.
Qed.

(** An edit of the draft keeps the invariant: it leaves the ring alone. *)
Lemma with_store_inv f s :
  (∀ st, ring_conf (f st) = ring_conf st) → armed_inv s → armed_inv (with_store f s).
Proof.
  intros Hf [H1 H2 H3]. split; simpl; [done| |done].
  intros p Hp. destruct (H2 p Hp) as (t & ? & ? & ?). exists t. unfold rollback in *.
  by rewrite Hf.
Qed.

Lemma commit_rpc_inv ok push stamp req s :
  armed_inv s → armed_inv (commit_rpc ok push stamp req s).2.
Proof.
  intros Hinv. destruct (take_pending_inv s Hinv) as [Ht Hno].
  unfold commit_rpc. set (s0 := (take_pending s).2) in *.
  case_match; [|done]. unfold apply_and_persist.
  destruct (parse_intents _); [|done]. destruct push; [|done]. case_match.
  - split; simpl.
    + intros id t. rewrite lookup_insert. case_decide; [subst; simpl; lia|].
      intros Hid. apply (inv_ids _ Ht) in Hid. simpl in *. lia.
    + intros p [= <-]. rewrite lookup_insert_eq. eexists. split_and!; [done..|].
      apply rollback_commit.
    + intros id text. rewrite lookup_insert. case_decide; [congruence|].
      intros Hid. by apply Hno in Hid.
  - split; simpl; [apply Ht|done|]. intros id text Hid. by apply Hno in Hid.
Qed.

Lemma timer_inv push stamp id t s :
  tasks s !! id = Some t → task_phase t = Expired →
  armed_inv s → armed_inv (timer_body push stamp id t s).
Proof.
  intros Hid Hph Hinv.
  unfold timer_body. destruct (pending_confirm (engine s)) as [p|] eqn:Hp.
  - (* the handle is taken: what it guarded no longer sleeps *)
    destruct (take_pending_inv s Hinv) as [[H1 _ _] Hno]. simpl in H1, Hno. rewrite Hp in *.
    assert (Hlook : ∀ i x, cancel_task p (delete id (tasks s)) !! i = Some x →
      cancel_task p (tasks s) !! i = Some x).
    { intros i x. unfold cancel_task. rewrite !lookup_alter, !lookup_delete.
      repeat case_decide; simplify_eq/=; done. }
    unfold take_pending; simpl. rewrite Hp.
    destruct (apply_and_persist _ _ _ _ _ _ _) as [e|] eqn:He; split; simpl.
    + intros i x Hx. by eapply H1, Hlook.
    + unfold apply_and_persist in He. repeat case_match; by simplify_eq/=.
    + intros i text Hx. by apply Hlook, Hno in Hx.
    + intros i x Hx. by eapply H1, Hlook.
    + done.
    + intros i text Hx. by apply Hlook, Hno in Hx.
  - unfold take_pending; simpl. rewrite Hp. destruct Hinv as [H1 H2 H3]. split; simpl.
    + intros i x [_ Hx]%lookup_delete_Some. by eapply H1.
    + congruence.
    + intros i text [_ Hx]%lookup_delete_Some. by apply H3 in Hx.
Qed.

Lemma step_inv s l s' : step s l s' → armed_inv s → armed_inv s'.
Proof.
  intros Hs Hinv. destruct Hs as [ok text|ok push stamp req| |n| |id text Hid|push stamp id t Hid Hph|id t Hid Hph Hc].
  - unfold set_candidate_rpc. case_match; [by apply with_store_inv|done].
  - by apply commit_rpc_inv.
  - by apply take_pending_inv.
  - unfold rollback_rpc. case_match; [by apply with_store_inv|done].
  - by apply with_store_inv.
  - destruct Hinv as [H1 H2 H3]. pose proof (H3 _ _ Hid) as Hp. split; simpl.
    + intros i x. rewrite lookup_insert. case_decide; [subst; intros _; by eapply H1|apply H1].
    + intros p Hp'. rewrite Hp in Hp'. simplify_eq. rewrite lookup_insert_eq.
      destruct (H2 _ Hp) as (t & Ht & _ & Hr). simplify_eq/=. by eexists.
    + intros i x. rewrite lookup_insert. case_decide; [done|apply H3].
  - by apply timer_inv.
  - destruct Hinv as [H1 H2 H3]. split; simpl.
    + intros i x [_ Hx]%lookup_delete_Some. by eapply H1.
    + intros p Hp. destruct (H2 _ Hp) as (x & Hx & Hcx & Hr).
      exists x. rewrite lookup_delete_ne; [done|]. intros ->. congruence.
    + intros i text [_ Hx]%lookup_delete_Some. by apply H3 in Hx.
Qed.

Lemma runs_inv s ls s' : runs s ls s' → armed_inv s → armed_inv s'.
Proof. induction 1; eauto using step_inv. Qed.

(** ** What a window promises *)


Lemma apply_and_persist_running push stamp text c u k e e' :
  apply_and_persist push stamp text c u k e = Some e' →
  running (store e') = text ∧ candidate (store e') = text
  ∧ rollback 1 (store e') = Some (running (store e)) ∧ pending_confirm e' = pending_confirm e.
Proof.
  unfold apply_and_persist. repeat case_match; [|done..]. intros [= <-]. simpl.
  split_and!; [done..| |done]. apply rollback_commit.
Qed.


Definition is_commit (l : label) : bool := match l with LCommit _ _ _ _ => true | _ => false end.

Lemma quiet_step s l s' :
  step s l s' → is_commit l = false → pending_confirm (engine s) = None →
  running (store (engine s')) = running (store (engine s))
  ∧ pending_confirm (engine s') = None.
Proof.
  intros Hs Hl Hp. destruct Hs; simpl in *; try done.
  - unfold set_candidate_rpc. by case_match.
  - unfold rollback_rpc. by case_match.
  - unfold timer_body, take_pending; simpl. by rewrite Hp.
Qed.

Lemma quiet_runs s ls s' :
  runs s ls s' → Forall (λ l, is_commit l = false) ls → pending_confirm (engine s) = None →
  running (store (engine s')) = running (store (engine s)) ∧ pending_confirm (engine s') = None.
Proof.
  induction 1 as [|s l s1 ls s2 Hs Hr IH]; intros Hls Hp; [done|].
  apply Forall_cons_1 in Hls as [Hl Hls].
  destruct (quiet_step _ _ _ Hs Hl Hp) as [<- Hp']. by apply IH.
Qed.

(** C10: a confirmation is final: whatever else happens next (drafts,
    discards, rollback loads, timers that were already waiting for the
    mutex), the running configuration stays until the next commit. *)
Theorem confirmed_is_final s ls s' :
  runs (confirm_rpc s).2 ls s' → Forall (λ l, is_commit l = false) ls →
  running (store (engine s')) = running (store (engine s)).
Proof. intros Hr Hls. by apply (quiet_runs _ _ _ Hr Hls). Qed.

(** C40: A commit that is rejected disarms the pending window all the same:
    nothing is persisted, yet no later event short of another commit undoes
    the configuration nobody confirmed. *)
Theorem rejected_commit_disarms push stamp req s ls s' :
  let '(r, s1) := commit_rpc false push stamp req s in
  r = Err FailedPrecondition ∧ store (engine s1) = store (engine s)
  ∧ pending_confirm (engine s1) = None
  ∧ (runs s1 ls s' → Forall (λ l, is_commit l = false) ls →
     running (store (engine s')) = running (store (engine s))).
Proof.
  unfold commit_rpc, validate. destruct (parse_intents _); simpl; split_and!; try done;
    intros Hr Hls; by apply (quiet_runs _ _ _ Hr Hls).
Qed.
End engine.

(** ** Concrete runs *)

Module Demo.
(** An extractor that accepts every tree and names no users. *)
#[export] Instance accept_all : IntentEngine := {
  Intents := unit;
  extract _ := Some tt;
  login _ := ∅;
}.

Definition commit_confirm : CommitRequest := mkCommit "cody" "cli" "" 300.

(** Two windows; the first timer expires and queues for the mutex before the
    second commit, and runs after it. *)
Definition race : list label :=
  [LSetCandidate true "a"; LCommit true true "t0" commit_confirm;
   LExpire 0;
   LSetCandidate true "b"; LCommit true true "t1" commit_confirm;
   LTimer true "t2" 0].

(** Each label determines the next state. *)
Definition next (l : label) (s : system) : option system :=
  match l with
  | LSetCandidate ok text => Some (set_candidate_rpc ok text s).2
  | LCommit ok push stamp req => Some (commit_rpc (J := FieldFormat.json) ok push stamp req s).2
  | LConfirm => Some (confirm_rpc s).2
  | LRollback n => Some (rollback_rpc n s).2
  | LDiscard => Some (discard_rpc s)
  | LExpire id =>
      match tasks s !! id with
      | Some (mkTask text Sleeping false) =>
          Some (mkSystem (engine s) (<[id := mkTask text Expired false]> (tasks s)) (next_task s))
      | _ => None
      end
  | LTimer push stamp id =>
      match tasks s !! id with
      | Some t => match task_phase t with
                  | Expired => Some (timer_body (J := FieldFormat.json) push stamp id t s)
                  | Sleeping => None
                  end
      | None => None
      end
  | LReap id =>
      match tasks s !! id with
      | Some (mkTask text Sleeping true) =>
          Some (mkSystem (engine s) (delete id (tasks s)) (next_task s))
      | _ => None
      end
  end.

Fixpoint run (ls : list label) (s : system) : option system :=
  match ls with [] => Some s | l :: ls => s' ← next l s; run ls s' end.

Lemma next_step l s s' : next l s = Some s' → step (J := FieldFormat.json) s l s'.
Proof.
  destruct l; simpl; intros H.
  - simplify_eq. apply step_set_candidate.
  - simplify_eq. apply step_commit.
  - simplify_eq. apply step_confirm.
  - simplify_eq. apply step_rollback.
  - simplify_eq. apply step_discard.
  - repeat case_match; simplify_eq. by apply step_expire.
  - repeat case_match; simplify_eq. by apply step_timer.
  - repeat case_match; simplify_eq. by eapply step_reap.
Qed.

Lemma run_runs ls s s' : run ls s = Some s' → runs (J := FieldFormat.json) s ls s'.
Proof.
  revert s. induction ls as [|l ls IH]; intros s; simpl; [intros [= ->]; constructor|].
  intros (s1 & H1 & H2)%bind_Some. econstructor; [by apply next_step|by apply IH].
Qed.

Definition state_after (ls : list label) : system :=
  default (boot empty_store) (run ls (boot empty_store)).

(** An open window; the same window expired; what a confirmation or a
    rejected commit then leaves of it. *)
Definition armed : system := Eval vm_compute in state_after (take 2 race).
Definition expired : system := Eval vm_compute in state_after (take 3 race).
Definition confirmed_late : system := Eval vm_compute in
  timer_body (J := FieldFormat.json) true "t" 0 (mkTask "" Expired true) (confirm_rpc expired).2.
Definition rejected_late : system := Eval vm_compute in
  timer_body (J := FieldFormat.json) true "t" 0 (mkTask "" Expired true)
    (commit_rpc (J := FieldFormat.json) false true "t" commit_confirm expired).2.
Definition second_window : system := Eval vm_compute in state_after (take 5 race).
Definition overtaken : system := Eval vm_compute in state_after race.
End Demo.



Lemma confirmed_is_final_witness :
  running (store (engine Demo.confirmed_late)) = running (store (engine Demo.expired))
  ∧ running (store (engine Demo.expired)) = "a".
Proof.
  split; [|vm_compute; reflexivity].
  assert (runs (J := FieldFormat.json) (confirm_rpc Demo.expired).2 [LTimer true "t" 0]
            Demo.confirmed_late) as Hr by (apply Demo.run_runs; vm_compute; reflexivity).
  assert (Forall (λ l, is_commit l = false) [LTimer true "t" 0]) as Hl by (by repeat constructor).
  exact (confirmed_is_final _ _ _ Hr Hl).
Defined.

Lemma rejected_commit_disarms_witness :
  pending_confirm (engine Demo.expired) = Some 0
  ∧ running (store (engine Demo.rejected_late)) = running (store (engine Demo.expired)).
Proof.
  split; [vm_compute; reflexivity|].
  pose proof (rejected_commit_disarms (J := FieldFormat.json) (I := Demo.accept_all)
    true "t" Demo.commit_confirm Demo.expired [LTimer true "t" 0] Demo.rejected_late) as H.
  destruct (commit_rpc false true "t" Demo.commit_confirm Demo.expired) as [r s1] eqn:E.
  destruct H as (_ & _ & _ & H). apply H.
  - apply Demo.run_runs.
    replace s1 with (commit_rpc (J := FieldFormat.json) (I := Demo.accept_all)
      false true "t" Demo.commit_confirm Demo.expired).2 by (by rewrite E).
    vm_compute. reflexivity.
  - by repeat constructor.
Defined.

