(* ===== verification/Net.v ===== *)
(** * Addresses, rates and value lists (hemlock-common/src/net.rs)

    The parsers and printers the CLI and mgmtd share.  The error texts are
    constructors of [NetError]; everything else is as in the source.  The
    [IpAddr] parser and the two [Display] forms of the standard library are
    written out first. *)

From Stdlib Require Import Ascii NArith Lia.
From stdpp Require Import base tactics list strings option numbers gmap sorting.
From S2P Require Import Prelude Text.

Local Open Scope N_scope.

(** ** [std::net::IpAddr] *)

Inductive IpAddr := V4 (n : N) | V6 (n : N).

#[export] Instance IpAddr_eq_dec : EqDecision IpAddr.
Proof. solve_decision. Defined.

#[export] Instance IpAddr_countable : Countable IpAddr.
Proof.
  apply (inj_countable' (λ a, match a with V4 n => inl n | V6 n => inr n end)
    (λ s, match s with inl n => V4 n | inr n => V6 n end)). by intros [].
Defined.

(** The derived [Ord]: IPv4 before IPv6, then numerically. *)
Definition ip_rank (a : IpAddr) : N * N := match a with V4 n => (0, n) | V6 n => (1, n) end.

#[export] Instance btree_key_ip : BTreeKey IpAddr.
Proof.
  refine {| key_le := λ a b, key_le (ip_rank a) (ip_rank b) |}.
  - intros a b. apply _.
  - split; [split|].
    + intros a. done.
    + intros a b c. apply transitivity.
    + intros [] [] H1 H2; pose proof (anti_symm key_le _ _ H1 H2) as [= ]; congruence.
  - intros a b. apply (total key_le).
Defined.

Definition is_ipv4 (a : IpAddr) : bool := match a with V4 _ => true | V6 _ => false end.

Definition hex_value (c : ascii) : N :=
  if is_ascii_digit c then digit_value c else N_of_ascii (lower_char c) - 87.

Fixpoint hex_number (s : string) (acc : N) : N :=
  match s with EmptyString => acc | String c s' => hex_number s' (acc * 16 + hex_value c) end.

Fixpoint dec_number (s : string) (acc : N) : N :=
  match s with EmptyString => acc | String c s' => dec_number s' (acc * 10 + digit_value c) end.

(** [read_number(10, Some(3), false)] as an octet. *)
Definition read_octet (s : string) : option (N * string) :=
  let ds := take_while is_ascii_digit s in
  let n := dec_number ds 0 in
  match ds with
  | EmptyString => None
  | String c t =>
      if (3 <? String.length ds)%nat then None
      else if bool_decide (c = "0"%char) && negb (bool_decide (t = "")) then None
      else if n <? 256 then Some (n, skip_while is_ascii_digit s) else None
  end.

(** [read_number(16, Some(4), true)] as a group. *)
Definition read_group (s : string) : option (N * string) :=
  let ds := take_while is_ascii_hexdigit s in
  match ds with
  | EmptyString => None
  | _ => if (4 <? String.length ds)%nat then None
         else Some (hex_number ds 0, skip_while is_ascii_hexdigit s)
  end.

Definition read_char (c : ascii) (s : string) : option string :=
  match s with String d t => if decide (d = c) then Some t else None | EmptyString => None end.

(** [read_separator(sep, index, inner)]. *)
Definition read_separator {A} (sep : ascii) (i : nat) (inner : string → option (A * string))
    (s : string) : option (A * string) :=
  match i with
  | O => inner s
  | S _ => match read_char sep s with Some t => inner t | None => None end
  end.

Definition read_ipv4 (s : string) : option (N * string) :=
  '(a, s) ← read_octet s;
  s ← read_char "."%char s;
  '(b, s) ← read_octet s;
  s ← read_char "."%char s;
  '(c, s) ← read_octet s;
  s ← read_char "."%char s;
  '(d, s) ← read_octet s;
  Some (a * 16777216 + b * 65536 + c * 256 + d, s).

(** [read_groups]: the groups read (at most [left] more, [i] read before),
    whether they end in an embedded IPv4 address, and the rest. *)
Fixpoint read_groups (i left : nat) (s : string) : list N * bool * string :=
  match left with
  | O => ([], false, s)
  | S left' =>
      match (if (1 <? left)%nat then read_separator ":"%char i read_ipv4 s else None) with
      | Some (v4, s') => ([v4 / 65536; v4 mod 65536], true, s')
      | None =>
          match read_separator ":"%char i read_group s with
          | Some (g, s') =>
              let '(gs, v4, s'') := read_groups (S i) left' s' in (g :: gs, v4, s'')
          | None => ([], false, s)
          end
      end
  end.

Definition of_groups (gs : list N) : N := foldl (λ acc g, acc * 65536 + g) 0 gs.

Definition read_ipv6 (s : string) : option (N * string) :=
  let '(head, head_ipv4, s) := read_groups 0 8 s in
  if (length head =? 8)%nat then Some (of_groups head, s)
  else if head_ipv4 then None
  else
    s ← read_char ":"%char s;
    s ← read_char ":"%char s;
    let '(tail, _, s) := read_groups 0 (8 - (length head + 1)) s in
    Some (of_groups (head ++ replicate (8 - length head - length tail) 0 ++ tail), s).

(** [str::parse::<IpAddr>()]. *)
Definition parse_ip (s : string) : option IpAddr :=
  let r := match read_ipv4 s with
           | Some (n, t) => Some (V4 n, t)
           | None => match read_ipv6 s with Some (n, t) => Some (V6 n, t) | None => None end
           end in
  match r with Some (a, "") => Some a | _ => None end.

Definition show_v4 (n : N) : string :=
  to_dec (n / 16777216) +:+ "." +:+ to_dec ((n / 65536) mod 256) +:+ "."
  +:+ to_dec ((n / 256) mod 256) +:+ "." +:+ to_dec (n mod 256).

(** [{:x}] *)
Fixpoint hex_go (fuel : nat) (n : N) (acc : string) : string :=
  match fuel with
  | O => acc
  | S f => let acc := String (hex_char (n mod 16)) acc in if n <? 16 then acc else hex_go f (n / 16) acc
  end.

Definition to_hex (n : N) : string := hex_go (S (N.to_nat (N.log2 n))) n "".

Definition segments (n : N) : list N :=
  (λ i, (n / 65536 ^ N.of_nat (7 - i)) mod 65536) <$> seq 0 8.

(** The first longest run of zero segments, as start and length. *)
Definition zero_step (st : (nat * nat) * (nat * nat)) (e : nat * N) : (nat * nat) * (nat * nat) :=
  let '(longest, current) := st in
  if e.2 =? 0 then
    let current := (if (current.2 =? 0)%nat then e.1 else current.1, S current.2) in
    (if (longest.2 <? current.2)%nat then current else longest, current)
  else (longest, (0, 0)%nat).

Definition zero_span (segs : list N) : nat * nat :=
  (foldl zero_step ((0, 0), (0, 0))%nat (imap pair segs)).1.

Definition fmt_subslice (segs : list N) : string := join ":" (to_hex <$> segs).

Definition show_v6 (n : N) : string :=
  if N.shiftr n 32 =? 65535 then "::ffff:" +:+ show_v4 (n mod 2 ^ 32)
  else
    let segs := segments n in
    let '(start, len) := zero_span segs in
    if (1 <? len)%nat then fmt_subslice (take start segs) +:+ "::" +:+ fmt_subslice (drop (start + len) segs)
    else fmt_subslice segs.

Definition show_ip (a : IpAddr) : string := match a with V4 n => show_v4 n | V6 n => show_v6 n end.

(** ** The module *)

Inductive NetError :=
| NotCidr
| BadAddress
| BadPrefixLength
| PrefixTooLong (len max : N)
| HostBitsSet
| NextHopIsPrefix
| BadNextHop
| FamilyMismatch
| BadMac
| NotUnicast
| BadRate
| BadBurst
| BadPort
| BadPortRange
| BadLevel
| BelowFloor
| BadValue
| BadValueRange.

Definition or_err {A} (o : option A) (e : NetError) : result NetError A :=
  match o with Some a => Ok a | None => Err e end.

Definition parse_cidr (text : string) : result NetError (IpAddr * N) :=
  match split_once "/"%char text with
  | None => Err NotCidr
  | Some (addr, len) =>
      addr ← or_err (parse_ip addr) BadAddress;
      len ← or_err (parse_uint 8 len) BadPrefixLength;
      let max := if is_ipv4 addr then 32 else 128 in
      if max <? len then Err (PrefixTooLong len max) else Ok (addr, len)
  end.

(** [u32::MAX << (32 - len)] at its width, for [0 < len <= 32]; likewise 128. *)
Definition mask (w len : N) : N :=
  if len =? 0 then 0 else wrap w (N.shiftl (2 ^ w - 1) (w - len)).

Definition network (addr : IpAddr) (len : N) : IpAddr :=
  match addr with
  | V4 n => V4 (N.land n (mask 32 len))
  | V6 n => V6 (N.land n (mask 128 len))
  end.

Definition canonical_prefix (prefix : string) : result NetError string :=
  '(addr, len) ← parse_cidr prefix;
  Ok (show_ip (network addr len) +:+ "/" +:+ to_dec len).

Definition require_canonical_prefix (prefix : string) : result NetError string :=
  canonical ← canonical_prefix prefix;
  if decide (canonical = prefix) then Ok canonical else Err HostBitsSet.

Definition validate_next_hop (prefix next_hop : string) : result NetError unit :=
  '(addr, _) ← parse_cidr prefix;
  match split_once "/"%char next_hop with
  | Some _ => Err NextHopIsPrefix
  | None =>
      hop ← or_err (parse_ip next_hop) BadNextHop;
      if eqb (is_ipv4 addr) (is_ipv4 hop) then Ok tt else Err FamilyMismatch
  end.

(** ** MAC addresses *)

Definition is_mac_separator (c : ascii) : bool :=
  match c with ":" | "-" | "." => true | _ => false end%char.

(** [octets.join(":")] over the pairs of characters. *)
Fixpoint pairs (s : string) : list string :=
  match s with
  | String a (String b t) => String a (String b "") :: pairs t
  | _ => []
  end.

Definition parse_mac (text : string) : result NetError string :=
  let hex := string_filter (λ c, negb (is_mac_separator c)) text in
  if negb (String.length hex =? 12)%nat || negb (string_all is_ascii_hexdigit hex) then Err BadMac
  else Ok (join ":" (pairs (to_ascii_lowercase hex))).

Definition parse_unicast_mac (text : string) : result NetError string :=
  mac ← parse_mac text;
  let first := hex_number (String.substring 0 2 mac) 0 in
  if negb (N.land first 1 =? 0) then Err NotUnicast else Ok mac.

Definition parse_mac_mask (text : string) : result NetError string := parse_mac text.

(** ** Rates and bursts *)

Definition split_unit (text : string) : string * string :=
  (take_while is_ascii_digit text, skip_while is_ascii_digit text).

Definition checked_mul (w a b : N) : option N := if a * b <? 2 ^ w then Some (a * b) else None.

(** The number in front of the unit, scaled; [count] is the unit that counts
    packets instead of bits or bytes. *)
Definition scaled (count : option string) (e : NetError) (text : string) : result NetError (N * bool) :=
  let '(digits, unit_) := split_unit (to_ascii_lowercase text) in
  if decide (digits = "") then Err e
  else
    value ← or_err (parse_uint 64 digits) e;
    if decide (unit_ = "") then Ok (value, false)
    else if decide (unit_ = "k") then n ← or_err (checked_mul 64 value 1000) e; Ok (n, false)
    else if decide (unit_ = "m") then n ← or_err (checked_mul 64 value 1000000) e; Ok (n, false)
    else if decide (unit_ = "g") then n ← or_err (checked_mul 64 value 1000000000) e; Ok (n, false)
    else if decide (Some unit_ = count) then Ok (value, true)
    else Err e.

Definition parse_police_rate (text : string) : result NetError (N * bool) :=
  '(rate, pps) ← scaled (Some "pps") BadRate text;
  if rate =? 0 then Err BadRate else Ok (rate, pps).

Definition parse_police_burst (text : string) : result NetError (N * bool) :=
  '(burst, pkts) ← scaled (Some "pkts") BadBurst text;
  if burst =? 0 then Err BadBurst else Ok (burst, pkts).

Definition format_scaled (value : N) : string :=
  if (1000000000 <=? value) && (value mod 1000000000 =? 0) then to_dec (value / 1000000000) +:+ "g"
  else if (1000000 <=? value) && (value mod 1000000 =? 0) then to_dec (value / 1000000) +:+ "m"
  else if (1000 <=? value) && (value mod 1000 =? 0) then to_dec (value / 1000) +:+ "k"
  else to_dec value.

Definition format_police_rate (rate : N) (pps : bool) : string :=
  if pps then to_dec rate +:+ "pps" else format_scaled rate.

Definition format_police_burst (burst : N) (pkts : bool) : string :=
  if pkts then to_dec burst +:+ "pkts" else format_scaled burst.

Definition SHAPE_RATE_FLOOR_BPS : N := 64000.

Definition parse_shape_rate (text : string) : result NetError N :=
  '(rate, _) ← scaled None BadRate text;
  if rate <? SHAPE_RATE_FLOOR_BPS then Err BelowFloor else Ok rate.

Definition format_shape_rate (rate : N) : string := format_scaled rate.

Definition display_shape_rate (rate : N) : string :=
  if (1000000000 <=? rate) && (rate mod 1000000000 =? 0) then to_dec (rate / 1000000000) +:+ " Gbps"
  else if (1000000 <=? rate) && (rate mod 1000000 =? 0) then to_dec (rate / 1000000) +:+ " Mbps"
  else if (1000 <=? rate) && (rate mod 1000 =? 0) then to_dec (rate / 1000) +:+ " Kbps"
  else to_dec rate +:+ " bps".

(** ** Ports and storm levels *)

Definition parse_port_match (text : string) : result NetError (N * N) :=
  match split_once "-"%char text with
  | None => port ← or_err (parse_uint 16 text) BadPort; Ok (port, port)
  | Some (low, high) =>
      low ← or_err (parse_uint 16 low) BadPort;
      high ← or_err (parse_uint 16 high) BadPort;
      if high <=? low then Err BadPortRange else Ok (low, high)
  end.

(** [format!("{frac:0<2}")]. *)
Definition pad_right2 (s : string) : string :=
  match s with "" => "00" | String c "" => String c "0" | _ => s end.

(** [{:02}]. *)
Definition pad_left2 (n : N) : string := if n <? 10 then "0" +:+ to_dec n else to_dec n.

Definition parse_storm_level (text : string) : result NetError string :=
  let '(whole, frac) := match split_once "."%char text with
                        | Some (whole, frac) => (whole, frac)
                        | None => (text, "")
                        end in
  if bool_decide (whole = "") || (3 <? String.length whole)%nat || (2 <? String.length frac)%nat
     || negb (string_all is_ascii_digit whole) || negb (string_all is_ascii_digit frac)
  then Err BadLevel
  else
    whole_n ← or_err (parse_uint 32 whole) BadLevel;
    hundredths ← or_err (parse_uint 32 (pad_right2 frac)) BadLevel;
    if (100 <? whole_n) || ((whole_n =? 100) && (0 <? hundredths)) then Err BadLevel
    else Ok (to_dec whole_n +:+ "." +:+ pad_left2 hundredths).

(** ** Value lists *)

(** [low..=high]. *)
Definition inclusive (low high : N) : list N :=
  (λ i, low + N.of_nat i) <$> seq 0 (N.to_nat (high + 1 - low)).

Definition parse_range (max : N) (part : string) : result NetError (N * N) :=
  '(low, high) ← match split_once "-"%char part with
    | None => value ← or_err (parse_uint 8 part) BadValue; Ok (value, value)
    | Some (low, high) =>
        low ← or_err (parse_uint 8 low) BadValue;
        high ← or_err (parse_uint 8 high) BadValue;
        if high <=? low then Err BadValueRange else Ok (low, high)
    end;
  if max <? high then Err BadValue else Ok (low, high).

Fixpoint parse_parts (max : N) (parts : list string) (values : gset N) : result NetError (gset N) :=
  match parts with
  | [] => Ok values
  | part :: parts =>
      '(low, high) ← parse_range max part;
      parse_parts max parts (values ∪ list_to_set (inclusive low high))
  end.

(** [values.into_iter().collect()] of a [BTreeSet]. *)
Definition sorted_elements (values : gset N) : list N := merge_sort N.le (elements values).

Definition parse_value_list (text : string) (max : N) : result NetError (list N) :=
  if decide (text = "") then Err BadValue
  else values ← parse_parts max (split ","%char text) ∅; Ok (sorted_elements values).

(** The inner loop: how far the run starting below [rest] reaches. *)
Fixpoint take_run (end_ : N) (rest : list N) : N * list N :=
  match rest with
  | x :: rest' => if x =? end_ + 1 then take_run x rest' else (end_, rest)
  | [] => (end_, [])
  end.

Fixpoint runs (fuel : nat) (sorted : list N) : list (N * N) :=
  match fuel, sorted with
  | S f, start :: rest =>
      let '(end_, rest) := take_run start rest in (start, end_) :: runs f rest
  | _, _ => []
  end.

Definition show_run (r : N * N) : string :=
  if r.1 =? r.2 then to_dec r.1 else to_dec r.1 +:+ "-" +:+ to_dec r.2.

Definition format_value_list (values : list N) : string :=
  let sorted := sorted_elements (list_to_set values) in
  join "," (show_run <$> runs (length sorted) sorted).

(** ** Rates print and parse back *)

Lemma lower_digits s : string_all is_ascii_digit s = true → to_ascii_lowercase s = s.
Proof.
  induction s as [|c s IH]; [done|]. cbn. intros [Hc Hs]%andb_true_iff.
  fold (to_ascii_lowercase s). rewrite IH by done. f_equal.
  destruct c as [[] [] [] [] [] [] [] []]; done.
Qed.

Lemma lower_app a b : to_ascii_lowercase (a +:+ b) = to_ascii_lowercase a +:+ to_ascii_lowercase b.
Proof.
  unfold to_ascii_lowercase. induction a as [|c a IH]; simpl; [done|]. by rewrite IH.
Qed.

(** A unit: lower case, not starting with a digit. *)
Definition unit_ok (u : string) : Prop :=
  to_ascii_lowercase u = u ∧ match u with String c _ => is_ascii_digit c = false | _ => True end.

Lemma split_unit_shown n u :
  unit_ok u → split_unit (to_ascii_lowercase (to_dec n +:+ u)) = (to_dec n, u).
Proof.
  intros [Hl Hd]. rewrite lower_app, Hl, lower_digits by apply to_dec_digits. unfold split_unit.
  destruct (take_while_app is_ascii_digit (to_dec n) u) as [-> ->]; [apply to_dec_digits|done|done].
Qed.

Lemma to_dec_nonempty n : to_dec n ≠ "".
Proof. destruct (to_dec_cons n) as (c & s & -> & _). done. Qed.

Lemma scaled_shown count e n u v :
  unit_ok u → fits 64 n → fits 64 v →
  (u = "" ∧ v = n ∨ u = "k" ∧ v = n * 1000 ∨ u = "m" ∧ v = n * 1000000 ∨ u = "g" ∧ v = n * 1000000000) →
  scaled count e (to_dec n +:+ u) = Ok (v, false).
Proof.
  intros Hu Hn Hv Hcase. unfold scaled. rewrite split_unit_shown by done.
  rewrite decide_False by apply to_dec_nonempty. rewrite parse_uint_to_dec by done. simpl.
  assert (∀ m, fits 64 m → (m <? 2 ^ 64) = true) as Hlt by (intros m Hm; by apply N.ltb_lt).
  destruct Hcase as [[-> ->]|[[-> ->]|[[-> ->]|[-> ->]]]]; [done|..];
    rewrite decide_False by done; repeat (rewrite decide_False by done);
    rewrite decide_True by done; unfold checked_mul; by rewrite Hlt.
Qed.

Lemma scaled_count unit_ e n :
  unit_ok unit_ → unit_ ≠ "" → unit_ ≠ "k" → unit_ ≠ "m" → unit_ ≠ "g" → fits 64 n →
  scaled (Some unit_) e (to_dec n +:+ unit_) = Ok (n, true).
Proof.
  intros Hu H0 Hk Hm Hg Hn. unfold scaled. rewrite split_unit_shown by done.
  rewrite decide_False by apply to_dec_nonempty. rewrite parse_uint_to_dec by done. simpl.
  rewrite !decide_False by done. by rewrite decide_True.
Qed.

Lemma app_empty_r s : s +:+ "" = s.
Proof. induction s as [|c s IH]; [done|]. change (String c (s +:+ "") = String c s). by f_equal. Qed.

Lemma format_scaled_spec v :
  ∃ n u, format_scaled v = to_dec n +:+ u ∧ unit_ok u ∧ n ≤ v
    ∧ (u = "" ∧ v = n ∨ u = "k" ∧ v = n * 1000 ∨ u = "m" ∧ v = n * 1000000 ∨ u = "g" ∧ v = n * 1000000000).
Proof.
  assert (∀ f, f ≠ 0 → v mod f = 0 → v = v / f * f ∧ v / f ≤ v) as Hdiv.
  { intros f Hf Hm. pose proof (N.div_mod v f Hf). split; [lia|]. nia. }
  unfold format_scaled.
  destruct (andb _ _) eqn:Hg; [|destruct (andb (1000000 <=? v) _) eqn:Hm;
    [|destruct (andb (1000 <=? v) _) eqn:Hk]].
  - apply andb_true_iff in Hg as [_ Hg%N.eqb_eq]. destruct (Hdiv 1000000000 ltac:(lia) Hg).
    eexists _, "g". split; [done|]. split; [done|]. tauto.
  - apply andb_true_iff in Hm as [_ Hm%N.eqb_eq]. destruct (Hdiv 1000000 ltac:(lia) Hm).
    eexists _, "m". split; [done|]. split; [done|]. tauto.
  - apply andb_true_iff in Hk as [_ Hk%N.eqb_eq]. destruct (Hdiv 1000 ltac:(lia) Hk).
    eexists _, "k". split; [done|]. split; [done|]. tauto.
  - exists v, "". rewrite app_empty_r. split; [done|]. split; [done|]. split; [lia|tauto].
Qed.

Lemma scaled_format count e v : fits 64 v → scaled count e (format_scaled v) = Ok (v, false).
Proof.
  intros Hv. destruct (format_scaled_spec v) as (n & u & -> & Hu & Hle & Hcase).
  apply scaled_shown; [done|unfold fits in *; lia|done|done].
Qed.

(** Every rate and burst survives printing and parsing, in bits or bytes
    with the largest exact suffix and in packets alike; shaper rates too, from
    the shaper's floor up. *)
Theorem rates_roundtrip v b :
  fits 64 v → v ≠ 0 →
  parse_police_rate (format_police_rate v b) = Ok (v, b)
  ∧ parse_police_burst (format_police_burst v b) = Ok (v, b)
  ∧ (SHAPE_RATE_FLOOR_BPS ≤ v → parse_shape_rate (format_shape_rate v) = Ok v).
Proof.
  intros Hv H0. apply N.eqb_neq in H0.
  unfold parse_police_rate, parse_police_burst, parse_shape_rate, format_shape_rate,
    format_police_rate, format_police_burst. split_and!.
  - destruct b; [rewrite scaled_count by done|rewrite scaled_format by done]; simpl; by rewrite H0.
  - destruct b; [rewrite scaled_count by done|rewrite scaled_format by done]; simpl; by rewrite H0.
  - intros Hf. rewrite scaled_format by done. simpl.
    by rewrite (proj2 (N.ltb_ge _ _) Hf).
Qed.

Lemma rates_roundtrip_witness :
  parse_police_rate (format_police_rate 10000000 false) = Ok (10000000, false).
Proof. refine (proj1 (rates_roundtrip 10000000 false _ _)); [reflexivity|discriminate]. Defined.

(** ** Value lists print and parse back *)

Lemma inclusive_cons low high : low ≤ high → inclusive low high = low :: inclusive (low + 1) high.
Proof.
  intros Hle. unfold inclusive.
  replace (N.to_nat (high + 1 - low)) with (S (N.to_nat (high + 1 - (low + 1)))) by lia.
  cbn [seq fmap list_fmap]. f_equal; [lia|]. rewrite <-fmap_S_seq, <-list_fmap_compose.
  apply list_fmap_ext. intros i x _. simpl. lia.
Qed.

Lemma inclusive_nil low high : high < low → inclusive low high = [].
Proof. intros Hlt. unfold inclusive. by replace (N.to_nat (high + 1 - low)) with O by lia. Qed.

Lemma take_run_spec end_ rest :
  let '(e, r) := take_run end_ rest in
  inclusive (end_ + 1) e ++ r = rest ∧ end_ ≤ e ∧ (length r ≤ length rest)%nat
  ∧ (e = end_ ∨ e ∈ rest).
Proof.
  revert end_. induction rest as [|x rest IH]; intros end_; simpl.
  { rewrite inclusive_nil by lia. split_and!; [done|lia|simpl; lia|by left]. }
  destruct (N.eqb_spec x (end_ + 1)) as [->|Hne].
  - specialize (IH (end_ + 1)). destruct (take_run (end_ + 1) rest) as [e r].
    destruct IH as (H1 & H2 & H3 & H4). split_and!; [|lia|simpl; lia|].
    + rewrite inclusive_cons by lia. simpl. by rewrite H1.
    + right. rewrite elem_of_cons. destruct H4 as [->|]; [by left|by right].
  - rewrite inclusive_nil by lia. split_and!; [done|lia|simpl; lia|by left].
Qed.

Lemma runs_spec fuel xs :
  (length xs ≤ fuel)%nat →
  mjoin ((λ r, inclusive r.1 r.2) <$> runs fuel xs) = xs
  ∧ Forall (λ r, r.1 ≤ r.2 ∧ r.2 ∈ xs) (runs fuel xs) ∧ (xs ≠ [] → runs fuel xs ≠ []).
Proof.
  revert xs. induction fuel as [|f IH]; intros [|x xs] Hlen; simpl in *; try done; [lia|].
  pose proof (take_run_spec x xs) as Hr. destruct (take_run x xs) as [e r].
  destruct Hr as (H1 & H2 & H3 & H4). destruct (IH r) as (I1 & I2 & _); [lia|].
  split_and!; [| |done].
  - simpl. rewrite inclusive_cons by done. simpl. f_equal. etransitivity; [|exact H1]. f_equal. exact I1.
  - constructor; [simpl; split; [done|]; rewrite elem_of_cons; naive_solver|].
    eapply Forall_impl; [exact I2|]. intros [a b] [? Hin]. split; [done|].
    rewrite <-H1, elem_of_cons, elem_of_app. auto.
Qed.

Lemma show_run_chars c r :
  is_ascii_digit c = false → c ≠ "-"%char →
  string_all (λ d, negb (bool_decide (d = c))) (show_run r) = true.
Proof.
  intros Hc Hd. unfold show_run. pose proof (digits_avoid c _ Hc (to_dec_digits r.1)) as H1.
  case_match; [done|]. rewrite !string_all_app, H1, (digits_avoid c _ Hc (to_dec_digits r.2)).
  simpl. by rewrite bool_decide_false by congruence.
Qed.

Lemma parse_range_shown max r :
  r.1 ≤ r.2 → r.2 ≤ max → max < 256 → parse_range max (show_run r) = Ok r.
Proof.
  destruct r as [a b]. simpl. intros H1 H2 H3. unfold parse_range, show_run. simpl.
  assert (fits 8 a) as Ha by (unfold fits; lia). assert (fits 8 b) as Hb by (unfold fits; lia).
  assert ((max <? b) = false) as Hm by (apply N.ltb_ge; lia).
  destruct (N.eqb_spec a b) as [->|Hne].
  - rewrite split_once_none by (apply digits_avoid; [done|apply to_dec_digits]).
    rewrite parse_uint_to_dec by done. simpl. by rewrite Hm.
  - change ("-" +:+ to_dec b) with (String "-" (to_dec b)).
    rewrite split_once_app by (apply digits_avoid; [done|apply to_dec_digits]).
    rewrite !parse_uint_to_dec by done. simpl.
    assert ((b <=? a) = false) as -> by (apply N.leb_gt; lia). simpl. by rewrite Hm.
Qed.

Lemma split_join c (ps : list string) :
  ps ≠ [] → Forall (λ p, string_all (λ d, negb (bool_decide (d = c))) p = true) ps →
  split c (join (String c "") ps) = ps.
Proof.
  intros Hne Hall. induction ps as [|p ps IH]; [done|]. clear Hne.
  apply Forall_cons_1 in Hall as [Hp Hall].
  assert (∀ q t, string_all (λ d, negb (bool_decide (d = c))) q = true →
    split c (q +:+ t) = match split c t with x :: xs => (q +:+ x) :: xs | [] => [q] end) as Hsplit.
  { induction q as [|d q IHq]; intros t; simpl.
    - intros _. destruct t as [|d t]; simpl; [done|]. repeat case_match; done.
    - intros [Hd Hq]%andb_true_iff. apply negb_true_iff, bool_decide_eq_false in Hd.
      rewrite decide_False by done. rewrite (IHq t Hq). by destruct (split c t). }
  destruct ps as [|p' ps].
  - simpl. rewrite <-(app_empty_r p) at 1. rewrite (Hsplit p "" Hp). simpl. by rewrite app_empty_r.
  - change (join (String c "") (p :: p' :: ps))
      with (p +:+ String c (join (String c "") (p' :: ps))).
    rewrite (Hsplit _ _ Hp). cbn [split]. rewrite decide_True by done.
    rewrite (IH ltac:(done) Hall). by rewrite app_empty_r.
Qed.

Lemma parse_parts_shown max rs values :
  max < 256 → Forall (λ r : N * N, r.1 ≤ r.2 ∧ r.2 ≤ max) rs →
  parse_parts max (show_run <$> rs) values
  = Ok (values ∪ list_to_set (mjoin ((λ r, inclusive r.1 r.2) <$> rs))).
Proof.
  intros Hmax. revert values. induction rs as [|r rs IH]; intros values Hall; simpl.
  { by rewrite (right_id_L ∅ (∪)). }
  apply Forall_cons_1 in Hall as [[H1 H2] Hall]. rewrite parse_range_shown by done. simpl.
  destruct r as [a b]. simpl in *. etransitivity; [apply (IH _ Hall)|].
  f_equal. rewrite list_to_set_app_L. by rewrite (assoc_L (∪)).
Qed.

Lemma sorted_elements_elem (X : gset N) x : x ∈ sorted_elements X ↔ x ∈ X.
Proof. unfold sorted_elements. by rewrite merge_sort_Permutation, elem_of_elements. Qed.

(** A non-empty set of values within bounds survives printing to its
    compact list and range form and parsing back: the result is the sorted
    set itself. *)
Theorem value_list_roundtrip values max :
  values ≠ [] → Forall (λ v, v ≤ max) values → max < 256 →
  parse_value_list (format_value_list values) max = Ok (sorted_elements (list_to_set values)).
Proof.
  intros Hne Hall Hmax. unfold parse_value_list, format_value_list.
  set (xs := sorted_elements (list_to_set values)).
  assert (∀ x, x ∈ xs ↔ x ∈ values) as Hxs
    by (intros x; unfold xs; by rewrite sorted_elements_elem, elem_of_list_to_set).
  assert (xs ≠ []) as Hxne.
  { destruct values as [|v vs]; [done|]. intros Hx.
    apply (not_elem_of_nil v). rewrite <-Hx, Hxs. left. }
  destruct (runs_spec (length xs) xs (le_n _)) as (Hj & Hr & Hrn). specialize (Hrn Hxne).
  set (rs := runs (length xs) xs) in *.
  assert (Forall (λ r : N * N, r.1 ≤ r.2 ∧ r.2 ≤ max) rs) as Hok.
  { eapply Forall_impl; [exact Hr|]. intros r [? Hin%Hxs]. split; [done|].
    rewrite Forall_forall in Hall. by apply Hall. }
  assert (split "," (join "," (show_run <$> rs)) = show_run <$> rs) as Hs.
  { apply split_join; [by destruct rs|]. rewrite Forall_fmap. apply Forall_forall.
    intros r _. by apply show_run_chars. }
  rewrite decide_False.
  - rewrite Hs, (parse_parts_shown max rs ∅ Hmax Hok), Hj. simpl. f_equal. unfold xs at 2.
    f_equal. apply set_eq. intros x. rewrite elem_of_union, !elem_of_list_to_set, Hxs. set_solver.
  - intros E. rewrite E in Hs. simpl in Hs. destruct rs as [|r rs']; [done|].
    injection Hs as Hs _. revert Hs. unfold show_run.
    destruct (to_dec_cons r.1) as (c & t & -> & _). by case_match.
Qed.

Lemma value_list_roundtrip_witness :
  parse_value_list (format_value_list [48; 41; 40; 42]) 63 = Ok [40; 41; 42; 48].
Proof.
  refine (value_list_roundtrip [48; 41; 40; 42] 63 _ _ _);
    [discriminate|repeat constructor; discriminate|reflexivity].
Defined.

(** ** Canonical forms *)

Lemma hex_lower c :
  is_ascii_hexdigit c = true →
  is_ascii_hexdigit (lower_char c) = true ∧ is_mac_separator (lower_char c) = false
  ∧ lower_char (lower_char c) = lower_char c.
Proof. destruct c as [[] [] [] [] [] [] [] []]; vm_compute; by intros. Qed.

Lemma string_filter_keep p c s :
  p c = true → string_filter p (String c s) = String c (string_filter p s).
Proof. simpl. by intros ->. Qed.

Lemma string_filter_skip p c s : p c = false → string_filter p (String c s) = string_filter p s.
Proof. simpl. by intros ->. Qed.

(** A parsed MAC address is in canonical form: parsing it again returns it
    unchanged, whatever separators and case it was written with. *)
Theorem parse_mac_canonical text mac :
  parse_mac text = Ok mac → parse_mac mac = Ok mac ∧ String.length mac = 17%nat.
Proof.
  unfold parse_mac at 1. set (hex := string_filter _ text).
  destruct (negb _ || negb _) eqn:E; [done|]. intros [= <-].
  apply orb_false_iff in E as [Hlen%negb_false_iff%Nat.eqb_eq Hall%negb_false_iff].
  clearbody hex. do 12 (destruct hex as [|? hex]; [discriminate Hlen|]).
  destruct hex; [|discriminate Hlen]. clear Hlen. cbn in Hall.
  rewrite !andb_true_iff in Hall. destruct_and! Hall.
  repeat match goal with H : is_ascii_hexdigit ?c = true |- _ =>
    is_var c; apply hex_lower in H as (? & ? & ?) end.
  cbn [to_ascii_lowercase string_map pairs join]. cbv [String.append].
  unfold parse_mac.
  match goal with |- context [string_filter ?p ?s] =>
    assert (string_filter p s = string_map lower_char (String a (String a0 (String a1 (String a2
      (String a3 (String a4 (String a5 (String a6 (String a7 (String a8 (String a9
      (String a10 ""))))))))))))) as -> end.
  { repeat first [rewrite string_filter_keep by (by apply negb_true_iff)
                 |rewrite string_filter_skip by done]. done. }
  cbn -[is_ascii_hexdigit lower_char].
  repeat match goal with H : is_ascii_hexdigit ?c = true |- _ => rewrite H; clear H end.
  cbn -[is_ascii_hexdigit lower_char].
  repeat match goal with H : lower_char ?c = ?d |- _ => rewrite H; clear H end.
  done.
Qed.

Lemma parse_mac_canonical_witness : parse_mac "00:50:56:be:ef:01" = Ok "00:50:56:be:ef:01".
Proof.
  assert (parse_mac "0050.56BE.EF01" = Ok "00:50:56:be:ef:01") as H by (vm_compute; reflexivity).
  exact (proj1 (parse_mac_canonical _ _ H)).
Defined.

Definition width (a : IpAddr) : N := if is_ipv4 a then 32 else 128.
Definition bits (a : IpAddr) : N := match a with V4 n | V6 n => n end.

Lemma mask_spec w len i :
  len ≤ w → N.testbit (mask w len) i = (w - len <=? i) && (i <? w).
Proof.
  intros Hlen. unfold mask. destruct (N.eqb_spec len 0) as [->|Hne].
  { rewrite N.bits_0, N.sub_0_r. symmetry. apply andb_false_iff.
    destruct (N.ltb_spec i w); [left; apply N.leb_gt; lia|by right]. }
  unfold wrap. replace (2 ^ w - 1) with (N.ones w) by (rewrite N.ones_equiv; lia).
  destruct (N.ltb_spec i w) as [Hi|Hi]; [|by rewrite andb_false_r, N.mod_pow2_bits_high].
  rewrite andb_true_r, N.mod_pow2_bits_low by done.
  destruct (N.leb_spec (w - len) i) as [Hle|Hlt].
  - rewrite N.shiftl_spec_high' by done. apply N.ones_spec_low. lia.
  - by rewrite N.shiftl_spec_low.
Qed.

(** The network address keeps exactly the [len] leading bits of the
    address and clears the host bits, in both families; taking it again
    changes nothing. *)
Theorem network_clears_host_bits a len i :
  fits (width a) (bits a) → len ≤ width a →
  N.testbit (bits (network a len)) i = N.testbit (bits a) i && (width a - len <=? i)
  ∧ network (network a len) len = network a len.
Proof.
  intros Hf Hlen. split.
  - assert (N.testbit (bits a) i = N.testbit (bits a) i && (i <? width a)) as Hb.
    { destruct (N.ltb_spec i (width a)) as [|Hi]; [by rewrite andb_true_r|].
      rewrite andb_false_r. destruct (N.eq_dec (bits a) 0) as [->|Hn]; [apply N.bits_0|].
      apply N.bits_above_log2. unfold fits in Hf. apply N.log2_lt_pow2 in Hf; lia. }
    rewrite Hb. destruct a as [n|n]; simpl in *;
      rewrite N.land_spec, mask_spec by done; destruct (N.testbit n i); simpl; try done;
      by rewrite andb_comm.
  - destruct a; simpl; by rewrite <-N.land_assoc, N.land_diag.
Qed.

Lemma network_clears_host_bits_witness :
  network (V4 167772425) 24 = V4 167772416 ∧ network (V4 167772416) 24 = V4 167772416.
Proof.
  split; [reflexivity|].
  exact (proj2 (network_clears_host_bits (V4 167772425) 24 0 ltac:(reflexivity) ltac:(discriminate))).
Defined.
