(* ===== verification/LinkMode.v ===== *)
(** * Link modes and MTU (hemlock-common/src/link.rs)

    The speed/duplex tokens of a platform manifest and the choices the
    front-ends offer from them. *)

From Stdlib Require Import Ascii NArith Lia.
From stdpp Require Import base tactics list strings option numbers gmap sorting.
From S2P Require Import Prelude Text Net.

Local Open Scope N_scope.

Definition MIN_MTU : N := 68.
Definition MAX_MTU : N := 9216.

(** What a netdev and a front-panel port boot with. *)
Definition DEFAULT_MTU : N := 1500.
Definition DEFAULT_PORT_MTU : N := 9100.

Inductive Duplex := Full | Half.

#[export] Instance Duplex_eq_dec : EqDecision Duplex.
Proof. solve_decision. Defined.

Definition duplex_str (d : Duplex) : string := match d with Full => "full" | Half => "half" end.

Definition parse_duplex (word : string) : option Duplex :=
  let w := to_ascii_lowercase word in
  if decide (w = "full") then Some Full else if decide (w = "half") then Some Half else None.

Definition valid_mtu (mtu : N) : bool := (MIN_MTU <=? mtu) && (mtu <=? MAX_MTU).

Definition format_speed (speed_mbps : N) : string :=
  if (1000 <=? speed_mbps) && (speed_mbps mod 1000 =? 0) then to_dec (speed_mbps / 1000) +:+ "G"
  else to_dec speed_mbps +:+ "M".

Definition is_giga (c : ascii) : bool := match c with "G" | "g" => true | _ => false end%char.
Definition is_mega (c : ascii) : bool := match c with "M" | "m" => true | _ => false end%char.

Definition parse_speed (word : string) : option N :=
  let word := trim word in
  match strip_suffix is_giga word with
  | Some digits => n ← parse_uint 32 digits; checked_mul 32 n 1000
  | None =>
      let digits := default word (strip_suffix is_mega word) in
      n ← parse_uint 32 digits;
      if 0 <? n then Some n else None
  end.

Definition parse_mode (token : string) : option (N * Duplex) :=
  '(speed, duplex) ← split_once "/"%char token;
  s ← parse_speed speed;
  d ← parse_duplex duplex;
  Some (s, d).

Definition format_mode (speed_mbps : N) (d : Duplex) : string :=
  format_speed speed_mbps +:+ "/" +:+ duplex_str d.

(** [sort_unstable] then [dedup]: the elements in order, each once. *)
Definition supported_speeds (modes : list string) : list N :=
  sorted_elements (list_to_set (fst <$> omap parse_mode modes)).

Definition supported_duplexes (modes : list string) : list Duplex :=
  filter (λ d, d ∈ snd <$> omap parse_mode modes) [Full; Half].

Definition is_auto (m : string) : bool := bool_decide (to_ascii_lowercase m = "auto").

Definition supports_auto (modes : list string) : bool := existsb is_auto modes.

Definition mode_supported (modes : list string) (speed_mbps : N) (d : Duplex) : bool :=
  if forallb is_auto modes then true
  else existsb (λ sd, (sd.1 =? speed_mbps) && bool_decide (sd.2 = d)) (omap parse_mode modes).

(** ** Tokens print and parse back *)

Lemma trim_end_keep a c :
  is_whitespace c = false → trim_end (a +:+ String c "") = a +:+ String c "".
Proof.
  intros Hc. induction a as [|d a IH].
  - simpl. by rewrite Hc.
  - change (trim_end (String d (a +:+ String c "")) = String d (a +:+ String c "")).
    cbn [trim_end]. rewrite IH. by destruct a.
Qed.

Lemma strip_suffix_last p a c :
  strip_suffix p (a +:+ String c "") = if p c then Some a else None.
Proof.
  induction a as [|d a IH]; [done|].
  change (strip_suffix p (String d (a +:+ String c "")) = if p c then Some (String d a) else None).
  assert (∃ e s, a +:+ String c "" = String e s) as (e & s & E)
    by (destruct a; by eexists _, _).
  rewrite E in *. cbn [strip_suffix] in *. rewrite IH. by destruct (p c).
Qed.

Lemma digit_not_space c : is_ascii_digit c = true → is_whitespace c = false.
Proof. destruct c as [[] [] [] [] [] [] [] []]; vm_compute; by intros. Qed.

Lemma trim_shown n c : is_whitespace c = false → trim (to_dec n +:+ String c "") = to_dec n +:+ String c "".
Proof.
  intros Hc. unfold trim. destruct (to_dec_cons n) as (d & s & -> & Hd).
  change (String d s +:+ String c "") with (String d (s +:+ String c "")).
  cbn [skip_while]. rewrite (digit_not_space d Hd).
  exact (trim_end_keep (String d s) c Hc).
Qed.

Lemma parse_speed_shown s : 0 < s → fits 32 s → parse_speed (format_speed s) = Some s.
Proof.
  intros Hpos Hs. unfold format_speed, parse_speed.
  destruct (andb _ _) eqn:E.
  - apply andb_true_iff in E as [Hge%N.leb_le Hm%N.eqb_eq].
    rewrite trim_shown, strip_suffix_last by done. simpl.
    assert (s = s / 1000 * 1000) as Hd by (pose proof (N.div_mod s 1000); lia).
    rewrite parse_uint_to_dec by (unfold fits in *; lia). simpl. unfold checked_mul.
    rewrite <-Hd. by rewrite (proj2 (N.ltb_lt _ _) Hs).
  - rewrite trim_shown, !strip_suffix_last by done. simpl.
    rewrite parse_uint_to_dec by done. simpl. by rewrite (proj2 (N.ltb_lt _ _) Hpos).
Qed.

Lemma format_speed_no_slash s :
  string_all (λ d, negb (bool_decide (d = "/"%char))) (format_speed s) = true.
Proof.
  unfold format_speed. case_match; rewrite string_all_app; simpl; rewrite andb_true_r;
    (apply digits_avoid; [done|apply to_dec_digits]).
Qed.

Lemma parse_mode_shown s d : 0 < s → fits 32 s → parse_mode (format_mode s d) = Some (s, d).
Proof.
  intros Hpos Hs. unfold parse_mode, format_mode.
  change ("/" +:+ duplex_str d) with (String "/" (duplex_str d)).
  rewrite split_once_app by apply format_speed_no_slash. simpl.
  rewrite parse_speed_shown by done. simpl. by destruct d.
Qed.

(** Every forced mode survives the manifest spelling, and a port that
    declares it supports it: the validator and the pickers agree on what a
    token means. *)
Theorem link_mode_roundtrip modes s d :
  0 < s → fits 32 s →
  parse_mode (format_mode s d) = Some (s, d)
  ∧ (format_mode s d ∈ modes →
     mode_supported modes s d = true ∧ s ∈ supported_speeds modes ∧ d ∈ supported_duplexes modes).
Proof.
  intros Hpos Hs. pose proof (parse_mode_shown s d Hpos Hs) as Hp. split; [done|]. intros Hin.
  assert ((s, d) ∈ omap parse_mode modes) as Hom by (rewrite list_elem_of_omap; eauto).
  split_and!.
  - unfold mode_supported. case_match; [done|]. apply existsb_exists. exists (s, d).
    rewrite <-list_elem_of_In. split; [done|]. simpl. by rewrite N.eqb_refl, bool_decide_true.
  - unfold supported_speeds. rewrite sorted_elements_elem, elem_of_list_to_set, list_elem_of_fmap.
    by exists (s, d).
  - unfold supported_duplexes. rewrite list_elem_of_filter, list_elem_of_fmap. split; [by exists (s, d)|].
    destruct d; set_solver.
Qed.

Lemma link_mode_roundtrip_witness :
  parse_mode "1G/full" = Some (1000, Full)
  ∧ mode_supported ["10M/half"; "1G/full"; "auto"] 1000 Full = true.
Proof.
  assert (format_mode 1000 Full = "1G/full") as E by (vm_compute; reflexivity).
  destruct (link_mode_roundtrip ["10M/half"; "1G/full"; "auto"] 1000 Full) as [H1 H2];
    [reflexivity|reflexivity|].
  rewrite E in H1. split; [exact H1|]. apply H2. rewrite E. right. left.
Defined.

(** Zero is rejected in megabits but not in gigabits, so a zero-rate
    token can enter the list of supported modes. *)
Theorem zero_speed_accepted :
  parse_speed "0" = None ∧ parse_speed "0M" = None ∧ parse_speed "0G" = Some 0
  ∧ supported_speeds ["0G/full"] = [0].
Proof. vm_compute. split_and!; reflexivity. Qed.
