(* ===== verification/Lacp.v ===== *)
(** * Link aggregation (hemlock-orch/src/lacp.rs)

    The LACP engine: the member state machines, selection, fallback, min-links
    and gate pushes, and the LACPDU codec.  [Inner] is the state behind the
    engine's mutex; [handle] is one turn of [run]'s [select!] loop (an event,
    then [step]); [set_configs] is called from the gRPC side between turns.
    [Instant::now()] is an argument, the two output channels are one list of
    [Output]s in the order of the sends.  A lock is poisoned only by a panic
    while it is held, so the [Err] arms of [lock()] have no counterpart. *)

From Stdlib Require Import Ascii NArith Lia.
From stdpp Require Import base tactics list strings option gmap sorting.
From S2P Require Import Prelude Text.

Local Open Scope N_scope.

Definition LACP_DST : list N := [1; 128; 194; 0; 0; 2].
Definition LACP_ETHERTYPE : N := 34825.

(** ** The state octet *)
Definition ACTIVITY : N := 1.
Definition TIMEOUT : N := 2.
Definition AGGREGATION : N := 4.
Definition SYNC : N := 8.
Definition COLLECTING : N := 16.
Definition DISTRIBUTING : N := 32.
Definition DEFAULTED : N := 64.
Definition EXPIRED : N := 128.

Inductive Mode := Active | Passive | On.
Inductive Fallback := Static | Individual.

#[export] Instance Mode_eq_dec : EqDecision Mode.
Proof. solve_decision. Defined.
#[export] Instance Fallback_eq_dec : EqDecision Fallback.
Proof. solve_decision. Defined.

Record MemberConfig := mkMemberConfig { mode : Mode; rate_fast : bool; port_priority : N }.

Record LagConfig := mkLagConfig {
  group : N;
  min_links : N;
  fallback : option Fallback;
  fallback_timeout : N;
  cfg_members : gmap string MemberConfig;
}.

Record LinkEvent := mkLinkEvent { ev_port : string; up : bool }.

Record GateUpdate := mkGateUpdate { gu_group : N; gu_members : list (string * bool) }.

Record Partner := mkPartner {
  p_system_priority : N;
  p_system : list N;
  p_key : N;
  p_port_priority : N;
  p_port : N;
  p_state : N;
}.

Record Member := mkMember {
  config : MemberConfig;
  port_number : N;
  link_up : bool;
  partner : option Partner;
  last_rx : option N;
  last_tx : option N;
  bundled : bool;
  individual : bool;
  pdus_rx : N;
  pdus_tx : N;
  churn : N;
}.

(** [Member::new]. *)
Definition new_member (c : MemberConfig) (number : N) : Member :=
  mkMember c number false None None None false false 0 0 0.

Definition partner_current (m : Member) (now : N) : bool :=
  let timeout := from_secs (if rate_fast (config m) then 3 else 90) in
  match last_rx m with Some at_ => since now at_ <? timeout | None => false end.

Record Lag := mkLag {
  lag_config : LagConfig;
  members : gmap string Member;
  partnerless_since : N;
  fallback_active : bool;
  last_gates : option (list (string * bool));
}.

Record Inner := mkInner {
  system_priority : N;
  system_mac : list N;
  lags : gmap N Lag;
  port_to_lag : gmap string N;
  link_states : gmap string bool;
}.

Inductive Output :=
| SendGates (g : GateUpdate)
| SendPdu (port : string) (frame : list N).

(** The state [spawn] starts from. *)
Definition spawn (mac : list N) : Inner := mkInner 32768 mac ∅ ∅ ∅.

(** Field assignments. *)
Definition set_config (c : MemberConfig) (m : Member) : Member :=
  mkMember c (port_number m) (link_up m) (partner m) (last_rx m) (last_tx m) (bundled m)
    (individual m) (pdus_rx m) (pdus_tx m) (churn m).
Definition set_link (u : bool) (m : Member) : Member :=
  mkMember (config m) (port_number m) u (partner m) (last_rx m) (last_tx m) (bundled m)
    (individual m) (pdus_rx m) (pdus_tx m) (churn m).
Definition set_partner (p : option Partner) (rx : option N) (n : N) (m : Member) : Member :=
  mkMember (config m) (port_number m) (link_up m) p rx (last_tx m) (bundled m)
    (individual m) n (pdus_tx m) (churn m).
Definition set_gate (b i : bool) (n : N) (m : Member) : Member :=
  mkMember (config m) (port_number m) (link_up m) (partner m) (last_rx m) (last_tx m) b
    i (pdus_rx m) (pdus_tx m) n.
Definition set_tx (at_ : option N) (n : N) (m : Member) : Member :=
  mkMember (config m) (port_number m) (link_up m) (partner m) (last_rx m) at_ (bundled m)
    (individual m) (pdus_rx m) n (churn m).

Definition port_number_of (name : string) : N :=
  default 0 (parse_uint 16
    (take_while is_ascii_digit (skip_while (λ c, negb (is_ascii_digit c)) name))).

(** ** Configuration *)

(** A member that joins: fresh state, with the link state seen so far. *)
Definition joining (links : gmap string bool) (name : string) (c : MemberConfig) : Member :=
  set_link (default false (links !! name)) (new_member c (port_number_of name)).

(** One iteration of the loop over [configs]. *)
Definition set_lag_config (now : N) (links : gmap string bool) (c : LagConfig) (ls : gmap N Lag) :
    gmap N Lag :=
  match ls !! group c with
  | Some lag =>
      let kept := btree_retain (λ name _, bool_decide (is_Some (cfg_members c !! name))) (members lag) in
      let ms := foldl (λ ms nc,
          match ms !! nc.1 with
          | Some m => <[nc.1 := set_config nc.2 m]> ms
          | None => <[nc.1 := joining links nc.1 nc.2]> ms
          end) kept (btree_iter (cfg_members c)) in
      <[group c := mkLag c ms (partnerless_since lag) (fallback_active lag) (last_gates lag)]> ls
  | None =>
      let ms := foldl (λ ms nc, <[nc.1 := joining links nc.1 nc.2]> ms) ∅
                  (btree_iter (cfg_members c)) in
      <[group c := mkLag c ms now false None]> ls
  end.

(** [lags.iter().flat_map(|(group, lag)| lag.members.keys()...).collect()] *)
Definition index_ports (ls : gmap N Lag) : gmap string N :=
  foldl (λ acc gl, foldl (λ acc name, <[name := gl.1]> acc) acc (btree_keys (members gl.2)))
    ∅ (btree_iter ls).

Definition set_configs (now prio : N) (configs : list LagConfig) (s : Inner) : Inner :=
  let wanted : gset N := list_to_set (group <$> configs) in
  let kept := btree_retain (λ g _, bool_decide (g ∈ wanted)) (lags s) in
  let ls := foldl (λ ls c, set_lag_config now (link_states s) c ls) kept configs in
  mkInner prio (system_mac s) ls (index_ports ls) (link_states s).

(** ** LACPDUs *)

Definition actor_state_bits (m : Member) (current : bool) : N :=
  let bits := AGGREGATION in
  let bits := if decide (mode (config m) = Active) then N.lor bits ACTIVITY else bits in
  let bits := if rate_fast (config m) then N.lor bits TIMEOUT else bits in
  let bits := if link_up m && (current || bool_decide (mode (config m) = On))
              then N.lor bits SYNC else bits in
  let bits := if bundled m then N.lor bits (N.lor COLLECTING DISTRIBUTING) else bits in
  if current then bits
  else let bits := N.lor bits DEFAULTED in
       match partner m with Some _ => N.lor bits EXPIRED | None => bits end.

Definition zeros (n : nat) : list N := replicate n 0.

(** [frame.resize(n, 0)]. *)
Definition resize (n : nat) (l : list N) : list N := take n l ++ zeros (n - length l).

Definition encode_pdu (src_mac : list N) (prio : N) (mac : list N) (key prt_priority port st : N)
    (p : option Partner) : list N :=
  let frame :=
    LACP_DST ++ src_mac ++ be16 LACP_ETHERTYPE ++ [1] ++ [1]
    ++ [1] ++ [20] ++ be16 prio ++ mac ++ be16 key ++ be16 prt_priority ++ be16 port
    ++ [st] ++ zeros 3
    ++ [2] ++ [20]
    ++ match p with
       | Some p =>
           be16 (p_system_priority p) ++ p_system p ++ be16 (p_key p) ++ be16 (p_port_priority p)
           ++ be16 (p_port p) ++ [p_state p] ++ zeros 3
       | None => zeros 18
       end
    ++ [3] ++ [16] ++ zeros 14 ++ [0] ++ [0] in
  resize (14 + 110) frame.

Definition decode_pdu (frame : list N) : result panic (option Partner) :=
  if (length frame <? 14 + 2 + 20)%nat then Ok None
  else
    ety ← range 12 14 frame;
    sub ← index frame 14;
    if bool_decide (ety ≠ be16 LACP_ETHERTYPE) || negb (sub =? 1) then Ok None
    else
      tlv ← range 16 (length frame) frame;
      t0 ← index tlv 0;
      t1 ← index tlv 1;
      if negb (t0 =? 1) || negb (t1 =? 20) then Ok None
      else
        sys ← range 4 10 tlv;
        let be a := (hi ← index tlv a; lo ← index tlv (a + 1); Ok (of_be16 hi lo)) in
        prio ← be 2%nat;
        key ← be 10%nat;
        pprio ← be 12%nat;
        port ← be 14%nat;
        st ← index tlv 16;
        Ok (Some (mkPartner prio sys key pprio port st)).

(** ** Events *)

(** [inner.lags.get_mut(group)] then [lag.members.get_mut(port)]. *)
Definition on_member (port : string) (f : Member → Member) (s : Inner) : Inner :=
  match port_to_lag s !! port with
  | Some g =>
      mkInner (system_priority s) (system_mac s)
        (alter (λ lag, mkLag (lag_config lag) (alter f port (members lag)) (partnerless_since lag)
                         (fallback_active lag) (last_gates lag)) g (lags s))
        (port_to_lag s) (link_states s)
  | None => s
  end.

Definition link_event (e : LinkEvent) (s : Inner) : Inner :=
  let s := mkInner (system_priority s) (system_mac s) (lags s) (port_to_lag s)
             (<[ev_port e := up e]> (link_states s)) in
  on_member (ev_port e) (λ m,
    let m := set_link (up e) m in
    if up e then m else set_partner None None (pdus_rx m) m) s.

(** An out-of-range index would end the task; [decode_pdu_total] excludes it. *)
Definition pdu_in (now : N) (port : string) (frame : list N) (s : Inner) : Inner :=
  match decode_pdu frame with
  | Ok (Some p) =>
      on_member port (λ m, set_partner (Some p) (Some now) (wrap 64 (pdus_rx m + 1)) m) s
  | _ => s
  end.

(** ** One evaluation pass *)

(** The mode of the first configured member decides for the group. *)
Definition lacp_of (lag : Lag) : bool :=
  match btree_values (cfg_members (lag_config lag)) with
  | c :: _ => negb (bool_decide (mode c = On))
  | [] => true
  end.

Definition any_partner (now : N) (lag : Lag) : bool :=
  existsb (λ m, partner_current m now) (btree_values (members lag)).

Definition fallback_armed (now : N) (lag : Lag) : bool :=
  lacp_of lag
  && match fallback (lag_config lag) with Some _ => true | None => false end
  && negb (any_partner now lag)
  && (fallback_timeout (lag_config lag) <=? since now (partnerless_since lag)).

(** The live member of least (port-priority, port-number). *)
Definition chosen (lag : Lag) : option string :=
  fst <$> min_by_key (λ nm : string * Member, (port_priority (config nm.2), port_number nm.2))
            (filter (λ nm, link_up nm.2 = true) (btree_iter (members lag))).

(** [(gate, individual)] of each member before min-links. *)
Definition selection (now : N) (lag : Lag) : gmap string (bool * bool) :=
  if negb (lacp_of lag) then (λ m, (link_up m, false)) <$> members lag
  else if fallback_armed now lag then
    match fallback (lag_config lag) with
    | Some Static => (λ m, (link_up m, false)) <$> members lag
    | Some Individual =>
        map_imap (λ name _, let i := bool_decide (Some name = chosen lag) in Some (i, i)) (members lag)
    | None => ∅
    end
  else
    (λ m, (link_up m && partner_current m now
           && match partner m with
              | Some p => negb (N.land (p_state p) SYNC =? 0)
              | None => false
              end, false)) <$> members lag.

Definition count_bundled (wanted : gmap string (bool * bool)) : nat :=
  length (filter (λ kv, kv.2.1 && negb kv.2.2 = true) (btree_iter wanted)).

Definition apply_min_links (lag : Lag) (wanted : gmap string (bool * bool)) :
    gmap string (bool * bool) :=
  let min := min_links (lag_config lag) in
  if (0 <? min) && (N.of_nat (count_bundled wanted) <? min) then
    (λ gi, if negb gi.2 then (false, gi.2) else gi) <$> wanted
  else wanted.

Definition apply_gate (wanted : gmap string (bool * bool)) (name : string) (m : Member) : Member :=
  let '(gate, ind) := default (false, false) (wanted !! name) in
  if eqb (bundled m) gate then set_gate (bundled m) ind (churn m) m
  else set_gate gate ind (wrap 32 (churn m + 1)) m.

Definition gate_list (ms : gmap string Member) : list (string * bool) :=
  (λ nm, (nm.1, bundled nm.2)) <$> btree_iter ms.

(** The transmission due on one member. *)
Definition transmit (now prio : N) (mac : list N) (grp : N) (name : string) (m : Member) :
    Member * list Output :=
  if negb (link_up m) then (m, [])
  else
    let current := partner_current m now in
    let active := bool_decide (mode (config m) = Active) in
    if negb active && negb current then (m, [])
    else
      let heard := if current then partner m else None in
      let fast := match heard with
                  | Some p => negb (N.land (p_state p) TIMEOUT =? 0)
                  | None => rate_fast (config m)
                  end in
      let interval := from_secs (if fast then 1 else 30) in
      let due := match last_tx m with Some at_ => interval <=? since now at_ | None => true end in
      if negb due then (m, [])
      else
        let frame := encode_pdu mac prio mac grp (port_priority (config m)) (port_number m)
                       (actor_state_bits m current) heard in
        (set_tx (Some now) (wrap 64 (pdus_tx m + 1)) m, [SendPdu name frame]).

(** The fallback clock restarts whenever a partner is heard. *)
Definition rearm (now : N) (lag : Lag) : Lag :=
  mkLag (lag_config lag) (members lag)
    (if any_partner now lag then now else partnerless_since lag)
    (fallback_active lag) (last_gates lag).

(** The body of the loop over the groups. *)
Definition lag_step (now prio : N) (mac : list N) (lag : Lag) : Lag * list Output :=
  let grp := group (lag_config lag) in
  let lacp := lacp_of lag in
  let lag := rearm now lag in
  let armed := fallback_armed now lag in
  let wanted := apply_min_links lag (selection now lag) in
  let ms := map_imap (λ name m, Some (apply_gate wanted name m)) (members lag) in
  let gl := gate_list ms in
  let gates := if decide (last_gates lag = Some gl) then []
               else [SendGates (mkGateUpdate grp gl)] in
  let '(ms, pdus) := if lacp then btree_each (transmit now prio mac grp) ms else (ms, []) in
  (mkLag (lag_config lag) ms (partnerless_since lag) armed (Some gl), gates ++ pdus).

Definition step (now : N) (s : Inner) : Inner * list Output :=
  let '(ls, out) := btree_each (λ _, lag_step now (system_priority s) (system_mac s)) (lags s) in
  (mkInner (system_priority s) (system_mac s) ls (port_to_lag s) (link_states s), out).

(** ** The loop *)

Inductive event :=
| Tick
| Wake
| Link (e : LinkEvent)
| Pdu (at_ : N) (port : string) (frame : list N).

(** One turn of [run]: the event, then [step]. *)
Definition on_event (e : event) (s : Inner) : Inner :=
  match e with
  | Tick | Wake => s
  | Link e => link_event e s
  | Pdu at_ port frame => pdu_in at_ port frame s
  end.

Definition handle (now : N) (e : event) (s : Inner) : Inner * list Output :=
  step now (on_event e s).

(** What reaches the engine: turns of the loop, and configurations pushed
    between them. *)
Inductive action :=
| AConfigs (now prio : N) (configs : list LagConfig)
| AEvent (now : N) (e : event).

Definition act (a : action) (s : Inner) : Inner * list Output :=
  match a with
  | AConfigs now prio configs => (set_configs now prio configs s, [])
  | AEvent now e => handle now e s
  end.

Fixpoint run (acts : list action) (s : Inner) : Inner * list Output :=
  match acts with
  | [] => (s, [])
  | a :: acts =>
      let '(s, out) := act a s in
      let '(s, out') := run acts s in
      (s, out ++ out')
  end.

(** ** The snapshot *)

Record MemberSnapshot := mkMemberSnapshot {
  ms_port : string;
  ms_status : string;
  ms_rate_fast : bool;
  ms_actor_state : N;
  ms_partner_state : N;
  ms_partner_system : option (N * list N);
  ms_partner_port : N;
  ms_partner_key : N;
  ms_partner_priority : N;
  ms_pdus_rx : N;
  ms_pdus_tx : N;
  ms_churn : N;
}.

Record LagSnapshot := mkLagSnapshot {
  ls_group : N;
  ls_lacp : bool;
  ls_active_mode : bool;
  ls_bundled : N;
  ls_total : N;
  ls_up : bool;
  ls_min_links : N;
  ls_fallback : option Fallback;
  ls_fallback_timeout : N;
  ls_fallback_active : bool;
  ls_members : list MemberSnapshot;
}.

Record Snapshot := mkSnapshot {
  sn_system_priority : N;
  sn_system_mac : list N;
  sn_lags : list LagSnapshot;
}.

(** The members that forward as part of the aggregate. *)
Definition aggregated (ms : gmap string Member) : nat :=
  length (filter (λ nm, bundled nm.2 && negb (individual nm.2) = true) (btree_iter ms)).

Definition member_snapshot (now : N) (nm : string * Member) : MemberSnapshot :=
  let '(name, m) := nm in
  let current := partner_current m now in
  mkMemberSnapshot name
    (if individual m then "individual" else if bundled m then "bundled"
     else if link_up m then "standby" else "down")
    (rate_fast (config m)) (actor_state_bits m current)
    (default 0 (p_state <$> partner m))
    (if current then (λ p, (p_system_priority p, p_system p)) <$> partner m else None)
    (default 0 (p_port <$> partner m)) (default 0 (p_key <$> partner m))
    (default 0 (p_port_priority <$> partner m))
    (pdus_rx m) (pdus_tx m) (churn m).

Definition lag_snapshot (now : N) (lag : Lag) : LagSnapshot :=
  let n := wrap 32 (N.of_nat (aggregated (members lag))) in
  mkLagSnapshot (group (lag_config lag)) (lacp_of lag)
    (match btree_values (cfg_members (lag_config lag)) with
     | c :: _ => bool_decide (mode c = Active)
     | [] => false
     end)
    n (wrap 32 (N.of_nat (size (members lag))))
    ((0 <? n) || existsb (λ m, bundled m && individual m) (btree_values (members lag)))
    (min_links (lag_config lag)) (fallback (lag_config lag)) (fallback_timeout (lag_config lag))
    (fallback_active lag) (member_snapshot now <$> btree_iter (members lag)).

Definition snapshot (now : N) (s : Inner) : Snapshot :=
  mkSnapshot (system_priority s) (system_mac s) (lag_snapshot now <$> btree_values (lags s)).

(** ** The codec *)

Lemma decode_pdu_total frame : no_panic (decode_pdu frame).
Proof.
  unfold no_panic, decode_pdu.
  destruct (Nat.ltb_spec (length frame) (14 + 2 + 20)) as [Hl|Hl]; [by eexists|].
  in_bounds. case_match; [by eexists|]. in_bounds. case_match; [by eexists|].
  in_bounds. by eexists.
Qed.

Definition mac_ok (m : list N) : Prop := length m = 6%nat.

Ltac mac_bytes m H :=
  destruct m as [|? [|? [|? [|? [|? [|? [|? ?]]]]]]]; try discriminate H.

Lemma encode_pdu_shape src prio mac key pp port st p :
  mac_ok src → mac_ok mac → (∀ q, p = Some q → mac_ok (p_system q)) →
  length (encode_pdu src prio mac key pp port st p) = 124%nat
  ∧ decode_pdu (encode_pdu src prio mac key pp port st p)
    = Ok (Some (mkPartner prio mac key pp port st)).
Proof.
  intros Hs Hm Hp. unfold mac_ok in *. mac_bytes src Hs. mac_bytes mac Hm.
  assert (∃ body, match p with
    | Some p => be16 (p_system_priority p) ++ p_system p ++ be16 (p_key p)
                  ++ be16 (p_port_priority p) ++ be16 (p_port p) ++ [p_state p] ++ zeros 3
    | None => zeros 18
    end = body ∧ length body = 18%nat) as (body & Hb & Hlen).
  { eexists. split; [reflexivity|]. destruct p as [q|]; [|done].
    specialize (Hp q eq_refl). rewrite !length_app, Hp. done. }
  unfold encode_pdu. rewrite Hb. clear Hb.
  do 18 (destruct body as [|? body]; [discriminate Hlen|]). destruct body; [|discriminate Hlen].
  split; [reflexivity|].
  rewrite <-(of_be16_be16 prio), <-(of_be16_be16 key), <-(of_be16_be16 pp), <-(of_be16_be16 port) at 2.
  change (be16 LACP_ETHERTYPE) with [136; 9]. unfold be16.
  generalize (prio / 256) (prio mod 256) (key / 256) (key mod 256) (pp / 256) (pp mod 256)
    (port / 256) (port mod 256).
  intros. reflexivity.
Qed.

(** No received frame, however short or malformed, makes the decoder index
    out of range; and a LACPDU is a 124-byte frame that decodes to the actor
    it was built from, whatever is known of the partner. *)
Theorem lacp_pdu_codec :
  (∀ frame, no_panic (decode_pdu frame))
  ∧ ∀ src prio mac key pp port st p,
      mac_ok src → mac_ok mac → (∀ q, p = Some q → mac_ok (p_system q)) →
      length (encode_pdu src prio mac key pp port st p) = 124%nat
      ∧ decode_pdu (encode_pdu src prio mac key pp port st p)
        = Ok (Some (mkPartner prio mac key pp port st)).
Proof. split; [apply decode_pdu_total|apply encode_pdu_shape]. Qed.

(** ** What one pass leaves *)

Definition wanted (now : N) (lag : Lag) : gmap string (bool * bool) :=
  apply_min_links (rearm now lag) (selection now (rearm now lag)).

Lemma transmit_keeps now prio mac g name m :
  let m' := (transmit now prio mac g name m).1 in
  config m' = config m ∧ link_up m' = link_up m ∧ partner m' = partner m ∧ last_rx m' = last_rx m
  ∧ bundled m' = bundled m ∧ individual m' = individual m ∧ port_number m' = port_number m.
Proof. unfold transmit. by repeat case_match. Qed.

Lemma apply_gate_spec w name m :
  let m' := apply_gate w name m in
  config m' = config m ∧ link_up m' = link_up m ∧ partner m' = partner m ∧ last_rx m' = last_rx m
  ∧ (bundled m', individual m') = default (false, false) (w !! name)
  ∧ port_number m' = port_number m.
Proof.
  unfold apply_gate. destruct (default _ _) as [g i].
  destruct (eqb (bundled m) g) eqn:E; [apply eqb_prop in E|]; simpl; by subst.
Qed.

(** The members after a pass, one by one. *)
Lemma lag_step_members now prio mac lag name :
  members (lag_step now prio mac lag).1 !! name =
  (λ m, let m := apply_gate (wanted now lag) name m in
        if lacp_of lag then (transmit now prio mac (group (lag_config lag)) name m).1 else m)
    <$> members lag !! name.
Proof.
  unfold lag_step, wanted. destruct (lacp_of lag); simpl.
  - rewrite !map_lookup_imap. by destruct (members lag !! name).
  - rewrite map_lookup_imap. by destruct (members lag !! name).
Qed.

Lemma lag_step_member now prio mac lag name m' :
  members (lag_step now prio mac lag).1 !! name = Some m' →
  ∃ m, members lag !! name = Some m ∧ config m' = config m ∧ link_up m' = link_up m
    ∧ partner m' = partner m ∧ last_rx m' = last_rx m ∧ port_number m' = port_number m
    ∧ (bundled m', individual m') = default (false, false) (wanted now lag !! name).
Proof.
  rewrite lag_step_members. intros (m & Hm & ->)%fmap_Some. exists m. split; [done|].
  destruct (apply_gate_spec (wanted now lag) name m) as (H1 & H2 & H3 & H4 & H5 & H6).
  cbv zeta. destruct (lacp_of lag); [|by rewrite H1, H2, H3, H4, H5, H6].
  destruct (transmit_keeps now prio mac (group (lag_config lag)) name (apply_gate (wanted now lag) name m))
    as (K1 & K2 & K3 & K4 & K5 & K6 & K7).
  rewrite K1, K2, K3, K4, K5, K6, K7, H1, H2, H3, H4, H5, H6. done.
Qed.

Lemma lag_step_fields now prio mac lag :
  let lag' := (lag_step now prio mac lag).1 in
  lag_config lag' = lag_config lag ∧ fallback_active lag' = fallback_armed now (rearm now lag)
  ∧ last_gates lag' = Some (gate_list (members lag')).
Proof.
  unfold lag_step. destruct (lacp_of lag); simpl; split_and!; try done.
  f_equal. unfold gate_list. rewrite (btree_iter_imap _ (map_imap _ _)).
  rewrite <-list_fmap_compose. apply list_fmap_ext. intros i [name m] _. simpl.
  by rewrite (proj1 (proj2 (proj2 (proj2 (proj2 (transmit_keeps _ _ _ _ _ _)))))).
Qed.

(** [selection] opens gates of live members only, and outside fallback only
    toward a partner that is current and in sync. *)
Lemma selection_open now lag name i :
  selection now lag !! name = Some (true, i) →
  ∃ m, members lag !! name = Some m ∧ link_up m = true
    ∧ (lacp_of lag = true → fallback_armed now lag = false →
       i = false ∧ partner_current m now = true
       ∧ ∃ p, partner m = Some p ∧ N.land (p_state p) SYNC ≠ 0).
Proof.
  unfold selection. destruct (lacp_of lag) eqn:Hl; simpl.
  - destruct (fallback_armed now lag) eqn:Ha.
    + destruct (fallback (lag_config lag)) as [[]|]; [| |done].
      * rewrite lookup_fmap. intros (m & Hm & [= E ?])%fmap_Some. by exists m.
      * rewrite map_lookup_imap. intros (m & Hm & [= E _])%bind_Some.
        apply bool_decide_eq_true in E. unfold chosen in E.
        symmetry in E. apply fmap_Some in E as ([n' m'] & Hmin & ->).
        apply min_by_key_Some in Hmin as [Hin _]. apply list_elem_of_filter in Hin as [Hup Hin].
        apply elem_of_btree_iter in Hin. simpl in *. by exists m'.
    + rewrite lookup_fmap. intros (m & Hm & [= E ->])%fmap_Some.
      apply symmetry, andb_true_iff in E as [[E1 E2]%andb_true_iff E3]. exists m.
      split_and!; try done. intros _ _. split_and!; [done..|].
      destruct (partner m) as [p|]; [|done]. exists p. split; [done|].
      by apply negb_true_iff, N.eqb_neq in E3.
  - rewrite lookup_fmap. intros (m & Hm & [= E ?])%fmap_Some. by exists m.
Qed.

Lemma apply_min_links_open lag w name i :
  apply_min_links lag w !! name = Some (true, i) → w !! name = Some (true, i).
Proof.
  unfold apply_min_links. case_match; [|done]. rewrite lookup_fmap.
  intros ([g j] & Hw & E)%fmap_Some. rewrite Hw. destruct j; simpl in *; by simplify_eq.
Qed.

Lemma wanted_open now prio mac lag name m' :
  members (lag_step now prio mac lag).1 !! name = Some m' → bundled m' = true →
  selection now (rearm now lag) !! name = Some (true, individual m').
Proof.
  intros (m & _ & _ & _ & _ & _ & _ & E)%lag_step_member Hb. rewrite Hb in E.
  destruct (wanted now lag !! name) as [[g i]|] eqn:W; simplify_eq/=.
  by apply apply_min_links_open in W.
Qed.

(** C12: a pass opens a member's gate only when its link is up and, when the
    group runs LACP and is not in fallback, only toward a partner heard within
    the timeout that reports itself in sync. *)
Theorem lacp_gate_open_sound now prio mac lag name m' :
  members (lag_step now prio mac lag).1 !! name = Some m' → bundled m' = true →
  link_up m' = true
  ∧ (lacp_of lag = true → fallback_active (lag_step now prio mac lag).1 = false →
     partner_current m' now = true
     ∧ ∃ p, partner m' = Some p ∧ N.land (p_state p) SYNC ≠ 0).
Proof.
  intros Hm' Hb. pose proof (wanted_open _ _ _ _ _ _ Hm' Hb) as Hs.
  apply lag_step_member in Hm' as (m & Hm & Hc & Hup & Hp & Hrx & _).
  apply selection_open in Hs as (m0 & Hm0 & Hup0 & Hsync). simpl in Hm0. simplify_eq.
  split; [congruence|]. intros Hl Ha.
  destruct (lag_step_fields now prio mac lag) as (_ & Hf & _). rewrite Hf in Ha.
  destruct (Hsync Hl Ha) as (_ & Hcur & p & Hp' & Hbit).
  split; [|exists p; split; [congruence|done]].
  unfold partner_current in *. by rewrite Hc, Hrx.
Qed.

Lemma selection_dom now lag name gi :
  selection now lag !! name = Some gi → is_Some (members lag !! name).
Proof.
  unfold selection. repeat case_match; rewrite ?lookup_fmap, ?map_lookup_imap, ?lookup_empty;
    destruct (members lag !! name); done.
Qed.

Lemma aggregated_wanted now prio mac lag :
  aggregated (members (lag_step now prio mac lag).1) = count_bundled (wanted now lag).
Proof.
  apply btree_count_eq. intros name. split.
  - intros (m' & Hm' & Hb). exists (bundled m', individual m'). split; [|done].
    apply lag_step_member in Hm' as (m & _ & _ & _ & _ & _ & _ & E). rewrite E.
    simpl in Hb. destruct (wanted now lag !! name) as [[]|]; [done|].
    injection E as E1 E2. by rewrite E1 in Hb.
  - intros ([g i] & Hw & Hb). simpl in Hb.
    assert (is_Some (members lag !! name)) as [m Hm].
    { unfold wanted, apply_min_links in Hw. case_match.
      - rewrite lookup_fmap in Hw. apply fmap_Some in Hw as (gi & Hgi & _).
        by eapply (selection_dom now (rearm now lag)).
      - by eapply (selection_dom now (rearm now lag)). }
    destruct (members (lag_step now prio mac lag).1 !! name) as [m'|] eqn:Hm'.
    + exists m'. split; [done|]. apply lag_step_member in Hm' as (? & _ & _ & _ & _ & _ & _ & E).
      rewrite Hw in E. injection E as E1 E2. simpl. by rewrite E1, E2.
    + rewrite lag_step_members, Hm in Hm'. done.
Qed.

(** The aggregate never forwards below [min_links]: after a pass either
    no member forwards as part of it, or at least [min_links] do. *)
Theorem lacp_min_links now prio mac lag :
  let n := aggregated (members (lag_step now prio mac lag).1) in
  n = 0%nat ∨ min_links (lag_config lag) ≤ N.of_nat n.
Proof.
  cbv zeta. rewrite aggregated_wanted. unfold wanted, apply_min_links. simpl.
  case_match eqn:Hc.
  - left. unfold count_bundled. apply length_zero_iff_nil. apply elem_of_nil_inv.
    intros [name [g i]] [Hb Hin%elem_of_btree_iter]%list_elem_of_filter.
    rewrite lookup_fmap in Hin. apply fmap_Some in Hin as ([g' []] & _ & E); simplify_eq/=.
    by rewrite andb_false_r in Hb.
  - apply andb_false_iff in Hc as [Hc|Hc]; [apply N.ltb_ge in Hc|apply N.ltb_ge in Hc];
      right; lia.
Qed.

(** In [fallback individual] at most one member forwards, and it is the
    live member of least (port-priority, port-number). *)
Theorem lacp_individual_fallback now prio mac lag name m' :
  fallback_active (lag_step now prio mac lag).1 = true →
  fallback (lag_config lag) = Some Individual →
  members (lag_step now prio mac lag).1 !! name = Some m' → bundled m' = true →
  individual m' = true
  ∧ ∀ other m2, members (lag_step now prio mac lag).1 !! other = Some m2 →
    (bundled m2 = true → other = name)
    ∧ (link_up m2 = true →
       pair_le (port_priority (config m'), port_number m')
         (port_priority (config m2), port_number m2)).
Proof.
  intros Hf Hi Hm' Hb. destruct (lag_step_fields now prio mac lag) as (_ & Hf' & _).
  rewrite Hf' in Hf. assert (lacp_of lag = true) as Hl.
  { unfold fallback_armed in Hf. by destruct (lacp_of (rearm now lag)) eqn:E. }
  assert (∀ n i, selection now (rearm now lag) !! n = Some (true, i) →
            i = true ∧ Some n = chosen lag) as Hsel.
  { intros n i. unfold selection. change (lacp_of (rearm now lag)) with (lacp_of lag).
    rewrite Hl, Hf. cbn [negb rearm lag_config]. rewrite Hi, map_lookup_imap.
    intros (? & _ & [= E <-])%bind_Some. split; [done|by apply bool_decide_eq_true in E]. }
  pose proof (wanted_open _ _ _ _ _ _ Hm' Hb) as Hs.
  apply Hsel in Hs as [Hind Hch]. split; [done|]. intros other m2 Hm2. split.
  - intros Hb2. pose proof (wanted_open _ _ _ _ _ _ Hm2 Hb2) as [_ Hch2]%Hsel. congruence.
  - intros Hup. unfold chosen in Hch. symmetry in Hch.
    apply fmap_Some in Hch as ([n0 m0] & Hmin & ->). simpl in *.
    apply min_by_key_Some in Hmin as [Hin Hmin].
    apply list_elem_of_filter in Hin as [_ Hin%elem_of_btree_iter].
    apply lag_step_member in Hm' as (m & Hm & Hc & _ & _ & _ & Hn & _). simplify_eq.
    apply lag_step_member in Hm2 as (m3 & Hm3 & Hc3 & Hup3 & _ & _ & Hn3 & _).
    rewrite Hc, Hn, Hc3, Hn3. apply (Hmin (other, m3)).
    rewrite list_elem_of_filter, elem_of_btree_iter. split; [simpl; congruence|done].
Qed.

(** ** Transmissions *)

Lemma transmit_out now prio mac g name m port frame :
  SendPdu port frame ∈ (transmit now prio mac g name m).2 →
  port = name ∧ link_up m = true
  ∧ (mode (config m) = Active ∨ partner_current m now = true)
  ∧ (∀ at_, last_tx m = Some at_ → from_secs 1 ≤ since now at_)
  ∧ last_tx (transmit now prio mac g name m).1 = Some now
  ∧ frame = encode_pdu mac prio mac g (port_priority (config m)) (port_number m)
              (actor_state_bits m (partner_current m now))
              (if partner_current m now then partner m else None).
Proof.
  unfold transmit. destruct (link_up m); simpl; [|by intros ?%elem_of_nil].
  destruct (negb _ && negb _) eqn:Ha; [by intros ?%elem_of_nil|].
  destruct (negb match last_tx m with Some _ => _ | None => _ end) eqn:Hd; [by intros ?%elem_of_nil|].
  intros Hin%list_elem_of_singleton. injection Hin as -> ->. split_and!; try done.
  - apply andb_false_iff in Ha as [Ha|Ha]; apply negb_false_iff in Ha; [left|by right].
    by apply bool_decide_eq_true in Ha.
  - intros at_ Hat. rewrite Hat in Hd. apply negb_false_iff, N.leb_le in Hd.
    etrans; [|exact Hd]. unfold from_secs. destruct (match _ with Some _ => _ | None => _ end); lia.
Qed.

Lemma lag_step_pdu now prio mac lag port frame :
  SendPdu port frame ∈ (lag_step now prio mac lag).2 →
  lacp_of lag = true ∧ ∃ m, members lag !! port = Some m
    ∧ SendPdu port frame ∈
        (transmit now prio mac (group (lag_config lag)) port (apply_gate (wanted now lag) port m)).2.
Proof.
  unfold lag_step. destruct (lacp_of lag) eqn:Hl; simpl.
  - rewrite elem_of_app. intros [Hin|Hin].
    { exfalso. case_decide; [by apply elem_of_nil in Hin|]. by apply list_elem_of_singleton in Hin. }
    split; [done|]. apply (elem_of_btree_each (transmit now prio mac (group (lag_config lag)))) in Hin
      as (name & m' & Hm' & Hin).
    pose proof Hin as [-> _]%transmit_out.
    rewrite map_lookup_imap in Hm'. apply bind_Some in Hm' as (m & Hm & [= <-]). by exists m.
  - rewrite app_nil_r. intros Hin. exfalso.
    case_decide; [by apply elem_of_nil in Hin|]. by apply list_elem_of_singleton in Hin.
Qed.

(** A pass transmits only for groups that run LACP, only on a live
    member that is active or has a current partner, never twice within a
    second; and the frame tells the partner exactly the member's identity and
    state octet. *)
Theorem lacp_transmission_sound now prio mac lag port frame :
  mac_ok mac → (∀ name m q, members lag !! name = Some m → partner m = Some q → mac_ok (p_system q)) →
  SendPdu port frame ∈ (lag_step now prio mac lag).2 →
  lacp_of lag = true
  ∧ ∃ m m', members lag !! port = Some m
    ∧ members (lag_step now prio mac lag).1 !! port = Some m'
    ∧ link_up m = true ∧ (mode (config m) = Active ∨ partner_current m now = true)
    ∧ (∀ at_, last_tx m = Some at_ → from_secs 1 ≤ since now at_)
    ∧ last_tx m' = Some now
    ∧ decode_pdu frame = Ok (Some (mkPartner prio mac (group (lag_config lag))
        (port_priority (config m)) (port_number m)
        (actor_state_bits m' (partner_current m' now)))).
Proof.
  intros Hmac Hpart Hin. apply lag_step_pdu in Hin as (Hl & m & Hm & Hin). split; [done|].
  set (m1 := apply_gate (wanted now lag) port m) in *.
  pose proof (apply_gate_spec (wanted now lag) port m) as (G1 & G2 & G3 & G4 & G5 & G6).
  fold m1 in G1, G2, G3, G4, G5, G6.
  assert (last_tx m1 = last_tx m) as G7 by (unfold m1, apply_gate; by repeat case_match).
  pose proof Hin as (_ & Hup & Hact & Hdue & Htx & ->)%transmit_out.
  assert (partner_current m1 now = partner_current m now) as Hcur
    by (unfold partner_current; by rewrite G1, G4).
  pose proof (transmit_keeps now prio mac (group (lag_config lag)) port m1)
    as (K1 & K2 & K3 & K4 & K5 & K6 & K7).
  set (m' := (transmit now prio mac (group (lag_config lag)) port m1).1) in *.
  exists m, m'. split_and!; try done.
  - rewrite lag_step_members, Hm, Hl. done.
  - congruence.
  - by rewrite G1, Hcur in Hact.
  - intros at_ Hat. apply Hdue. congruence.
  - assert (actor_state_bits m' (partner_current m' now) = actor_state_bits m1 (partner_current m1 now))
      as -> by (unfold actor_state_bits, partner_current; by rewrite K1, K2, K3, K4, K5).
    rewrite <-G1, <-G6. apply encode_pdu_shape; [done..|].
    intros q Hq. rewrite G3 in Hq. case_match; [|done]. by eapply Hpart.
Qed.

(** ** What the gate pusher sees *)

(** The membership the last [GateUpdate] of group [g] carried. *)
Definition last_update (g : N) : option (list (string * bool)) → list Output →
    option (list (string * bool)) :=
  foldl (λ acc o, match o with
                  | SendGates u => if decide (gu_group u = g) then Some (gu_members u) else acc
                  | SendPdu _ _ => acc
                  end).

Lemma last_update_app g acc o1 o2 :
  last_update g acc (o1 ++ o2) = last_update g (last_update g acc o1) o2.
Proof. apply foldl_app. Qed.

Lemma last_update_pdus g acc out :
  (∀ u, SendGates u ∉ out) → last_update g acc out = acc.
Proof.
  induction out as [|[u|port frame] out IH]; intros Hno; simpl; [done| |].
  - exfalso. apply (Hno u). left.
  - apply IH. intros u Hu. apply (Hno u). by right.
Qed.

Lemma transmit_no_gates now prio mac g name m u :
  SendGates u ∉ (transmit now prio mac g name m).2.
Proof.
  unfold transmit. repeat case_match; simpl;
    first [by intros ?%elem_of_nil | by intros ?%list_elem_of_singleton].
Qed.

(** A pass over one group leaves its pusher up to date and says nothing about
    the other groups. *)
Lemma lag_step_update now prio mac lag g acc :
  (∀ l, last_gates lag = Some l → group (lag_config lag) = g → acc = Some l) →
  last_update g acc (lag_step now prio mac lag).2 =
  if decide (group (lag_config lag) = g)
  then Some (gate_list (members (lag_step now prio mac lag).1)) else acc.
Proof.
  intros Hacc. destruct (lag_step_fields now prio mac lag) as (_ & _ & Hlast).
  revert Hlast. unfold lag_step.
  assert (∀ ms, ∀ u, SendGates u ∉ (btree_each (transmit now prio mac (group (lag_config lag))) ms).2) as Hno.
  { intros ms u (k & v & _ & Hu)%elem_of_btree_each. by apply transmit_no_gates in Hu. }
  destruct (lacp_of lag); simpl; intros Hgl%(inj Some).
  - rewrite last_update_app, (last_update_pdus g) by (intros u; apply (Hno (map_imap _ _))).
    rewrite <-Hgl.
    destruct (decide (last_gates lag = _)); simpl; case_decide; try done; by apply Hacc.
  - rewrite app_nil_r.
    destruct (decide (last_gates lag = _)); simpl; case_decide; try done; by apply Hacc.
Qed.

(** The entries of the group table agree with their keys and with what was
    last pushed ([acc] starts the reading of the trace). *)
Definition pushed (ls : gmap N Lag) (seen : N → option (list (string * bool))) : Prop :=
  ∀ g lag, ls !! g = Some lag →
    group (lag_config lag) = g ∧ ∀ l, last_gates lag = Some l → seen g = Some l.

Lemma steps_update now prio mac (l : list (N * Lag)) acc g :
  NoDup l.*1 →
  (∀ k lag, (k, lag) ∈ l → group (lag_config lag) = k) →
  (∀ lag x, (g, lag) ∈ l → last_gates lag = Some x → acc = Some x) →
  last_update g acc (mjoin ((λ kv, (lag_step now prio mac kv.2).2) <$> l)) = acc
    ∧ g ∉ l.*1
  ∨ ∃ lag, (g, lag) ∈ l
    ∧ last_update g acc (mjoin ((λ kv, (lag_step now prio mac kv.2).2) <$> l))
      = Some (gate_list (members (lag_step now prio mac lag).1)).
Proof.
  revert acc. induction l as [|[k lag] l IH]; intros acc Hnd Hkey Hlast; simpl.
  { left. split; [done|apply not_elem_of_nil]. }
  apply NoDup_cons in Hnd as [Hk Hnd].
  assert (group (lag_config lag) = k) as Hg by (apply Hkey; left).
  rewrite last_update_app, lag_step_update.
  2: { intros x Hx <-. rewrite Hg in *. eapply Hlast; [left|done]. }
  rewrite Hg. case_decide as Hkg.
  - right. exists lag. subst k. split; [rewrite Hkg; left|].
    destruct (IH (Some (gate_list (members (lag_step now prio mac lag).1)))) as [[E _]|(lag2 & Hin & _)];
      [done|intros; apply Hkey; by right| |exact E|].
    + intros lag2 x Hin. exfalso. apply Hk. apply list_elem_of_fmap. by exists (g, lag2).
    + exfalso. apply Hk. apply list_elem_of_fmap. by exists (g, lag2).
  - destruct (IH acc) as [[E Hn]|(lag2 & Hin & E)]; [done|intros; apply Hkey; by right| | |].
    + intros lag2 x Hin. apply Hlast. by right.
    + left. split; [exact E|]. rewrite not_elem_of_cons. by split.
    + right. exists lag2. split; [by right|exact E].
Qed.

Lemma step_pushed now s seen :
  pushed (lags s) seen →
  pushed (lags (step now s).1) (λ g, last_update g (seen g) (step now s).2)
  ∧ ∀ g lag, lags (step now s).1 !! g = Some lag →
      last_update g (seen g) (step now s).2 = Some (gate_list (members lag)).
Proof.
  intros Hp.
  assert (∀ g lag, lags (step now s).1 !! g = Some lag →
    group (lag_config lag) = g ∧ last_gates lag = Some (gate_list (members lag))
    ∧ last_update g (seen g) (step now s).2 = Some (gate_list (members lag))) as H.
  { intros g lag'. simpl. rewrite map_lookup_imap. intros (lag & Hlag & [= <-])%bind_Some.
    destruct (lag_step_fields now (system_priority s) (system_mac s) lag) as (Hc & _ & Hl).
    destruct (Hp g lag Hlag) as [Hg Hseen]. split_and!; [by rewrite Hc|done|].
    destruct (steps_update now (system_priority s) (system_mac s) (btree_iter (lags s)) (seen g) g)
      as [[_ Hn]|(lag2 & Hin & ->)].
    - apply NoDup_btree_keys.
    - intros k l Hin%elem_of_btree_iter. by apply Hp.
    - intros l x Hin%elem_of_btree_iter. simplify_eq. by apply Hseen.
    - exfalso. apply Hn. apply elem_of_btree_keys. by eexists.
    - apply elem_of_btree_iter in Hin. by simplify_eq. }
  split; [|intros g lag Hl; by apply H].
  intros g lag Hl. destruct (H g lag Hl) as (H1 & H2 & H3). split; [done|].
  intros l. rewrite H2, H3. done.
Qed.

Lemma on_member_lookup port f s g lag' :
  lags (on_member port f s) !! g = Some lag' →
  ∃ lag, lags s !! g = Some lag ∧ lag_config lag' = lag_config lag
    ∧ last_gates lag' = last_gates lag
    ∧ members lag' = (if decide (port_to_lag s !! port = Some g) then alter f port (members lag)
                      else members lag).
Proof.
  unfold on_member. destruct (port_to_lag s !! port) as [g'|] eqn:E; simpl.
  - rewrite lookup_alter. case_decide as Hg.
    + intros (lag & Hl & ->)%fmap_Some. subst. exists lag. rewrite decide_True by done. done.
    + intros Hl. exists lag'. rewrite decide_False by congruence. done.
  - intros Hl. exists lag'. done.
Qed.

Lemma on_member_pushed port f s seen :
  pushed (lags s) seen → pushed (lags (on_member port f s)) seen.
Proof.
  intros Hp g lag' (lag & Hl & Hc & Hg & _)%on_member_lookup. rewrite Hc, Hg. by apply Hp.
Qed.

Lemma event_pushed e s seen :
  pushed (lags s) seen → pushed (lags (on_event e s)) seen.
Proof.
  intros Hp. destruct e as [| |e|at_ port frame]; [done..| |].
  - by apply on_member_pushed.
  - simpl. unfold pdu_in. repeat case_match; [by apply on_member_pushed|done..].
Qed.

Lemma set_lag_config_lookup now links c ls g :
  set_lag_config now links c ls !! g =
  if decide (group c = g) then set_lag_config now links c ls !! group c else ls !! g.
Proof.
  case_decide as E; [by rewrite E|].
  unfold set_lag_config. case_match; by rewrite lookup_insert_ne.
Qed.

Lemma set_lag_config_pushed now links c ls seen :
  pushed ls seen → pushed (set_lag_config now links c ls) seen.
Proof.
  intros Hp g lag. rewrite set_lag_config_lookup. case_decide as E; [|by apply Hp].
  unfold set_lag_config. destruct (ls !! group c) as [l|] eqn:Hl; rewrite lookup_insert_eq;
    intros [= <-]; simpl; split; try done.
  rewrite <-E. by apply Hp.
Qed.

Lemma set_configs_pushed now prio configs s seen :
  pushed (lags s) seen → pushed (lags (set_configs now prio configs s)) seen.
Proof.
  intros Hp. unfold set_configs; simpl.
  assert (pushed (btree_retain (λ g _, bool_decide (g ∈ (list_to_set (group <$> configs) : gset N)))
    (lags s)) seen) as Hk.
  { intros g lag. rewrite btree_retain_lookup. intros Hl. repeat case_match; simplify_eq. by apply Hp. }
  revert Hk. generalize (btree_retain (λ g _, bool_decide (g ∈ (list_to_set (group <$> configs) : gset N)))
    (lags s)).
  induction configs as [|c cs IH]; intros ls Hls; simpl; [done|].
  by apply IH, set_lag_config_pushed.
Qed.

Lemma run_app acts1 acts2 s :
  run (acts1 ++ acts2) s =
  let '(s1, o1) := run acts1 s in let '(s2, o2) := run acts2 s1 in (s2, o1 ++ o2).
Proof.
  revert s. induction acts1 as [|a acts IH]; intros s; simpl; [by destruct (run acts2 s)|].
  destruct (act a s) as [s0 o0]. rewrite IH. destruct (run acts s0) as [s1 o1].
  destruct (run acts2 s1). by rewrite <-app_assoc.
Qed.

Lemma run_pushed acts s seen :
  pushed (lags s) seen → pushed (lags (run acts s).1) (λ g, last_update g (seen g) (run acts s).2).
Proof.
  revert s seen. induction acts as [|a acts IH]; intros s seen Hp; simpl; [done|].
  assert (pushed (lags (act a s).1) (λ g, last_update g (seen g) (act a s).2)) as Ha.
  { destruct a as [now prio configs|now e]; [by apply set_configs_pushed|].
    by apply step_pushed, event_pushed. }
  destruct (act a s) as [s1 o1]. simpl in Ha. apply IH in Ha. destruct (run acts s1) as [s2 o2].
  simpl in *. intros g lag Hl. destruct (Ha g lag Hl) as [H1 H2]. split; [done|].
  intros l Hlg. rewrite last_update_app. by apply H2.
Qed.

(** C13: whatever configurations, link events and frames came before, after
    every turn of the loop the last update the pusher received for a group is
    exactly that group's current membership and gates: updates sent on change
    only lose nothing. *)
Theorem lacp_pusher_up_to_date mac acts now e g lag :
  lags (run (acts ++ [AEvent now e]) (spawn mac)).1 !! g = Some lag →
  last_update g None (run (acts ++ [AEvent now e]) (spawn mac)).2
  = Some (gate_list (members lag)).
Proof.
  rewrite run_app.
  pose proof (run_pushed acts (spawn mac) (λ _, None) ltac:(intros ?? [=])) as Hp.
  destruct (run acts (spawn mac)) as [s1 o1]. simpl in Hp. unfold run, act.
  apply (event_pushed e) in Hp. apply (step_pushed now) in Hp as [_ Hp].
  specialize (Hp g lag). unfold handle. destruct (step now _) as [s2 o2]. simpl in *.
  intros Hl. by rewrite app_nil_r, last_update_app, Hp.
Qed.

(** ** The port index *)

Definition member_of (ls : gmap N Lag) (g : N) (p : string) : Prop :=
  ∃ lag, ls !! g = Some lag ∧ is_Some (members lag !! p).

(** The last group that has the port owns it. *)
Definition owner (ls : gmap N Lag) (p : string) (g : N) : Prop :=
  member_of ls g p ∧ ∀ g', member_of ls g' p → g' ≤ g.

Definition indexed (s : Inner) : Prop :=
  ∀ p g, port_to_lag s !! p = Some g ↔ owner (lags s) p g.

Lemma insert_all_lookup (g : N) (names : list string) acc p :
  foldl (λ acc name, <[name := g]> acc) acc names !! p =
  if decide (p ∈ names) then Some g else (acc : gmap string N) !! p.
Proof.
  revert acc. induction names as [|n names IH]; intros acc; simpl.
  - done.
  - rewrite IH. case_decide as H1; case_decide as H2; rewrite ?elem_of_cons in *; [done|naive_solver| |].
    + destruct H2 as [->|]; [by rewrite lookup_insert_eq|done].
    + rewrite lookup_insert_ne; [done|]. naive_solver.
Qed.

(** Over key-sorted entries the surviving binding is the greatest. *)
Lemma index_list (l : list (N * Lag)) p g :
  StronglySorted entry_le l →
  foldl (λ acc gl, foldl (λ acc name, <[name := gl.1]> acc) acc (btree_keys (members gl.2)))
    (∅ : gmap string N) l !! p = Some g ↔
  (∃ lag, (g, lag) ∈ l ∧ is_Some (members lag !! p))
  ∧ ∀ g' lag', (g', lag') ∈ l → is_Some (members lag' !! p) → g' ≤ g.
Proof.
  induction l as [|[k lag] l IH] using rev_ind; intros Hs.
  - simpl. split; [done|]. by intros [(? & ?%elem_of_nil & _) _].
  - apply StronglySorted_app in Hs as (Hcross & Hs & _). rewrite foldl_app. simpl.
    rewrite insert_all_lookup. specialize (IH Hs).
    assert (∀ g' lag', (g', lag') ∈ l → g' ≤ k) as Hle.
    { intros g' lag' Hin. apply (Hcross (g', lag') (k, lag) Hin). left. }
    case_decide as Hk; rewrite elem_of_btree_keys in Hk; split.
    + intros [= <-]. split; [exists lag; split; [rewrite elem_of_app; right; left|done]|].
      intros g' lag' [Hin|Hin]%elem_of_app _; [by eapply Hle|].
      apply list_elem_of_singleton in Hin. by simplify_eq.
    + intros [(lag0 & [Hin|Hin]%elem_of_app & Hm) Hmax].
      * f_equal. apply N.le_antisymm; [|by eapply Hle].
        apply (Hmax k lag); [rewrite elem_of_app; right; left|done].
      * apply list_elem_of_singleton in Hin. by simplify_eq.
    + rewrite IH. intros [(lag0 & Hin & Hm) Hmax].
      split; [exists lag0; split; [by apply elem_of_app; left|done]|].
      intros g' lag' [Hin'|Hin']%elem_of_app Hm'; [by eapply Hmax|].
      apply list_elem_of_singleton in Hin'. by simplify_eq.
    + intros [(lag0 & [Hin|Hin]%elem_of_app & Hm) Hmax].
      * apply IH. split; [by exists lag0|]. intros g' lag' Hin' Hm'. eapply Hmax; [|done].
        by apply elem_of_app; left.
      * apply list_elem_of_singleton in Hin. by simplify_eq.
Qed.

Lemma index_ports_owner ls p g : index_ports ls !! p = Some g ↔ owner ls p g.
Proof.
  unfold index_ports. rewrite (index_list _ _ _ (btree_iter_sorted ls)).
  unfold owner, member_of. setoid_rewrite elem_of_btree_iter. naive_solver.
Qed.

(** Everything but a configuration push keeps the memberships. *)
Definition same_members (ls ls' : gmap N Lag) : Prop :=
  ∀ g p, member_of ls g p ↔ member_of ls' g p.

#[export] Instance same_members_equivalence : Equivalence same_members.
Proof. split; unfold same_members; intros ?; naive_solver. Qed.
#[export] Instance owner_proper : Proper (same_members ==> (=) ==> (=) ==> iff) owner.
Proof.
  intros ls ls' Hm p ? <- g ? <-. unfold owner. split; intros [H1 H2];
    (split; [by apply Hm|]); intros g' Hg'; by apply H2, Hm.
Qed.

Lemma indexed_same s s' :
  port_to_lag s' = port_to_lag s → same_members (lags s) (lags s') → indexed s → indexed s'.
Proof.
  intros He Hm Hi p g. rewrite He, (Hi p g). by rewrite Hm.
Qed.

Lemma step_same now s : same_members (lags s) (lags (step now s).1).
Proof.
  intros g p. unfold member_of. simpl. rewrite map_lookup_imap.
  destruct (lags s !! g) as [lag|]; simpl; [|naive_solver].
  split; intros (lag' & [= <-] & Hm); eexists; (split; [done|]).
  - rewrite lag_step_members. by rewrite fmap_is_Some.
  - rewrite lag_step_members in Hm. by rewrite fmap_is_Some in Hm.
Qed.

Lemma on_member_same port f s : same_members (lags s) (lags (on_member port f s)).
Proof.
  intros g p. unfold on_member. destruct (port_to_lag s !! port) as [g0|]; [|done].
  unfold member_of. simpl. rewrite lookup_alter. case_decide; [subst|done].
  destruct (lags s !! g) as [lag|]; simpl; [|naive_solver].
  split; intros (lag' & [= <-] & Hm); eexists; (split; [done|]); simpl in *.
  - rewrite lookup_alter. case_decide; [subst; by rewrite fmap_is_Some|done].
  - rewrite lookup_alter in Hm. case_decide; [subst; by rewrite fmap_is_Some in Hm|done].
Qed.

Lemma on_member_index port f s : port_to_lag (on_member port f s) = port_to_lag s.
Proof. unfold on_member. by case_match. Qed.

Lemma event_indexed e s : indexed s → indexed (on_event e s).
Proof.
  intros Hi. destruct e as [| |e|at_ port frame]; simpl; [done..| |].
  - eapply indexed_same; [apply on_member_index|apply on_member_same|done].
  - unfold pdu_in. repeat case_match; [|done..].
    eapply indexed_same; [apply on_member_index|apply on_member_same|done].
Qed.

Lemma act_indexed a s : indexed s → indexed (act a s).1.
Proof.
  intros Hi. destruct a as [now prio configs|now e].
  - intros p g. apply index_ports_owner.
  - eapply indexed_same; [|apply step_same|by apply event_indexed]. done.
Qed.

Lemma run_indexed acts s : indexed s → indexed (run acts s).1.
Proof.
  revert s. induction acts as [|a acts IH]; intros s Hi; simpl; [done|].
  apply (act_indexed a) in Hi. destruct (act a s) as [s1 o1]. apply IH in Hi. simpl in Hi.
  by destruct (run acts s1).
Qed.

Lemma spawn_indexed mac : indexed (spawn mac).
Proof. intros p g. split; [done|]. by intros [(? & ? & _) _]. Qed.

(** In every reachable state the port index names, for each port, the
    greatest group that has it as a member, and no port that is in none. *)
Theorem lacp_port_index mac acts p g :
  let s := (run acts (spawn mac)).1 in
  port_to_lag s !! p = Some g ↔ owner (lags s) p g.
Proof. apply run_indexed, spawn_indexed. Qed.

(** When a port's link goes down, the very turn that handles the event
    closes its gate in the group that owns it and forgets its partner. *)
Theorem lacp_link_down_closes mac acts now p g lag m :
  let s := (handle now (Link (mkLinkEvent p false)) (run acts (spawn mac)).1).1 in
  owner (lags s) p g → lags s !! g = Some lag → members lag !! p = Some m →
  link_up m = false ∧ bundled m = false ∧ partner m = None.
Proof.
  cbv zeta. set (s0 := (run acts (spawn mac)).1).
  assert (indexed s0) as Hi by apply run_indexed, spawn_indexed.
  intros Hown Hlag Hm.
  assert (port_to_lag s0 !! p = Some g) as Hpg.
  { apply (act_indexed (AEvent now (Link (mkLinkEvent p false)))) in Hi. simpl in Hi.
    apply (Hi p g) in Hown. simpl in Hown. unfold link_event in Hown.
    by rewrite on_member_index in Hown. }
  unfold handle in Hlag. simpl in Hlag. rewrite map_lookup_imap in Hlag.
  apply bind_Some in Hlag as (lag1 & Hlag1 & [= <-]).
  unfold link_event in Hlag1. apply on_member_lookup in Hlag1 as (lag0 & _ & _ & _ & Hms).
  simpl in Hms. rewrite decide_True in Hms by done.
  pose proof (wanted_open _ _ _ _ _ _ Hm) as Hopen.
  apply lag_step_member in Hm as (m1 & Hm1 & _ & Hup & Hpart & _).
  rewrite Hms, lookup_alter_eq in Hm1. apply fmap_Some in Hm1 as (m0 & Hm0 & ->).
  simpl in Hup, Hpart. split_and!; [done| |done].
  destruct (bundled m) eqn:Hb; [|done]. specialize (Hopen eq_refl).
  apply selection_open in Hopen as (m2 & Hm2 & Hup2 & _). simpl in Hm2.
  rewrite Hms, lookup_alter_eq, Hm0 in Hm2. simplify_eq/=.
Qed.

(** ** A bonded pair *)

Module LacpDemo.
Definition mac : list N := [2; 0; 0; 0; 0; 1].
Definition peer : list N := [2; 0; 0; 0; 0; 2].
Definition member (p : N) : MemberConfig := mkMemberConfig Active true p.
Definition cfg (fb : option Fallback) : LagConfig :=
  mkLagConfig 7 1 fb (from_secs 30)
    {[ "Ethernet1" := member 32768; "Ethernet2" := member 100 ]}.
Definition hello : list N :=
  encode_pdu peer 32768 peer 9 32768 1 (N.lor SYNC (N.lor ACTIVITY AGGREGATION)) None.

Definition setup (fb : option Fallback) : list action :=
  [AConfigs 0 32768 [cfg fb];
   AEvent (from_secs 1) (Link (mkLinkEvent "Ethernet1" true));
   AEvent (from_secs 2) (Link (mkLinkEvent "Ethernet2" true))].

(** Ethernet1 has heard its partner; nobody has been heard for 40 s. *)
Definition bonded : list action :=
  setup None ++ [AEvent (from_secs 3) (Pdu (from_secs 3) "Ethernet1" hello)].
Definition alone : list action := setup (Some Individual).

Definition lag_of (acts : list action) : Lag :=
  default (mkLag (cfg None) ∅ 0 false None) (lags (run acts (spawn mac)).1 !! 7).
Definition bonded_lag : Lag := Eval vm_compute in lag_of bonded.
Definition alone_lag : Lag := Eval vm_compute in lag_of alone.

(** A pass over [lag] and the named member it leaves. *)
Definition pass (now : N) (lag : Lag) : Lag * list Output := lag_step now 32768 mac lag.
Definition get (name : string) (lag : Lag) : Member :=
  default (new_member (member 0) 0) (members lag !! name).
End LacpDemo.

Import LacpDemo.

Lemma lacp_pdu_codec_witness :
  decode_pdu hello = Ok (Some (mkPartner 32768 peer 9 32768 1 13)).
Proof.
  exact (proj2 (proj2 lacp_pdu_codec peer 32768 peer 9 32768 1 13 None eq_refl eq_refl
    ltac:(discriminate))).
Defined.

Lemma lacp_gate_open_sound_witness :
  let lag' := (pass (from_secs 4) bonded_lag).1 in
  bundled (get "Ethernet1" lag') = true ∧ partner_current (get "Ethernet1" lag') (from_secs 4) = true.
Proof.
  assert (members (pass (from_secs 4) bonded_lag).1 !! "Ethernet1" =
    Some (get "Ethernet1" (pass (from_secs 4) bonded_lag).1)) as H1 by (vm_compute; reflexivity).
  assert (bundled (get "Ethernet1" (pass (from_secs 4) bonded_lag).1) = true) as H2
    by (vm_compute; reflexivity).
  split; [exact H2|].
  destruct (lacp_gate_open_sound _ _ _ _ _ _ H1 H2) as [_ H].
  apply H; vm_compute; reflexivity.
Defined.

Lemma lacp_individual_fallback_witness :
  individual (get "Ethernet2" (pass (from_secs 40) alone_lag).1) = true.
Proof.
  assert (members (pass (from_secs 40) alone_lag).1 !! "Ethernet2" =
    Some (get "Ethernet2" (pass (from_secs 40) alone_lag).1)) as H1 by (vm_compute; reflexivity).
  assert (bundled (get "Ethernet2" (pass (from_secs 40) alone_lag).1) = true) as H2
    by (vm_compute; reflexivity).
  assert (fallback_active (pass (from_secs 40) alone_lag).1 = true) as H3 by (vm_compute; reflexivity).
  exact (proj1 (lacp_individual_fallback _ _ _ _ _ _ H3 eq_refl H1 H2)).
Defined.

Lemma lacp_transmission_sound_witness :
  ∃ frame, SendPdu "Ethernet1" frame ∈ (pass (from_secs 40) bonded_lag).2
    ∧ lacp_of bonded_lag = true.
Proof.
  set (frame := match (pass (from_secs 40) bonded_lag).2 with
                | _ :: SendPdu _ f :: _ => f
                | _ => []
                end).
  assert (SendPdu "Ethernet1" frame ∈ (pass (from_secs 40) bonded_lag).2) as Hin.
  { apply list_elem_of_In. vm_compute. right. left. reflexivity. }
  exists frame. split; [exact Hin|].
  refine (proj1 (lacp_transmission_sound (from_secs 40) 32768 mac bonded_lag _ _ eq_refl _ Hin)).
  intros name m q Hm Hq.
  assert (map_Forall (λ _ m, match partner m with
    | Some q => (length (p_system q) =? 6)%nat
    | None => true
    end = true) (members bonded_lag)) as Hall by (apply (bool_decide_unpack _); vm_compute; exact I).
  specialize (Hall name m Hm). simpl in Hall. rewrite Hq in Hall. by apply Nat.eqb_eq in Hall.
Defined.

Lemma lacp_pusher_up_to_date_witness :
  last_update 7 None (run (bonded ++ [AEvent (from_secs 4) Tick]) (spawn mac)).2
  = Some [("Ethernet1", true); ("Ethernet2", false)].
Proof.
  assert (lags (run (bonded ++ [AEvent (from_secs 4) Tick]) (spawn mac)).1 !! 7 =
    Some (lag_of (bonded ++ [AEvent (from_secs 4) Tick]))) as H by (vm_compute; reflexivity).
  rewrite (lacp_pusher_up_to_date _ _ _ _ _ _ H). vm_compute. reflexivity.
Defined.

Lemma lacp_link_down_closes_witness :
  let down := AEvent (from_secs 4) (Link (mkLinkEvent "Ethernet1" false)) in
  bundled (get "Ethernet1" (lag_of (bonded ++ [down]))) = false.
Proof.
  cbv zeta.
  set (s := (handle (from_secs 4) (Link (mkLinkEvent "Ethernet1" false)) (run bonded (spawn mac)).1).1).
  set (lag := lag_of (bonded ++ [AEvent (from_secs 4) (Link (mkLinkEvent "Ethernet1" false))])).
  assert (lags s !! 7 = Some lag) as Hl by (vm_compute; reflexivity).
  assert (members lag !! "Ethernet1" = Some (get "Ethernet1" lag)) as Hm by (vm_compute; reflexivity).
  assert (lags s = {[ 7 := lag ]}) as Hs by (vm_compute; reflexivity).
  assert (owner (lags s) "Ethernet1" 7) as Ho.
  { split; [exists lag; split; [exact Hl|eexists; exact Hm]|].
    intros g' (l & Hl' & _). rewrite Hs in Hl'. apply lookup_singleton_Some in Hl' as [<- _]. lia. }
  exact (proj1 (proj2 (lacp_link_down_closes mac bonded (from_secs 4) "Ethernet1" 7 lag _ Ho Hl Hm))).
Defined.
