(* ===== verification/Stp.v ===== *)
(** * Spanning tree (hemlock-orch/src/stp.rs)

    The port-role and port-state machine, the root election and the BPDU
    codec.  [Inner] is the state behind the engine's mutex, [handle] one turn
    of [run]'s [select!] loop (an event, then [step]), [set_config] the gRPC
    side.  [Instant::now()] is an argument; the three output channels are one
    list of [Output]s in the order of the sends.  The only clock a turn reads
    besides its own is the arrival time of a link event or a frame, which the
    event carries. *)

From Stdlib Require Import Ascii NArith Lia.
From stdpp Require Import base tactics list strings option gmap sorting.
From S2P Require Import Prelude Text.

Local Open Scope N_scope.

Definition STP_DST : list N := [1; 128; 194; 0; 0; 0].

Inductive Mode := Mstp | Rstp | NoStp.

#[export] Instance Mode_eq_dec : EqDecision Mode.
Proof. solve_decision. Defined.

Record PortConfig := mkPortConfig {
  portfast : bool;
  bpduguard : bool;
  cost : option N;
  priority : N;
}.

Definition default_port_config : PortConfig := mkPortConfig false false None 0.

Record Config := mkConfig {
  mode : Mode;
  bridge_priority : N;
  hello_time : N;
  max_age : N;
  forward_time : N;
  mst_name : string;
  mst_revision : N;
  instances : gmap N (list N);
  cfg_ports : gmap string PortConfig;
}.

Record LinkEvent := mkLinkEvent { ev_port : string; up : bool; ev_speed : N }.

Inductive Role := Designated | Root | Alternate | Disabled.
Inductive PortState := Discarding | Learning | Forwarding.

#[export] Instance Role_eq_dec : EqDecision Role.
Proof. solve_decision. Defined.
#[export] Instance PortState_eq_dec : EqDecision PortState.
Proof. solve_decision. Defined.

(** [(priority, mac)], compared like the derived [Ord]. *)
Abbreviation BridgeId := (N * list N)%type.

Record PriorityVector := mkVector {
  v_root : BridgeId;
  v_cost : N;
  v_bridge : BridgeId;
  v_port_id : N;
}.

Record Port := mkPort {
  config : PortConfig;
  port_number : N;
  link_up : bool;
  speed_mbps : N;
  received : option PriorityVector;
  last_rx : option N;
  role : Role;
  state : PortState;
  state_since : N;
  bpdus_rx : N;
  bpdus_tx : N;
  last_tx : option N;
  errdisabled : bool;
}.

Definition path_cost (p : Port) : N :=
  match cost (config p) with
  | Some c => c
  | None =>
      match speed_mbps p with
      | 0 => 20000000
      | mbps => wrap 32 (N.max (20000000000 / (mbps * 1000)) 1)
      end
  end.

Record Inner := mkInner {
  cfg : Config;
  bridge_mac : list N;
  ports : gmap string Port;
  topology_changes : N;
  last_tc : option (N * string);
  last_states : gmap string PortState;
}.

Definition bridge_id (s : Inner) : BridgeId := (bridge_priority (cfg s), bridge_mac s).

Inductive Output :=
| SendBpdu (port : string) (frame : list N)
| SendState (port : string) (st : PortState)
| SendErrdisable (port : string) (reason : string).

Definition spawn (mac : list N) : Inner :=
  mkInner (mkConfig Mstp 32768 2 20 15 "" 0 ∅ ∅) mac ∅ 0 None ∅.

(** Field assignments. *)
Definition set_port_config (c : PortConfig) (e : bool) (p : Port) : Port :=
  mkPort c (port_number p) (link_up p) (speed_mbps p) (received p) (last_rx p) (role p) (state p)
    (state_since p) (bpdus_rx p) (bpdus_tx p) (last_tx p) e.
Definition set_speed (n : N) (p : Port) : Port :=
  mkPort (config p) (port_number p) (link_up p) n (received p) (last_rx p) (role p) (state p)
    (state_since p) (bpdus_rx p) (bpdus_tx p) (last_tx p) (errdisabled p).
Definition set_link (u : bool) (p : Port) : Port :=
  mkPort (config p) (port_number p) u (speed_mbps p) (received p) (last_rx p) (role p) (state p)
    (state_since p) (bpdus_rx p) (bpdus_tx p) (last_tx p) (errdisabled p).
Definition set_received (v : option PriorityVector) (at_ : option N) (p : Port) : Port :=
  mkPort (config p) (port_number p) (link_up p) (speed_mbps p) v at_ (role p) (state p)
    (state_since p) (bpdus_rx p) (bpdus_tx p) (last_tx p) (errdisabled p).
Definition set_state (r : Role) (st : PortState) (at_ : N) (p : Port) : Port :=
  mkPort (config p) (port_number p) (link_up p) (speed_mbps p) (received p) (last_rx p) r st
    at_ (bpdus_rx p) (bpdus_tx p) (last_tx p) (errdisabled p).
Definition set_counts (rx tx : N) (at_ : option N) (p : Port) : Port :=
  mkPort (config p) (port_number p) (link_up p) (speed_mbps p) (received p) (last_rx p) (role p)
    (state p) (state_since p) rx tx at_ (errdisabled p).

Definition port_number_of (name : string) : N :=
  default 0 (parse_uint 16
    (take_while is_ascii_digit (skip_while (λ c, negb (is_ascii_digit c)) name))).

(** ** Configuration *)

(** A port priority of 0 means the default. *)
Definition fix_priority (c : PortConfig) : PortConfig :=
  if priority c =? 0 then mkPortConfig (portfast c) (bpduguard c) (cost c) 128 else c.

Definition or_default (n d : N) : N := if n =? 0 then d else n.

Definition reconfigure (c : Config) (name : string) (p : Port) : Port :=
  let pc := fix_priority (default default_port_config (cfg_ports c !! name)) in
  let e := if errdisabled p && negb (bpduguard pc) then false else errdisabled p in
  set_port_config pc e p.

Definition set_config (c : Config) (s : Inner) : Inner :=
  mkInner
    (mkConfig (mode c) (or_default (bridge_priority c) 32768) (or_default (hello_time c) 2)
       (or_default (max_age c) 20) (or_default (forward_time c) 15)
       (mst_name c) (mst_revision c) (instances c) (cfg_ports c))
    (bridge_mac s) (map_imap (λ name p, Some (reconfigure c name p)) (ports s))
    (topology_changes s) (last_tc s) (last_states s).

(** ** Root election *)

(** The vector a port offers, when it can carry the path to the root. *)
Definition root_candidate (s : Inner) (now : N) (np : string * Port) :
    option (PriorityVector * N * string) :=
  let '(name, p) := np in
  if negb (link_up p) || errdisabled p then None
  else match received p with
  | None => None
  | Some info =>
      if match last_rx p with
         | Some at_ => since now at_ <? from_secs (max_age (cfg s))
         | None => false
         end
      then if decide (key_le (bridge_id s) (v_root info)) then None
           else Some (info, N.min (v_cost info + path_cost p) (2 ^ 32 - 1), name)
      else None
  end.

Definition rank (c : PriorityVector * N * string) : BridgeId * N * BridgeId * N :=
  let '(info, cost, _) := c in (v_root info, cost, v_bridge info, v_port_id info).

Definition compute_root (s : Inner) (now : N) : BridgeId * N * option string :=
  let best := foldl (λ best np,
    match root_candidate s now np with
    | None => best
    | Some c =>
        match best with
        | None => Some c
        | Some have => if decide (key_lt (rank c) (rank have)) then Some c else best
        end
    end) None (btree_iter (ports s)) in
  match best with
  | Some (info, c, port) => (v_root info, c, Some port)
  | None => (bridge_id s, 0, None)
  end.

(** ** BPDUs *)

Definition encode_bpdu (src_mac : list N) (rstp : bool) (root : BridgeId) (c : N)
    (bridge : BridgeId) (port_id hello age forward_delay : N) : list N :=
  let body :=
    [0; 0] ++ [if rstp then 2 else 0] ++ [if rstp then 2 else 0] ++ [0]
    ++ be16 root.1 ++ root.2 ++ be32 c ++ be16 bridge.1 ++ bridge.2 ++ be16 port_id
    ++ be16 0 ++ be16 (wrap 16 (age * 256)) ++ be16 (wrap 16 (hello * 256))
    ++ be16 (wrap 16 (forward_delay * 256)) ++ (if rstp then [0] else []) in
  STP_DST ++ src_mac ++ be16 (wrap 16 (N.of_nat (length body + 3))) ++ [66; 66; 3] ++ body.

Definition decode_bpdu (frame : list N) : result panic (option PriorityVector) :=
  if (length frame <? 17 + 31)%nat then Ok None
  else
    b14 ← index frame 14;
    b15 ← index frame 15;
    if negb (b14 =? 66) || negb (b15 =? 66) then Ok None
    else
      body ← range 17 (length frame) frame;
      b0 ← index body 0;
      b1 ← index body 1;
      if negb (b0 =? 0) || negb (b1 =? 0) then Ok None
      else
        bpdu_type ← index body 3;
        if negb (bpdu_type =? 0) && negb (bpdu_type =? 2) then Ok None
        else
          let be a := (hi ← index body a; lo ← index body (a + 1); Ok (of_be16 hi lo)) in
          rp ← be 5%nat;
          rm ← range 7 13 body;
          c0 ← index body 13;
          c1 ← index body 14;
          c2 ← index body 15;
          c3 ← index body 16;
          bp ← be 17%nat;
          bm ← range 19 25 body;
          pid ← be 25%nat;
          Ok (Some (mkVector (rp, rm) (of_be32 c0 c1 c2 c3) (bp, bm) pid)).

(** ** Events *)

Definition new_port (c : PortConfig) (name : string) (now : N) : Port :=
  mkPort c (port_number_of name) false 0 None None Disabled Discarding now 0 0 None false.

Definition link_port (now : N) (e : LinkEvent) (p : Port) : Port :=
  let p := set_port_config (fix_priority (config p)) (errdisabled p) p in
  let p := if 0 <? ev_speed e then set_speed (ev_speed e) p else p in
  if eqb (link_up p) (up e) then p
  else set_state (role p) Discarding now (set_received None None (set_link (up e) p)).

Definition with_ports (ps : gmap string Port) (s : Inner) : Inner :=
  mkInner (cfg s) (bridge_mac s) ps (topology_changes s) (last_tc s) (last_states s).

Definition link_event (now : N) (e : LinkEvent) (s : Inner) : Inner :=
  let c := default default_port_config (cfg_ports (cfg s) !! ev_port e) in
  let p := default (new_port c (ev_port e) now) (ports s !! ev_port e) in
  with_ports (<[ev_port e := link_port now e p]> (ports s)) s.

Definition bpdu_port (now : N) (info : PriorityVector) (p : Port) : Port * bool :=
  let p := set_counts (wrap 64 (bpdus_rx p + 1)) (bpdus_tx p) (last_tx p) p in
  if bpduguard (config p) && negb (errdisabled p) then
    (set_port_config (config p) true (set_state (role p) Discarding (state_since p) p), true)
  else if negb (errdisabled p) then (set_received (Some info) (Some now) p, false)
  else (p, false).

(** An out-of-range index would end the task; [decode_bpdu] has none. *)
Definition bpdu_in (now : N) (name : string) (frame : list N) (s : Inner) : Inner * list Output :=
  match decode_bpdu frame with
  | Ok (Some info) =>
      match ports s !! name with
      | Some p =>
          let '(p, trip) := bpdu_port now info p in
          (with_ports (<[name := p]> (ports s)) s,
           if trip then [SendErrdisable name "bpduguard"] else [])
      | None => (s, [])
      end
  | _ => (s, [])
  end.

(** ** One evaluation pass *)

Definition port_id (p : Port) : N := N.lor (N.shiftl (priority (config p)) 8) (port_number p).

Definition age_out (now age : N) (p : Port) : Port :=
  match last_rx p with
  | Some at_ => if age <=? since now at_ then set_received None None p else p
  | None => p
  end.

(** Root, Alternate or Designated for a live port. *)
Definition elect_role (root : BridgeId) (root_cost : N) (root_port : option string)
    (bridge : BridgeId) (name : string) (p : Port) : Role :=
  if decide (Some name = root_port) then Root
  else match received p with
  | Some theirs =>
      if decide (key_lt (v_root theirs, v_cost theirs, v_bridge theirs) (root, root_cost, bridge))
      then Alternate else Designated
  | None => Designated
  end.

Definition next_state (now delay : N) (r : Role) (p : Port) : PortState :=
  match r with
  | Alternate | Disabled => Discarding
  | Root | Designated =>
      if portfast (config p) then Forwarding
      else match state p with
      | Discarding => if delay <=? since now (state_since p) then Learning else Discarding
      | Learning => if delay <=? since now (state_since p) then Forwarding else Learning
      | Forwarding => Forwarding
      end
  end.

(** The port after role and state progression, and whether it reached
    forwarding as a non-edge port. *)
Definition progress (now delay age : N) (root : BridgeId) (root_cost : N) (root_port : option string)
    (bridge : BridgeId) (name : string) (p : Port) : Port * bool :=
  if negb (link_up p) || errdisabled p then (set_state Disabled Discarding (state_since p) p, false)
  else
    let p := age_out now age p in
    let r := elect_role root root_cost root_port bridge name p in
    let p := if decide (role p = r) then p else set_state r Discarding now p in
    let next := next_state now delay r p in
    if decide (next = state p) then (p, false)
    else (set_state (role p) next now p,
          bool_decide (next = Forwarding) && negb (portfast (config p))).

(** The hello due on a designated port. *)
Definition hello_port (now : N) (s : Inner) (root : BridgeId) (root_cost : N) (name : string)
    (p : Port) : Port * list Output :=
  if negb (link_up p) || errdisabled p then (p, [])
  else if decide (role p = Designated) then
    if match last_tx p with
       | Some at_ => from_secs (hello_time (cfg s)) <=? since now at_
       | None => true
       end
    then
      (set_counts (bpdus_rx p) (wrap 64 (bpdus_tx p + 1)) (Some now) p,
       [SendBpdu name (encode_bpdu (bridge_mac s) true root root_cost (bridge_id s) (port_id p)
          (hello_time (cfg s)) (max_age (cfg s)) (forward_time (cfg s)))])
    else (p, [])
  else (p, []).

Definition port_step (now : N) (s : Inner) (name : string) (p : Port) : Port * bool * list Output :=
  let '(root, root_cost, root_port) := compute_root s now in
  let '(p, tc) := progress now (from_secs (forward_time (cfg s))) (from_secs (max_age (cfg s)))
                    root root_cost root_port (bridge_id s) name p in
  let '(p, out) := hello_port now s root root_cost name p in
  (p, tc, out).

(** The loop over the ports with spanning tree on; the last port to reach
    forwarding names the topology change. *)
Definition tree_pass (now : N) (s : Inner) : Inner * list Output :=
  let '(ps, out) := btree_each (λ name p, ((port_step now s name p).1.1, (port_step now s name p).2))
                      (ports s) in
  let tc := last ((filter (λ np, (port_step now s np.1 np.2).1.2 = true) (btree_iter (ports s))).*1) in
  (match tc with
   | Some name => mkInner (cfg s) (bridge_mac s) ps (wrap 32 (topology_changes s + 1))
                    (Some (now, name)) (last_states s)
   | None => with_ports ps s
   end, out).

(** Spanning tree off: everything with link forwards. *)
Definition open_port (p : Port) : Port :=
  set_state Designated (if link_up p && negb (errdisabled p) then Forwarding else Discarding)
    (state_since p) p.

Definition visible (p : Port) : PortState :=
  if link_up p || errdisabled p then state p else Discarding.

Definition push_one (acc : gmap string PortState * list Output) (np : string * Port) :
    gmap string PortState * list Output :=
  let '(seen, out) := acc in
  let st := visible np.2 in
  if decide (seen !! np.1 = Some st) then (seen, out)
  else (<[np.1 := st]> seen, out ++ [SendState np.1 st]).

Definition push_states (s : Inner) : Inner * list Output :=
  let '(seen, out) := foldl push_one (last_states s, []) (btree_iter (ports s)) in
  (mkInner (cfg s) (bridge_mac s) (ports s) (topology_changes s) (last_tc s) seen, out).

Definition step (now : N) (s : Inner) : Inner * list Output :=
  let '(s, out) := if decide (mode (cfg s) = NoStp) then (with_ports (open_port <$> ports s) s, [])
                   else tree_pass now s in
  let '(s, pushes) := push_states s in
  (s, out ++ pushes).

(** ** The loop *)

Inductive event :=
| Tick
| Wake
| Link (at_ : N) (e : LinkEvent)
| Bpdu (at_ : N) (port : string) (frame : list N).

Definition on_event (e : event) (s : Inner) : Inner * list Output :=
  match e with
  | Tick | Wake => (s, [])
  | Link at_ e => (link_event at_ e s, [])
  | Bpdu at_ port frame => bpdu_in at_ port frame s
  end.

(** One turn of [run]: the event, then [step]. *)
Definition handle (now : N) (e : event) (s : Inner) : Inner * list Output :=
  let '(s, out) := on_event e s in
  let '(s, out') := step now s in
  (s, out ++ out').

Inductive action :=
| AConfig (c : Config)
| AEvent (now : N) (e : event).

Definition act (a : action) (s : Inner) : Inner * list Output :=
  match a with
  | AConfig c => (set_config c s, [])
  | AEvent now e => handle now e s
  end.

Fixpoint run (acts : list action) (s : Inner) : Inner * list Output :=
  match acts with
  | [] => (s, [])
  | a :: acts =>
      let '(s, out) := act a s in
      let '(s, out') := run acts s in
      (s, out ++ out')
  end.

(** ** The snapshot *)

Record PortSnapshot := mkPortSnapshot {
  ps_port : string;
  ps_role : Role;
  ps_state : PortState;
  ps_cost : N;
  ps_priority : N;
  ps_portfast : bool;
  ps_bpduguard : bool;
  ps_bpdus_rx : N;
  ps_bpdus_tx : N;
  ps_errdisabled : bool;
}.

Record Snapshot := mkSnapshot {
  sn_config : Config;
  sn_bridge : BridgeId;
  sn_root : BridgeId;
  sn_root_cost : N;
  sn_root_port : option string;
  sn_topology_changes : N;
  sn_seconds_since_tc : option N;
  sn_last_tc_port : option string;
  sn_ports : list PortSnapshot;
}.

(** The timers and the MST fields of the answer are those of [sn_config]. *)
Definition snapshot (now : N) (s : Inner) : Snapshot :=
  let '(root, root_cost, root_port) := compute_root s now in
  mkSnapshot (cfg s) (bridge_id s) root root_cost root_port (topology_changes s)
    ((λ tc, as_secs (since now tc.1)) <$> last_tc s) (snd <$> last_tc s)
    ((λ np, mkPortSnapshot np.1 (role np.2) (state np.2) (path_cost np.2)
        (priority (config np.2)) (portfast (config np.2)) (bpduguard (config np.2))
        (bpdus_rx np.2) (bpdus_tx np.2) (errdisabled np.2))
     <$> filter (λ np, link_up np.2 || errdisabled np.2 = true) (btree_iter (ports s))).

(** ** The codec *)

Lemma decode_bpdu_total frame : no_panic (decode_bpdu frame).
Proof.
  unfold no_panic, decode_bpdu.
  destruct (Nat.ltb_spec (length frame) (17 + 31)) as [Hl|Hl]; [by eexists|].
  in_bounds. case_match; [by eexists|]. in_bounds. case_match; [by eexists|].
  in_bounds. case_match; [by eexists|]. in_bounds. by eexists.
Qed.

Lemma decode_encode_bpdu src rstp root c bridge pid hello age delay :
  length src = 6%nat → length root.2 = 6%nat → length bridge.2 = 6%nat →
  decode_bpdu (encode_bpdu src rstp root c bridge pid hello age delay)
  = Ok (Some (mkVector root c bridge pid)).
Proof.
  destruct root as [rp rm], bridge as [bp bm]. cbn [fst snd]. intros Hs Hr Hb.
  do 6 (destruct src as [|? src]; [discriminate Hs|]). destruct src; [|discriminate Hs].
  do 6 (destruct rm as [|? rm]; [discriminate Hr|]). destruct rm; [|discriminate Hr].
  do 6 (destruct bm as [|? bm]; [discriminate Hb|]). destruct bm; [|discriminate Hb].
  unfold encode_bpdu. cbn [fst snd].
  match goal with |- _ = Ok (Some (mkVector (_, ?rm) _ (_, ?bm) _)) =>
    transitivity (Ok (E := panic) (Some (mkVector (of_be16 (rp / 256) (rp mod 256), rm)
      (of_be32 (c / 16777216) ((c / 65536) mod 256) ((c / 256) mod 256) (c mod 256))
      (of_be16 (bp / 256) (bp mod 256), bm) (of_be16 (pid / 256) (pid mod 256)))));
    [|by rewrite !of_be16_be16, of_be32_be32]
  end.
  unfold be16, be32.
  generalize (rp / 256) (rp mod 256) (bp / 256) (bp mod 256) (pid / 256) (pid mod 256)
    (c / 16777216) ((c / 65536) mod 256) ((c / 256) mod 256) (c mod 256).
  generalize (wrap 16 (age * 256)) (wrap 16 (hello * 256)) (wrap 16 (delay * 256)).
  intros w1 w2 w3. generalize (w1 / 256) (w1 mod 256) (w2 / 256) (w2 mod 256) (w3 / 256) (w3 mod 256).
  intros. destruct rstp; reflexivity.
Qed.

(** No received frame makes the BPDU decoder index out of range, and a
    BPDU decodes to the priority vector it was built from. *)
Theorem stp_bpdu_codec :
  (∀ frame, no_panic (decode_bpdu frame))
  ∧ ∀ src rstp root c bridge pid hello age delay,
      length src = 6%nat → length root.2 = 6%nat → length bridge.2 = 6%nat →
      decode_bpdu (encode_bpdu src rstp root c bridge pid hello age delay)
      = Ok (Some (mkVector root c bridge pid)).
Proof. split; [apply decode_bpdu_total|apply decode_encode_bpdu]. Qed.

(** ** Root election *)

Lemma election_loop s now l best :
  match foldl (λ best np,
    match root_candidate s now np with
    | None => best
    | Some c =>
        match best with
        | None => Some c
        | Some have => if decide (key_lt (rank c) (rank have)) then Some c else best
        end
    end) best l with
  | Some r =>
      (best = Some r ∨ ∃ np, np ∈ l ∧ root_candidate s now np = Some r)
      ∧ (∀ b, best = Some b → key_le (rank r) (rank b))
      ∧ ∀ np c, np ∈ l → root_candidate s now np = Some c → key_le (rank r) (rank c)
  | None => best = None ∧ ∀ np, np ∈ l → root_candidate s now np = None
  end.
Proof.
  revert best. induction l as [|np l IH]; intros best; simpl.
  { destruct best; split_and!; try done; try (by left); [by intros ? [= ->]|..];
      by intros ?? ?%elem_of_nil || by intros ? ?%elem_of_nil. }
  destruct (root_candidate s now np) as [c|] eqn:Hc.
  - set (best' := match best with
                  | Some have => if decide (key_lt (rank c) (rank have)) then Some c else best
                  | None => Some c
                  end).
    assert (∃ b, best' = Some b ∧ key_le (rank b) (rank c) ∧ (best = Some b ∨ b = c)
              ∧ ∀ h, best = Some h → key_le (rank b) (rank h)) as (b & Hb & Hbc & Hor & Hbest).
    { unfold best'. destruct best as [have|]; [case_decide as Hlt|].
      - exists c. split_and!; [done..|by right|]. intros ? [= <-]. by apply key_lt_le.
      - exists have. split_and!; [done| |by left|by intros ? [= <-]].
        destruct (decide (key_le (rank have) (rank c))); done.
      - exists c. split_and!; [done..|by right|done]. }
    specialize (IH best'). destruct (foldl _ best' l) as [r|]; [|destruct IH; congruence].
    destruct IH as (H1 & H2 & H3). specialize (H2 b Hb). split_and!.
    + destruct H1 as [H1|(np' & Hin & H1)]; [|right; exists np'; split; [by right|done]].
      assert (r = b) as -> by congruence. destruct Hor as [->| ->]; [by left|].
      right. exists np. split; [left|done].
    + intros h Hh. eapply key_le_trans; [exact H2|by apply Hbest].
    + intros np' c' [->|Hin]%elem_of_cons Hc'; [|by eapply H3].
      simplify_eq. by eapply key_le_trans.
  - specialize (IH best). destruct (foldl _ best l) as [r|].
    + destruct IH as (H1 & H2 & H3). split_and!; [|done|].
      * destruct H1 as [|(np' & ? & ?)]; [by left|]. right. exists np'. split; [by right|done].
      * intros np' c' [->|Hin]%elem_of_cons Hc'; [congruence|by eapply H3].
    + destruct IH as [-> H]. split; [done|]. intros np' [->|Hin]%elem_of_cons; [done|by apply H].
Qed.

Lemma root_candidate_name s now name p info c n :
  root_candidate s now (name, p) = Some (info, c, n) →
  n = name ∧ key_lt (v_root info) (bridge_id s) ∧ link_up p = true ∧ errdisabled p = false
  ∧ received p = Some info ∧ ∃ at_, last_rx p = Some at_ ∧ since now at_ < from_secs (max_age (cfg s)).
Proof.
  unfold root_candidate. repeat case_match; try done. intros [= <- <- <-].
  match goal with H : negb _ || _ = false |- _ => apply orb_false_iff in H as [?%negb_false_iff ?] end.
  split_and!; try done. eexists. split; [done|]. by apply N.ltb_lt.
Qed.


(** ** Roles and states after a pass *)

Lemma push_states_keeps s :
  ports (push_states s).1 = ports s ∧ cfg (push_states s).1 = cfg s
  ∧ bridge_mac (push_states s).1 = bridge_mac s.
Proof. unfold push_states. by destruct (foldl _ _ _). Qed.

Lemma tree_pass_keeps now s :
  ports (tree_pass now s).1 = map_imap (λ name p, Some (port_step now s name p).1.1) (ports s)
  ∧ cfg (tree_pass now s).1 = cfg s ∧ bridge_mac (tree_pass now s).1 = bridge_mac s
  ∧ last_states (tree_pass now s).1 = last_states s.
Proof. unfold tree_pass. simpl. by case_match. Qed.

Lemma step_ports now s name :
  ports (step now s).1 !! name =
  (λ p, if decide (mode (cfg s) = NoStp) then open_port p else (port_step now s name p).1.1)
    <$> ports s !! name.
Proof.
  unfold step. case_decide.
  - pose proof (push_states_keeps (with_ports (open_port <$> ports s) s)) as (H1 & _).
    destruct (push_states _). simpl in *. by rewrite H1, lookup_fmap.
  - pose proof (tree_pass_keeps now s) as (H0 & _). destruct (tree_pass now s) as [s1 o1].
    pose proof (push_states_keeps s1) as (H1 & _). destruct (push_states s1). simpl in *.
    rewrite H1, H0, map_lookup_imap. by destruct (ports s !! name).
Qed.

Lemma step_cfg now s : cfg (step now s).1 = cfg s ∧ bridge_mac (step now s).1 = bridge_mac s.
Proof.
  unfold step. case_decide.
  - pose proof (push_states_keeps (with_ports (open_port <$> ports s) s)) as (_ & H1 & H2).
    by destruct (push_states _).
  - pose proof (tree_pass_keeps now s) as (_ & H1 & H2 & _). destruct (tree_pass now s) as [s1 o1].
    pose proof (push_states_keeps s1) as (_ & H3 & H4). destruct (push_states s1). simpl in *.
    by rewrite H3, H4.
Qed.

Lemma hello_port_keeps now s root c name p :
  let p' := (hello_port now s root c name p).1 in
  config p' = config p ∧ port_number p' = port_number p ∧ link_up p' = link_up p
  ∧ received p' = received p ∧ role p' = role p ∧ state p' = state p ∧ errdisabled p' = errdisabled p.
Proof. unfold hello_port. by repeat case_match. Qed.

Lemma age_out_keeps now age p :
  let p' := age_out now age p in
  config p' = config p ∧ link_up p' = link_up p ∧ role p' = role p ∧ state p' = state p
  ∧ state_since p' = state_since p ∧ errdisabled p' = errdisabled p.
Proof. unfold age_out. by repeat case_match. Qed.

(** What [port_step] makes of a port, branch by branch. *)
Lemma port_step_dead now s name p :
  link_up p = false ∨ errdisabled p = true →
  let p' := (port_step now s name p).1.1 in
  role p' = Disabled ∧ state p' = Discarding ∧ errdisabled p' = errdisabled p
  ∧ link_up p' = link_up p ∧ config p' = config p ∧ (port_step now s name p).2 = [].
Proof.
  intros Hd. unfold port_step. destruct (compute_root s now) as [[root c] rp].
  assert (negb (link_up p) || errdisabled p = true) as E by (destruct Hd as [-> | ->]; [done|apply orb_true_r]).
  unfold progress, hello_port. rewrite E. simpl. by rewrite E.
Qed.

Lemma port_step_live now s name p :
  link_up p = true → errdisabled p = false →
  let '(root, c, rp) := compute_root s now in
  let p1 := age_out now (from_secs (max_age (cfg s))) p in
  let r := elect_role root c rp (bridge_id s) name p1 in
  let p2 := if decide (role p = r) then p1 else set_state r Discarding now p1 in
  let p' := (port_step now s name p).1.1 in
  role p' = r ∧ state p' = next_state now (from_secs (forward_time (cfg s))) r p2
  ∧ errdisabled p' = false ∧ link_up p' = true ∧ config p' = config p.
Proof.
  intros Hl He. unfold port_step. destruct (compute_root s now) as [[root c] rp].
  unfold progress. rewrite Hl, He. simpl.
  pose proof (age_out_keeps now (from_secs (max_age (cfg s))) p) as (A1 & A2 & A3 & A4 & A5 & A6).
  set (p1 := age_out _ _ p) in *.
  set (r := elect_role root c rp (bridge_id s) name p1).
  rewrite A3. set (p2 := if decide (role p = r) then p1 else set_state r Discarding now p1).
  assert (role p2 = r ∧ errdisabled p2 = false ∧ link_up p2 = true ∧ config p2 = config p)
    as (B1 & B2 & B3 & B4) by (unfold p2; case_decide; simpl; split_and!; congruence).
  set (next := next_state now _ r p2).
  set (res := if decide (next = state p2) then (p2, false) else _).
  assert (role res.1 = r ∧ state res.1 = next ∧ errdisabled res.1 = false ∧ link_up res.1 = true
    ∧ config res.1 = config p) as (C1 & C2 & C3 & C4 & C5)
    by (unfold res; case_decide; simpl; split_and!; congruence).
  destruct res as [p3 tc]. pose proof (hello_port_keeps now s root c name p3) as (D1 & _ & D3 & _ & D5 & D6 & D7).
  destruct (hello_port now s root c name p3) as [p4 out]. simpl in *. split_and!; congruence.
Qed.

Lemma next_state_discarding now d p : next_state now d Alternate p = Discarding ∧ next_state now d Disabled p = Discarding.
Proof. done. Qed.

(** C15: with spanning tree on, a pass leaves a port learning or forwarding
    only if its link is up, it is not error-disabled and it is a root or
    designated port; and the root port is the one the election names, so
    there is at most one. *)
Theorem stp_forwarding_sound now s name p' :
  mode (cfg s) ≠ NoStp → ports (step now s).1 !! name = Some p' →
  (state p' ≠ Discarding →
   link_up p' = true ∧ errdisabled p' = false ∧ (role p' = Root ∨ role p' = Designated))
  ∧ (role p' = Root → (compute_root s now).2 = Some name).
Proof.
  intros Hm. rewrite step_ports. intros (p & Hp & ->)%fmap_Some.
  rewrite decide_False by done.
  destruct (decide (link_up p = false ∨ errdisabled p = true)) as [Hd|Hd].
  - destruct (port_step_dead now s name p Hd) as (-> & -> & _). done.
  - assert (link_up p = true ∧ errdisabled p = false) as [Hl He]
      by (destruct (link_up p), (errdisabled p); naive_solver).
    pose proof (port_step_live now s name p Hl He) as H.
    destruct (compute_root s now) as [[root c] rp]. destruct H as (Hr & Hs & He' & Hl' & _).
    split.
    + rewrite Hs, Hl', He', Hr. intros Hn. split_and!; [done..|].
      destruct (elect_role root c rp _ name _); eauto; by destruct Hn.
    + rewrite Hr. unfold elect_role. destruct (decide (Some name = rp)) as [<-|]; [done|].
      clear. repeat case_match; done.
Qed.


(** ** BPDU guard *)

Definition latched (name : string) (s : Inner) : Prop :=
  ∃ p, ports s !! name = Some p ∧ errdisabled p = true ∧ state p = Discarding.

(** The push keeps the guard of the port on. *)
Definition keeps_guard (name : string) (a : action) : Prop :=
  match a with
  | AConfig c => bpduguard (default default_port_config (cfg_ports c !! name)) = true
  | AEvent _ _ => True
  end.

Lemma step_latched now name s : latched name s → latched name (step now s).1.
Proof.
  intros (p & Hp & He & Hs). unfold latched. rewrite step_ports, Hp. simpl.
  eexists. split; [done|]. case_decide.
  - unfold open_port. simpl. by rewrite He, andb_false_r.
  - destruct (port_step_dead now s name p (or_intror He)) as (_ & E2 & E3 & _). split; congruence.
Qed.

Lemma on_event_latched e name s : latched name s → latched name (on_event e s).1.
Proof.
  intros (p & Hp & He & Hs). destruct e as [| |at_ e|at_ port frame]; simpl; try by exists p.
  - unfold latched, link_event. simpl. destruct (decide (ev_port e = name)) as [<-|Hn].
    + rewrite lookup_insert_eq, Hp. simpl. eexists. split; [done|].
      unfold link_port. repeat case_match; simpl; done.
    + rewrite lookup_insert_ne by done. by exists p.
  - unfold bpdu_in. destruct (decode_bpdu frame) as [[info|]|]; [|by exists p..].
    destruct (decide (port = name)) as [->|Hn].
    + rewrite Hp. unfold bpdu_port. simpl. rewrite He, andb_false_r. simpl.
      exists (set_counts (wrap 64 (bpdus_rx p + 1)) (bpdus_tx p) (last_tx p) p).
      simpl. by rewrite lookup_insert_eq.
    + destruct (ports s !! port) as [q|]; [|by exists p].
      destruct (bpdu_port at_ info q) as [q' trip]. exists p. simpl. by rewrite lookup_insert_ne.
Qed.

Lemma port_step_sends now s n p name f :
  SendBpdu name f ∈ (port_step now s n p).2 → name = n.
Proof.
  unfold port_step. destruct (compute_root s now) as [[root c] rp].
  destruct (progress _ _ _ _ _ _ _ _ _) as [p1 tc]. unfold hello_port.
  repeat case_match; simplify_eq; simpl;
    first [by intros ?%elem_of_nil | intros Hin%list_elem_of_singleton; congruence].
Qed.

Lemma push_states_out s o : o ∈ (push_states s).2 → ∃ name st, o = SendState name st.
Proof.
  unfold push_states.
  assert (∀ l acc, (∀ x, x ∈ acc.2 → ∃ name st, x = SendState name st) →
    ∀ x, x ∈ (foldl push_one acc l).2 → ∃ name st, x = SendState name st) as H.
  { induction l as [|np l IH]; intros acc Hacc; simpl; [done|]. apply IH.
    destruct acc as [seen out]. unfold push_one. case_decide; [done|].
    intros x [Hx|Hx%list_elem_of_singleton]%elem_of_app; [by apply Hacc|eauto]. }
  specialize (H (btree_iter (ports s)) (last_states s, [])).
  destruct (foldl _ _ _) as [seen out]. simpl in *. apply H. by intros ? ?%elem_of_nil.
Qed.

Lemma step_silent now name s f : latched name s → SendBpdu name f ∉ (step now s).2.
Proof.
  intros (p & Hp & He & _). unfold step. case_decide.
  - pose proof (push_states_out (with_ports (open_port <$> ports s) s)) as Ho.
    destruct (push_states _) as [s2 o2]. simpl in *. by intros (? & ? & ?)%Ho.
  - assert (SendBpdu name f ∉ (tree_pass now s).2) as Ht.
    { unfold tree_pass. cbn [fst snd]. intros Hin.
      assert (SendBpdu name f ∈ (btree_each (λ n q, ((port_step now s n q).1.1, (port_step now s n q).2))
        (ports s)).2) as (n & q & Hq & Hin')%elem_of_btree_each by exact Hin.
      simpl in Hin'. pose proof (port_step_sends _ _ _ _ _ _ Hin') as <-. simplify_eq.
      destruct (port_step_dead now s name p (or_intror He)) as (_ & _ & _ & _ & _ & E).
      rewrite E in Hin'. by apply elem_of_nil in Hin'. }
    destruct (tree_pass now s) as [s1 o1]. pose proof (push_states_out s1) as Ho.
    destruct (push_states s1) as [s2 o2]. simpl in *.
    intros [?|(? & ? & ?)%Ho]%elem_of_app; done.
Qed.

Lemma on_event_out e s o : o ∈ (on_event e s).2 → ∃ name r, o = SendErrdisable name r.
Proof.
  destruct e; simpl; try by intros ?%elem_of_nil. unfold bpdu_in.
  repeat case_match; simpl; try (by intros ?%elem_of_nil); intros ?%list_elem_of_singleton; eauto.
Qed.

Lemma act_latched a name s :
  latched name s → keeps_guard name a →
  latched name (act a s).1 ∧ ∀ f, SendBpdu name f ∉ (act a s).2.
Proof.
  intros Hl Hk. destruct a as [c|now e]; simpl.
  - split; [|by intros f ?%elem_of_nil]. destruct Hl as (p & Hp & He & Hs).
    unfold latched, set_config. simpl. rewrite map_lookup_imap, Hp. simpl. eexists. split; [done|].
    unfold reconfigure. cbn [keeps_guard] in Hk.
    generalize dependent (default default_port_config (cfg_ports c !! name)). intros pc Hk.
    split; [|done]. simpl. rewrite He.
    assert (bpduguard (fix_priority pc) = true) as -> by (unfold fix_priority; by case_match).
    done.
  - apply (on_event_latched e) in Hl as Hl'. pose proof (on_event_out e s) as Ho. unfold handle.
    destruct (on_event e s) as [s1 o1]. simpl in *.
    pose proof (step_latched now _ _ Hl'). pose proof (λ f, step_silent now name s1 f Hl') as Hsil.
    destruct (step now s1) as [s2 o2]. split; [done|]. simpl in *.
    intros f [(? & ? & ?)%Ho|?]%elem_of_app; [done|by eapply Hsil].
Qed.

Lemma run_latched acts name s :
  latched name s → Forall (keeps_guard name) acts →
  latched name (run acts s).1 ∧ ∀ f, SendBpdu name f ∉ (run acts s).2.
Proof.
  revert s. induction acts as [|a acts IH]; intros s Hl Hk; simpl.
  { split; [done|]. by intros f ?%elem_of_nil. }
  apply Forall_cons_1 in Hk as [Hka Hk]. destruct (act_latched a name s Hl Hka) as [Hl' Hno].
  destruct (act a s) as [s1 o1]. destruct (IH s1 Hl' Hk) as [Hl2 Hno2].
  destruct (run acts s1) as [s2 o2]. split; [done|]. simpl in *.
  intros f [?|?]%elem_of_app; [by eapply Hno|by eapply Hno2].
Qed.

(** C17: a BPDU on a guarded port error-disables it: the event is reported, and
    from then on, through any links, frames, ticks and configurations that
    keep the guard, the port stays error-disabled and discarding and sends no
    BPDU. *)
Theorem stp_bpduguard now at_ name frame info s p acts :
  ports s !! name = Some p → bpduguard (config p) = true → errdisabled p = false →
  decode_bpdu frame = Ok (Some info) → Forall (keeps_guard name) acts →
  let '(s', out) := run (AEvent now (Bpdu at_ name frame) :: acts) s in
  SendErrdisable name "bpduguard" ∈ out ∧ latched name s' ∧ ∀ f, SendBpdu name f ∉ out.
Proof.
  intros Hp Hg He Hd Hk. cbn [run act]. unfold handle. simpl on_event. unfold bpdu_in.
  rewrite Hd, Hp. unfold bpdu_port. cbn [config set_counts errdisabled]. rewrite Hg, He.
  cbn [andb negb].
  match goal with |- context [step now ?x] => set (s1 := x) end.
  assert (latched name s1) as Hl.
  { unfold latched, s1. simpl. rewrite lookup_insert_eq. by eexists. }
  pose proof (step_latched now _ _ Hl) as Hl2. pose proof (λ f, step_silent now name s1 f Hl) as Hsil.
  destruct (step now s1) as [s2 o2]. destruct (run_latched acts name s2 Hl2 Hk) as [Hl3 Hsil3].
  destruct (run acts s2) as [s3 o3]. simpl in *. split_and!; [left|done|].
  intros f Hin. rewrite elem_of_cons, elem_of_app in Hin.
  destruct Hin as [?|[?|?]]; [done|by eapply Hsil|by eapply Hsil3].
Qed.

(** ** One designated port per segment *)

(** The vector bridge [b] sends on port [p]. *)
Definition offer (root : BridgeId) (c : N) (b : BridgeId) (p : Port) : PriorityVector :=
  mkVector root c b (port_id p).

Lemma elect_designated root c rp b name p theirs :
  received p = Some theirs → elect_role root c rp b name p = Designated →
  key_le (root, c, b) (v_root theirs, v_cost theirs, v_bridge theirs).
Proof.
  intros Hr. unfold elect_role. rewrite Hr. case_decide; [done|]. case_decide as Hx; [done|].
  intros _. by apply dec_stable.
Qed.

Lemma elect_alternate root c rp b name p theirs :
  received p = Some theirs → elect_role root c rp b name p = Alternate →
  key_lt (v_root theirs, v_cost theirs, v_bridge theirs) (root, c, b).
Proof. intros Hr. unfold elect_role. rewrite Hr. by repeat case_decide. Qed.

(** C18: when two bridges that share a segment have heard each other's current
    vector, at most one of the two ends is designated, and at most one is
    alternate: the segment is neither looped nor cut by both. *)
Theorem stp_segment_one_designated ra ca rpa a na pa rb cb rpb b nb pb :
  a ≠ b → received pa = Some (offer rb cb b pb) → received pb = Some (offer ra ca a pa) →
  ¬ (elect_role ra ca rpa a na pa = Designated ∧ elect_role rb cb rpb b nb pb = Designated)
  ∧ ¬ (elect_role ra ca rpa a na pa = Alternate ∧ elect_role rb cb rpb b nb pb = Alternate).
Proof.
  intros Hne Ha Hb. split; intros [H1 H2].
  - apply (elect_designated _ _ _ _ _ _ _ Ha) in H1.
    apply (elect_designated _ _ _ _ _ _ _ Hb) in H2. simpl in *.
    pose proof (key_le_antisym _ _ H1 H2) as E. congruence.
  - apply (elect_alternate _ _ _ _ _ _ _ Ha) in H1.
    apply (elect_alternate _ _ _ _ _ _ _ Hb) in H2. simpl in *.
    by apply H1, key_lt_le.
Qed.

(** ** What the state pusher sees *)

Definition last_state (name : string) : option PortState → list Output → option PortState :=
  foldl (λ acc o, match o with
                  | SendState n st => if decide (n = name) then Some st else acc
                  | _ => acc
                  end).

Lemma last_state_app name acc o1 o2 :
  last_state name acc (o1 ++ o2) = last_state name (last_state name acc o1) o2.
Proof. apply foldl_app. Qed.

Lemma last_state_other name acc out :
  (∀ n st, SendState n st ∉ out) → last_state name acc out = acc.
Proof.
  revert acc. induction out as [|o out IH]; intros acc Hno; simpl; [done|].
  rewrite IH; [|intros n st Hin; apply (Hno n st); by right].
  destruct o as [|n st|]; try done. exfalso. apply (Hno n st). left.
Qed.

Lemma push_loop (l : list (string * Port)) (seen0 seen : gmap string PortState) out name :
  NoDup l.*1 → last_state name (seen0 !! name) out = seen !! name →
  let r := foldl push_one (seen, out) l in
  last_state name (seen0 !! name) r.2 = r.1 !! name
  ∧ (∀ p, (name, p) ∈ l → r.1 !! name = Some (visible p))
  ∧ (name ∉ l.*1 → r.1 !! name = seen !! name).
Proof.
  revert seen out. induction l as [|[n p] l IH]; intros seen out Hnd Hseen; simpl.
  { split_and!; [done| |done]. by intros ? ?%elem_of_nil. }
  apply NoDup_cons in Hnd as [Hn Hnd].
  set (acc := if decide (seen !! n = Some (visible p)) then _ else _).
  assert (last_state name (seen0 !! name) acc.2 = acc.1 !! name ∧ acc.1 !! n = Some (visible p)
    ∧ (n ≠ name → acc.1 !! name = seen !! name)) as (H1 & H2 & H3).
  { unfold acc. case_decide; simpl; [done|]. rewrite last_state_app, Hseen, lookup_insert_eq. simpl.
    case_decide; [subst; by rewrite lookup_insert_eq|by rewrite lookup_insert_ne]. }
  destruct acc as [seen1 out1]. simpl in *.
  destruct (IH seen1 out1 Hnd H1) as (I1 & I2 & I3). split_and!; [done| |].
  - intros q [[= <- <-]|Hin]%elem_of_cons; [|by apply I2]. rewrite I3; done.
  - intros [Hne Hni]%not_elem_of_cons. rewrite I3 by done. apply H3. congruence.
Qed.

Lemma step_pushes now s name :
  last_state name (last_states s !! name) (step now s).2 = last_states (step now s).1 !! name
  ∧ ∀ p, ports (step now s).1 !! name = Some p →
      last_states (step now s).1 !! name = Some (visible p).
Proof.
  unfold step.
  assert (∀ s1 o1, last_states s1 = last_states s → (∀ n st, SendState n st ∉ o1) →
    let '(s2, o2) := push_states s1 in
    last_state name (last_states s !! name) (o1 ++ o2) = last_states s2 !! name
    ∧ ∀ p, ports s2 !! name = Some p → last_states s2 !! name = Some (visible p)) as H.
  { intros s1 o1 Hs Ho. unfold push_states.
    destruct (push_loop (btree_iter (ports s1)) (last_states s1) (last_states s1) [] name
      (NoDup_btree_keys (ports s1)) eq_refl) as (H1 & H2 & _).
    destruct (foldl push_one _ _) as [seen out]. simpl in *. split.
    - rewrite last_state_app, (last_state_other name _ o1) by done. by rewrite <-Hs.
    - intros p Hp. apply H2. by apply elem_of_btree_iter. }
  case_decide.
  - specialize (H (with_ports (open_port <$> ports s) s) [] eq_refl ltac:(intros ??; apply not_elem_of_nil)).
    by destruct (push_states _).
  - pose proof (tree_pass_keeps now s) as (_ & _ & _ & Hl).
    assert (∀ n st, SendState n st ∉ (tree_pass now s).2) as Hno.
    { intros n st Hin.
      assert (SendState n st ∈ (btree_each (λ n q, ((port_step now s n q).1.1, (port_step now s n q).2))
        (ports s)).2) as (k & q & Hq & Hin')%elem_of_btree_each by exact Hin.
      simpl in Hin'. revert Hin'. unfold port_step. destruct (compute_root s now) as [[root c] rp].
      destruct (progress _ _ _ _ _ _ _ _ _) as [p1 tc]. unfold hello_port.
      repeat case_match; simplify_eq; simpl;
        first [by intros ?%elem_of_nil | by intros ?%list_elem_of_singleton]. }
    destruct (tree_pass now s) as [s1 o1]. specialize (H s1 o1 Hl Hno). by destruct (push_states s1).
Qed.

Lemma act_last_states a s name :
  last_state name (last_states s !! name) (act a s).2 = last_states (act a s).1 !! name.
Proof.
  destruct a as [c|now e]; simpl; [done|]. unfold handle.
  assert (last_states (on_event e s).1 = last_states s) as Hl.
  { destruct e; simpl; try done. unfold bpdu_in. by repeat case_match. }
  pose proof (on_event_out e s) as Ho. destruct (on_event e s) as [s1 o1].
  pose proof (step_pushes now s1 name) as [H _]. destruct (step now s1) as [s2 o2]. simpl in *.
  rewrite last_state_app, (last_state_other name _ o1), <-Hl; [done|]. by intros n st (? & ? & ?)%Ho.
Qed.

Lemma run_last_states acts s name :
  last_state name (last_states s !! name) (run acts s).2 = last_states (run acts s).1 !! name.
Proof.
  revert s. induction acts as [|a acts IH]; intros s; simpl; [done|].
  pose proof (act_last_states a s name) as Ha. destruct (act a s) as [s1 o1].
  specialize (IH s1). destruct (run acts s1) as [s2 o2]. simpl in *.
  by rewrite last_state_app, Ha.
Qed.

(** Whatever came before, after every turn of the loop the last state
    pushed for a port is its current one (discarding while it is down), so
    pushing on change only loses nothing. *)
Theorem stp_pusher_up_to_date mac acts now e name p :
  let '(s, out) := run (acts ++ [AEvent now e]) (spawn mac) in
  ports s !! name = Some p → last_state name None out = Some (visible p).
Proof.
  pose proof (run_last_states (acts ++ [AEvent now e]) (spawn mac) name) as H.
  assert (∀ q, ports (run (acts ++ [AEvent now e]) (spawn mac)).1 !! name = Some q →
    last_states (run (acts ++ [AEvent now e]) (spawn mac)).1 !! name = Some (visible q)) as Hv.
  { clear H. generalize (spawn mac). induction acts as [|a acts IH]; intros s; simpl.
    - unfold handle. destruct (on_event e s) as [s1 o1].
      pose proof (step_pushes now s1 name) as [_ H]. by destruct (step now s1).
    - destruct (act a s) as [s1 o1]. specialize (IH s1). by destruct (run _ s1). }
  destruct (run _ (spawn mac)) as [s out]. intros Hp. simpl in H, Hv. rewrite lookup_empty in H.
  rewrite H. by apply Hv.
Qed.

(** ** Runs *)

Module StpDemo.
Definition mac : list N := [2; 0; 0; 0; 0; 9].
Definition better : list N := [2; 0; 0; 0; 0; 1].
Definition up_event (name : string) : event := Link 0 (mkLinkEvent name true 1000).
Definition guard_on : Config :=
  mkConfig Mstp 0 0 0 0 "" 0 ∅ {[ "Ethernet2" := mkPortConfig false true None 0 ]}.
Definition stp_off : Config := mkConfig NoStp 0 0 0 0 "" 0 ∅ ∅.
Definition stp_on : Config := mkConfig Mstp 0 0 0 0 "" 0 ∅ ∅.

(** A hello of a better bridge. *)
Definition hello : list N :=
  encode_bpdu better true (4096, better) 0 (4096, better) 32769 2 20 15.

Definition two_ports : list action :=
  [AEvent 0 (up_event "Ethernet1"); AEvent 0 (up_event "Ethernet2")].
Definition booted : Inner := Eval vm_compute in (run two_ports (spawn mac)).1.
Definition guarded : Inner := Eval vm_compute in (run (two_ports ++ [AConfig guard_on]) (spawn mac)).1.

(** A port that has learned for the forward delay. *)
Definition learning : Inner := Eval vm_compute in
  (run (two_ports ++ [AEvent (from_secs 15) Tick]) (spawn mac)).1.

Definition port_of (name : string) (s : Inner) : Port :=
  default (new_port default_port_config "" 0) (ports s !! name).

(** What bridge [mac] sends on its two ports. *)
Definition sent (name : string) : list N :=
  encode_bpdu mac true (32768, mac) 0 (32768, mac) (port_id (port_of name booted)) 2 20 15.

(** Both ports patched together: each hears the other's hello. *)
Definition patched (t : N) : list action :=
  [AEvent (from_secs t) (Bpdu (from_secs t) "Ethernet2" (sent "Ethernet1"));
   AEvent (from_secs t) (Bpdu (from_secs t) "Ethernet1" (sent "Ethernet2"))].
Definition patch_run : list action := two_ports ++ patched 1 ++ patched 16 ++ patched 31.
Definition patched_end : Inner := Eval vm_compute in (run patch_run (spawn mac)).1.

Definition open_run : list action :=
  AConfig stp_off :: two_ports ++ [AConfig stp_on; AEvent 0 Tick].
Definition opened : Inner := Eval vm_compute in (run open_run (spawn mac)).1.
End StpDemo.

Import StpDemo.

Lemma stp_bpdu_codec_witness :
  decode_bpdu hello = Ok (Some (mkVector (4096, better) 0 (4096, better) 32769)).
Proof.
  exact (proj2 stp_bpdu_codec better true (4096, better) 0 (4096, better) 32769 2 20 15
    eq_refl eq_refl eq_refl).
Defined.

Lemma stp_forwarding_sound_witness :
  link_up (port_of "Ethernet1" (step (from_secs 30) learning).1) = true.
Proof.
  assert (ports (step (from_secs 30) learning).1 !! "Ethernet1" =
    Some (port_of "Ethernet1" (step (from_secs 30) learning).1)) as H by (vm_compute; reflexivity).
  apply (proj1 (stp_forwarding_sound (from_secs 30) learning "Ethernet1" _ ltac:(discriminate) H)).
  vm_compute. discriminate.
Defined.


Lemma stp_bpduguard_witness :
  latched "Ethernet2" (run [AEvent 5 (Bpdu 5 "Ethernet2" hello); AEvent (from_secs 60) Tick] guarded).1.
Proof.
  assert (ports guarded !! "Ethernet2" = Some (port_of "Ethernet2" guarded)) as H1
    by (vm_compute; reflexivity).
  pose proof (stp_bpduguard 5 5 "Ethernet2" hello (mkVector (4096, better) 0 (4096, better) 32769)
    guarded (port_of "Ethernet2" guarded) [AEvent (from_secs 60) Tick] H1 eq_refl eq_refl eq_refl
    ltac:(by repeat constructor)) as H.
  destruct (run _ guarded) as [s out]. apply H.
Defined.

Lemma stp_segment_one_designated_witness :
  let a := (32768, mac) in let b := (4096, better) in
  let pa := set_received (Some (offer b 0 b (port_of "Ethernet1" booted))) (Some 0)
              (port_of "Ethernet2" booted) in
  let pb := set_received (Some (offer a 0 a pa)) (Some 0) (port_of "Ethernet1" booted) in
  ¬ (elect_role a 0 None a "Ethernet2" pa = Designated ∧ elect_role b 0 None b "Ethernet1" pb = Designated).
Proof.
  cbv zeta.
  refine (proj1 (stp_segment_one_designated _ _ _ _ _ _ _ _ _ _ _ _ _ _ _));
    [discriminate|vm_compute; reflexivity|vm_compute; reflexivity].
Defined.

Lemma stp_pusher_up_to_date_witness :
  last_state "Ethernet1" None (run (two_ports ++ [AEvent (from_secs 15) Tick]) (spawn mac)).2
  = Some Learning.
Proof.
  pose proof (stp_pusher_up_to_date mac two_ports (from_secs 15) Tick "Ethernet1"
    (port_of "Ethernet1" learning)) as H.
  destruct (run (two_ports ++ [AEvent (from_secs 15) Tick]) (spawn mac)) as [s out] eqn:E.
  etransitivity; [apply H|vm_compute; reflexivity].
  replace s with (run (two_ports ++ [AEvent (from_secs 15) Tick]) (spawn mac)).1 by (by rewrite E).
  vm_compute. reflexivity.
Defined.

(** Two ports of the same bridge patched together both stay designated and
    reach forwarding although each keeps hearing the other's hello: the role
    comparison leaves the port id out, so the loop is not blocked. *)
Theorem stp_self_loop_forwards :
  SendBpdu "Ethernet1" (sent "Ethernet1") ∈ (run patch_run (spawn mac)).2
  ∧ SendBpdu "Ethernet2" (sent "Ethernet2") ∈ (run patch_run (spawn mac)).2
  ∧ state (port_of "Ethernet1" patched_end) = Forwarding
  ∧ state (port_of "Ethernet2" patched_end) = Forwarding
  ∧ received (port_of "Ethernet2" patched_end)
    = Some (offer (bridge_id booted) 0 (bridge_id booted) (port_of "Ethernet1" booted))
  ∧ received (port_of "Ethernet1" patched_end)
    = Some (offer (bridge_id booted) 0 (bridge_id booted) (port_of "Ethernet2" booted)).
Proof.
  split_and!; [apply (list_elem_of_lookup_2 _ 0)|apply (list_elem_of_lookup_2 _ 2)|..];
    vm_compute; reflexivity.
Qed.

(** Turning spanning tree on leaves every port that was forwarding without
    it designated and forwarding at once: no discarding or learning phase
    precedes the first exchange of BPDUs. *)
Theorem stp_enable_skips_listening :
  mode (cfg opened) = Mstp
  ∧ ∀ name p, ports opened !! name = Some p → state p = Forwarding ∧ role p = Designated.
Proof.
  split; [reflexivity|].
  assert (map_Forall (λ _ p, state p = Forwarding ∧ role p = Designated) (ports opened)) as H
    by (apply (bool_decide_unpack _); vm_compute; exact I).
  exact H.
Qed.
