(* ===== verification/Rib.v ===== *)
(** * The routing mirror (hemlock-orch/src/rib.rs, push_fib of main.rs)

    Kernel snapshots in, a wanted FIB [Program] out ([derive_program]), and
    the pushes that converge syncd's mirror onto it ([diff_program], applied
    op by op by [push_fib]).  [serde_json] values are an inductive type with
    the accessors the code uses; reading the text into one is not modelled. *)

From Stdlib Require Import Ascii NArith Lia.
From stdpp Require Import base tactics list strings option gmap sorting.
From S2P Require Import Prelude Text Net.

Local Open Scope N_scope.

(** ** The kernel's tables *)

Record KernelHop := mkHop { via : option string; hop_dev : option string }.

Record KernelRoute := mkRoute {
  prefix : string;
  protocol : string;
  metric : N;
  blackhole : bool;
  hops : list KernelHop;
}.

Record KernelNeighbor := mkNeighbor {
  ip : string;
  dev : string;
  mac : option string;
  permanent : bool;
  reachable : bool;
  stale : bool;
  age_secs : option N;
}.

(** [serde_json::Value]; a number is what [as_u64] makes of it. *)
Inductive Value :=
| Null
| Bool (b : bool)
| Number (n : option N)
| Str (s : string)
| Array (vs : list Value)
| Object (fields : list (string * Value)).

(** [value.get(key)], [as_str] and [as_u64]. *)
Definition get (key : string) (v : Value) : option Value :=
  match v with
  | Object fields => snd <$> (list_find (λ kv, kv.1 = key) fields ≫= λ ikv, Some ikv.2)
  | _ => None
  end.
Definition as_str (v : Value) : option string := match v with Str s => Some s | _ => None end.
Definition as_u64 (v : Value) : option N := match v with Number n => n | _ => None end.
Definition text (v : Value) (key : string) : option string := get key v ≫= as_str.

Definition contains (c : ascii) (s : string) : bool :=
  match split_once c s with Some _ => true | None => false end.

Definition canonical_dst (dst : string) (v6 : bool) : string :=
  if decide (dst = "default") then if v6 then "::/0" else "0.0.0.0/0"
  else if contains "/"%char dst then dst
  else if contains ":"%char dst then dst +:+ "/128" else dst +:+ "/32".

Definition parse_route (v6 : bool) (entry : Value) : option KernelRoute :=
  dst ← text entry "dst";
  let bh := bool_decide (text entry "type" = Some "blackhole") in
  let hs := match get "nexthops" entry with
            | Some (Array nexthops) => (λ hop, mkHop (text hop "gateway") (text hop "dev")) <$> nexthops
            | _ => if bh then [] else [mkHop (text entry "gateway") (text entry "dev")]
            end in
  Some (mkRoute (canonical_dst dst v6) (default "" (text entry "protocol"))
          (wrap 32 (default 0 (get "metric" entry ≫= as_u64))) bh hs).

(** [None] stands for text that is not JSON. *)
Definition parse_routes (json : option Value) (v6 : bool) : list KernelRoute :=
  match json with Some (Array entries) => omap (parse_route v6) entries | _ => [] end.

Definition parse_neighbor (entry : Value) : option KernelNeighbor :=
  ip ← text entry "dst";
  dev ← text entry "dev";
  let states := match get "state" entry with Some (Array ss) => omap as_str ss | _ => [] end in
  let has s := bool_decide (s ∈ states) in
  Some (mkNeighbor ip dev (text entry "lladdr") (has "PERMANENT" || has "NOARP") (has "REACHABLE")
          (has "STALE" || has "DELAY" || has "PROBE") (get "confirmed" entry ≫= as_u64)).

Definition parse_neighbors (json : option Value) : list KernelNeighbor :=
  match json with Some (Array entries) => omap parse_neighbor entries | _ => [] end.

(** ** The program *)

Record WantedRoute := mkWanted { cpu : bool; drop : bool; w_hops : list (string * string) }.

#[export] Instance WantedRoute_eq_dec : EqDecision WantedRoute.
Proof. solve_decision. Defined.

Record Program := mkProgram {
  routes : gmap string WantedRoute;
  neighbors : gmap (string * string) string;
}.

Definition empty_program : Program := mkProgram ∅ ∅.

Inductive FibOp :=
| EnsureNeighbor (nb : string * string) (m : string)
| EnsureRoute (p : string) (r : WantedRoute)
| RemoveRoute (p : string)
| RemoveNeighbor (nb : string * string).

Definition diff_program (current wanted : Program) : list FibOp :=
  omap (λ km, if decide (neighbors current !! km.1 = Some km.2) then None
              else Some (EnsureNeighbor km.1 km.2)) (btree_iter (neighbors wanted))
  ++ omap (λ pr, if decide (routes current !! pr.1 = Some pr.2) then None
                 else Some (EnsureRoute pr.1 pr.2)) (btree_iter (routes wanted))
  ++ omap (λ pr, if decide (is_Some (routes wanted !! pr.1)) then None
                 else Some (RemoveRoute pr.1)) (btree_iter (routes current))
  ++ omap (λ km, if decide (is_Some (neighbors wanted !! km.1)) then None
                 else Some (RemoveNeighbor km.1)) (btree_iter (neighbors current)).

(** Link-local and multicast destinations, and what does not parse. *)
Definition skip_prefix (p : string) : bool :=
  match split_once "/"%char p with
  | None => true
  | Some (addr, _) =>
      match parse_ip addr with
      | Some (V4 n) => (N.shiftr n 28 =? 14) || (N.shiftr n 16 =? 43518)
      | Some (V6 n) => (N.shiftr n 120 =? 255) || (N.land (N.shiftr n 112) 65472 =? 65152)
      | None => true
      end
  end.

Definition usable (l3 : gset string) (n : KernelNeighbor) : option ((string * string) * string) :=
  match mac n with
  | None => None
  | Some m =>
      if bool_decide (dev n ∈ l3) && (reachable n || permanent n) then Some ((dev n, ip n), m)
      else None
  end.

Definition derive_neighbors (ns : list KernelNeighbor) (l3 : gset string) :
    gmap (string * string) string :=
  foldl (λ acc n, match usable l3 n with Some (k, m) => <[k := m]> acc | None => acc end) ∅ ns.

(** What one kernel route programs, if anything. *)
Definition translate (nbs : gmap (string * string) string) (l3 : gset string) (r : KernelRoute) :
    option WantedRoute :=
  if skip_prefix (prefix r) then None
  else if blackhole r then Some (mkWanted false true [])
  else
    let gateway_hops := omap (λ h, v ← via h; d ← hop_dev h; Some (v, d)) (hops r) in
    match gateway_hops with
    | [] => None
    | _ =>
        let asic_hops := filter (λ vd, vd.2 ∈ l3) gateway_hops in
        match asic_hops with
        | [] => None
        | _ =>
            let resolved := (λ vd, (vd.2, vd.1)) <$> filter (λ vd, is_Some (nbs !! (vd.2, vd.1))) asic_hops in
            Some (mkWanted (bool_decide (resolved = [])) false resolved)
        end
    end.

Definition derive_routes (nbs : gmap (string * string) string) (l3 : gset string)
    (rs : list KernelRoute) : gmap string WantedRoute :=
  foldl (λ acc r, match translate nbs l3 r with Some w => <[prefix r := w]> acc | None => acc end) ∅ rs.

Definition derive_program (rs : list KernelRoute) (ns : list KernelNeighbor) (l3 : gset string) :
    Program :=
  let nbs := derive_neighbors ns l3 in mkProgram (derive_routes nbs l3 rs) nbs.

(** ** The engine *)

Record Inner := mkInner {
  k_routes : list KernelRoute;
  k_neighbors : list KernelNeighbor;
  l3_interfaces : gset string;
  first_seen : gmap string N;
  have_kernel : bool;
}.

(** The engine and its change signal. *)
Record Engine := mkEngine { inner : Inner; generation : N }.

Definition spawn : Engine := mkEngine (mkInner [] [] ∅ ∅ false) 0.

Definition bump (e : Engine) : Engine := mkEngine (inner e) (wrap 64 (generation e + 1)).

Definition ingest_kernel (now : N) (rs : list KernelRoute) (ns : list KernelNeighbor) (e : Engine) :
    Engine :=
  let live : gset string := list_to_set (prefix <$> rs) in
  let kept := btree_retain (λ p _, bool_decide (p ∈ live)) (first_seen (inner e)) in
  let seen := foldl (λ m r, match m !! prefix r with Some _ => m | None => <[prefix r := now]> m end)
                kept rs in
  bump (mkEngine (mkInner rs ns (l3_interfaces (inner e)) seen true) (generation e)).

Definition set_l3_interfaces (ifs : gset string) (e : Engine) : Engine :=
  let i := inner e in
  if decide (l3_interfaces i = ifs) then e
  else bump (mkEngine (mkInner (k_routes i) (k_neighbors i) ifs (first_seen i) (have_kernel i))
               (generation e)).

Definition wanted (e : Engine) : Program :=
  derive_program (k_routes (inner e)) (k_neighbors (inner e)) (l3_interfaces (inner e)).

(** ** Pushing *)

(** One successful push, on the mirror ([push_fib]'s [Ok] arm). *)
Definition apply_op (m : Program) (op : FibOp) : Program :=
  match op with
  | EnsureNeighbor k mac => mkProgram (routes m) (<[k := mac]> (neighbors m))
  | EnsureRoute p r => mkProgram (<[p := r]> (routes m)) (neighbors m)
  | RemoveRoute p => mkProgram (delete p (routes m)) (neighbors m)
  | RemoveNeighbor k => mkProgram (routes m) (delete k (neighbors m))
  end.

(** One round of [push_fib]: every op is tried, the mirror follows the ones
    syncd accepted ([ok]). *)
Definition push_round (ok : FibOp → bool) (e : Engine) (mirror : Program) : Program :=
  if have_kernel (inner e) then
    foldl (λ m op, if ok op then apply_op m op else m) mirror (diff_program mirror (wanted e))
  else mirror.

(** ** Views *)

Record HopView := mkHopView { hv_via : string; hv_interface : string; hv_resolved : bool }.

Record RouteView := mkRouteView {
  rv_prefix : string;
  rv_protocol : string;
  rv_distance : N;
  rv_metric : N;
  rv_uptime_secs : N;
  rv_hops : list HopView;
  rv_fib : string;
  rv_interface : option string;
}.

Record NeighborView := mkNeighborView {
  nv_ip : string;
  nv_mac : string;
  nv_interface : string;
  nv_permanent : bool;
  nv_age_secs : option N;
}.

(** The protocol, distance and metric columns of a route with a gateway. *)
Definition classify (v6 : bool) (r : KernelRoute) : string * N * N :=
  if decide (protocol r = "static") then ("static", if (metric r =? 0) || ((metric r =? 1024) && v6) then 1 else metric r, 0)
  else if decide (protocol r = "boot") then ("static", if (metric r =? 0) || ((metric r =? 1024) && v6) then 1 else metric r, 0)
  else if decide (protocol r = "ospf") then ("ospf", 110, metric r)
  else if decide (protocol r = "bgp") then ("bgp", 200, metric r)
  else ("kernel", 0, metric r).

Definition route_view (now : N) (r : KernelRoute) (w : Program) (l3 : gset string)
    (seen : gmap string N) : option RouteView :=
  if skip_prefix (prefix r) then None
  else
    let uptime := default 0 ((λ t, as_secs (since now t)) <$> seen !! prefix r) in
    let connected := negb (blackhole r)
                     && forallb (λ h, match via h with None => true | Some _ => false end) (hops r) in
    let v6 := contains ":"%char (prefix r) in
    let '(proto, distance, m) := if connected then ("connected", 0, 0) else classify v6 r in
    let fib := if blackhole r then "drop"
               else if connected then "connected"
               else match routes w !! prefix r with
                    | Some x => if cpu x then "punt" else "programmed"
                    | None => "kernel"
                    end in
    let hs := omap (λ h, v ← via h;
                let d := default "" (hop_dev h) in
                Some (mkHopView v d (bool_decide (is_Some (neighbors w !! (d, v)))))) (hops r) in
    let interface := if connected then head (hops r) ≫= hop_dev else None in
    let fib := if connected && match interface with Some i => negb (bool_decide (i ∈ l3)) | None => false end
               then "kernel" else fib in
    Some (mkRouteView (prefix r) proto distance m uptime hs fib interface).

(** The order of [Option<IpAddr>]: nothing, then IPv4, then IPv6. *)
Definition ip_key (a : option IpAddr) : list N :=
  match a with None => [0] | Some (V4 n) => [1; n] | Some (V6 n) => [2; n] end.

Definition prefix_key (p : string) : list N * N :=
  match split_once "/"%char p with
  | Some (addr, len) => (ip_key (parse_ip addr), default 255 (parse_uint 8 len))
  | None => (ip_key None, 255)
  end.

Definition snapshot (now : N) (v6 : bool) (e : Engine) : list RouteView :=
  let i := inner e in
  sort_by_key (λ view, prefix_key (rv_prefix view))
    (omap (λ r, route_view now r (wanted e) (l3_interfaces i) (first_seen i))
       (filter (λ r, contains ":"%char (prefix r) = v6) (k_routes i))).

Fixpoint starts_with (p s : string) : bool :=
  match p, s with
  | EmptyString, _ => true
  | String a p', String b s' => bool_decide (a = b) && starts_with p' s'
  | String _ _, EmptyString => false
  end.

Definition neighbor_views (v6 : bool) (e : Engine) : list NeighborView :=
  sort_by_key (λ view, ip_key (parse_ip (nv_ip view)))
    ((λ n, mkNeighborView (ip n) (default "" (mac n)) (dev n) (permanent n) (age_secs n))
     <$> filter (λ n, negb (starts_with "fe80" (ip n)) && negb (starts_with "169.254." (ip n)) = true)
           (filter (λ n, contains ":"%char (ip n) = v6) (k_neighbors (inner e)))).

(** ** Translation *)

(** Every programmed next hop has its neighbor programmed. *)
Definition closed (p : Program) : Prop :=
  ∀ pre r h, routes p !! pre = Some r → h ∈ w_hops r → is_Some (neighbors p !! h).

Lemma derive_neighbors_sound ns l3 k m :
  derive_neighbors ns l3 !! k = Some m →
  ∃ n, n ∈ ns ∧ k = (dev n, ip n) ∧ mac n = Some m ∧ dev n ∈ l3
    ∧ (reachable n = true ∨ permanent n = true).
Proof.
  unfold derive_neighbors. induction ns as [|n ns IH] using rev_ind; simpl; [done|].
  rewrite foldl_snoc. unfold usable at 1. intros Hl.
  assert (derive_neighbors ns l3 !! k = Some m →
    ∃ n0, n0 ∈ ns ++ [n] ∧ k = (dev n0, ip n0) ∧ mac n0 = Some m ∧ dev n0 ∈ l3
      ∧ (reachable n0 = true ∨ permanent n0 = true)) as Hprev.
  { intros (n0 & Hin & ?)%IH. exists n0. split; [by apply elem_of_app; left|done]. }
  destruct (mac n) as [m0|] eqn:Hm; [|by apply Hprev].
  destruct (_ && _) eqn:E; [|by apply Hprev]. rewrite lookup_insert in Hl.
  case_decide as Hk; [|by apply Hprev]. injection Hl as <-.
  apply andb_true_iff in E as [Hd%bool_decide_eq_true Hr%orb_true_iff].
  exists n. split_and!; try done. apply elem_of_app. right. left.
Qed.

Lemma translate_sound nbs l3 r w :
  translate nbs l3 r = Some w →
  (drop w = blackhole r) ∧ (cpu w = true ↔ drop w = false ∧ w_hops w = [])
  ∧ ∀ d v, (d, v) ∈ w_hops w →
      is_Some (nbs !! (d, v)) ∧ d ∈ l3 ∧ mkHop (Some v) (Some d) ∈ hops r.
Proof.
  unfold translate. destruct (skip_prefix (prefix r)); [done|].
  destruct (blackhole r); [intros [= <-]; split_and!; simpl; [done|naive_solver|by intros ?? ?%elem_of_nil]|].
  set (gw := omap _ (hops r)).
  assert (∀ v d, (v, d) ∈ gw → mkHop (Some v) (Some d) ∈ hops r) as Hgw.
  { intros v d (h & Hh & E)%list_elem_of_omap. destruct h as [[v'|] [d'|]]; simpl in E; by simplify_eq. }
  set (asic := filter _ gw). intros H.
  assert (w = mkWanted (bool_decide (((λ vd, (vd.2, vd.1)) <$>
      filter (λ vd, is_Some (nbs !! (vd.2, vd.1))) asic) = [])) false
      ((λ vd, (vd.2, vd.1)) <$> filter (λ vd, is_Some (nbs !! (vd.2, vd.1))) asic)) as ->.
  { destruct gw; [done|]. destruct asic; [done|]. by injection H as <-. }
  cbn [cpu drop w_hops]. split_and!; [done|rewrite bool_decide_eq_true; naive_solver|].
  intros d v ([v' d'] & [= -> ->] & [Hn Ha]%list_elem_of_filter)%list_elem_of_fmap.
  apply list_elem_of_filter in Ha as [Hl Hg]. simpl in *. eauto.
Qed.

Lemma derive_routes_from nbs l3 rs p w :
  derive_routes nbs l3 rs !! p = Some w →
  ∃ r, r ∈ rs ∧ prefix r = p ∧ translate nbs l3 r = Some w.
Proof.
  unfold derive_routes.
  induction rs as [|r rs IH] using rev_ind; simpl; [done|]. rewrite foldl_snoc. intros Hl.
  destruct (translate nbs l3 r) as [w0|] eqn:E.
  - rewrite lookup_insert in Hl. case_decide as Hp.
    + injection Hl as <-. exists r. split_and!; [apply elem_of_app; right; left|done|done].
    + apply IH in Hl as (r0 & ? & ?). exists r0. split; [by apply elem_of_app; left|done].
  - apply IH in Hl as (r0 & ? & ?). exists r0. split; [by apply elem_of_app; left|done].
Qed.

(** The wanted program is sound for the snapshot it was derived from:
    every route comes from a kernel route of its prefix; a black hole drops
    and nothing else does; it punts exactly when no hop is programmed; and
    each programmed hop is a gateway of that route on an ASIC interface whose
    neighbor is programmed, from an entry that is reachable or permanent. *)
Theorem rib_program_sound rs ns l3 p w :
  routes (derive_program rs ns l3) !! p = Some w →
  ∃ r, r ∈ rs ∧ prefix r = p ∧ drop w = blackhole r
    ∧ (cpu w = true ↔ drop w = false ∧ w_hops w = [])
    ∧ ∀ d v, (d, v) ∈ w_hops w →
        d ∈ l3 ∧ mkHop (Some v) (Some d) ∈ hops r
        ∧ ∃ n m, n ∈ ns ∧ dev n = d ∧ ip n = v ∧ mac n = Some m
            ∧ neighbors (derive_program rs ns l3) !! (d, v) = Some m
            ∧ (reachable n = true ∨ permanent n = true).
Proof.
  simpl. intros (r & Hr & Hp & Ht)%derive_routes_from.
  apply translate_sound in Ht as (H1 & H2 & H3). exists r. split_and!; try done; [apply H2..|].
  intros d v Hin. destruct (H3 d v Hin) as ([m Hm] & Hd & Hh). split_and!; [done..|].
  pose proof Hm as (n & Hn & [= -> ->] & Hmac & _ & Hs)%derive_neighbors_sound.
  by exists n, m.
Qed.

Lemma derive_closed rs ns l3 : closed (derive_program rs ns l3).
Proof.
  intros p w [d v] (r & _ & _ & Ht)%derive_routes_from Hin.
  apply translate_sound in Ht as (_ & _ & H). by apply H in Hin as [? _].
Qed.

(** ** Convergence *)

Definition try_ops (ok : FibOp → bool) (ops : list FibOp) (m : Program) : Program :=
  foldl (λ m op, if ok op then apply_op m op else m) m ops.

(** The part of the mirror one op touches. *)
Definition route_effect (ok : FibOp → bool) (p : string) (x : option WantedRoute) (op : FibOp) :
    option WantedRoute :=
  if ok op then
    match op with
    | EnsureRoute q r => if decide (q = p) then Some r else x
    | RemoveRoute q => if decide (q = p) then None else x
    | _ => x
    end
  else x.

Definition neighbor_effect (ok : FibOp → bool) (k : string * string) (x : option string) (op : FibOp) :
    option string :=
  if ok op then
    match op with
    | EnsureNeighbor q m => if decide (q = k) then Some m else x
    | RemoveNeighbor q => if decide (q = k) then None else x
    | _ => x
    end
  else x.

Lemma try_ops_lookup ok ops m p k :
  routes (try_ops ok ops m) !! p = foldl (route_effect ok p) (routes m !! p) ops
  ∧ neighbors (try_ops ok ops m) !! k = foldl (neighbor_effect ok k) (neighbors m !! k) ops.
Proof.
  revert m. induction ops as [|op ops IH]; intros m; [done|].
  change (try_ops ok (op :: ops) m) with (try_ops ok ops (if ok op then apply_op m op else m)).
  destruct (IH (if ok op then apply_op m op else m)) as [-> ->]. simpl.
  unfold route_effect at 3, neighbor_effect at 3. destruct (ok op); [|done].
  destruct op; simpl; rewrite ?lookup_insert, ?lookup_delete; split; repeat case_decide; congruence || done.
Qed.

(** A phase that has nothing to do with the key leaves it alone. *)
Lemma foldl_idle {A B} (f : B → A → B) (l : list A) b :
  (∀ b a, a ∈ l → f b a = b) → foldl f b l = b.
Proof.
  revert b. induction l as [|x l IH]; intros b Hf; simpl; [done|].
  rewrite Hf by left. apply IH. intros b' a Ha. apply Hf. by right.
Qed.

(** One phase of [diff_program], read at one key. *)
Lemma phase_lookup {K V} `{Countable K} `{!BTreeKey K} {X} (g : K * V → option FibOp)
    (f : X → FibOp → X) (t : gmap K V) (k : K) (x : X) :
  (∀ kv op y, g kv = Some op → kv.1 ≠ k → f y op = y) →
  foldl f x (omap g (btree_iter t)) =
  match t !! k with
  | Some v => match g (k, v) with Some op => f x op | None => x end
  | None => x
  end.
Proof.
  intros Hg. rewrite foldl_omap.
  destruct (foldl_one_key fst (λ c a, match g a with Some b => f c b | None => c end) k (btree_iter t) x)
    as [H1 H2].
  - intros b a _ Ha. destruct (g a) eqn:E; [by eapply Hg|done].
  - apply NoDup_btree_keys.
  - destruct (t !! k) as [v|] eqn:E.
    + apply (H2 (k, v)); [by apply elem_of_btree_iter|done].
    + apply H1. intros Hin. apply elem_of_btree_keys in Hin as [? ?]. congruence.
Qed.

Ltac other_phase :=
  apply foldl_idle; intros ? ? (? & _ & ?)%list_elem_of_omap; case_decide; simplify_eq/=;
  unfold route_effect, neighbor_effect; by repeat case_match.

(** What a round leaves at each key. *)
Lemma diff_routes ok cur w p :
  routes (try_ops ok (diff_program cur w) cur) !! p =
  if decide (routes cur !! p = routes w !! p) then routes w !! p
  else match routes w !! p with
       | Some r => if ok (EnsureRoute p r) then Some r else routes cur !! p
       | None => if ok (RemoveRoute p) then None else routes cur !! p
       end.
Proof.
  rewrite (proj1 (try_ops_lookup ok _ cur p ("", ""))). unfold diff_program. rewrite !foldl_app.
  match goal with |- foldl _ (foldl _ (foldl _ (foldl _ ?x ?a) ?b) ?c) ?d = _ =>
    assert (foldl (route_effect ok p) x a = x) as -> by other_phase;
    assert (∀ y, foldl (route_effect ok p) y d = y) as -> by (intros y; other_phase) end.
  rewrite (phase_lookup _ _ (routes w) p).
  2: { intros [q r] op y Hop Hne. case_decide; simplify_eq/=. unfold route_effect.
       rewrite decide_False by done. by case_match. }
  rewrite (phase_lookup _ _ (routes cur) p).
  2: { intros [q r] op y Hop Hne. case_decide; simplify_eq/=. unfold route_effect.
       rewrite decide_False by done. by case_match. }
  unfold route_effect. destruct (routes w !! p) as [r|] eqn:Ew, (routes cur !! p) as [r'|] eqn:Ec; simpl;
    rewrite ?Ew, ?Ec; repeat (case_decide || case_match); simplify_eq/=; try done;
    try (exfalso; naive_solver).
Qed.

Lemma diff_neighbors ok cur w k :
  neighbors (try_ops ok (diff_program cur w) cur) !! k =
  if decide (neighbors cur !! k = neighbors w !! k) then neighbors w !! k
  else match neighbors w !! k with
       | Some m => if ok (EnsureNeighbor k m) then Some m else neighbors cur !! k
       | None => if ok (RemoveNeighbor k) then None else neighbors cur !! k
       end.
Proof.
  rewrite (proj2 (try_ops_lookup ok _ cur "" k)). unfold diff_program. rewrite !foldl_app.
  match goal with |- foldl _ (foldl _ (foldl _ (foldl _ ?x ?a) ?b) ?c) ?d = _ =>
    assert (∀ y, foldl (neighbor_effect ok k) y c = y) as -> by (intros y; other_phase);
    assert (∀ y, foldl (neighbor_effect ok k) y b = y) as -> by (intros y; other_phase) end.
  rewrite (phase_lookup _ _ (neighbors w) k).
  2: { intros [q r] op y Hop Hne. case_decide; simplify_eq/=. unfold neighbor_effect.
       rewrite decide_False by done. by case_match. }
  rewrite (phase_lookup _ _ (neighbors cur) k).
  2: { intros [q r] op y Hop Hne. case_decide; simplify_eq/=. unfold neighbor_effect.
       rewrite decide_False by done. by case_match. }
  unfold neighbor_effect. destruct (neighbors w !! k) as [r|] eqn:Ew, (neighbors cur !! k) as [r'|] eqn:Ec; simpl;
    rewrite ?Ew, ?Ec; repeat (case_decide || case_match); simplify_eq/=; try done;
    try (exfalso; naive_solver).
Qed.

(** C19: a round of pushes converges entry by entry: whatever syncd refuses,
    every route and every neighbor whose own push it accepts ends as wanted;
    when it accepts everything the mirror is the wanted program. *)
Theorem rib_push_converges ok e mirror :
  have_kernel (inner e) = true →
  let m := push_round ok e mirror in
  (∀ p, (∀ op, op = RemoveRoute p ∨ (∃ r, op = EnsureRoute p r) → ok op = true) →
     routes m !! p = routes (wanted e) !! p)
  ∧ (∀ k, (∀ op, op = RemoveNeighbor k ∨ (∃ x, op = EnsureNeighbor k x) → ok op = true) →
     neighbors m !! k = neighbors (wanted e) !! k)
  ∧ ((∀ op, ok op = true) → m = wanted e).
Proof.
  intros Hk m. unfold m, push_round. rewrite Hk.
  fold (try_ops ok (diff_program mirror (wanted e)) mirror).
  assert (∀ p, (∀ op, op = RemoveRoute p ∨ (∃ r, op = EnsureRoute p r) → ok op = true) →
    routes (try_ops ok (diff_program mirror (wanted e)) mirror) !! p = routes (wanted e) !! p) as Hr.
  { intros p Hok. rewrite diff_routes. case_decide; [done|].
    destruct (routes (wanted e) !! p) as [r|]; rewrite Hok; eauto. }
  assert (∀ k, (∀ op, op = RemoveNeighbor k ∨ (∃ x, op = EnsureNeighbor k x) → ok op = true) →
    neighbors (try_ops ok (diff_program mirror (wanted e)) mirror) !! k = neighbors (wanted e) !! k) as Hn.
  { intros k Hok. rewrite diff_neighbors. case_decide; [done|].
    destruct (neighbors (wanted e) !! k) as [r|]; rewrite Hok; eauto. }
  split_and!; [done..|]. intros Hok.
  assert (∀ a b : Program, routes a = routes b → neighbors a = neighbors b → a = b) as Heq
    by (intros [] [] ? ?; by simplify_eq/=).
  apply Heq; apply map_eq; intros i; auto.
Qed.

(** ** Ordering *)

(** [P] holds before each op of the list and after the last. *)
Fixpoint always (P : Program → Prop) (ops : list FibOp) (m : Program) : Prop :=
  P m ∧ match ops with [] => True | op :: ops => always P ops (apply_op m op) end.

Definition apply_ops (ops : list FibOp) (m : Program) : Program := foldl apply_op m ops.

Lemma always_app P ops1 ops2 m :
  always P ops1 m → always P ops2 (apply_ops ops1 m) → always P (ops1 ++ ops2) m.
Proof.
  revert m. induction ops1 as [|op ops IH]; intros m H1 H2; simpl; [done|].
  destruct H1 as [H0 H1]. split; [done|]. by apply IH.
Qed.

(** A phase whose every op keeps an invariant that implies [P]. *)
Lemma always_phase (P I : Program → Prop) ops m :
  (∀ m, I m → P m) → (∀ m op, op ∈ ops → I m → I (apply_op m op)) → I m →
  always P ops m ∧ I (apply_ops ops m).
Proof.
  intros HP. revert m. induction ops as [|op ops IH]; intros m Hop Hm; simpl; [eauto|].
  destruct (IH (apply_op m op)) as [H1 H2].
  - intros m' op' Hin. apply Hop. by right.
  - apply Hop; [left|done].
  - eauto.
Qed.

Lemma apply_ops_try ops m : apply_ops ops m = try_ops (λ _, true) ops m.
Proof. revert m. induction ops as [|op ops IH]; intros m; [done|]. apply IH. Qed.

Definition covers (w m : Program) : Prop :=
  ∀ k, is_Some (neighbors w !! k) → is_Some (neighbors m !! k).

(** The four phases of [diff_program], each with the invariant it keeps. *)
Section phases.
Context (mirror w : Program) (Hw : closed w).

Let phase1 : list FibOp :=
  omap (λ km, if decide (neighbors mirror !! km.1 = Some km.2) then None
              else Some (EnsureNeighbor km.1 km.2)) (btree_iter (neighbors w)).
Let phase2 : list FibOp :=
  omap (λ pr, if decide (routes mirror !! pr.1 = Some pr.2) then None
              else Some (EnsureRoute pr.1 pr.2)) (btree_iter (routes w)).
Let phase3 : list FibOp :=
  omap (λ pr, if decide (is_Some (routes w !! pr.1)) then None
              else Some (RemoveRoute pr.1)) (btree_iter (routes mirror)).
Let phase4 : list FibOp :=
  omap (λ km, if decide (is_Some (neighbors w !! km.1)) then None
              else Some (RemoveNeighbor km.1)) (btree_iter (neighbors mirror)).

(** Neighbors land first: the routes in place keep theirs, and afterwards all
    the wanted ones are there. *)
Lemma phase1_keeps m op : op ∈ phase1 → closed m → closed (apply_op m op).
Proof.
  intros ([k mac0] & _ & E)%list_elem_of_omap Hm. case_decide; simplify_eq/=.
  intros p r h Hr Hh. simpl. rewrite lookup_insert. case_decide; [done|by eapply Hm].
Qed.

Lemma phase1_covers : covers w (apply_ops phase1 mirror).
Proof.
  intros k [mac0 Hk]. rewrite apply_ops_try, (proj2 (try_ops_lookup _ _ _ "" k)). unfold phase1.
  rewrite (phase_lookup _ _ (neighbors w) k), Hk; simpl.
  - case_decide; [by eexists|]. unfold neighbor_effect. rewrite decide_True by done. by eexists.
  - intros [q x] op y Hop Hne. case_decide; simplify_eq/=. unfold neighbor_effect.
    by rewrite decide_False.
Qed.

Lemma phase23_keeps m op :
  op ∈ phase2 ++ phase3 → closed m ∧ covers w m → closed (apply_op m op) ∧ covers w (apply_op m op).
Proof.
  intros [Hin|Hin]%elem_of_app [Hm Hc].
  - apply list_elem_of_omap in Hin as ([p r] & Hin%elem_of_btree_iter & E).
    case_decide; simplify_eq/=. split; [|done]. intros p' r' h Hr Hh. simpl in *.
    rewrite lookup_insert in Hr. case_decide; simplify_eq; [by eapply Hc, Hw|by eapply Hm].
  - apply list_elem_of_omap in Hin as ([p r] & _ & E). case_decide; simplify_eq/=.
    split; [|done]. intros p' r' h Hr Hh. simpl in *.
    apply lookup_delete_Some in Hr as [_ Hr]. by eapply Hm.
Qed.

(** Before the last phase the routes are the wanted ones. *)
Lemma phase3_routes : routes (apply_ops (phase1 ++ phase2 ++ phase3) mirror) = routes w.
Proof.
  apply map_eq. intros p. transitivity (routes (try_ops (λ _, true) (diff_program mirror w) mirror) !! p).
  - rewrite apply_ops_try, !(proj1 (try_ops_lookup _ _ mirror p ("", ""))).
    unfold diff_program. fold phase1 phase2 phase3 phase4. rewrite !foldl_app.
    symmetry. unfold phase4. other_phase.
  - rewrite diff_routes. case_decide; [done|]. by destruct (routes w !! p).
Qed.

Lemma phase4_keeps m op :
  op ∈ phase4 → routes m = routes w ∧ covers w m →
  routes (apply_op m op) = routes w ∧ covers w (apply_op m op).
Proof.
  intros ([k x] & _ & E)%list_elem_of_omap [Hr Hc]. case_decide as Hk; simplify_eq/=.
  split; [done|]. intros k' Hk'. simpl. rewrite lookup_delete_ne; [by apply Hc|].
  intros ->. by destruct Hk.
Qed.

Lemma diff_always_closed : closed mirror → always closed (diff_program mirror w) mirror.
Proof.
  intros Hcl.
  destruct (always_phase closed closed phase1 mirror) as [H1 Hcl1]; [done|apply phase1_keeps|done|].
  destruct (always_phase closed (λ m, closed m ∧ covers w m) (phase2 ++ phase3) (apply_ops phase1 mirror))
    as [H23 [_ Hc]]; [by intros ? []|apply phase23_keeps|split; [done|apply phase1_covers]|].
  destruct (always_phase closed (λ m, routes m = routes w ∧ covers w m) phase4
    (apply_ops (phase2 ++ phase3) (apply_ops phase1 mirror))) as [H4 _].
  - intros m [Hr Hcm] p r h Hp Hh. rewrite Hr in Hp. by eapply Hcm, Hw.
  - apply phase4_keeps.
  - split; [|done]. rewrite <-phase3_routes. unfold apply_ops. by rewrite !foldl_app.
  - unfold diff_program. fold phase1 phase2 phase3 phase4.
    apply always_app; [done|]. rewrite (assoc_L (++)). by apply always_app.
Qed.
End phases.


(** ** Examples *)

Module RibDemo.
Definition l3 : gset string := {[ "Ethernet1"; "Ethernet2" ]}.
Definition nb (a d m : string) : KernelNeighbor := mkNeighbor a d (Some m) false true false None.
Definition ns : list KernelNeighbor :=
  [nb "10.0.1.1" "Ethernet1" "00:00:00:00:00:01"; nb "10.0.2.1" "Ethernet2" "00:00:00:00:00:02"].
Definition via_ (a d : string) (m : N) : KernelRoute :=
  mkRoute "10.42.0.0/16" "static" m false [mkHop (Some a) (Some d)].

(** The primary of metric 10 and the backup of metric 200, in the order the
    kernel lists them. *)
Definition primary : KernelRoute := via_ "10.0.1.1" "Ethernet1" 10.
Definition backup : KernelRoute := via_ "10.0.2.1" "Ethernet2" 200.
Definition engine (rs : list KernelRoute) : Engine :=
  ingest_kernel 0 rs ns (set_l3_interfaces l3 spawn).
Definition old : Program := wanted (engine [backup]).
End RibDemo.

Import RibDemo.

Lemma rib_program_sound_witness :
  ∃ r, r ∈ [primary] ∧ prefix r = "10.42.0.0/16".
Proof.
  assert (routes (derive_program [primary] ns l3) !! "10.42.0.0/16"
    = Some (mkWanted false false [("Ethernet1", "10.0.1.1")])) as H by (vm_compute; reflexivity).
  destruct (rib_program_sound [primary] ns l3 _ _ H) as (r & H1 & H2 & _).
  exists r. split; assumption.
Defined.

Lemma rib_push_converges_witness :
  push_round (λ _, true) (engine [primary]) old = wanted (engine [primary]).
Proof.
  destruct (rib_push_converges (λ _, true) (engine [primary]) old eq_refl) as (_ & _ & H).
  apply H. intros op. reflexivity.
Defined.


(** Of two kernel routes for one prefix the later one is programmed, its
    metric notwithstanding: with a primary and a higher-metric backup in the
    kernel's own order, the ASIC forwards on the backup. *)
Theorem rib_backup_overrides_primary :
  metric primary < metric backup ∧ prefix primary = prefix backup
  ∧ routes (wanted (engine [primary; backup])) !! prefix primary
    = routes (wanted (engine [backup])) !! prefix primary
  ∧ routes (wanted (engine [primary; backup])) !! prefix primary
    ≠ routes (wanted (engine [primary])) !! prefix primary.
Proof. vm_compute. split_and!; [reflexivity..|discriminate]. Qed.
