(* ===== verification/Lldp.v ===== *)
(** * Neighbor discovery (hemlock-orch/src/lldp.rs)

    The LLDP engine: advertisements, the TTL-aged neighbor table and the TLV
    codec.  A Rust [String] is the [string] of its UTF-8 bytes here, so
    [as_bytes] only changes the type and [from_utf8_lossy] is written out.
    [Instant::now()] is an argument; [handle] is one turn of [run]'s
    [select!] loop. *)

From Stdlib Require Import Ascii NArith Lia.
From stdpp Require Import base tactics list strings option gmap sorting.
From S2P Require Import Prelude Text Net.

Local Open Scope N_scope.

(** ** Bytes and text *)

Definition as_bytes (s : string) : list N := N_of_ascii <$> String.list_ascii_of_string s.
Definition of_bytes (l : list N) : string := String.string_of_list_ascii (ascii_of_N <$> l).

Definition between (lo hi b : N) : bool := (lo <=? b) && (b <=? hi).
Definition cont (b : N) : bool := between 128 191 b.

(** The bounds of the second byte and the number of continuation bytes that
    follow a lead byte; [None] for a byte that starts no sequence. *)
Definition utf8_lead (b : N) : option (N * N * nat) :=
  if between 194 223 b then Some (128, 191, 1%nat)
  else if b =? 224 then Some (160, 191, 2%nat)
  else if between 225 236 b || between 238 239 b then Some (128, 191, 2%nat)
  else if b =? 237 then Some (128, 159, 2%nat)
  else if b =? 240 then Some (144, 191, 3%nat)
  else if between 241 243 b then Some (128, 191, 3%nat)
  else if b =? 244 then Some (128, 143, 3%nat)
  else None.

Fixpoint take_cont (n : nat) (l : list N) : nat :=
  match n, l with
  | S n', b :: l' => if cont b then S (take_cont n' l') else O
  | _, _ => O
  end.

(** Whether the sequence at the head is complete, and its length (of the
    maximal valid part when it is not). *)
Definition utf8_head (b : N) (rest : list N) : bool * nat :=
  if b <? 128 then (true, 1%nat)
  else match utf8_lead b with
  | None => (false, 1%nat)
  | Some (lo, hi, n) =>
      match rest with
      | b2 :: rest' =>
          if between lo hi b2 then
            let k := take_cont (n - 1) rest' in ((k =? n - 1)%nat, (2 + k)%nat)
          else (false, 1%nat)
      | [] => (false, 1%nat)
      end
  end.

Fixpoint lossy (fuel : nat) (l : list N) : list N :=
  match fuel, l with
  | S f, b :: rest =>
      let '(ok, n) := utf8_head b rest in
      (if ok then take n l else [239; 191; 189]) ++ lossy f (drop n l)
  | _, _ => []
  end.

(** [String::from_utf8_lossy]. *)
Definition from_utf8_lossy (l : list N) : string := of_bytes (lossy (length l) l).

(** A Rust [String] is valid UTF-8: decoding its bytes changes nothing. *)
Definition is_string (s : string) : Prop := from_utf8_lossy (as_bytes s) = s.

(** [trim_end_matches('\0')]. *)
Fixpoint trim_nul (s : string) : string :=
  match s with
  | EmptyString => EmptyString
  | String c s' =>
      match trim_nul s' with
      | EmptyString => if decide (c = "000"%char) then EmptyString else String c EmptyString
      | t => String c t
      end
  end.

Definition mac_text (mac : list N) : string := join ":" (hex2 <$> mac).

(** [str::parse::<Ipv4Addr>()]: at most 15 bytes, nothing left over. *)
Definition parse_v4 (s : string) : option N :=
  if (15 <? String.length s)%nat then None
  else match read_ipv4 s with Some (n, "") => Some n | _ => None end.

(** ** State *)

Definition LLDP_DST : list N := [1; 128; 194; 0; 0; 14].
Definition LLDP_ETHERTYPE : N := 35020.
Definition DEFAULT_TX_INTERVAL : N := 30.
Definition DEFAULT_HOLD_MULTIPLIER : N := 4.

Record Config := mkConfig {
  disabled : bool;
  tx_interval : N;
  hold_multiplier : N;
  disabled_ports : gset string;
}.

Definition default_config : Config :=
  mkConfig false (from_secs DEFAULT_TX_INTERVAL) DEFAULT_HOLD_MULTIPLIER ∅.

Record System := mkSystem {
  chassis_mac : list N;
  name : string;
  description : string;
  management_address : string;
}.

Record PortInfo := mkPortInfo { info_mac : list N; info_description : string }.
Definition default_info : PortInfo := mkPortInfo [0; 0; 0; 0; 0; 0] "".

Record Neighbor := mkNeighbor {
  chassis_id : string;
  chassis_id_subtype : string;
  port_id : string;
  port_id_subtype : string;
  port_description : string;
  system_name : string;
  system_description : string;
  nb_management_address : string;
  ttl : N;
}.

Record Learned := mkLearned { neighbor : Neighbor; last_seen : N }.

Record PortState := mkPort {
  info : PortInfo;
  up : bool;
  frames_tx : N;
  frames_rx : N;
  frames_discarded : N;
  ageouts : N;
  last_tx : option N;
  neighbors : gmap (string * string) Learned;
}.

Definition default_port : PortState := mkPort default_info false 0 0 0 0 None ∅.

Record Inner := mkInner { config : Config; system : System; ports : gmap string PortState }.

Definition spawn (mac : list N) : Inner := mkInner default_config (mkSystem mac "" "" "") ∅.

(** The advertised TTL: the product is a [u64]. *)
Definition inner_ttl (s : Inner) : N :=
  let secs := wrap 64 (as_secs (tx_interval (config s)) * N.max (hold_multiplier (config s)) 1) in
  if secs <? 65536 then secs else 65535.

Definition port_enabled (s : Inner) (p : string) : bool :=
  negb (disabled (config s)) && negb (bool_decide (p ∈ disabled_ports (config s))).

(** ** Configuration *)

Definition set_config (c : Config) (s : Inner) : Inner :=
  mkInner (mkConfig (disabled c)
             (if tx_interval c =? 0 then from_secs DEFAULT_TX_INTERVAL else tx_interval c)
             (if hold_multiplier c =? 0 then DEFAULT_HOLD_MULTIPLIER else hold_multiplier c)
             (disabled_ports c))
    (system s) (ports s).

Definition set_system (sys : System) (s : Inner) : Inner := mkInner (config s) sys (ports s).

Definition set_info (i : PortInfo) (st : PortState) : PortState :=
  mkPort i (up st) (frames_tx st) (frames_rx st) (frames_discarded st) (ageouts st) (last_tx st)
    (neighbors st).

Definition set_ports (ps : gmap string PortInfo) (s : Inner) : Inner :=
  let kept := btree_retain (λ n _, bool_decide (is_Some (ps !! n))) (ports s) in
  mkInner (config s) (system s)
    (foldl (λ acc ni, <[ni.1 := set_info ni.2 (default default_port (acc !! ni.1))]> acc)
       kept (btree_iter ps)).

Definition clear_port (st : PortState) : PortState :=
  mkPort (info st) (up st) 0 0 0 0 (last_tx st) (neighbors st).

Definition clear_counters (port : string) (s : Inner) : N * Inner :=
  let chosen n := bool_decide (port = "") || bool_decide (n = port) in
  (N.of_nat (length (filter (λ nst, chosen nst.1 = true) (btree_iter (ports s)))),
   mkInner (config s) (system s)
     (map_imap (λ n st, Some (if chosen n then clear_port st else st)) (ports s))).

(** ** Framing *)

Definition tlv (kind : N) (payload : list N) : list N :=
  let n := N.of_nat (length payload) in
  let len := N.land (if n <? 65536 then n else 0) 511 in
  be16 (N.lor (wrap 16 (N.shiftl kind 9)) len) ++ take (N.to_nat len) payload.

Definition encode (sys : System) (port : string) (i : PortInfo) (ttl : N) : list N :=
  let frame :=
    LLDP_DST ++ info_mac i ++ be16 LLDP_ETHERTYPE
    ++ tlv 1 (4 :: chassis_mac sys)
    ++ tlv 2 (5 :: as_bytes port)
    ++ tlv 3 (be16 ttl)
    ++ (if decide (info_description i = "") then [] else tlv 4 (as_bytes (info_description i)))
    ++ (if decide (name sys = "") then [] else tlv 5 (as_bytes (name sys)))
    ++ (if decide (description sys = "") then [] else tlv 6 (as_bytes (description sys)))
    ++ (match parse_v4 (management_address sys) with
        | Some n => tlv 8 ([5; 1] ++ be32 n ++ [1] ++ be32 0 ++ [0])
        | None => []
        end)
    ++ tlv 0 [] in
  frame ++ replicate (60 - length frame) 0.

Definition chassis_subtype (n : N) : string :=
  match n with
  | 1 => "chassis-component" | 2 => "interface-alias" | 3 => "port-component" | 4 => "mac"
  | 5 => "network-address" | 6 => "interface-name" | 7 => "local" | _ => "unknown"
  end.

Definition port_subtype (n : N) : string :=
  match n with
  | 1 => "interface-alias" | 2 => "port-component" | 3 => "mac" | 4 => "network-address"
  | 5 => "interface-name" | 6 => "agent-circuit-id" | 7 => "local" | _ => "unknown"
  end.

Definition identifier (subtype mac_subtype : N) (body : list N) : string :=
  if (subtype =? mac_subtype) && (length body =? 6)%nat then mac_text body
  else trim_nul (from_utf8_lossy body).

Definition empty_neighbor : Neighbor := mkNeighbor "" "" "" "" "" "" "" "" 0.

(** The [match kind]: [None] is a [?] that fails, the flag is [seen_ttl]. *)
Definition read_tlv (kind : N) (body : list N) (nb : Neighbor) (seen : bool) : option (Neighbor * bool) :=
  let '(mkNeighbor ci cs pi ps pd sn sd ma t) := nb in
  match kind with
  | 1 => st ← head body;
         Some (mkNeighbor (identifier st 4 (tail body)) (chassis_subtype st) pi ps pd sn sd ma t, seen)
  | 2 => st ← head body;
         Some (mkNeighbor ci cs (identifier st 3 (tail body)) (port_subtype st) pd sn sd ma t, seen)
  | 3 => hi ← head body; lo ← body !! 1%nat;
         Some (mkNeighbor ci cs pi ps pd sn sd ma (of_be16 hi lo), true)
  | 4 => Some (mkNeighbor ci cs pi ps (from_utf8_lossy body) sn sd ma t, seen)
  | 5 => Some (mkNeighbor ci cs pi ps pd (from_utf8_lossy body) sd ma t, seen)
  | 6 => Some (mkNeighbor ci cs pi ps pd sn (from_utf8_lossy body) ma t, seen)
  | 8 => if (default 0 (head body) =? 5) && bool_decide (body !! 1%nat = Some 1) then
           match slice 2 6 body with
           | [a; b; c; d] => Some (mkNeighbor ci cs pi ps pd sn sd (show_v4 (of_be32 a b c d)) t, seen)
           | _ => Some (nb, seen)
           end
         else Some (nb, seen)
  | _ => Some (nb, seen)
  end.

Fixpoint decode_loop (fuel : nat) (rest : list N) (nb : Neighbor) (seen : bool) :
    option (Neighbor * bool) :=
  match fuel, rest with
  | S f, b0 :: b1 :: payload =>
      let header := of_be16 b0 b1 in
      let kind := N.shiftr header 9 in
      let len := N.to_nat (N.land header 511) in
      if (length payload <? len)%nat then None
      else if kind =? 0 then Some (nb, seen)
      else '(nb, seen) ← read_tlv kind (take len payload) nb seen;
           decode_loop f (drop len payload) nb seen
  | _, _ => Some (nb, seen)
  end.

Definition decode (frame : list N) : option Neighbor :=
  hi ← frame !! 12%nat;
  lo ← frame !! 13%nat;
  if negb (of_be16 hi lo =? LLDP_ETHERTYPE) then None
  else
    '(nb, seen) ← decode_loop (length frame) (drop 14 frame) empty_neighbor false;
    if bool_decide (chassis_id nb = "") || bool_decide (port_id nb = "") || negb seen then None
    else Some nb.

(** ** Events *)

Record LinkEvent := mkLinkEvent { ev_port : string; ev_up : bool }.

Definition with_ports (ps : gmap string PortState) (s : Inner) : Inner :=
  mkInner (config s) (system s) ps.

Definition link_port (u : bool) (st : PortState) : PortState :=
  if eqb (up st) u then st
  else mkPort (info st) u (frames_tx st) (frames_rx st) (frames_discarded st) (ageouts st) None
         (if u then neighbors st else ∅).

Definition link_event (e : LinkEvent) (s : Inner) : Inner :=
  with_ports (alter (link_port (ev_up e)) (ev_port e) (ports s)) s.

Definition set_rx (rx discarded : N) (nbs : gmap (string * string) Learned) (st : PortState) : PortState :=
  mkPort (info st) (up st) (frames_tx st) rx discarded (ageouts st) (last_tx st) nbs.

Definition receive_port (now : N) (frame : list N) (st : PortState) : PortState :=
  let rx := wrap 64 (frames_rx st + 1) in
  match decode frame with
  | Some nb =>
      let key := (chassis_id nb, port_id nb) in
      if ttl nb =? 0 then set_rx rx (frames_discarded st) (delete key (neighbors st)) st
      else set_rx rx (frames_discarded st) (<[key := mkLearned nb now]> (neighbors st)) st
  | None => set_rx rx (wrap 64 (frames_discarded st + 1)) (neighbors st) st
  end.

Definition receive (now : N) (port : string) (frame : list N) (s : Inner) : Inner :=
  if port_enabled s port then with_ports (alter (receive_port now frame) port (ports s)) s else s.

(** ** One evaluation pass *)

Definition expired (now : N) (l : Learned) : bool := ttl (neighbor l) <=? as_secs (since now (last_seen l)).

Definition port_step (now : N) (s : Inner) (p : string) (st : PortState) :
    PortState * list (string * list N) :=
  if negb (port_enabled s p) then
    (mkPort (info st) (up st) (frames_tx st) (frames_rx st) (frames_discarded st) (ageouts st) None ∅, [])
  else
    let gone := filter (λ kl, expired now kl.2 = true) (btree_iter (neighbors st)) in
    let nbs := foldl (λ m kl, delete kl.1 m) (neighbors st) gone in
    let aged := foldl (λ n _, wrap 64 (n + 1)) (ageouts st) gone in
    let st := mkPort (info st) (up st) (frames_tx st) (frames_rx st) (frames_discarded st) aged
                (last_tx st) nbs in
    if negb (up st) then
      (mkPort (info st) (up st) (frames_tx st) (frames_rx st) (frames_discarded st) (ageouts st) None
         (neighbors st), [])
    else if match last_tx st with
            | Some at_ => tx_interval (config s) <=? since now at_
            | None => true
            end
    then (mkPort (info st) (up st) (wrap 64 (frames_tx st + 1)) (frames_rx st) (frames_discarded st)
            (ageouts st) (Some now) (neighbors st),
          [(p, encode (system s) p (info st) (inner_ttl s))])
    else (st, []).

Definition step (now : N) (s : Inner) : Inner * list (string * list N) :=
  let '(ps, out) := btree_each (port_step now s) (ports s) in (with_ports ps s, out).

Inductive event :=
| Tick
| Wake
| Link (e : LinkEvent)
| Frame (at_ : N) (port : string) (frame : list N).

Definition handle (now : N) (e : event) (s : Inner) : Inner * list (string * list N) :=
  step now
    match e with
    | Tick | Wake => s
    | Link e => link_event e s
    | Frame at_ port frame => receive at_ port frame s
    end.

(** ** The snapshot *)

Record NeighborSnapshot := mkNeighborSnapshot { ns_neighbor : Neighbor; ns_age_secs : N }.

Record PortSnapshot := mkPortSnapshot {
  ps_port : string;
  ps_enabled : bool;
  ps_frames_tx : N;
  ps_frames_rx : N;
  ps_frames_discarded : N;
  ps_ageouts : N;
  ps_neighbors : list NeighborSnapshot;
}.

Record Snapshot := mkSnapshot {
  sn_enabled : bool;
  sn_tx_interval_secs : N;
  sn_hold_multiplier : N;
  sn_chassis_id : string;
  sn_system_name : string;
  sn_system_description : string;
  sn_management_address : string;
  sn_ports : list PortSnapshot;
}.

Definition snapshot (now : N) (s : Inner) : Snapshot :=
  let secs := as_secs (tx_interval (config s)) in
  mkSnapshot (negb (disabled (config s))) (if secs <? 2 ^ 32 then secs else 2 ^ 32 - 1)
    (hold_multiplier (config s)) (mac_text (chassis_mac (system s))) (name (system s))
    (description (system s)) (management_address (system s))
    ((λ nst, mkPortSnapshot nst.1 (port_enabled s nst.1) (frames_tx nst.2) (frames_rx nst.2)
        (frames_discarded nst.2) (ageouts nst.2)
        ((λ l, mkNeighborSnapshot (neighbor l) (as_secs (since now (last_seen l))))
         <$> btree_values (neighbors nst.2))) <$> btree_iter (ports s)).

(** ** The codec *)

(** The fuel is the length of the input: every TLV takes at least two bytes. *)
Lemma decode_loop_fuel f1 f2 rest nb seen :
  (length rest ≤ f1)%nat → (length rest ≤ f2)%nat →
  decode_loop f1 rest nb seen = decode_loop f2 rest nb seen.
Proof.
  revert f2 rest nb seen. induction f1 as [|f1 IH]; intros [|f2] [|b0 [|b1 payload]] nb seen H1 H2;
    simpl in *; try done; try lia.
  case_match; [done|]. case_match; [done|].
  destruct (read_tlv _ _ nb seen) as [[nb' seen']|]; simpl; [|done].
  apply IH; rewrite length_drop; lia.
Qed.

Definition read_tlvs (rest : list N) (nb : Neighbor) (seen : bool) : option (Neighbor * bool) :=
  decode_loop (length rest) rest nb seen.

Lemma header_fields kind len :
  kind < 128 → len < 512 →
  N.shiftr (N.lor (wrap 16 (N.shiftl kind 9)) len) 9 = kind
  ∧ N.land (N.lor (wrap 16 (N.shiftl kind 9)) len) 511 = len.
Proof.
  intros Hk Hl. rewrite wrap_id by (unfold fits; rewrite N.shiftl_mul_pow2; lia). split.
  - rewrite N.shiftr_lor, N.shiftr_shiftl_l by done. rewrite N.sub_diag, N.shiftl_0_r.
    rewrite N.shiftr_div_pow2, (N.div_small len) by done. apply N.lor_0_r.
  - change 511 with (N.ones 9). rewrite N.land_lor_distr_l, !N.land_ones, N.shiftl_mul_pow2.
    rewrite N.Div0.mod_mul, N.lor_0_l. by apply N.mod_small.
Qed.

Lemma tlv_shape kind body :
  (length body ≤ 511)%nat →
  ∃ h, tlv kind body = be16 h ++ body
    ∧ h = N.lor (wrap 16 (N.shiftl kind 9)) (N.of_nat (length body)).
Proof.
  intros Hl. unfold tlv. assert ((N.of_nat (length body) <? 65536) = true) as ->
    by (apply N.ltb_lt; lia).
  change 511 with (N.ones 9). rewrite N.land_ones, N.mod_small by lia.
  eexists. split; [|done]. by rewrite Nat2N.id, firstn_all.
Qed.

Lemma decode_loop_step f b0 b1 payload nb seen :
  decode_loop (S f) (b0 :: b1 :: payload) nb seen =
  let len := N.to_nat (N.land (of_be16 b0 b1) 511) in
  if (length payload <? len)%nat then None
  else if N.shiftr (of_be16 b0 b1) 9 =? 0 then Some (nb, seen)
  else read_tlv (N.shiftr (of_be16 b0 b1) 9) (take len payload) nb seen ≫= λ '(nb, seen),
       decode_loop f (drop len payload) nb seen.
Proof. done. Qed.

Lemma read_tlvs_cons kind body rest nb seen :
  kind < 128 → kind ≠ 0 → (length body ≤ 511)%nat →
  read_tlvs (tlv kind body ++ rest) nb seen
  = read_tlv kind body nb seen ≫= λ '(nb, seen), read_tlvs rest nb seen.
Proof.
  intros Hk H0 Hl. destruct (tlv_shape kind body Hl) as (h & -> & Hh).
  destruct (header_fields kind (N.of_nat (length body))) as [F1 F2]; [done|lia|]. rewrite <-Hh in F1, F2.
  unfold read_tlvs, be16. cbn [app length]. rewrite decode_loop_step. cbv zeta.
  rewrite of_be16_be16, F1, F2, Nat2N.id.
  rewrite (proj2 (Nat.ltb_ge _ _)) by (rewrite length_app; lia).
  rewrite (proj2 (N.eqb_neq _ _) H0), take_app_length, drop_app_length.
  destruct (read_tlv kind body nb seen) as [[nb' seen']|]; cbn [mbind option_bind]; [|done].
  apply decode_loop_fuel; rewrite ?length_app; lia.
Qed.

Lemma read_tlvs_end rest nb seen : read_tlvs (tlv 0 [] ++ rest) nb seen = Some (nb, seen).
Proof. done. Qed.

Lemma length_as_bytes s : length (as_bytes s) = String.length s.
Proof.
  unfold as_bytes. rewrite length_fmap. induction s as [|c s IH]; simpl; [done|]. by rewrite IH.
Qed.

(** What an advertisement can carry: six-byte addresses, UTF-8 texts that
    fit a TLV, a port name that is not empty and does not end in NUL. *)
Record advertisable (sys : System) (port : string) (i : PortInfo) : Prop := {
  adv_chassis : length (chassis_mac sys) = 6%nat;
  adv_mac : length (info_mac i) = 6%nat;
  adv_port : is_string port ∧ port ≠ "" ∧ trim_nul port = port ∧ (String.length port ≤ 510)%nat;
  adv_texts : ∀ t, t ∈ [info_description i; name sys; description sys] →
    is_string t ∧ (String.length t ≤ 511)%nat;
}.

(** What the other side makes of an advertisement. *)
Definition heard (sys : System) (port : string) (i : PortInfo) (t : N) : Neighbor :=
  mkNeighbor (mac_text (chassis_mac sys)) "mac" port "interface-name" (info_description i)
    (name sys) (description sys)
    (match parse_v4 (management_address sys) with Some n => show_v4 n | None => "" end) t.

(** An optional text TLV sets its field to the text, empty or not. *)
Lemma read_text kind (set : string → Neighbor) s rest :
  kind < 128 → kind ≠ 0 → is_string s → (String.length s ≤ 511)%nat →
  (∀ body seen, read_tlv kind body (set "") seen = Some (set (from_utf8_lossy body), seen)) →
  read_tlvs ((if decide (s = "") then [] else tlv kind (as_bytes s)) ++ rest) (set "") true
  = read_tlvs rest (set s) true.
Proof.
  intros Hk H0 Hs Hl Hset. case_decide as He; [by rewrite He|].
  rewrite read_tlvs_cons by (done || rewrite length_as_bytes; done).
  rewrite Hset. simpl. by rewrite Hs.
Qed.

Lemma mac_text_cons m : length m = 6%nat → mac_text m ≠ "".
Proof. destruct m as [|a [|b m]]; intros H; done. Qed.

Lemma read_tlvs_encoded sys port i t rest :
  advertisable sys port i →
  read_tlvs (tlv 1 (4 :: chassis_mac sys) ++ tlv 2 (5 :: as_bytes port) ++ tlv 3 (be16 t)
    ++ (if decide (info_description i = "") then [] else tlv 4 (as_bytes (info_description i)))
    ++ (if decide (name sys = "") then [] else tlv 5 (as_bytes (name sys)))
    ++ (if decide (description sys = "") then [] else tlv 6 (as_bytes (description sys)))
    ++ (match parse_v4 (management_address sys) with
        | Some n => tlv 8 ([5; 1] ++ be32 n ++ [1] ++ be32 0 ++ [0])
        | None => []
        end)
    ++ tlv 0 [] ++ rest) empty_neighbor false
  = Some (heard sys port i t, true).
Proof.
  intros [Hc Hm (Hps & Hpn & Hpt & Hpl) Ht].
  set (cm := mac_text (chassis_mac sys)).
  assert (read_tlv 1 (4 :: chassis_mac sys) empty_neighbor false
    = Some (mkNeighbor cm "mac" "" "" "" "" "" "" 0, false)) as H1
    by (simpl; unfold identifier; simpl; by rewrite Hc).
  assert (read_tlv 2 (5 :: as_bytes port) (mkNeighbor cm "mac" "" "" "" "" "" "" 0) false
    = Some (mkNeighbor cm "mac" port "interface-name" "" "" "" "" 0, false)) as H2
    by (simpl; unfold identifier; simpl; by rewrite Hps, Hpt).
  assert (read_tlv 3 (be16 t) (mkNeighbor cm "mac" port "interface-name" "" "" "" "" 0) false
    = Some (mkNeighbor cm "mac" port "interface-name" "" "" "" "" t, true)) as H3
    by (simpl; by rewrite of_be16_be16).
  rewrite read_tlvs_cons, H1 by (simpl; lia). cbn [mbind option_bind].
  rewrite read_tlvs_cons, H2 by (simpl; rewrite ?length_as_bytes; lia). cbn [mbind option_bind].
  rewrite read_tlvs_cons, H3 by (simpl; lia). cbn [mbind option_bind].
  destruct (Ht (info_description i)) as [? ?]; [left|].
  destruct (Ht (name sys)) as [? ?]; [right; left|].
  destruct (Ht (description sys)) as [? ?]; [right; right; left|].
  set (h := λ d n e a, mkNeighbor cm "mac" port "interface-name" d n e a t).
  change (read_tlvs ((if decide (info_description i = "") then [] else tlv 4 (as_bytes (info_description i)))
    ++ (if decide (name sys = "") then [] else tlv 5 (as_bytes (name sys)))
    ++ (if decide (description sys = "") then [] else tlv 6 (as_bytes (description sys)))
    ++ (match parse_v4 (management_address sys) with
        | Some n => tlv 8 ([5; 1] ++ be32 n ++ [1] ++ be32 0 ++ [0])
        | None => []
        end)
    ++ tlv 0 [] ++ rest) ((λ d, h d "" "" "") "") true = Some (heard sys port i t, true)).
  rewrite read_text by done. cbv beta.
  rewrite (read_text 5 (λ n, h (info_description i) n "" "")) by done. cbv beta.
  rewrite (read_text 6 (λ e, h (info_description i) (name sys) e "")) by done. cbv beta.
  unfold heard. destruct (parse_v4 (management_address sys)) as [n|]; [|done].
  assert (read_tlv 8 ([5; 1] ++ be32 n ++ [1] ++ be32 0 ++ [0])
    (h (info_description i) (name sys) (description sys) "") true
    = Some (h (info_description i) (name sys) (description sys) (show_v4 n), true)) as H8
    by (rewrite <-(of_be32_be32 n) at 2; done).
  rewrite read_tlvs_cons, H8 by (simpl; lia). done.
Qed.

Lemma decode_alt frame :
  decode frame =
  (hi ← frame !! 12%nat;
   lo ← frame !! 13%nat;
   if negb (of_be16 hi lo =? LLDP_ETHERTYPE) then None
   else
     '(nb, seen) ← read_tlvs (drop 14 frame) empty_neighbor false;
     if bool_decide (chassis_id nb = "") || bool_decide (port_id nb = "") || negb seen then None
     else Some nb).
Proof.
  unfold decode, read_tlvs.
  rewrite (decode_loop_fuel (length frame) (length (drop 14 frame))); [done| |done].
  rewrite length_drop. lia.
Qed.

Lemma decode_encode sys port i t :
  advertisable sys port i → decode (encode sys port i t) = Some (heard sys port i t).
Proof.
  intros Ha. pose proof Ha as [Hc Hm (_ & Hpn & _) _].
  unfold encode. set (pad := replicate _ 0). clearbody pad. rewrite decode_alt.
  rewrite <-!(assoc_L (++)).
  match goal with |- context [info_mac i ++ be16 LLDP_ETHERTYPE ++ ?x] => set (tlvs := x) in * end.
  destruct (info_mac i) as [|m0 m] eqn:Em; [discriminate Hm|].
  do 5 (destruct m as [|? m]; [discriminate Hm|]). destruct m; [|discriminate Hm].
  change (be16 LLDP_ETHERTYPE) with [136; 204]. cbn [LLDP_DST app drop lookup list_lookup mbind option_bind].
  change (negb (of_be16 136 204 =? LLDP_ETHERTYPE)) with false. cbv iota.
  unfold tlvs. rewrite drop_0, (read_tlvs_encoded sys port i t pad Ha). cbn [mbind option_bind].
  cbn [heard chassis_id port_id].
  rewrite !bool_decide_false by (done || by apply mac_text_cons). done.
Qed.

(** An advertisement decodes to exactly what it advertises: the chassis
    MAC, the port name, the descriptions, the management address (when it is
    an IPv4 one) and the TTL. *)
Theorem lldp_roundtrip sys port i t :
  advertisable sys port i → decode (encode sys port i t) = Some (heard sys port i t).
Proof. apply decode_encode. Qed.

(** ** The neighbor table *)

Lemma drop_expired (m : gmap (string * string) Learned) (gone : list ((string * string) * Learned)) k :
  foldl (λ m kl, delete kl.1 m) m gone !! k =
  if decide (k ∈ gone.*1) then None else m !! k.
Proof.
  revert m. induction gone as [|[k0 l] gone IH]; intros m; simpl; [done|].
  rewrite IH. rewrite lookup_delete.
  repeat case_decide; subst; rewrite ?elem_of_cons in *; naive_solver.
Qed.

Lemma port_step_neighbors now s p st :
  port_enabled s p = true →
  ∀ k l, neighbors (port_step now s p st).1 !! k = Some l ↔
    neighbors st !! k = Some l ∧ expired now l = false.
Proof.
  intros He k l. unfold port_step. rewrite He. cbn [negb].
  set (gone := filter _ _).
  assert (foldl (λ m kl, delete kl.1 m) (neighbors st) gone !! k = Some l ↔
    neighbors st !! k = Some l ∧ expired now l = false) as H.
  { rewrite drop_expired. assert (k ∈ gone.*1 ↔ ∃ l', neighbors st !! k = Some l' ∧ expired now l' = true) as Hg.
    { rewrite list_elem_of_fmap. unfold gone. split.
      - intros ([k' l'] & -> & [Hx Hin%elem_of_btree_iter]%list_elem_of_filter). by exists l'.
      - intros (l' & Hl & Hx). exists (k, l'). by rewrite list_elem_of_filter, elem_of_btree_iter. }
    case_decide as Hd; rewrite Hg in Hd.
    - destruct Hd as (l' & Hl & Hx). split; [done|]. intros [Hl2 Hx2]. congruence.
    - split; [|by intros [? _]]. intros Hl. split; [done|].
      destruct (expired now l) eqn:E; [|done]. exfalso. apply Hd. eauto. }
  repeat case_match; exact H.
Qed.

(** After every pass the neighbor table is fresh: a disabled port (or
    every port, when LLDP is off) has no neighbors, and every neighbor of an
    enabled one was heard less than its advertised TTL ago, with nothing that
    still is dropped. *)
Theorem lldp_table_fresh now s p st' :
  ports (step now s).1 !! p = Some st' →
  ∃ st, ports s !! p = Some st
    ∧ (port_enabled s p = false → neighbors st' = ∅)
    ∧ (port_enabled s p = true → ∀ k l,
         neighbors st' !! k = Some l ↔
         neighbors st !! k = Some l ∧ as_secs (since now (last_seen l)) < ttl (neighbor l)).
Proof.
  unfold step. simpl. rewrite map_lookup_imap. intros (st & Hst & [= <-])%bind_Some.
  exists st. split_and!; [done| |].
  - intros He. unfold port_step. by rewrite He.
  - intros He k l. rewrite (port_step_neighbors now s p st He). unfold expired.
    by rewrite N.leb_gt.
Qed.

Lemma lldp_sends now s p st q f :
  (q, f) ∈ (port_step now s p st).2 →
  q = p ∧ port_enabled s p = true ∧ up st = true
  ∧ f = encode (system s) p (info st) (inner_ttl s)
  ∧ (∀ at_, last_tx st = Some at_ → tx_interval (config s) ≤ since now at_).
Proof.
  unfold port_step. destruct (port_enabled s p); simpl; [|by intros ?%elem_of_nil].
  destruct (up st); simpl; [|by intros ?%elem_of_nil].
  destruct (last_tx st) as [at0|]; simpl.
  - destruct (N.leb_spec (tx_interval (config s)) (since now at0)) as [Hle|]; simpl;
      [|by intros ?%elem_of_nil].
    intros [= -> ->]%list_elem_of_singleton. split_and!; try done. by intros ? [= <-].
  - intros [= -> ->]%list_elem_of_singleton. by split_and!.
Qed.

Lemma receive_learns now port frame s st nb :
  port_enabled s port = true → ports s !! port = Some st → decode frame = Some nb → ttl nb ≠ 0 →
  ∃ st', ports (receive now port frame s) !! port = Some st'
    ∧ neighbors st' !! (chassis_id nb, port_id nb) = Some (mkLearned nb now).
Proof.
  intros He Hp Hd Ht. unfold receive. rewrite He. simpl. rewrite lookup_alter_eq, Hp. simpl.
  eexists. split; [done|]. unfold receive_port. rewrite Hd. apply N.eqb_neq in Ht. rewrite Ht.
  simpl. by rewrite lookup_insert_eq.
Qed.


(** The length field wraps at 512 instead of stopping at 511: a 512-byte
    text is announced as empty and a longer one loses all but its length
    modulo 512. *)
Theorem lldp_tlv_length_wraps kind payload :
  N.of_nat (length payload) < 65536 →
  length (tlv kind payload) = (2 + length payload mod 512)%nat.
Proof.
  intros Hl. unfold tlv. rewrite (proj2 (N.ltb_lt _ _) Hl). change 511 with (N.ones 9).
  rewrite N.land_ones. change (2 ^ 9) with 512. rewrite length_app. cbn [be16 length].
  rewrite length_take, N2Nat.inj_mod, Nat2N.id by lia. change (N.to_nat 512) with 512%nat.
  pose proof (Nat.Div0.mod_le (length payload) 512). lia.
Qed.

(** ** Two switches *)

Module LldpDemo.
Definition sys : System := mkSystem [44; 221; 233; 74; 27; 0] "hemlock" "Hemlock NOS" "10.42.0.9".
Definition port_info : PortInfo := mkPortInfo [44; 221; 233; 74; 27; 1] "uplink".
Definition sender : Inner :=
  mkInner default_config sys
    {[ "Ethernet1" := mkPort port_info true 0 0 0 0 None ∅ ]}.
Definition receiver : Inner := (set_ports {[ "Ethernet9" := port_info ]} (spawn [2; 0; 0; 0; 0; 1])).
Definition frame : list N := encode sys "Ethernet1" port_info 120.
Definition learned : Inner := Eval vm_compute in receive (from_secs 5) "Ethernet9" frame receiver.
Definition before : PortState := Eval vm_compute in
  default default_port (ports learned !! "Ethernet9").
Definition after : PortState := Eval vm_compute in
  default default_port (ports (step (from_secs 200) learned).1 !! "Ethernet9").

Lemma sys_ok : advertisable sys "Ethernet1" port_info.
Proof.
  split; [reflexivity|reflexivity|split_and!; vm_compute; (reflexivity || lia || discriminate)|].
  intros t [->|[->|[->|?%elem_of_nil]%elem_of_cons]%elem_of_cons]%elem_of_cons;
    [..|done]; split; vm_compute; (reflexivity || lia).
Qed.
End LldpDemo.

Import LldpDemo.

Lemma lldp_roundtrip_witness : decode frame = Some (heard sys "Ethernet1" port_info 120).
Proof. exact (lldp_roundtrip sys "Ethernet1" port_info 120 sys_ok). Defined.

Lemma lldp_table_fresh_witness :
  ports (step (from_secs 200) learned).1 !! "Ethernet9" = Some after
  ∧ is_Some (neighbors before !! ("2c:dd:e9:4a:1b:00", "Ethernet1"))
  ∧ neighbors after !! ("2c:dd:e9:4a:1b:00", "Ethernet1") = None.
Proof.
  assert (ports (step (from_secs 200) learned).1 !! "Ethernet9" = Some after) as H
    by (vm_compute; reflexivity).
  assert (ports learned !! "Ethernet9" = Some before) as H1 by (vm_compute; reflexivity).
  assert (∃ l, neighbors before !! ("2c:dd:e9:4a:1b:00", "Ethernet1") = Some l
    ∧ (as_secs (since (from_secs 200) (last_seen l)) <? ttl (neighbor l)) = false) as (l0 & Hl0 & Hold)
    by (eexists; split; [vm_compute; reflexivity|vm_compute; reflexivity]).
  split_and!; [exact H|exact (mk_is_Some _ _ Hl0)|].
  destruct (lldp_table_fresh (from_secs 200) learned "Ethernet9" after H) as (st0 & H0 & _ & Hf).
  rewrite H1 in H0. apply (inj Some) in H0. subst st0.
  destruct (neighbors after !! ("2c:dd:e9:4a:1b:00", "Ethernet1")) as [l|] eqn:E; [|reflexivity].
  exfalso. destruct (proj1 (Hf eq_refl _ l) E) as [Hl Hlt]. rewrite Hl0 in Hl.
  apply (inj Some) in Hl. subst l. apply N.ltb_lt in Hlt. congruence.
Defined.


Lemma lldp_tlv_length_wraps_witness : length (tlv 6 (replicate 512 65)) = 2%nat.
Proof. exact (lldp_tlv_length_wraps 6 (replicate 512 65) eq_refl). Defined.
