(* ===== verification/SnoopWire.v ===== *)
(** * IGMP and MLD on the wire (hemlock-orch/src/snoop.rs)

    The frame parsers of the snooping engine, the RFC 1071 checksum and the
    general queries the local querier sends.  Every index and slice of the
    parsers is a fallible operation, so that their bounds checks are what
    [parse_total] proves sufficient. *)

From Stdlib Require Import NArith Lia.
From stdpp Require Import base tactics list option.
From S2P Require Import Prelude Text Net.

Local Open Scope N_scope.

Inductive Family := Igmp | Mld.

#[export] Instance Family_eq_dec : EqDecision Family.
Proof. solve_decision. Defined.

Inductive Message :=
| Report (group : IpAddr) (version : N)
| Leave (group : IpAddr)
| Query (source : IpAddr).

#[export] Instance Message_eq_dec : EqDecision Message.
Proof. solve_decision. Defined.

(** ** Octets of an address *)

(** [Ipv4Addr::octets] (k = 4), [Ipv6Addr::octets] (k = 16) and back. *)
Fixpoint octets (k : nat) (n : N) : list N :=
  match k with O => [] | S k => octets k (n / 256) ++ [n mod 256] end.

Definition of_octets (l : list N) : N := foldl (λ n b, n * 256 + b) 0 l.

(** ** The parsers *)

(** What a group record of an IGMPv3 or MLDv2 report says: a change to an
    empty include list leaves, any other record type of the RFC joins. *)
Definition record_message (record_type : N) (sources : nat) (group : IpAddr) (version : N) :
    list Message :=
  if ((record_type =? 1) || (record_type =? 3)) && (sources =? 0)%nat then [Leave group]
  else if (1 <=? record_type) && (record_type <=? 6) then [Report group version]
  else [].

(** [igmp.group_at(at)]. *)
Definition group_at4 (igmp : list N) (at_ : nat) : result panic IpAddr :=
  a ← index igmp at_;
  b ← index igmp (at_ + 1);
  c ← index igmp (at_ + 2);
  d ← index igmp (at_ + 3);
  Ok (V4 (of_be32 a b c d)).

Definition index16 (l : list N) (at_ : nat) : result panic nat :=
  hi ← index l at_;
  lo ← index l (at_ + 1);
  Ok (N.to_nat (of_be16 hi lo)).

(** [for _ in 0..count] over the group records. *)
Fixpoint igmp_records (count : nat) (igmp : list N) (at_ : nat) : result panic (list Message) :=
  match count with
  | O => Ok []
  | S count =>
      if (length igmp <? at_ + 8)%nat then Ok []
      else
        record_type ← index igmp at_;
        aux ← index igmp (at_ + 1);
        sources ← index16 igmp (at_ + 2);
        group ← group_at4 igmp (at_ + 4);
        rest ← igmp_records count igmp (at_ + (8 + sources * 4 + N.to_nat aux * 4));
        Ok (record_message record_type sources group 3 ++ rest)
  end.

Definition parse_igmp (frame : list N) : result panic (list Message) :=
  if (length frame <? 14 + 20 + 8)%nat then Ok []
  else
    ety ← range 12 14 frame;
    if bool_decide (ety ≠ [8; 0]) then Ok []
    else
      ip ← range 14 (length frame) frame;
      ip0 ← index ip 0;
      let ihl := (N.to_nat (N.land ip0 15) * 4)%nat in
      if negb (N.shiftr ip0 4 =? 4) then Ok []
      else if (length ip <? ihl + 8)%nat then Ok []
      else
        proto ← index ip 9;
        if negb (proto =? 2) then Ok []
        else
          source ← group_at4 ip 12;
          igmp ← range ihl (length ip) ip;
          kind ← index igmp 0;
          if kind =? 17 then Ok [Query source]
          else if kind =? 18 then group ← group_at4 igmp 4; Ok [Report group 1]
          else if kind =? 22 then group ← group_at4 igmp 4; Ok [Report group 2]
          else if kind =? 23 then group ← group_at4 igmp 4; Ok [Leave group]
          else if kind =? 34 then
            if (length igmp <? 8)%nat then Ok []
            else count ← index16 igmp 6; igmp_records count igmp 8
          else Ok [].

Definition group_at16 (icmp : list N) (at_ : nat) : result panic IpAddr :=
  bytes ← range at_ (at_ + 16) icmp;
  Ok (V6 (of_octets bytes)).

Fixpoint mld_records (count : nat) (icmp : list N) (record_at : nat) :
    result panic (list Message) :=
  match count with
  | O => Ok []
  | S count =>
      if (length icmp <? record_at + 20)%nat then Ok []
      else
        record_type ← index icmp record_at;
        aux ← index icmp (record_at + 1);
        sources ← index16 icmp (record_at + 2);
        group ← group_at16 icmp (record_at + 4);
        rest ← mld_records count icmp (record_at + (20 + sources * 16 + N.to_nat aux * 4));
        Ok (record_message record_type sources group 2 ++ rest)
  end.

Definition parse_mld (frame : list N) : result panic (list Message) :=
  if (length frame <? 14 + 40 + 8)%nat then Ok []
  else
    ety ← range 12 14 frame;
    if bool_decide (ety ≠ [134; 221]) then Ok []
    else
      ip ← range 14 (length frame) frame;
      ip0 ← index ip 0;
      if negb (N.shiftr ip0 4 =? 6) || (length ip <? 40)%nat then Ok []
      else
        source_bytes ← range 8 24 ip;
        let source := V6 (of_octets source_bytes) in
        next ← index ip 6;
        let icmp_at (next : N) (at_ : nat) :=
          if negb (next =? 58) || (length ip <? at_ + 8)%nat then Ok []
          else
            icmp ← range at_ (length ip) ip;
            kind ← index icmp 0;
            if kind =? 130 then Ok [Query source]
            else if (kind =? 131) && (24 <=? length icmp)%nat then
              group ← group_at16 icmp 8; Ok [Report group 1]
            else if (kind =? 132) && (24 <=? length icmp)%nat then
              group ← group_at16 icmp 8; Ok [Leave group]
            else if kind =? 143 then
              if (length icmp <? 8)%nat then Ok []
              else count ← index16 icmp 6; mld_records count icmp 8
            else Ok [] in
        (* the hop-by-hop router-alert option *)
        if next =? 0 then
          if (length ip <? 40 + 8)%nat then Ok []
          else
            next ← index ip 40;
            ext ← index ip 41;
            icmp_at next (40 + (N.to_nat ext + 1) * 8)%nat
        else icmp_at next 40%nat.

Definition parse (family : Family) (frame : list N) : result panic (list Message) :=
  match family with Igmp => parse_igmp frame | Mld => parse_mld frame end.

(** ** The checksum *)

(** One byte of the running sum: the high byte waits in the carry. *)
Definition checksum_byte (st : N * option N) (b : N) : N * option N :=
  match st with
  | (sum, Some high) => (wrap 32 (sum + of_be16 high b), None)
  | (sum, None) => (sum, Some b)
  end.

(** [while sum > 0xffff]: a [u32] is folded by three passes
    ([fold_carries_small]). *)
Fixpoint fold_carries (fuel : nat) (sum : N) : N :=
  match fuel with
  | O => sum
  | S fuel =>
      if 65535 <? sum then fold_carries fuel (N.land sum 65535 + N.shiftr sum 16) else sum
  end.

Definition checksum (chunks : list (list N)) : N :=
  let '(sum, carry) := foldl (foldl checksum_byte) (0, None) chunks in
  let sum := match carry with Some high => wrap 32 (sum + of_be16 high 0) | None => sum end in
  65535 - fold_carries 3 sum.

(** ** General queries *)

(** [l[at..at + 2].copy_from_slice(&n.to_be_bytes())]. *)
Definition patch16 (at_ : nat) (n : N) (l : list N) : list N :=
  take at_ l ++ be16 n ++ drop (at_ + 2) l.

Definition igmp_query : list N :=
  let igmp := [17; 100; 0; 0; 0; 0; 0; 0] in patch16 2 (checksum [igmp]) igmp.

Definition ipv4_header (source : N) (payload : list N) : list N :=
  let ip := [69; 192] ++ be16 (20 + N.of_nat (length payload)) ++ [0; 0; 0; 0] ++ [1] ++ [2]
            ++ [0; 0] ++ octets 4 source ++ [224; 0; 0; 1] in
  patch16 10 (checksum [ip]) ip.

(** [ff02::1]. *)
Definition all_nodes : list N := [255; 2; 0; 0; 0; 0; 0; 0; 0; 0; 0; 0; 0; 0; 0; 1].

(** The pseudo-header of the ICMPv6 checksum. *)
Definition pseudo_header (source : N) (icmp : list N) : list (list N) :=
  [octets 16 source; all_nodes; be32 (N.of_nat (length icmp)); [0; 0; 0; 58]].

Definition mld_query (source : N) : list N :=
  let icmp := [130; 0; 0; 0; 39; 16; 0; 0] ++ replicate 16 0 in
  patch16 2 (checksum (pseudo_header source icmp ++ [icmp])) icmp.

Definition ipv6_header (source : N) (payload : list N) : list N :=
  [96; 0; 0; 0] ++ be16 (N.of_nat (length payload)) ++ [58] ++ [1] ++ octets 16 source ++ all_nodes.

Definition encode_general_query (family : Family) (src_mac : list N) (source : IpAddr) : list N :=
  match family, source with
  | Igmp, V4 source =>
      [1; 0; 94; 0; 0; 1] ++ src_mac ++ [8; 0] ++ ipv4_header source igmp_query ++ igmp_query
  | Mld, V6 source =>
      [51; 51; 0; 0; 0; 1] ++ src_mac ++ [134; 221]
      ++ ipv6_header source (mld_query source) ++ mld_query source
  | _, _ => []
  end.

(** ** No frame makes the parsers index out of range *)

Lemma group_at4_ok l at_ : (at_ + 4 ≤ length l)%nat → ∃ g, group_at4 l at_ = Ok g.
Proof. intros H. unfold group_at4. in_bounds. eauto. Qed.

Lemma index16_ok l at_ : (at_ + 2 ≤ length l)%nat → ∃ n, index16 l at_ = Ok n.
Proof. intros H. unfold index16. in_bounds. eauto. Qed.

Lemma group_at16_ok l at_ : (at_ + 16 ≤ length l)%nat → ∃ g, group_at16 l at_ = Ok g.
Proof. intros H. unfold group_at16. in_bounds. eauto. Qed.

Lemma igmp_records_ok count igmp at_ : ∃ ms, igmp_records count igmp at_ = Ok ms.
Proof.
  revert at_. induction count as [|count IH]; intros at_; cbn [igmp_records]; [eauto|].
  destruct (Nat.ltb_spec (length igmp) (at_ + 8)); [eauto|].
  destruct (index16_ok igmp (at_ + 2)) as [n Hn]; [lia|].
  destruct (group_at4_ok igmp (at_ + 4)) as [g Hg]; [lia|].
  in_bounds. rewrite Hn. simpl. rewrite Hg. simpl.
  match goal with |- context [igmp_records count igmp ?a] => destruct (IH a) as [ms ->] end.
  simpl. eauto.
Qed.

Lemma mld_records_ok count icmp at_ : ∃ ms, mld_records count icmp at_ = Ok ms.
Proof.
  revert at_. induction count as [|count IH]; intros at_; cbn [mld_records]; [eauto|].
  destruct (Nat.ltb_spec (length icmp) (at_ + 20)); [eauto|].
  destruct (index16_ok icmp (at_ + 2)) as [n Hn]; [lia|].
  destruct (group_at16_ok icmp (at_ + 4)) as [g Hg]; [lia|].
  in_bounds. rewrite Hn. simpl. rewrite Hg. simpl.
  match goal with |- context [mld_records count icmp ?a] => destruct (IH a) as [ms ->] end.
  simpl. eauto.
Qed.

(** Resolve the next step of a parser: an access, a branch, a sub-parser. *)
Ltac resolve lem :=
  let x := fresh "x" in let E := fresh "E" in
  destruct lem as (x & E); [lia|rewrite E; cbn [mbind result_bind]; clear E].

Ltac parse_step :=
  match goal with
  | |- no_panic (Ok _) => by eexists
  | |- no_panic (mbind _ (index ?l ?i)) =>
      let x := fresh "x" in let E := fresh "E" in
      destruct (index_ok l i) as (x & E & _); [lia|rewrite E; cbn [mbind result_bind]; clear E]
  | |- no_panic (mbind _ (range ?a ?b ?l)) =>
      let E := fresh "E" in let L := fresh "L" in
      destruct (range_ok l a b) as [E L]; [lia..|rewrite E; cbn [mbind result_bind]; clear E];
      revert L; generalize (slice a b l); intros ? L
  | |- no_panic (mbind _ (group_at4 ?l ?a)) => resolve (group_at4_ok l a)
  | |- no_panic (mbind _ (group_at16 ?l ?a)) => resolve (group_at16_ok l a)
  | |- no_panic (mbind _ (index16 ?l ?a)) => resolve (index16_ok l a)
  | |- no_panic (igmp_records _ _ _) => apply igmp_records_ok
  | |- no_panic (mld_records _ _ _) => apply mld_records_ok
  | |- no_panic (if (?a <? ?b)%nat then _ else _) => destruct (Nat.ltb_spec a b)
  | |- no_panic (if _ && (?a <=? ?b)%nat then _ else _) =>
      destruct (Nat.leb_spec a b); rewrite ?andb_true_r, ?andb_false_r
  | |- no_panic (if _ || (?a <? ?b)%nat then _ else _) =>
      destruct (Nat.ltb_spec a b); rewrite ?orb_true_r, ?orb_false_r
  | |- no_panic (if ?b then _ else _) => destruct b
  end.

Lemma parse_igmp_total frame : no_panic (parse_igmp frame).
Proof. unfold parse_igmp. cbv zeta. repeat parse_step. Qed.

Lemma parse_mld_total frame : no_panic (parse_mld frame).
Proof. unfold parse_mld. cbv zeta. repeat parse_step. Qed.

(** ** The checksum verifies *)

(** One pass of the fold keeps the ones' complement value. *)
Lemma fold_pass s :
  N.land s 65535 + N.shiftr s 16 = s mod 65536 + s / 65536
  ∧ (s mod 65536 + s / 65536) mod 65535 = s mod 65535
  ∧ (s ≠ 0 → s mod 65536 + s / 65536 ≠ 0).
Proof.
  split; [change 65535 with (N.ones 16); by rewrite N.land_ones, N.shiftr_div_pow2|].
  pose proof (N.Div0.div_mod s 65536) as Hs. revert Hs.
  generalize (s mod 65536) (s / 65536). intros r q Hs. split.
  - rewrite Hs. replace (65536 * q + r) with (r + q + q * 65535) by lia.
    by rewrite N.Div0.mod_add.
  - lia.
Qed.

(** Three passes fold a [u32], and the fold is its value modulo 65535. *)
Lemma fold_carries_small s :
  fits 32 s →
  let x := fold_carries 3 s in x ≤ 65535 ∧ x mod 65535 = s mod 65535 ∧ (s ≠ 0 → x ≠ 0).
Proof.
  unfold fits. intros Hs. cbn [fold_carries].
  destruct (N.ltb_spec 65535 s) as [H1|H1]; [|split; [lia|done]].
  destruct (fold_pass s) as (E1 & M1 & Z1). rewrite E1.
  set (s1 := s mod 65536 + s / 65536) in *.
  assert (s1 ≤ 131070).
  { assert (s mod 65536 < 65536) by (by apply N.mod_lt).
    assert (s / 65536 < 65536) by (apply N.Div0.div_lt_upper_bound; lia). lia. }
  destruct (N.ltb_spec 65535 s1) as [H2|H2]; [|split; [lia|auto]].
  destruct (fold_pass s1) as (E2 & M2 & Z2). rewrite E2.
  set (s2 := s1 mod 65536 + s1 / 65536) in *.
  assert (s2 ≤ 65535).
  { subst s2. assert (s1 / 65536 < 2) by (apply N.Div0.div_lt_upper_bound; lia).
    assert (s1 mod 65536 < 65536) by (by apply N.mod_lt).
    pose proof (N.Div0.div_mod s1 65536). lia. }
  destruct (N.ltb_spec 65535 s2) as [H3|H3]; [lia|]. split; [lia|].
  split; [congruence|auto].
Qed.

(** The sum of the big-endian words of an even run of bytes. *)
Fixpoint words (l : list N) : N :=
  match l with
  | a :: b :: l => of_be16 a b + words l
  | _ => 0
  end.

Lemma words_app n a b : length a = (2 * n)%nat → words (a ++ b) = words a + words b.
Proof.
  revert a. induction n as [|n IH]; intros a Ha.
  - by destruct a.
  - destruct a as [|x [|y a]]; simpl in Ha; [lia..|]. cbn [words app]. rewrite IH by lia. lia.
Qed.

Lemma words_bound n l :
  length l = (2 * n)%nat → Forall is_byte l → words l ≤ 65535 * N.of_nat n.
Proof.
  revert l. induction n as [|n IH]; intros l Hl Hb.
  - by destruct l.
  - destruct l as [|x [|y l]]; simpl in Hl; [lia..|]. cbn [words].
    inversion_clear Hb as [|? ? Hx Hb']. inversion_clear Hb' as [|? ? Hy Hb].
    specialize (IH l ltac:(lia) Hb). unfold is_byte, fits in Hx, Hy.
    change (2 ^ 8) with 256 in *. unfold of_be16. lia.
Qed.

Lemma checksum_bytes n l s :
  length l = (2 * n)%nat → fits 32 (s + words l) →
  foldl checksum_byte (s, None) l = (s + words l, None).
Proof.
  revert l s. induction n as [|n IH]; intros l s Hl Hf.
  - destruct l; [|done]. simpl. by rewrite N.add_0_r.
  - destruct l as [|x [|y l]]; simpl in Hl; [lia..|]. cbn [words foldl checksum_byte] in *.
    rewrite wrap_id by (unfold fits in *; lia). rewrite IH.
    + f_equal. lia.
    + lia.
    + by rewrite <-N.add_assoc.
Qed.

Lemma checksum_concat chunks : checksum chunks = checksum [mjoin chunks].
Proof.
  unfold checksum. assert (∀ st, foldl (foldl checksum_byte) st chunks
    = foldl checksum_byte st (mjoin chunks)) as H.
  { induction chunks as [|c cs IH]; intros st; simpl; [done|]. by rewrite IH, foldl_app. }
  simpl. by rewrite H.
Qed.

Lemma checksum_words n l :
  length l = (2 * n)%nat → fits 32 (words l) →
  checksum [l] = 65535 - fold_carries 3 (words l).
Proof.
  intros Hl Hf. unfold checksum. simpl foldl. by rewrite (checksum_bytes n).
Qed.

(** Bytes whose count is even, few enough not to overflow the sum. *)
Definition summable (l : list N) : Prop :=
  ∃ n, length l = (2 * n)%nat ∧ N.of_nat n ≤ 32768 ∧ Forall is_byte l.

Lemma summable_words l : summable l → fits 32 (words l).
Proof.
  intros (n & Hl & Hn & Hb). pose proof (words_bound n l Hl Hb).
  unfold fits. change (2 ^ 32) with 4294967296. lia.
Qed.

Lemma checksum_le l : summable l → checksum [l] ≤ 65535.
Proof. intros _. unfold checksum. repeat case_match; lia. Qed.

(** A packet whose checksum field was computed over zeros checks to zero. *)
Lemma checksum_verifies i a b :
  length a = (2 * i)%nat → summable (a ++ [0; 0] ++ b) →
  checksum [a ++ be16 (checksum [a ++ [0; 0] ++ b]) ++ b] = 0.
Proof.
  intros Ha Hs. pose proof (checksum_le _ Hs) as Hc. pose proof (summable_words _ Hs) as Hw.
  destruct Hs as (n & Hl & Hn & Hb).
  set (c := checksum [a ++ [0; 0] ++ b]) in *.
  assert (c = 65535 - fold_carries 3 (words (a ++ [0; 0] ++ b))) as Hcw by by apply (checksum_words n).
  rewrite !Forall_app in Hb. destruct Hb as (Hba & _ & Hbb).
  assert (words (a ++ be16 c ++ b) = words (a ++ [0; 0] ++ b) + c) as Hadd.
  { rewrite !(words_app i a) by done. cbn [words app be16]. rewrite of_be16_be16.
    unfold of_be16. lia. }
  assert (summable (a ++ be16 c ++ b)) as Hs'.
  { exists n. split; [|split; [done|]].
    - rewrite !length_app in *. simpl in *. lia.
    - rewrite !Forall_app. split_and!; [done| |done]. apply is_byte_be16. unfold fits.
      change (2 ^ 16) with 65536. lia. }
  pose proof (summable_words _ Hs') as Hw'. destruct Hs' as (n' & Hl' & _ & _).
  rewrite (checksum_words n') by done. rewrite Hadd in *.
  destruct (fold_carries_small _ Hw) as (L1 & M1 & _).
  destruct (fold_carries_small _ Hw') as (L2 & M2 & Z2).
  set (S0 := words (a ++ [0; 0] ++ b)) in *. cbv zeta in L1, M1, L2, M2, Z2.
  set (x := fold_carries 3 S0) in *. set (y := fold_carries 3 (S0 + c)) in *.
  assert ((S0 + c) mod 65535 = 0) as HM.
  { rewrite <-N.Div0.add_mod_idemp_l, <-M1, N.Div0.add_mod_idemp_l, Hcw.
    replace (x + (65535 - x)) with 65535 by lia. done. }
  assert (S0 + c ≠ 0) as HZ.
  { intros Hz. assert (S0 = 0) as HS0 by lia. subst x. rewrite HS0 in Hcw.
    assert (c = 0) as Hc0 by lia. rewrite Hc0 in Hcw. discriminate Hcw. }
  specialize (Z2 HZ). rewrite HM in M2.
  destruct (N.eq_dec y 65535) as [->|Hy]; [done|].
  rewrite N.mod_small in M2 by lia. lia.
Qed.

(** ** Addresses survive their octets *)

Lemma length_octets k n : length (octets k n) = k.
Proof.
  revert n. induction k as [|k IH]; intros n; simpl; [done|].
  rewrite length_app, IH. simpl. lia.
Qed.

Lemma octets_bytes k n : Forall is_byte (octets k n).
Proof.
  revert n. induction k as [|k IH]; intros n; simpl; [done|].
  apply Forall_app. split; [done|]. repeat constructor. apply is_byte_mod.
Qed.

Lemma of_octets_octets k n : fits (8 * N.of_nat k) n → of_octets (octets k n) = n.
Proof.
  unfold fits, of_octets. revert n. induction k as [|k IH]; intros n Hn; simpl octets.
  - simpl in *. lia.
  - rewrite foldl_app. simpl. rewrite IH.
    + pose proof (N.Div0.div_mod n 256). lia.
    + apply N.Div0.div_lt_upper_bound. change 256 with (2 ^ 8). rewrite <-N.pow_add_r.
      eapply N.lt_le_trans; [done|]. apply N.pow_le_mono_r; lia.
Qed.

(** The four octets of an IPv4 address are those of a big-endian [u32]. *)
Lemma octets4 n : octets 4 n = [n / 256 / 256 / 256 mod 256; n / 256 / 256 mod 256; n / 256 mod 256; n mod 256].
Proof. done. Qed.

Lemma of_be32_octets4 n :
  fits 32 n →
  of_be32 (n / 256 / 256 / 256 mod 256) (n / 256 / 256 mod 256) (n / 256 mod 256) (n mod 256) = n.
Proof.
  intros Hn. rewrite <-(of_octets_octets 4 n) at 5 by done. rewrite octets4.
  unfold of_octets, of_be32. simpl foldl. lia.
Qed.

(** ** The headers of a query *)

Lemma igmp_query_bytes : Forall is_byte igmp_query ∧ length igmp_query = 8%nat ∧ checksum [igmp_query] = 0.
Proof. split; [|by vm_compute]. repeat constructor. Qed.

Lemma ipv4_header_shape source :
  ∃ c, c ≤ 65535
    ∧ ipv4_header source igmp_query
      = [69; 192; 0; 28; 0; 0; 0; 0; 1; 2] ++ be16 c ++ octets 4 source ++ [224; 0; 0; 1]
    ∧ checksum [ipv4_header source igmp_query] = 0.
Proof.
  set (a := [69; 192; 0; 28; 0; 0; 0; 0; 1; 2]). set (b := octets 4 source ++ [224; 0; 0; 1]).
  assert (ipv4_header source igmp_query = a ++ be16 (checksum [a ++ [0; 0] ++ b]) ++ b) as E by done.
  assert (summable (a ++ [0; 0] ++ b)) as Hs.
  { exists 10%nat. split; [done|]. split; [done|]. subst a b. rewrite !Forall_app.
    split_and!; try (by repeat constructor). apply octets_bytes. }
  exists (checksum [a ++ [0; 0] ++ b]). split; [by apply checksum_le|]. split; [done|].
  rewrite E. by apply (checksum_verifies 5).
Qed.

Lemma mld_query_shape source :
  ∃ c, c ≤ 65535
    ∧ mld_query source = [130; 0] ++ be16 c ++ [39; 16; 0; 0] ++ replicate 16 0
    ∧ checksum (pseudo_header source (mld_query source) ++ [mld_query source]) = 0.
Proof.
  set (b := [39; 16; 0; 0] ++ replicate 16 0).
  set (a := octets 16 source ++ all_nodes ++ [0; 0; 0; 24] ++ [0; 0; 0; 58] ++ [130; 0]).
  set (c := checksum [a ++ [0; 0] ++ b]).
  assert (mld_query source = [130; 0] ++ be16 c ++ b) as E.
  { unfold mld_query. rewrite checksum_concat. done. }
  assert (summable (a ++ [0; 0] ++ b)) as Hs.
  { exists 32%nat. split; [done|]. split; [done|].
    subst a b. rewrite !Forall_app. split_and!; try (by repeat constructor). apply octets_bytes. }
  assert (checksum [a ++ be16 c ++ b] = 0) as Hv by by apply (checksum_verifies 21).
  exists c. split; [by apply checksum_le|]. split; [done|]. clearbody c.
  rewrite E, checksum_concat.
  assert (mjoin (pseudo_header source ([130; 0] ++ be16 c ++ b) ++ [[130; 0] ++ be16 c ++ b])
    = a ++ be16 c ++ b) as ->; [|exact Hv].
  unfold pseudo_header. change (length ([130; 0] ++ be16 c ++ b)) with 24%nat.
  change (be32 (N.of_nat 24)) with [0; 0; 0; 24].
  subst a. cbn [mjoin list_join app]. by rewrite app_nil_r, <-!(assoc_L (++)).
Qed.

(** A six-byte address, byte by byte. *)
Lemma six_bytes (m : list N) : length m = 6%nat → ∃ a b c d e f, m = [a; b; c; d; e; f].
Proof. intros H. do 6 (destruct m as [|? m]; [discriminate H|]). destruct m; [|discriminate H]. eauto 10. Qed.

(** The parser of IGMP on a frame of the querier's shape. *)
Lemma parse_igmp_query a b c d e f x y o0 o1 o2 o3 :
  parse_igmp ([1; 0; 94; 0; 0; 1] ++ [a; b; c; d; e; f] ++ [8; 0]
    ++ ([69; 192; 0; 28; 0; 0; 0; 0; 1; 2] ++ [x; y] ++ [o0; o1; o2; o3] ++ [224; 0; 0; 1])
    ++ igmp_query) = Ok [Query (V4 (of_be32 o0 o1 o2 o3))].
Proof. reflexivity. Qed.

Lemma parse_mld_query a b c d e f x y o rest :
  length o = 16%nat → length rest = 16%nat →
  parse_mld ([51; 51; 0; 0; 0; 1] ++ [a; b; c; d; e; f] ++ [134; 221]
    ++ ([96; 0; 0; 0] ++ [0; 24] ++ [58] ++ [1] ++ o ++ all_nodes)
    ++ [130; 0] ++ [x; y] ++ [39; 16; 0; 0] ++ rest) = Ok [Query (V6 (of_octets o))].
Proof.
  intros Ho Hr.
  do 16 (destruct o as [|? o]; [discriminate Ho|]). destruct o; [|discriminate Ho].
  do 16 (destruct rest as [|? rest]; [discriminate Hr|]). destruct rest; [|discriminate Hr].
  reflexivity.
Qed.

Lemma igmp_query_codec mac n :
  length mac = 6%nat → fits 32 n →
  let f := encode_general_query Igmp mac (V4 n) in
  parse Igmp f = Ok [Query (V4 n)]
  ∧ checksum [slice 14 34 f] = 0 ∧ checksum [slice 34 42 f] = 0 ∧ length f = 42%nat.
Proof.
  intros (a & b & c & d & e & g & ->)%six_bytes Hn. cbv zeta.
  destruct (ipv4_header_shape n) as (k & Hk & E & Hsum).
  destruct igmp_query_bytes as (_ & _ & Hq).
  cbn [encode_general_query parse]. revert Hsum. rewrite E. intros Hsum.
  split; [|split; [exact Hsum|split; [exact Hq|reflexivity]]].
  rewrite octets4. unfold be16. rewrite parse_igmp_query. by rewrite of_be32_octets4.
Qed.

Lemma mld_query_codec mac n :
  length mac = 6%nat → fits 128 n →
  let f := encode_general_query Mld mac (V6 n) in
  parse Mld f = Ok [Query (V6 n)]
  ∧ checksum [slice 22 38 f; slice 38 54 f; be32 24; [0; 0; 0; 58]; slice 54 78 f] = 0
  ∧ length f = 78%nat.
Proof.
  intros (a & b & c & d & e & g & ->)%six_bytes Hn. cbv zeta.
  destruct (mld_query_shape n) as (k & Hk & E & Hsum).
  pose proof (length_octets 16 n) as Ho. pose proof (of_octets_octets 16 n Hn) as Ho'.
  cbn [encode_general_query parse]. unfold pseudo_header, ipv6_header in *. rewrite E in *.
  split.
  - change (be16 (N.of_nat (length _))) with [0; 24].
    unfold be16. rewrite parse_mld_query by done. by rewrite Ho'.
  - revert Hsum Ho. generalize (octets 16 n). intros o Hsum Ho.
    do 16 (destruct o as [|? o]; [discriminate Ho|]). destruct o; [|discriminate Ho].
    split; [exact Hsum|reflexivity].
Qed.

(** An address of the family. *)
Definition addr_ok (f : Family) (a : IpAddr) : Prop :=
  match f, a with Igmp, V4 n => fits 32 n | Mld, V6 n => fits 128 n | _, _ => False end.

Lemma parse_general_query f mac a :
  length mac = 6%nat → addr_ok f a → parse f (encode_general_query f mac a) = Ok [Query a].
Proof.
  intros Hm Ha. destruct f, a as [n|n]; try done; [by apply igmp_query_codec|by apply mld_query_codec].
Qed.

(** C24: the IGMP and MLD parsers return on every frame without an access out
    of range; a general query the switch sends parses back to a query from
    its source address, and the checksums it carries (IPv4 header, IGMP, and
    ICMPv6 over the pseudo-header) verify. *)
Theorem snoop_codec (mac : list N) :
  (∀ family frame, no_panic (parse family frame)) ∧
  (length mac = 6%nat →
   (∀ n, fits 32 n →
      let f := encode_general_query Igmp mac (V4 n) in
      parse Igmp f = Ok [Query (V4 n)]
      ∧ checksum [slice 14 34 f] = 0 ∧ checksum [slice 34 42 f] = 0 ∧ length f = 42%nat) ∧
   (∀ n, fits 128 n →
      let f := encode_general_query Mld mac (V6 n) in
      parse Mld f = Ok [Query (V6 n)]
      ∧ checksum [slice 22 38 f; slice 38 54 f; be32 24; [0; 0; 0; 58]; slice 54 78 f] = 0
      ∧ length f = 78%nat)).
Proof.
  split; [intros []; [apply parse_igmp_total|apply parse_mld_total]|].
  intros Hm. split; intros n Hn; [by apply igmp_query_codec|by apply mld_query_codec].
Qed.

Lemma snoop_codec_witness :
  length [2; 0; 0; 0; 0; 1] = 6%nat ∧ fits 32 167772161
  ∧ parse Igmp (encode_general_query Igmp [2; 0; 0; 0; 0; 1] (V4 167772161)) = Ok [Query (V4 167772161)].
Proof.
  split; [done|]. split; [done|].
  destruct (snoop_codec [2; 0; 0; 0; 0; 1]) as [_ H].
  destruct (H eq_refl) as [H4 _]. by destruct (H4 167772161 eq_refl) as [? _].
Defined.

(** ** Version-3 reports, against a reference encoding *)

Record group_record := mkRecord {
  g_type : N;
  g_group : N;
  g_sources : list N;
  g_aux : list N;
}.

(** The layout of RFC 3376 (k = 4) and RFC 3810 (k = 16). *)
Definition wire_record (k : nat) (r : group_record) : list N :=
  [g_type r; N.of_nat (length (g_aux r) / 4)] ++ be16 (N.of_nat (length (g_sources r)))
  ++ octets k (g_group r) ++ mjoin (octets k <$> g_sources r) ++ g_aux r.

(** The counts fit their fields and auxiliary data comes in words. *)
Record record_ok (k : nat) (r : group_record) : Prop := {
  ok_group : fits (8 * N.of_nat k) (g_group r);
  ok_sources : N.of_nat (length (g_sources r)) < 65536;
  ok_aux : length (g_aux r) = (length (g_aux r) / 4 * 4)%nat;
}.

Lemma index_shift (pre l : list N) a : index (pre ++ l) (length pre + a) = index l a.
Proof.
  unfold index. rewrite lookup_app_r by lia.
  by replace (length pre + a - length pre)%nat with a by lia.
Qed.

Lemma range_shift (pre l : list N) a b :
  range (length pre + a) (length pre + a + b) (pre ++ l) = range a (a + b) l.
Proof.
  unfold range, slice. rewrite length_app.
  rewrite (decide_ext (length pre + a ≤ length pre + a + b ∧ length pre + a + b ≤ length pre + length l)%nat
             (a ≤ a + b ∧ a + b ≤ length l)%nat) by lia.
  case_decide; [|done]. f_equal.
  rewrite drop_app_ge by lia.
  replace (length pre + a - length pre)%nat with a by lia.
  by replace (length pre + a + b - (length pre + a))%nat with (a + b - a)%nat by lia.
Qed.

Lemma ltb_shift p l a : ((p + l) <? (p + a))%nat = (l <? a)%nat.
Proof. destruct (Nat.ltb_spec (p + l) (p + a)), (Nat.ltb_spec l a); lia. Qed.

(** Record loops read relative to where they stand. *)
Lemma igmp_records_shift n pre l a :
  igmp_records n (pre ++ l) (length pre + a) = igmp_records n l a.
Proof.
  revert a. induction n as [|n IH]; intros a; [done|]. cbn [igmp_records].
  unfold index16, group_at4.
  rewrite length_app, <-!Nat.add_assoc, ltb_shift, !index_shift.
  case_match; [done|].
  repeat (match goal with |- context [index l ?i] => destruct (index l i); cbn [mbind result_bind]; [|done] end).
  by rewrite <-!Nat.add_assoc, IH.
Qed.

Lemma mld_records_shift n pre l a :
  mld_records n (pre ++ l) (length pre + a) = mld_records n l a.
Proof.
  revert a. induction n as [|n IH]; intros a; [done|]. cbn [mld_records].
  unfold index16, group_at16.
  rewrite <-(range_shift pre l (a + 4) 16), !length_app, <-!Nat.add_assoc, ltb_shift, !index_shift.
  case_match; [done|].
  repeat (match goal with |- context [index l ?i] => destruct (index l i); cbn [mbind result_bind]; [|done] end).
  destruct (range _ _ _); cbn [mbind result_bind]; [|done]. by rewrite <-!Nat.add_assoc, IH.
Qed.

Lemma mjoin_cons {A} (x : list A) (l : list (list A)) : mjoin (x :: l) = x ++ mjoin l.
Proof. done. Qed.

Lemma length_sources k l : length (mjoin (octets k <$> l)) = (length l * k)%nat.
Proof.
  induction l as [|x l IH]; [done|].
  by rewrite fmap_cons, mjoin_cons, length_app, length_octets, IH.
Qed.

Lemma length_wire_record k r :
  record_ok k r →
  length (wire_record k r) = (4 + k + length (g_sources r) * k + length (g_aux r) / 4 * 4)%nat.
Proof.
  intros [_ _ Ha]. unfold wire_record. rewrite !length_app, length_octets, length_sources, <-Ha.
  simpl. lia.
Qed.

Definition meaning (k : nat) (version : N) (r : group_record) : list Message :=
  record_message (g_type r) (length (g_sources r))
    (if (k =? 4)%nat then V4 (g_group r) else V6 (g_group r)) version.

Lemma index16_sources (a b : N) n rest :
  index16 (a :: b :: be16 n ++ rest) 2 = Ok (N.to_nat n).
Proof. unfold index16. simpl. by rewrite of_be16_be16. Qed.

Lemma igmp_records_wire rs rest :
  Forall (record_ok 4) rs →
  igmp_records (length rs) (mjoin (wire_record 4 <$> rs) ++ rest) 0
  = Ok (mjoin (meaning 4 3 <$> rs)).
Proof.
  induction 1 as [|r rs Hr Hrs IH]; [done|].
  pose proof (length_wire_record 4 r Hr) as Hl. destruct Hr as [Hg Hs Ha].
  rewrite !fmap_cons, !mjoin_cons, <-(assoc_L (++)). cbn [length].
  set (tail := mjoin (wire_record 4 <$> rs) ++ rest) in *.
  cbn [igmp_records]. rewrite length_app, (proj2 (Nat.ltb_ge _ _)) by lia.
  assert (index16 (wire_record 4 r ++ tail) (0 + 2) = Ok (length (g_sources r))) as E1.
  { change (0 + 2)%nat with 2%nat. unfold wire_record. rewrite <-!(assoc_L (++)). cbn [app].
    by rewrite index16_sources, Nat2N.id. }
  assert (group_at4 (wire_record 4 r ++ tail) (0 + 4) = Ok (V4 (g_group r))) as E2.
  { unfold wire_record. rewrite octets4, <-!(assoc_L (++)). unfold group_at4, be16. cbn.
    by rewrite of_be32_octets4. }
  change (index (wire_record 4 r ++ tail) 0) with (@Ok panic N (g_type r)).
  change (index (wire_record 4 r ++ tail) (0 + 1)) with (@Ok panic N (N.of_nat (length (g_aux r) / 4))).
  rewrite E1, E2. cbn [mbind result_bind]. rewrite Nat2N.id.
  match goal with |- context [igmp_records _ _ ?a] =>
    replace a with (length (wire_record 4 r) + 0)%nat by lia end.
  by rewrite igmp_records_shift, IH.
Qed.

Lemma mld_records_wire rs rest :
  Forall (record_ok 16) rs →
  mld_records (length rs) (mjoin (wire_record 16 <$> rs) ++ rest) 0
  = Ok (mjoin (meaning 16 2 <$> rs)).
Proof.
  induction 1 as [|r rs Hr Hrs IH]; [done|].
  pose proof (length_wire_record 16 r Hr) as Hl. destruct Hr as [Hg Hs Ha].
  rewrite !fmap_cons, !mjoin_cons, <-(assoc_L (++)). cbn [length].
  set (tail := mjoin (wire_record 16 <$> rs) ++ rest) in *.
  cbn [mld_records]. rewrite length_app, (proj2 (Nat.ltb_ge _ _)) by lia.
  assert (index16 (wire_record 16 r ++ tail) (0 + 2) = Ok (length (g_sources r))) as E1.
  { change (0 + 2)%nat with 2%nat. unfold wire_record. rewrite <-!(assoc_L (++)). cbn [app].
    by rewrite index16_sources, Nat2N.id. }
  assert (group_at16 (wire_record 16 r ++ tail) (0 + 4) = Ok (V6 (g_group r))) as E2.
  { unfold group_at16. destruct (range_ok (wire_record 16 r ++ tail) (0 + 4) (0 + 4 + 16)) as [-> _];
      [lia|rewrite length_app; lia|]. cbn [mbind result_bind]. do 2 f_equal.
    unfold wire_record, slice. rewrite <-!(assoc_L (++)).
    match goal with |- of_octets (take _ (drop _ (_ ++ _ ++ ?x))) = _ =>
      change (of_octets (take 16 x) = g_group r) end.
    rewrite take_app_length' by (by rewrite length_octets). by apply of_octets_octets. }
  change (index (wire_record 16 r ++ tail) 0) with (@Ok panic N (g_type r)).
  change (index (wire_record 16 r ++ tail) (0 + 1)) with (@Ok panic N (N.of_nat (length (g_aux r) / 4))).
  rewrite E1, E2. cbn [mbind result_bind]. rewrite Nat2N.id.
  match goal with |- context [mld_records _ _ ?a] =>
    replace a with (length (wire_record 16 r) + 0)%nat by lia end.
  by rewrite mld_records_shift, IH.
Qed.

(** A slice to the end is a suffix. *)
Lemma range_tail (pre l : list N) : range (length pre) (length (pre ++ l)) (pre ++ l) = Ok l.
Proof.
  unfold range, slice. rewrite decide_True by (rewrite length_app; lia).
  rewrite drop_app_length, take_ge; [done|]. rewrite length_app. lia.
Qed.

(** The first octet of an IPv4 header, its version and header length. *)
Lemma version_ihl ihl : 5 ≤ ihl ≤ 15 → N.land (64 + ihl) 15 = ihl ∧ N.shiftr (64 + ihl) 4 = 4.
Proof.
  intros H. assert (∃ k, ihl = N.of_nat k ∧ (k ≤ 15)%nat) as (k & -> & Hk).
  { exists (N.to_nat ihl). lia. }
  do 16 (destruct k as [|k]; [done|]). lia.
Qed.

Lemma igmp_report_body rs rest b1 b2 b3 b4 b5 :
  Forall (record_ok 4) rs → (N.of_nat (length rs) < 65536) →
  let igmp := [34; b1; b2; b3; b4; b5] ++ be16 (N.of_nat (length rs))
              ++ mjoin (wire_record 4 <$> rs) ++ rest in
  (count ← index16 igmp 6; igmp_records count igmp 8) = Ok (mjoin (meaning 4 3 <$> rs)).
Proof.
  intros Hrs Hn igmp. subst igmp. unfold be16.
  assert (index16 ([34; b1; b2; b3; b4; b5] ++ [N.of_nat (length rs) / 256; N.of_nat (length rs) mod 256]
    ++ mjoin (wire_record 4 <$> rs) ++ rest) 6 = Ok (length rs)) as ->.
  { unfold index16. simpl. by rewrite of_be16_be16, Nat2N.id. }
  cbn [mbind result_bind]. rewrite (assoc_L (++) [34; b1; b2; b3; b4; b5]).
  rewrite <-(igmp_records_wire rs rest Hrs).
  apply (igmp_records_shift (length rs) [34; b1; b2; b3; b4; b5; _; _] _ 0).
Qed.

Lemma mld_report_body rs rest b1 b2 b3 b4 b5 :
  Forall (record_ok 16) rs → (N.of_nat (length rs) < 65536) →
  let icmp := [143; b1; b2; b3; b4; b5] ++ be16 (N.of_nat (length rs))
              ++ mjoin (wire_record 16 <$> rs) ++ rest in
  (count ← index16 icmp 6; mld_records count icmp 8) = Ok (mjoin (meaning 16 2 <$> rs)).
Proof.
  intros Hrs Hn icmp. subst icmp. unfold be16.
  assert (index16 ([143; b1; b2; b3; b4; b5] ++ [N.of_nat (length rs) / 256; N.of_nat (length rs) mod 256]
    ++ mjoin (wire_record 16 <$> rs) ++ rest) 6 = Ok (length rs)) as ->.
  { unfold index16. simpl. by rewrite of_be16_be16, Nat2N.id. }
  cbn [mbind result_bind]. rewrite (assoc_L (++) [143; b1; b2; b3; b4; b5]).
  rewrite <-(mld_records_wire rs rest Hrs).
  apply (mld_records_shift (length rs) [143; b1; b2; b3; b4; b5; _; _] _ 0).
Qed.

Lemma range_middle (pre mid l : list N) a b :
  a = length pre → b = (length pre + length mid)%nat → range a b (pre ++ mid ++ l) = Ok mid.
Proof.
  intros -> ->. unfold range, slice. rewrite decide_True by (rewrite !length_app; lia).
  rewrite drop_app_length.
  by rewrite take_app_length' by lia.
Qed.

(** The Ethernet header comes off. *)
Lemma ethernet_frame (eth ty ip : list N) :
  length eth = 12%nat → length ty = 2%nat →
  let frame := eth ++ ty ++ ip in
  length frame = (14 + length ip)%nat ∧ range 12 14 frame = Ok ty
  ∧ range 14 (length frame) frame = Ok ip.
Proof.
  intros He Ht. cbv zeta. split; [rewrite !length_app; lia|]. split.
  - apply range_middle; lia.
  - rewrite (assoc_L (++) eth). replace 14%nat with (length (eth ++ ty)).
    + apply range_tail.
    + rewrite length_app. lia.
Qed.

(** An IGMP packet behind an Ethernet and an IPv4 header, options included,
    reaches the match on its type. *)
Lemma parse_igmp_v3 eth ihl body igmp rest :
  length eth = 12%nat → 5 ≤ ihl ≤ 15 → S (length body) = (4 * N.to_nat ihl)%nat →
  body !! 8%nat = Some 2 → igmp = 34 :: rest → (8 ≤ length igmp)%nat →
  parse_igmp (eth ++ [8; 0] ++ (64 + ihl :: body) ++ igmp)
  = (count ← index16 igmp 6; igmp_records count igmp 8).
Proof.
  intros He Hi Hb H9 Hig Hlen. destruct (version_ihl ihl Hi) as [E1 E2].
  unfold parse_igmp. set (frame := eth ++ [8; 0] ++ (64 + ihl :: body) ++ igmp).
  set (ip := (64 + ihl :: body) ++ igmp).
  assert (length ip = (4 * N.to_nat ihl + length igmp)%nat) as Hip
    by (subst ip; rewrite length_app; cbn [length]; lia).
  destruct (ethernet_frame eth [8; 0] ip He eq_refl) as (Hf & R1 & R2).
  change (eth ++ [8; 0] ++ ip) with frame in Hf, R1, R2.
  rewrite (proj2 (Nat.ltb_ge _ _)) by lia. rewrite R1, R2.
  cbn [mbind result_bind]. rewrite bool_decide_false by naive_solver.
  change (index ip 0) with (@Ok panic N (64 + ihl)). cbn [mbind result_bind].
  rewrite E1, E2. cbn [N.eqb Pos.eqb negb].
  rewrite (proj2 (Nat.ltb_ge _ _)) by lia.
  assert (index ip 9 = Ok 2) as ->.
  { change (index ip 9) with (index (body ++ igmp) 8). unfold index.
    rewrite lookup_app_l by (eapply lookup_lt_Some; exact H9). by rewrite H9. }
  cbn [mbind result_bind N.eqb Pos.eqb negb].
  destruct (group_at4_ok ip 12) as [g ->]; [lia|]. cbn [mbind result_bind].
  assert (range (N.to_nat ihl * 4) (length ip) ip = Ok igmp) as ->.
  { subst ip. rewrite <-(range_tail (64 + ihl :: body) igmp). f_equal. cbn [length]. lia. }
  cbn [mbind result_bind]. rewrite (proj2 (Nat.ltb_ge _ _)) by lia.
  assert (index igmp 0 = Ok 34) as -> by by rewrite Hig. done.
Qed.

(** The same for MLD behind an IPv6 header and a hop-by-hop option. *)
Lemma parse_mld_v2 eth v0 v1 v2 l0 l1 hops src dst ext opts icmp rest :
  length eth = 12%nat → N.shiftr v0 4 = 6 → length src = 16%nat → length dst = 16%nat →
  (length opts + 2 = (N.to_nat ext + 1) * 8)%nat →
  icmp = 143 :: rest → (8 ≤ length icmp)%nat →
  parse_mld (eth ++ [134; 221]
    ++ ([v0; v1; v2; l0; l1; 24; 0; hops] ++ src ++ dst ++ [58; ext] ++ opts) ++ icmp)
  = (count ← index16 icmp 6; mld_records count icmp 8).
Proof.
  intros He Hv Hs Hd Ho Hic Hlen.
  unfold parse_mld. set (hdr := [v0; v1; v2; l0; l1; 24; 0; hops] ++ src ++ dst ++ [58; ext] ++ opts).
  set (ip := hdr ++ icmp). set (frame := eth ++ [134; 221] ++ ip).
  assert (length hdr = (40 + (N.to_nat ext + 1) * 8)%nat) as Hh
    by (subst hdr; rewrite !length_app; cbn [length]; lia).
  assert (length ip = (length hdr + length icmp)%nat) as Hip by (subst ip; by rewrite length_app).
  destruct (ethernet_frame eth [134; 221] ip He eq_refl) as (Hf & R1 & R2).
  change (eth ++ [134; 221] ++ ip) with frame in Hf, R1, R2.
  rewrite (proj2 (Nat.ltb_ge _ _)) by lia. rewrite R1, R2.
  cbn [mbind result_bind]. rewrite bool_decide_false by naive_solver.
  change (index ip 0) with (@Ok panic N v0). cbn [mbind result_bind]. rewrite Hv.
  rewrite (proj2 (Nat.ltb_ge _ _)) by lia. cbn [N.eqb Pos.eqb negb orb].
  destruct (range_ok ip 8 24) as [-> _]; [lia..|]. cbn [mbind result_bind].
  change (index ip 6) with (@Ok panic N 0). cbn [mbind result_bind N.eqb].
  rewrite (proj2 (Nat.ltb_ge _ _)) by lia.
  assert (ip = ([v0; v1; v2; l0; l1; 24; 0; hops] ++ src ++ dst) ++ [58; ext] ++ opts ++ icmp) as Hsp
    by (subst ip hdr; by rewrite <-!(assoc_L (++))).
  assert (length ([v0; v1; v2; l0; l1; 24; 0; hops] ++ src ++ dst) = 40%nat) as H40
    by (rewrite !length_app; cbn [length]; lia).
  assert (∀ i, index ip (40 + i) = index ([58; ext] ++ opts ++ icmp) i) as Hix
    by (intros i; rewrite Hsp, <-H40; apply index_shift).
  change (index ip 40) with (index ip (40 + 0)). change (index ip 41) with (index ip (40 + 1)).
  rewrite !Hix.
  change (index ([58; ext] ++ opts ++ icmp) 0) with (@Ok panic N 58).
  change (index ([58; ext] ++ opts ++ icmp) 1) with (@Ok panic N ext).
  cbn [mbind result_bind N.eqb Pos.eqb negb orb].
  rewrite (proj2 (Nat.ltb_ge _ _)) by lia.
  assert (range (40 + (N.to_nat ext + 1) * 8) (length ip) ip = Ok icmp) as ->
    by (rewrite <-Hh; apply range_tail).
  cbn [mbind result_bind]. rewrite (proj2 (Nat.ltb_ge (length icmp) 8)) by lia.
  assert (index icmp 0 = Ok 143) as -> by by rewrite Hic. done.
Qed.

(** A version-3 membership report, laid out as in RFC 3376 behind an IPv4
    header with any options, parses to the meaning of its group records in
    order, whatever auxiliary data they carry and whatever follows the last
    one; likewise an MLDv2 report (RFC 3810) behind a hop-by-hop option. *)
Theorem snoop_reports_parse eth rs pad b1 b2 b3 b4 b5 :
  length eth = 12%nat → N.of_nat (length rs) < 65536 →
  (∀ ihl body, 5 ≤ ihl ≤ 15 → S (length body) = (4 * N.to_nat ihl)%nat → body !! 8%nat = Some 2 →
     Forall (record_ok 4) rs →
     parse Igmp (eth ++ [8; 0] ++ (64 + ihl :: body) ++ [34; b1; b2; b3; b4; b5]
                 ++ be16 (N.of_nat (length rs)) ++ mjoin (wire_record 4 <$> rs) ++ pad)
     = Ok (mjoin (meaning 4 3 <$> rs))) ∧
  (∀ v0 v1 v2 l0 l1 hops src dst ext opts,
     N.shiftr v0 4 = 6 → length src = 16%nat → length dst = 16%nat →
     (length opts + 2 = (N.to_nat ext + 1) * 8)%nat → Forall (record_ok 16) rs →
     parse Mld (eth ++ [134; 221]
                ++ ([v0; v1; v2; l0; l1; 24; 0; hops] ++ src ++ dst ++ [58; ext] ++ opts)
                ++ [143; b1; b2; b3; b4; b5]
                ++ be16 (N.of_nat (length rs)) ++ mjoin (wire_record 16 <$> rs) ++ pad)
     = Ok (mjoin (meaning 16 2 <$> rs))).
Proof.
  intros He Hn. split.
  - intros ihl body Hi Hb H9 Hrs. cbn [parse].
    erewrite parse_igmp_v3; [|done|done|done|done|reflexivity|cbn [length app be16]; lia].
    by apply igmp_report_body.
  - intros v0 v1 v2 l0 l1 hops src dst ext opts Hv Hs Hd Ho Hrs. cbn [parse].
    erewrite parse_mld_v2; [|done|done|done|done|done|reflexivity|cbn [length app be16]; lia].
    by apply mld_report_body.
Qed.

Module SnoopWireDemo.
(** A join to 239.1.1.10 (exclude mode, one source, one auxiliary word) and
    a leave of 239.1.1.11. *)
Definition records : list group_record :=
  [mkRecord 4 4009820426 [167772161] [1; 2; 3; 4]; mkRecord 3 4009820427 [] []].
Definition ip_body : list N :=
  [0; 0; 44; 0; 0; 0; 0; 1; 2; 0; 0; 10; 0; 0; 5; 224; 0; 0; 22].
End SnoopWireDemo.
Import SnoopWireDemo.

Lemma snoop_reports_parse_witness :
  Forall (record_ok 4) records
  ∧ parse Igmp (replicate 12 0 ++ [8; 0] ++ (64 + 5 :: ip_body) ++ [34; 0; 0; 0; 0; 0]
               ++ be16 2 ++ mjoin (wire_record 4 <$> records) ++ [])
    = Ok [Report (V4 4009820426) 3; Leave (V4 4009820427)].
Proof.
  assert (Forall (record_ok 4) records) as H by (by repeat constructor).
  split; [done|].
  destruct (snoop_reports_parse (replicate 12 0) records [] 0 0 0 0 0) as [Hp _]; [done|done|].
  by apply (Hp 5 ip_body).
Defined.
