(* ===== verification/Snoop.v ===== *)
(** * The IGMP/MLD snooping engine (hemlock-orch/src/snoop.rs)

    Per-VLAN group membership with timers, mrouter tracking, querier election
    and the pushes to the forwarding plane.  [Inner] is the state behind the
    engine's mutex; [handle] is one turn of [run]'s [select!] loop (an event,
    then [step]); [set_config] and [set_vlan_ports] are called between turns.
    The clock is an argument: [run] reads it once per message of a frame
    ([clock i] for the [i]th) and once in [step].  The three output channels
    are one list of [Output]s in the order of the sends. *)

From Stdlib Require Import NArith Lia.
From stdpp Require Import base tactics list strings option gmap sorting.
From S2P Require Import Prelude Text Net SnoopWire.

Local Open Scope N_scope.

Record VlanConfig := mkVlanConfig {
  v_disabled : bool;
  fast_leave : bool;
  querier : bool;
  querier_address : option IpAddr;
  static_mrouters : list string;
}.

Definition default_vlan : VlanConfig := mkVlanConfig false false false None [].

Record Config := mkConfig {
  c_disabled : bool;
  robustness : N;
  cfg_vlans : gmap N VlanConfig;
  query_interval : N;
  last_member_interval : N;
}.

Definition default_config : Config := mkConfig false 2 ∅ (from_secs 125) (from_secs 2).

Record GroupUpdate := mkGroupUpdate {
  gu_vlan : N;
  gu_group : IpAddr;
  gu_ports : list string;
  gu_remove : bool;
}.

Record MrouterUpdate := mkMrouterUpdate { mu_vlan : N; mu_restrict : bool; mu_ports : list string }.

Record Member := mkMember { last_report : N; version : N; pending_leave : option N }.

Record VlanState := mkVlanState {
  groups : gmap IpAddr (gmap string Member);
  dyn_mrouters : gmap string N;
  other_querier : option (IpAddr * N);
  last_query_tx : option N;
  pushed_groups : gmap IpAddr (list string);
  pushed_mrouters : option (bool * list string);
}.

Definition default_state : VlanState := mkVlanState ∅ ∅ None None ∅ None.

Record Inner := mkInner {
  family : Family;
  config : Config;
  vlan_ports : gmap N (list string);
  vlans : gmap N VlanState;
  system_mac : list N;
}.

Inductive Output :=
| SendGroup (u : GroupUpdate)
| SendMrouter (u : MrouterUpdate)
| SendQuery (port : string) (frame : list N).

(** The state [spawn] starts from. *)
Definition spawn (f : Family) (mac : list N) : Inner := mkInner f default_config ∅ ∅ mac.

(** Field assignments. *)
Definition set_groups (g : gmap IpAddr (gmap string Member)) (st : VlanState) : VlanState :=
  mkVlanState g (dyn_mrouters st) (other_querier st) (last_query_tx st) (pushed_groups st)
    (pushed_mrouters st).
Definition with_vlan (vlan : N) (st : VlanState) (s : Inner) : Inner :=
  mkInner (family s) (config s) (vlan_ports s) (<[vlan := st]> (vlans s)) (system_mac s).

Definition set_config (c : Config) (s : Inner) : Inner :=
  mkInner (family s)
    (if robustness c =? 0
     then mkConfig (c_disabled c) 2 (cfg_vlans c) (query_interval c) (last_member_interval c)
     else c)
    (vlan_ports s) (vlans s) (system_mac s).

Definition set_vlan_ports (m : gmap N (list string)) (s : Inner) : Inner :=
  mkInner (family s) (config s) m (vlans s) (system_mac s).

(** ** Derived settings *)

Definition membership_hold (s : Inner) : N :=
  query_interval (config s) * robustness (config s) + from_secs 10.

Definition querier_hold (s : Inner) : N := query_interval (config s) * 2 + from_secs 10.

Definition vlan_enabled (s : Inner) (vlan : N) : bool :=
  negb (c_disabled (config s)) && negb (default false (v_disabled <$> cfg_vlans (config s) !! vlan)).

Definition querier_source (s : Inner) (vlan : N) : IpAddr :=
  match cfg_vlans (config s) !! vlan ≫= querier_address with
  | Some address => address
  | None => match family s with Igmp => V4 0 | Mld => V6 0 end
  end.

(** [v.sort(); v.dedup()]. *)
Fixpoint dedup (l : list string) : list string :=
  match l with
  | x :: (y :: _) as l' => if decide (x = y) then dedup l' else x :: dedup l'
  | _ => l
  end.

Definition sort_dedup (l : list string) : list string := dedup (merge_sort String.le l).

Definition mrouters (s : Inner) (vlan now : N) : list string :=
  sort_dedup
    (default [] (static_mrouters <$> cfg_vlans (config s) !! vlan)
     ++ match vlans s !! vlan with
        | Some st =>
            (filter (λ kv, since now kv.2 < querier_hold s) (btree_iter (dyn_mrouters st))).*1
        | None => []
        end).

(** ** Messages *)

Definition apply_message (now : N) (port : string) (vlan : N) (message : Message) (s : Inner) : Inner :=
  let fast := default false (fast_leave <$> cfg_vlans (config s) !! vlan) in
  let our_source := querier_source s vlan in
  let st := default default_state (vlans s !! vlan) in
  let st :=
    match message with
    | Report group version =>
        let members := default ∅ (groups st !! group) in
        set_groups (<[group := <[port := mkMember now version None]> members]> (groups st)) st
    | Leave group =>
        match groups st !! group with
        | Some members =>
            let members :=
              if fast then delete port members
              else alter (λ m, mkMember (last_report m) (version m) (Some now)) port members in
            set_groups (<[group := members]> (groups st)) st
        | None => st
        end
    | Query source =>
        mkVlanState (groups st) (<[port := now]> (dyn_mrouters st))
          (if decide (key_lt source our_source) then Some (source, now) else other_querier st)
          (last_query_tx st) (pushed_groups st) (pushed_mrouters st)
    end in
  with_vlan vlan st s.

(** A frame: nothing on a disabled VLAN, else its messages in order.  An
    index out of range would end the task; [parse_igmp_total] and
    [parse_mld_total] exclude it. *)
Definition packet_in (clock : nat → N) (port : string) (vlan : N) (frame : list N) (s : Inner) : Inner :=
  if vlan_enabled s vlan then
    match parse (family s) frame with
    | Ok ms => foldl (λ s im, apply_message (clock im.1) port vlan im.2 s) s (imap pair ms)
    | Err _ => s
    end
  else s.

(** ** One evaluation pass *)

Definition expired (now hold last_member : N) (m : Member) : bool :=
  match pending_leave m with Some at_ => last_member <=? since now at_ | None => false end
  || (hold <=? since now (last_report m)).

(** Members, pending leaves, dynamic mrouters and foreign queriers age out;
    a disabled VLAN sheds all its learned state. *)
Definition expire (enabled : bool) (now hold qhold last_member : N) (st : VlanState) : VlanState :=
  let gs := if enabled then groups st else ∅ in
  let dyn := if enabled then dyn_mrouters st else ∅ in
  let other := if enabled then other_querier st else None in
  let gs := (λ ms, btree_retain (λ _ m, negb (expired now hold last_member m)) ms) <$> gs in
  mkVlanState
    (btree_retain (λ _ ms, negb (bool_decide (ms = ∅))) gs)
    (btree_retain (λ _ at_, since now at_ <? qhold) dyn)
    (match other with
     | Some (_, at_) => if qhold <=? since now at_ then None else other
     | None => None
     end)
    (last_query_tx st) (pushed_groups st) (pushed_mrouters st).

(** The output ports of each group: members plus mrouters. *)
Definition wanted_groups (mrouter_set : list string) (gs : gmap IpAddr (gmap string Member)) :
    gmap IpAddr (list string) :=
  (λ ms, sort_dedup (btree_keys ms ++ mrouter_set)) <$> gs.

(** [for (group, ports) in &wanted]. *)
Fixpoint push_wanted (vlan : N) (l : list (IpAddr * list string)) (pushed : gmap IpAddr (list string)) :
    gmap IpAddr (list string) * list Output :=
  match l with
  | [] => (pushed, [])
  | (group, ports) :: l =>
      if decide (pushed !! group = Some ports) then push_wanted vlan l pushed
      else
        let '(pushed, out) := push_wanted vlan l (<[group := ports]> pushed) in
        (pushed, SendGroup (mkGroupUpdate vlan group ports false) :: out)
  end.

(** [for group in stale]. *)
Fixpoint push_stale (vlan : N) (stale : list IpAddr) (pushed : gmap IpAddr (list string)) :
    gmap IpAddr (list string) * list Output :=
  match stale with
  | [] => (pushed, [])
  | group :: stale =>
      let '(pushed, out) := push_stale vlan stale (delete group pushed) in
      (pushed, SendGroup (mkGroupUpdate vlan group [] true) :: out)
  end.

Definition push_groups (vlan : N) (wanted pushed : gmap IpAddr (list string)) :
    gmap IpAddr (list string) * list Output :=
  let '(pushed, out) := push_wanted vlan (btree_iter wanted) pushed in
  let stale := filter (λ g, wanted !! g = None) (btree_keys pushed) in
  let '(pushed, out') := push_stale vlan stale pushed in
  (pushed, out ++ out').

(** The scope of unknown multicast. *)
Definition scope (enabled : bool) (c : VlanConfig) (mrouter_set : list string) : bool * list string :=
  let restrict := enabled && (negb (bool_decide (mrouter_set = [])) || querier c) in
  (restrict, if restrict then mrouter_set else []).

(** The local querier: the query due on a VLAN, if any. *)
Definition query_due (s : Inner) (vlan now : N) (enabled : bool) (c : VlanConfig) (st : VlanState) : bool :=
  enabled && querier c && negb (match other_querier st with Some _ => true | None => false end)
  && match last_query_tx st with
     | Some at_ => query_interval (config s) <=? since now at_
     | None => true
     end.

(** The body of the loop over the VLANs. *)
Definition vlan_pass (now vlan : N) (s : Inner) : Inner * list Output :=
  let enabled := vlan_enabled s vlan in
  let mrouter_set := mrouters s vlan now in
  let st := default default_state (vlans s !! vlan) in
  let st := expire enabled now (membership_hold s) (querier_hold s) (last_member_interval (config s)) st in
  let '(pushed, out1) := push_groups vlan (wanted_groups mrouter_set (groups st)) (pushed_groups st) in
  let c := default default_vlan (cfg_vlans (config s) !! vlan) in
  let push := scope enabled c mrouter_set in
  let out2 := if decide (pushed_mrouters st = Some push) then []
              else [SendMrouter (mkMrouterUpdate vlan push.1 push.2)] in
  let due := query_due s vlan now enabled c st in
  let frame := encode_general_query (family s) (system_mac s) (querier_source s vlan) in
  let out3 := if due then (λ port, SendQuery port frame) <$> default [] (vlan_ports s !! vlan) else [] in
  (with_vlan vlan
     (mkVlanState (groups st) (dyn_mrouters st) (other_querier st)
        (if due then Some now else last_query_tx st) pushed (Some push)) s,
   out1 ++ out2 ++ out3).

(** [for vlan in vlans]; a configured VLAN that has state is visited twice. *)
Fixpoint passes (now : N) (l : list N) (s : Inner) : Inner * list Output :=
  match l with
  | [] => (s, [])
  | vlan :: l =>
      let '(s, out) := vlan_pass now vlan s in
      let '(s, out') := passes now l s in
      (s, out ++ out')
  end.

Definition step (now : N) (s : Inner) : Inner * list Output :=
  passes now (btree_keys (vlans s) ++ btree_keys (cfg_vlans (config s))) s.

(** ** The loop *)

Inductive event :=
| Tick
| Wake
| Packet (clock : nat → N) (port : string) (vlan : N) (frame : list N).

Definition on_event (e : event) (s : Inner) : Inner :=
  match e with
  | Tick | Wake => s
  | Packet clock port vlan frame => packet_in clock port vlan frame s
  end.

Definition handle (now : N) (e : event) (s : Inner) : Inner * list Output := step now (on_event e s).

Inductive action :=
| AConfig (c : Config)
| AVlanPorts (m : gmap N (list string))
| AEvent (now : N) (e : event).

Definition act (a : action) (s : Inner) : Inner * list Output :=
  match a with
  | AConfig c => (set_config c s, [])
  | AVlanPorts m => (set_vlan_ports m s, [])
  | AEvent now e => handle now e s
  end.

Fixpoint run (acts : list action) (s : Inner) : Inner * list Output :=
  match acts with
  | [] => (s, [])
  | a :: acts =>
      let '(s, out) := act a s in
      let '(s, out') := run acts s in
      (s, out ++ out')
  end.

(** ** The snapshot *)

Record GroupSnapshot := mkGroupSnapshot { gs_group : IpAddr; gs_version : N; gs_ports : list string }.

Record VlanSnapshot := mkVlanSnapshot {
  vs_vlan : N;
  vs_enabled : bool;
  vs_fast_leave : bool;
  vs_querier_enabled : bool;
  vs_querier_address : option IpAddr;
  vs_querier_active : bool;
  vs_static_mrouters : list string;
  vs_dynamic_mrouters : list string;
  vs_groups : list GroupSnapshot;
}.

Record Snapshot := mkSnapshot { sn_enabled : bool; sn_robustness : N; sn_vlans : list VlanSnapshot }.

Definition group_snapshot (gm : IpAddr * gmap string Member) : GroupSnapshot :=
  mkGroupSnapshot gm.1
    (match btree_values gm.2 with [] => 2 | ms => foldr N.max 0 (version <$> ms) end)
    (btree_keys gm.2).

Definition vlan_snapshot (now : N) (s : Inner) (vlan : N) : VlanSnapshot :=
  let c := default default_vlan (cfg_vlans (config s) !! vlan) in
  let st := vlans s !! vlan in
  let enabled := negb (c_disabled (config s)) && negb (v_disabled c) in
  let other := match st ≫= other_querier with
               | Some (_, at_) => since now at_ <? querier_hold s
               | None => false
               end in
  mkVlanSnapshot vlan enabled (fast_leave c) (querier c) (querier_address c)
    (enabled && querier c && negb other) (static_mrouters c)
    (default [] ((λ st, btree_keys (dyn_mrouters st)) <$> st))
    (default [] ((λ st, group_snapshot <$> btree_iter (groups st)) <$> st)).

(** [ids.sort_unstable(); ids.dedup()]. *)
Definition snapshot (now : N) (s : Inner) : Snapshot :=
  let ids := sorted_elements (list_to_set (btree_keys (cfg_vlans (config s)) ++ btree_keys (vlans s))) in
  mkSnapshot (negb (c_disabled (config s))) (robustness (config s)) (vlan_snapshot now s <$> ids).

(** ** Sorting keeps the elements *)

Lemma elem_of_dedup x l : x ∈ dedup l ↔ x ∈ l.
Proof.
  induction l as [|y [|z l] IH]; [done|done|]. cbn [dedup]. fold dedup in *.
  case_decide as E.
  - subst z. rewrite IH, !elem_of_cons. tauto.
  - rewrite elem_of_cons, IH, (elem_of_cons (z :: l)). done.
Qed.

Lemma elem_of_sort_dedup x l : x ∈ sort_dedup l ↔ x ∈ l.
Proof. unfold sort_dedup. by rewrite elem_of_dedup, merge_sort_Permutation. Qed.

(** The mrouters of a VLAN: configured, or heard a query within the hold. *)
Definition is_mrouter (s : Inner) (vlan now : N) (p : string) : Prop :=
  (∃ c, cfg_vlans (config s) !! vlan = Some c ∧ p ∈ static_mrouters c) ∨
  (∃ st at_, vlans s !! vlan = Some st ∧ dyn_mrouters st !! p = Some at_ ∧ since now at_ < querier_hold s).

Lemma elem_of_mrouters s vlan now p : p ∈ mrouters s vlan now ↔ is_mrouter s vlan now p.
Proof.
  unfold mrouters, is_mrouter. rewrite elem_of_sort_dedup, elem_of_app. f_equiv.
  - destruct (cfg_vlans (config s) !! vlan) as [c|]; simpl; [naive_solver|].
    split; [by intros ?%elem_of_nil|naive_solver].
  - destruct (vlans s !! vlan) as [st|]; [|split; [by intros ?%elem_of_nil|naive_solver]].
    rewrite list_elem_of_fmap. split.
    + intros ([q at_] & -> & [Hf Hin%elem_of_btree_iter]%list_elem_of_filter). eauto.
    + intros (st' & at_ & [= <-] & Hat & Hf). exists (p, at_).
      by rewrite list_elem_of_filter, elem_of_btree_iter.
Qed.

(** ** What the receivers of the updates see *)

(** The last word on a group of a VLAN. *)
Definition group_view (vlan : N) (g : IpAddr) : option (list string) → list Output → option (list string) :=
  foldl (λ acc o, match o with
                  | SendGroup u =>
                      if decide (gu_vlan u = vlan ∧ gu_group u = g)
                      then if gu_remove u then None else Some (gu_ports u)
                      else acc
                  | _ => acc
                  end).

(** The last word on a VLAN's unknown multicast. *)
Definition mrouter_view (vlan : N) : option (bool * list string) → list Output → option (bool * list string) :=
  foldl (λ acc o, match o with
                  | SendMrouter u => if decide (mu_vlan u = vlan) then Some (mu_restrict u, mu_ports u) else acc
                  | _ => acc
                  end).

Lemma group_view_app vlan g acc o1 o2 :
  group_view vlan g acc (o1 ++ o2) = group_view vlan g (group_view vlan g acc o1) o2.
Proof. apply foldl_app. Qed.

Lemma mrouter_view_app vlan acc o1 o2 :
  mrouter_view vlan acc (o1 ++ o2) = mrouter_view vlan (mrouter_view vlan acc o1) o2.
Proof. apply foldl_app. Qed.

(** Outputs that do not concern a VLAN's groups, or its scope. *)
Definition about_group (vlan : N) (o : Output) : Prop :=
  match o with SendGroup u => gu_vlan u = vlan | _ => False end.
Definition about_scope (vlan : N) (o : Output) : Prop :=
  match o with SendMrouter u => mu_vlan u = vlan | _ => False end.

Lemma group_view_other vlan g acc out :
  Forall (λ o, ¬ about_group vlan o) out → group_view vlan g acc out = acc.
Proof.
  induction 1 as [|o out Ho _ IH]; [done|]. cbn. destruct o as [u| |]; try done.
  rewrite decide_False; [done|]. intros [Hv _]. by apply Ho.
Qed.

Lemma mrouter_view_other vlan acc out :
  Forall (λ o, ¬ about_scope vlan o) out → mrouter_view vlan acc out = acc.
Proof.
  induction 1 as [|o out Ho _ IH]; [done|]. cbn. destruct o as [|u|]; try done.
  by rewrite decide_False.
Qed.

(** ** The pushes of one VLAN *)

(** A loop of pushes keeps the receiver's view equal to [pushed_groups]. *)
Lemma push_wanted_view vlan l pushed g :
  group_view vlan g (pushed !! g) (push_wanted vlan l pushed).2 = (push_wanted vlan l pushed).1 !! g.
Proof.
  revert pushed. induction l as [|[g' ports] l IH]; intros pushed; [done|]. cbn [push_wanted].
  case_decide as E; [apply IH|].
  specialize (IH (<[g' := ports]> pushed)). destruct (push_wanted vlan l _) as [pushed' out]. cbn in *.
  rewrite <-IH. f_equal. case_decide as Eg.
  - destruct Eg as [_ ->]. by rewrite lookup_insert_eq.
  - rewrite lookup_insert_ne; [done|]. naive_solver.
Qed.

Lemma push_stale_view vlan l pushed g :
  group_view vlan g (pushed !! g) (push_stale vlan l pushed).2 = (push_stale vlan l pushed).1 !! g.
Proof.
  revert pushed. induction l as [|g' l IH]; intros pushed; [done|]. cbn [push_stale].
  specialize (IH (delete g' pushed)). destruct (push_stale vlan l _) as [pushed' out]. cbn in *.
  rewrite <-IH. f_equal. case_decide as Eg.
  - destruct Eg as [_ ->]. by rewrite lookup_delete_eq.
  - rewrite lookup_delete_ne; [done|]. naive_solver.
Qed.

Lemma push_wanted_lookup vlan l pushed g :
  NoDup l.*1 →
  (g ∉ l.*1 → (push_wanted vlan l pushed).1 !! g = pushed !! g) ∧
  (∀ ports, (g, ports) ∈ l → (push_wanted vlan l pushed).1 !! g = Some ports).
Proof.
  revert pushed. induction l as [|[g' ports'] l IH]; intros pushed Hnd.
  { split; [done|]. by intros ? ?%elem_of_nil. }
  cbn [fmap list_fmap fst] in *. apply NoDup_cons in Hnd as [Hni Hnd]. cbn [push_wanted].
  assert (∀ p', p' !! g' = Some ports' → ∀ ports, (g, ports) ∈ (g', ports') :: l →
    (push_wanted vlan l p').1 !! g = Some ports) as Hin.
  { intros p' Hp' ports [[= -> ->]|Hin]%elem_of_cons.
    - rewrite (proj1 (IH _ Hnd)); done.
    - by apply IH. }
  split.
  - intros [Hne Hg]%not_elem_of_cons. case_decide; [by apply IH|].
    destruct (IH (<[g' := ports']> pushed) Hnd) as [IH1 _].
    destruct (push_wanted vlan l _) as [pushed' out]. cbn in *.
    rewrite IH1 by done. by rewrite lookup_insert_ne by done.
  - intros ports Hports. case_decide as E; [by eapply Hin|].
    specialize (Hin (<[g' := ports']> pushed) (lookup_insert_eq _ _ _) ports Hports).
    by destruct (push_wanted vlan l _).
Qed.

Lemma push_stale_lookup vlan l pushed g :
  (push_stale vlan l pushed).1 !! g = if decide (g ∈ l) then None else pushed !! g.
Proof.
  revert pushed. induction l as [|g' l IH]; intros pushed; [done|]. cbn [push_stale].
  specialize (IH (delete g' pushed)). destruct (push_stale vlan l _) as [pushed' out]. cbn in *.
  rewrite IH. destruct (decide (g = g')) as [->|Hne].
  - rewrite (decide_True (P := g' ∈ g' :: l)) by left. rewrite lookup_delete_eq. by case_decide.
  - rewrite lookup_delete_ne by done.
    by rewrite (decide_ext (g ∈ g' :: l) (g ∈ l)) by (rewrite elem_of_cons; naive_solver).
Qed.

(** After the pushes of a pass, exactly the wanted groups are pushed, and the
    receiver knows. *)
Lemma push_groups_spec vlan wanted pushed :
  (push_groups vlan wanted pushed).1 = wanted ∧
  ∀ g, group_view vlan g (pushed !! g) (push_groups vlan wanted pushed).2 = wanted !! g.
Proof.
  unfold push_groups.
  pose proof (push_wanted_view vlan (btree_iter wanted) pushed) as V1.
  pose proof (λ g, push_wanted_lookup vlan (btree_iter wanted) pushed g (NoDup_btree_keys wanted)) as L1.
  destruct (push_wanted vlan (btree_iter wanted) pushed) as [p1 out1]. cbn in V1, L1.
  set (stale := filter (λ g, wanted !! g = None) (btree_keys p1)).
  pose proof (push_stale_view vlan stale p1) as V2.
  pose proof (push_stale_lookup vlan stale p1) as L2.
  destruct (push_stale vlan stale p1) as [p2 out2]. cbn in *.
  assert (∀ g, p2 !! g = wanted !! g) as Hw.
  { intros g. rewrite L2. destruct (wanted !! g) as [ports|] eqn:E.
    - rewrite decide_False by (subst stale; rewrite list_elem_of_filter; intros [? _]; congruence).
      by apply L1, elem_of_btree_iter.
    - case_decide as Hs; [done|]. destruct (p1 !! g) eqn:Ep; [|done].
      exfalso. apply Hs. subst stale. apply list_elem_of_filter. split; [done|].
      apply elem_of_btree_keys. by rewrite Ep. }
  split; [by apply map_eq|]. intros g. by rewrite group_view_app, V1, V2, Hw.
Qed.

Lemma push_wanted_vlan vlan l pushed o : o ∈ (push_wanted vlan l pushed).2 → about_group vlan o.
Proof.
  revert pushed. induction l as [|[g ports] l IH]; intros pushed; cbn [push_wanted].
  { by intros ?%elem_of_nil. }
  case_decide; [apply IH|]. specialize (IH (<[g := ports]> pushed)).
  destruct (push_wanted vlan l _). cbn in *. by intros [->|?]%elem_of_cons; [|apply IH].
Qed.

Lemma push_stale_vlan vlan l pushed o : o ∈ (push_stale vlan l pushed).2 → about_group vlan o.
Proof.
  revert pushed. induction l as [|g l IH]; intros pushed; cbn [push_stale].
  { by intros ?%elem_of_nil. }
  specialize (IH (delete g pushed)).
  destruct (push_stale vlan l _). cbn in *. by intros [->|?]%elem_of_cons; [|apply IH].
Qed.

Lemma push_groups_vlan vlan wanted pushed o : o ∈ (push_groups vlan wanted pushed).2 → about_group vlan o.
Proof.
  unfold push_groups.
  pose proof (push_wanted_vlan vlan (btree_iter wanted) pushed o) as H1.
  destruct (push_wanted vlan _ _) as [p1 out1]. cbn in H1.
  set (stale := filter _ _). pose proof (push_stale_vlan vlan stale p1 o) as H2.
  destruct (push_stale vlan stale p1) as [p2 out2]. cbn in *. rewrite elem_of_app. tauto.
Qed.

(** ** One VLAN settled *)

Lemma vlan_pass_frame now vlan s :
  family (vlan_pass now vlan s).1 = family s ∧ config (vlan_pass now vlan s).1 = config s
  ∧ vlan_ports (vlan_pass now vlan s).1 = vlan_ports s ∧ system_mac (vlan_pass now vlan s).1 = system_mac s
  ∧ ∀ v, v ≠ vlan → vlans (vlan_pass now vlan s).1 !! v = vlans s !! v.
Proof.
  unfold vlan_pass. destruct (push_groups _ _ _). cbn. split_and!; [done..|].
  intros v Hv. by rewrite lookup_insert_ne.
Qed.

Lemma mrouters_local s s' vlan now :
  config s' = config s → vlans s' !! vlan = vlans s !! vlan → mrouters s' vlan now = mrouters s vlan now.
Proof. intros Hc Hv. unfold mrouters, querier_hold. by rewrite Hc, Hv. Qed.

(** The state of a VLAN after its pass, and what was sent about it. *)
Lemma vlan_pass_spec now vlan s :
  let st0 := default default_state (vlans s !! vlan) in
  let en := vlan_enabled s vlan in
  let c := default default_vlan (cfg_vlans (config s) !! vlan) in
  let ms := mrouters s vlan now in
  let st := expire en now (membership_hold s) (querier_hold s) (last_member_interval (config s)) st0 in
  let due := query_due s vlan now en c st in
  vlans (vlan_pass now vlan s).1 !! vlan
  = Some (mkVlanState (groups st) (dyn_mrouters st) (other_querier st)
      (if due then Some now else last_query_tx st) (wanted_groups ms (groups st)) (Some (scope en c ms)))
  ∧ (∀ g, group_view vlan g (pushed_groups st0 !! g) (vlan_pass now vlan s).2
          = wanted_groups ms (groups st) !! g)
  ∧ mrouter_view vlan (pushed_mrouters st0) (vlan_pass now vlan s).2 = Some (scope en c ms)
  ∧ (∀ v, v ≠ vlan → Forall (λ o, ¬ about_group v o ∧ ¬ about_scope v o) (vlan_pass now vlan s).2)
  ∧ ∀ p f, SendQuery p f ∈ (vlan_pass now vlan s).2 ↔
      due = true ∧ p ∈ default [] (vlan_ports s !! vlan)
      ∧ f = encode_general_query (family s) (system_mac s) (querier_source s vlan).
Proof.
  intros st0 en c ms st due. unfold vlan_pass.
  fold st0 en c ms. fold st. fold due.
  destruct (push_groups_spec vlan (wanted_groups ms (groups st)) (pushed_groups st)) as [Hp Hv].
  pose proof (push_groups_vlan vlan (wanted_groups ms (groups st)) (pushed_groups st)) as Ho.
  destruct (push_groups vlan _ _) as [pushed out1]. cbn [fst snd] in *. subst pushed.
  set (out2 := if decide _ then _ else _). set (frame := encode_general_query _ _ _).
  set (out3 := if due then (λ port, SendQuery port frame) <$> _ else []).
  assert (∀ o, o ∈ out3 ↔ due = true ∧ ∃ p, p ∈ default [] (vlan_ports s !! vlan) ∧ o = SendQuery p frame) as H3.
  { intros o. subst out3. clearbody due. destruct due; [|split; [by intros ?%elem_of_nil|by intros [? _]]].
    rewrite list_elem_of_fmap. naive_solver. }
  assert (∀ o, o ∈ out2 → o = SendMrouter (mkMrouterUpdate vlan (scope en c ms).1 (scope en c ms).2)) as H2.
  { intros o. subst out2. case_decide; [by intros ?%elem_of_nil|by intros ?%list_elem_of_singleton]. }
  split; [cbn; by rewrite lookup_insert_eq|].
  assert (∀ v, Forall (λ o, ¬ about_group v o) (out2 ++ out3)) as Hng.
  { intros v. apply Forall_forall. intros o [->%H2|(_ & p & _ & ->)%H3]%elem_of_app; by intros ?. }
  assert (∀ v, Forall (λ o, ¬ about_scope v o) out1) as Hns1.
  { intros v. apply Forall_forall. intros o Hin. apply Ho in Hin. destruct o; cbn in *; tauto. }
  assert (∀ v, Forall (λ o, ¬ about_scope v o) out3) as Hns3.
  { intros v. apply Forall_forall. intros o (_ & p & _ & ->)%H3. by intros ?. }
  split; [|split; [|split]].
  - intros g. rewrite group_view_app, (group_view_other vlan g _ (out2 ++ out3)) by done. apply Hv.
  - rewrite mrouter_view_app, (mrouter_view_other vlan _ out1) by done.
    rewrite mrouter_view_app, (mrouter_view_other vlan _ out3) by done.
    subst out2. change (pushed_mrouters st) with (pushed_mrouters st0).
    destruct (decide (pushed_mrouters st0 = Some (scope en c ms))) as [E|E]; [exact E|].
    cbn -[scope]. rewrite decide_True by done. by destruct (scope en c ms).
  - intros v Hne. rewrite !Forall_app. split_and!; apply Forall_forall; intros o Hin.
    + specialize (Ho o Hin). destruct o; cbn in *; [|tauto..]. split; [congruence|tauto].
    + apply H2 in Hin as ->. cbn. split; [tauto|congruence].
    + apply H3 in Hin as (_ & p & _ & ->). by split; intros ?.
  - intros p f. rewrite !elem_of_app. split.
    + intros [Hin|[Hin|Hin]].
      * by apply Ho in Hin.
      * by apply H2 in Hin.
      * apply H3 in Hin as (Hd & q & Hq & [= <- <-]). done.
    + intros (Hd & Hp & ->). right. right. apply H3. eauto.
Qed.

(** A VLAN's state is settled at [now]: every member is live, nothing is
    learned on a disabled VLAN, and what was pushed is what is wanted. *)
Record settled (now vlan : N) (s : Inner) (st : VlanState) : Prop := {
  settled_members : ∀ g ms, groups st !! g = Some ms →
    vlan_enabled s vlan = true ∧ ms ≠ ∅
    ∧ ∀ p m, ms !! p = Some m →
        expired now (membership_hold s) (last_member_interval (config s)) m = false;
  settled_groups : pushed_groups st = wanted_groups (mrouters s vlan now) (groups st);
  settled_scope : pushed_mrouters st
    = Some (scope (vlan_enabled s vlan) (default default_vlan (cfg_vlans (config s) !! vlan))
              (mrouters s vlan now));
}.

Lemma expire_members en now hold qhold lm st g ms :
  groups (expire en now hold qhold lm st) !! g = Some ms ↔
  ∃ ms0, en = true ∧ groups st !! g = Some ms0
    ∧ ms = btree_retain (λ _ m, negb (expired now hold lm m)) ms0 ∧ ms ≠ ∅.
Proof.
  unfold expire. cbn [groups]. rewrite btree_retain_lookup, lookup_fmap.
  destruct en; [|rewrite lookup_empty; naive_solver].
  destruct (groups st !! g) as [ms0|]; cbn; [|naive_solver].
  case_bool_decide as E; cbn; naive_solver.
Qed.

(** Ageing does not change who is an mrouter at that instant. *)
Lemma mrouters_expired now vlan s s' st0 st' :
  vlans s !! vlan = Some st0 ∨ vlans s !! vlan = None ∧ st0 = default_state →
  config s' = config s → vlans s' !! vlan = Some st' →
  dyn_mrouters st' = btree_retain (λ _ at_, since now at_ <? querier_hold s) (dyn_mrouters st0) →
  mrouters s' vlan now = mrouters s vlan now.
Proof.
  intros H0 Hc Hv Hd. unfold mrouters, querier_hold in *. rewrite Hc, Hv, Hd, btree_iter_retain.
  rewrite list_filter_filter_l by (intros x ?; by apply N.ltb_lt).
  destruct H0 as [->|[-> ->]]; [done|]. cbn [dyn_mrouters default_state].
  by rewrite btree_iter_empty.
Qed.

Lemma vlan_pass_settles now vlan s :
  ∃ st, vlans (vlan_pass now vlan s).1 !! vlan = Some st ∧ settled now vlan (vlan_pass now vlan s).1 st.
Proof.
  destruct (vlan_pass_spec now vlan s) as (Hst & _).
  destruct (vlan_pass_frame now vlan s) as (_ & Hc & _ & _ & _).
  eexists. split; [exact Hst|].
  set (s' := (vlan_pass now vlan s).1) in *.
  assert (vlan_enabled s' vlan = vlan_enabled s vlan) as He by (unfold vlan_enabled; by rewrite Hc).
  assert (vlan_enabled s vlan = true → mrouters s' vlan now = mrouters s vlan now) as Hm.
  { intros Hen. eapply mrouters_expired; [|exact Hc|exact Hst|].
    - instantiate (1 := default default_state (vlans s !! vlan)).
      destruct (vlans s !! vlan); [by left|by right].
    - cbn. by rewrite Hen. }
  split.
  - intros g ms. cbn [groups]. rewrite expire_members. intros (ms0 & Hen & Hg & -> & Hne).
    rewrite He. split; [done|]. split; [done|]. intros p m.
    rewrite btree_retain_lookup. destruct (ms0 !! p) as [m'|]; [|done].
    destruct (expired _ _ _ m') eqn:E; [done|]. intros [= <-].
    unfold membership_hold in *. by rewrite Hc.
  - cbn [pushed_groups groups]. destruct (vlan_enabled s vlan) eqn:Hen; [by rewrite Hm|].
    apply map_eq. intros g. unfold wanted_groups. rewrite !lookup_fmap.
    destruct (groups (expire _ _ _ _ _ _) !! g) eqn:Eg; [|done].
    apply expire_members in Eg as (? & ? & _). done.
  - cbn [pushed_mrouters]. rewrite He, Hc. destruct (vlan_enabled s vlan) eqn:Hen; [by rewrite Hm|done].
Qed.

Lemma settled_local now vlan s s' st :
  config s' = config s → vlans s' !! vlan = vlans s !! vlan →
  settled now vlan s st → settled now vlan s' st.
Proof.
  intros Hc Hv [H1 H2 H3]. pose proof (mrouters_local s s' vlan now Hc Hv) as Hm.
  split; unfold vlan_enabled, membership_hold in *; rewrite ?Hc, ?Hm; done.
Qed.

Lemma passes_config now l s :
  config (passes now l s).1 = config s.
Proof.
  revert s. induction l as [|v l IH]; intros s; [done|]. cbn [passes].
  destruct (vlan_pass_frame now v s) as (_ & Hc & _).
  destruct (vlan_pass now v s) as [s1 out]. cbn in Hc. specialize (IH s1).
  destruct (passes now l s1). cbn in *. congruence.
Qed.

(** The loop settles every VLAN it visits. *)
Lemma passes_settled now l s vlan :
  vlan ∈ l ∨ (∃ st, vlans s !! vlan = Some st ∧ settled now vlan s st) →
  ∃ st, vlans (passes now l s).1 !! vlan = Some st ∧ settled now vlan (passes now l s).1 st.
Proof.
  revert s. induction l as [|v l IH]; intros s Hor.
  { by destruct Hor as [?%elem_of_nil|]. }
  cbn [passes]. pose proof (vlan_pass_settles now v s) as Hs.
  destruct (vlan_pass_frame now v s) as (_ & Hc & _ & _ & Hv).
  destruct (vlan_pass now v s) as [s1 out]. cbn in *. specialize (IH s1).
  destruct (passes now l s1) as [s2 out']. cbn in *. apply IH.
  destruct (decide (vlan = v)) as [->|Hne]; [by right|].
  destruct Hor as [[?|?]%elem_of_cons|(st & Hst & Hset)]; [done|by left|].
  right. exists st. rewrite Hv by done. split; [done|]. eapply settled_local; [done| |done]. by apply Hv.
Qed.

Lemma passes_keys now l s vlan :
  is_Some (vlans (passes now l s).1 !! vlan) → vlan ∈ l ∨ is_Some (vlans s !! vlan).
Proof.
  revert s. induction l as [|v l IH]; intros s; [by right|]. cbn [passes].
  destruct (vlan_pass_frame now v s) as (_ & _ & _ & _ & Hv).
  destruct (vlan_pass now v s) as [s1 out]. cbn in *. specialize (IH s1).
  destruct (passes now l s1) as [s2 out']. cbn in *. intros H%IH.
  destruct (decide (vlan = v)) as [->|Hne]; [left; left|].
  destruct H as [?|H]; [left; by right|right]. by rewrite <-Hv.
Qed.

Lemma step_settled now s vlan st :
  vlans (step now s).1 !! vlan = Some st → settled now vlan (step now s).1 st.
Proof.
  intros Hst. unfold step in *.
  destruct (passes_settled now (btree_keys (vlans s) ++ btree_keys (cfg_vlans (config s))) s vlan)
    as (st' & Hst' & Hset); [|by simplify_eq].
  left. destruct (passes_keys now (btree_keys (vlans s) ++ btree_keys (cfg_vlans (config s))) s vlan)
    as [?|?]; [by eexists|done|].
  apply elem_of_app. left. by apply elem_of_btree_keys.
Qed.

(** ** The views follow the state *)

Definition pushed_of (s : Inner) (vlan : N) (g : IpAddr) : option (list string) :=
  st ← vlans s !! vlan; pushed_groups st !! g.
Definition scope_of (s : Inner) (vlan : N) : option (bool * list string) :=
  st ← vlans s !! vlan; pushed_mrouters st.

Lemma pushed_of_default s vlan g :
  pushed_of s vlan g = pushed_groups (default default_state (vlans s !! vlan)) !! g.
Proof. unfold pushed_of. by destruct (vlans s !! vlan). Qed.

Lemma scope_of_default s vlan :
  scope_of s vlan = pushed_mrouters (default default_state (vlans s !! vlan)).
Proof. unfold scope_of. by destruct (vlans s !! vlan). Qed.

Lemma pushed_of_spawn f mac vlan g : pushed_of (spawn f mac) vlan g = None.
Proof. rewrite pushed_of_default. cbn. by rewrite lookup_empty. Qed.

Lemma scope_of_spawn f mac vlan : scope_of (spawn f mac) vlan = None.
Proof. rewrite scope_of_default. cbn. by rewrite lookup_empty. Qed.

(** [out] takes the views of [s] to those of [s']. *)
Definition follows (s s' : Inner) (out : list Output) : Prop :=
  (∀ vlan g, group_view vlan g (pushed_of s vlan g) out = pushed_of s' vlan g) ∧
  (∀ vlan, mrouter_view vlan (scope_of s vlan) out = scope_of s' vlan).

Lemma follows_app s1 s2 s3 o1 o2 : follows s1 s2 o1 → follows s2 s3 o2 → follows s1 s3 (o1 ++ o2).
Proof.
  intros [A1 B1] [A2 B2]. split.
  - intros vlan g. by rewrite group_view_app, A1, A2.
  - intros vlan. by rewrite mrouter_view_app, B1, B2.
Qed.

Lemma follows_silent s s' :
  (∀ vlan, pushed_groups (default default_state (vlans s' !! vlan))
           = pushed_groups (default default_state (vlans s !! vlan))
         ∧ pushed_mrouters (default default_state (vlans s' !! vlan))
           = pushed_mrouters (default default_state (vlans s !! vlan))) →
  follows s s' [].
Proof.
  intros H. split; intros vlan; [intros g|]; destruct (H vlan) as [H1 H2]; cbn.
  - by rewrite !pushed_of_default, H1.
  - by rewrite !scope_of_default, H2.
Qed.

Lemma vlan_pass_follows now vlan s : follows s (vlan_pass now vlan s).1 (vlan_pass now vlan s).2.
Proof.
  destruct (vlan_pass_spec now vlan s) as (Hst & Hg & Hm & Ho & _).
  destruct (vlan_pass_frame now vlan s) as (_ & _ & _ & _ & Hv).
  unfold follows. split; intros v; [intros g|]; rewrite ?pushed_of_default, ?scope_of_default;
    (destruct (decide (v = vlan)) as [->|Hne];
     [rewrite Hst|rewrite Hv by done; specialize (Ho v Hne); apply Forall_and in Ho as [Ho1 Ho2]]).
  - apply Hg.
  - by apply group_view_other.
  - apply Hm.
  - by apply mrouter_view_other.
Qed.

Lemma passes_follows now l s : follows s (passes now l s).1 (passes now l s).2.
Proof.
  revert s. induction l as [|v l IH]; intros s; [by split|]. cbn [passes].
  pose proof (vlan_pass_follows now v s) as H1. destruct (vlan_pass now v s) as [s1 out].
  specialize (IH s1). destruct (passes now l s1). cbn in *. by eapply follows_app.
Qed.

Lemma apply_message_follows now port vlan m s : follows s (apply_message now port vlan m s) [].
Proof.
  apply follows_silent. intros v. unfold apply_message. cbn [vlans with_vlan].
  destruct (decide (v = vlan)) as [->|Hne]; [rewrite lookup_insert_eq|by rewrite lookup_insert_ne].
  destruct (vlans s !! vlan); cbn; destruct m; cbn; try done; by case_match.
Qed.

Lemma on_event_follows e s : follows s (on_event e s) [].
Proof.
  destruct e as [| |clock port vlan frame]; cbn; [by split..|]. unfold packet_in.
  case_match; [|by split]. case_match; [|by split].
  generalize (imap pair a). clear. intros l. revert s.
  induction l as [|x l IH]; intros s; [by split|]. cbn.
  eapply (follows_app s _ _ [] []); [apply apply_message_follows|apply IH].
Qed.

Lemma act_follows a s : follows s (act a s).1 (act a s).2.
Proof.
  destruct a as [c|m|now e]; [by split|by split|]. cbn [act]. unfold handle.
  apply (follows_app s (on_event e s) _ [] (step now (on_event e s)).2);
    [apply on_event_follows|apply passes_follows].
Qed.

Lemma run_follows acts s : follows s (run acts s).1 (run acts s).2.
Proof.
  revert s. induction acts as [|a acts IH]; intros s; [by split|]. cbn [run].
  pose proof (act_follows a s) as H1. destruct (act a s) as [s1 out].
  specialize (IH s1). destruct (run acts s1). cbn in *. by eapply follows_app.
Qed.

Lemma run_snoc acts a s :
  run (acts ++ [a]) s
  = ((act a (run acts s).1).1, (run acts s).2 ++ (act a (run acts s).1).2).
Proof.
  revert s. induction acts as [|b acts IH]; intros s; cbn [app run].
  - cbn [fst snd]. destruct (act a s). cbn. by rewrite app_nil_r.
  - destruct (act b s) as [s1 out]. rewrite IH. destruct (run acts s1). cbn.
    by rewrite (assoc_L (++)).
Qed.

Lemma elem_of_wanted mset gs g ports p :
  wanted_groups mset gs !! g = Some ports →
  p ∈ ports ↔ (∃ ms, gs !! g = Some ms ∧ is_Some (ms !! p)) ∨ p ∈ mset.
Proof.
  unfold wanted_groups. rewrite lookup_fmap. intros (ms & Hg & ->)%fmap_Some.
  rewrite elem_of_sort_dedup, elem_of_app, elem_of_btree_keys. naive_solver.
Qed.

(** A live member of a group: reported within the hold, and no leave of it
    has run out. *)
Definition is_member (s : Inner) (vlan now : N) (g : IpAddr) (p : string) : Prop :=
  ∃ st ms m, vlans s !! vlan = Some st ∧ groups st !! g = Some ms ∧ ms !! p = Some m
    ∧ since now (last_report m) < membership_hold s
    ∧ (∀ at_, pending_leave m = Some at_ → since now at_ < last_member_interval (config s)).

Lemma settled_member now vlan s st g p :
  vlans s !! vlan = Some st → settled now vlan s st →
  is_member s vlan now g p ↔ ∃ ms, groups st !! g = Some ms ∧ is_Some (ms !! p).
Proof.
  intros Hst [Hm _ _]. split.
  - intros (st' & ms & m & Hst' & Hg & Hp & _). simplify_eq. eauto.
  - intros (ms & Hg & m & Hp). destruct (Hm g ms Hg) as (_ & _ & He). specialize (He p m Hp).
    unfold expired in He. apply orb_false_iff in He as [He1 He2].
    apply N.leb_gt in He2. exists st, ms, m. split_and!; [done..|].
    intros at_ Hl. rewrite Hl in He1. by apply N.leb_gt in He1.
Qed.

(** The scope restricts to the mrouters of an enabled VLAN that has one or
    runs a querier. *)
Lemma scope_spec s vlan now :
  let sc := scope (vlan_enabled s vlan) (default default_vlan (cfg_vlans (config s) !! vlan))
              (mrouters s vlan now) in
  (sc.1 = true ↔ vlan_enabled s vlan = true ∧
     ((∃ p, is_mrouter s vlan now p) ∨ ∃ c, cfg_vlans (config s) !! vlan = Some c ∧ querier c = true)) ∧
  ∀ p, p ∈ sc.2 ↔ sc.1 = true ∧ is_mrouter s vlan now p.
Proof.
  unfold scope. cbn [fst snd].
  assert (querier (default default_vlan (cfg_vlans (config s) !! vlan)) = true
    ↔ ∃ c, cfg_vlans (config s) !! vlan = Some c ∧ querier c = true) as Hq
    by (destruct (cfg_vlans (config s) !! vlan); cbn; naive_solver).
  assert (mrouters s vlan now ≠ [] ↔ ∃ p, is_mrouter s vlan now p) as Hne.
  { setoid_rewrite <-elem_of_mrouters. destruct (mrouters s vlan now) as [|p l].
    - split; [done|]. by intros [p ?%elem_of_nil].
    - split; [|done]. intros _. exists p. left. }
  set (r := vlan_enabled s vlan && _). split.
  - subst r. by rewrite andb_true_iff, orb_true_iff, negb_true_iff, bool_decide_eq_false, Hq, Hne.
  - intros p. destruct r; [|split; [by intros ?%elem_of_nil|by intros [? _]]].
    rewrite elem_of_mrouters. tauto.
Qed.

(** C21: after every turn of the loop, whatever came before, the last update
    sent for a group of a VLAN names exactly its live members and the VLAN's
    mrouters; there is one exactly when the group has a live member on an
    enabled VLAN; and the last scope sent restricts unknown multicast to the
    mrouters exactly when the VLAN is enabled and has an mrouter or a
    configured querier, and floods otherwise. *)
Theorem snoop_outputs_exact f mac acts now e s out vlan :
  run (acts ++ [AEvent now e]) (spawn f mac) = (s, out) →
  (∀ g ports, group_view vlan g None out = Some ports →
     ∀ p, p ∈ ports ↔ is_member s vlan now g p ∨ is_mrouter s vlan now p) ∧
  (∀ g, is_Some (group_view vlan g None out) ↔ ∃ p, is_member s vlan now g p) ∧
  (∀ g p, is_member s vlan now g p → vlan_enabled s vlan = true) ∧
  (∀ r ports, mrouter_view vlan None out = Some (r, ports) →
     (r = true ↔ vlan_enabled s vlan = true ∧
        ((∃ p, is_mrouter s vlan now p) ∨ ∃ c, cfg_vlans (config s) !! vlan = Some c ∧ querier c = true)) ∧
     ∀ p, p ∈ ports ↔ r = true ∧ is_mrouter s vlan now p).
Proof.
  intros Hrun.
  assert (follows (spawn f mac) s out) as [Hfg Hfm].
  { pose proof (run_follows (acts ++ [AEvent now e]) (spawn f mac)) as H. by rewrite Hrun in H. }
  assert (∀ st, vlans s !! vlan = Some st → settled now vlan s st) as Hset.
  { rewrite run_snoc in Hrun. injection Hrun as <- _. intros st. apply step_settled. }
  specialize (Hfm vlan). specialize (Hfg vlan).
  rewrite (scope_of_spawn f mac) in Hfm. setoid_rewrite (pushed_of_spawn f mac) in Hfg.
  unfold pushed_of, scope_of in *. clear Hrun.
  destruct (vlans s !! vlan) as [st|] eqn:Hst.
  2: { cbn in *. split_and!.
       - intros g ports. by rewrite Hfg.
       - intros g. rewrite Hfg. split; [by intros []|]. intros (p & ? & ? & ? & ? & _). congruence.
       - intros g p (? & ? & ? & ? & _). congruence.
       - intros r ports. by rewrite Hfm. }
  specialize (Hset st eq_refl). pose proof Hset as [Hmem Hgr Hsc]. cbn in *. rewrite Hgr in Hfg.
  split_and!.
  - intros g ports. rewrite Hfg. intros Hw p.
    rewrite (elem_of_wanted _ _ _ _ _ Hw), elem_of_mrouters. by rewrite settled_member.
  - intros g. rewrite Hfg. unfold wanted_groups. rewrite lookup_fmap, fmap_is_Some. split.
    + intros [ms Hg]. destruct (Hmem g ms Hg) as (_ & Hne & _).
      apply map_choose in Hne as (p & m & Hp). exists p. rewrite settled_member by done. eauto.
    + intros [p Hp]. rewrite settled_member in Hp by done. destruct Hp as (ms & Hg & _). by exists ms.
  - intros g p Hp. rewrite settled_member in Hp by done. destruct Hp as (ms & Hg & _).
    by destruct (Hmem g ms Hg).
  - intros r ports. rewrite Hfm, Hsc. intros [= <- <-].
    apply scope_spec.
Qed.

(** ** Joining and leaving *)

Definition member_at (s : Inner) (vlan : N) (g : IpAddr) (p : string) : option Member :=
  st ← vlans s !! vlan; ms ← groups st !! g; ms !! p.

Definition live (s : Inner) (now vlan : N) (m : Member) : Prop :=
  vlan_enabled s vlan = true
  ∧ expired now (membership_hold s) (last_member_interval (config s)) m = false.

Lemma vlan_pass_member now v s vlan g p m :
  member_at (vlan_pass now v s).1 vlan g p = Some m ↔
  member_at s vlan g p = Some m ∧ (v = vlan → live s now vlan m).
Proof.
  destruct (vlan_pass_spec now v s) as (Hst & _).
  destruct (vlan_pass_frame now v s) as (_ & _ & _ & _ & Hv).
  unfold member_at. destruct (decide (vlan = v)) as [->|Hne].
  2: { rewrite Hv by done. naive_solver. }
  rewrite Hst. cbn [mbind option_bind groups]. unfold live.
  destruct (groups (expire _ _ _ _ _ _) !! g) as [ms|] eqn:Eg; cbn.
  - apply expire_members in Eg as (ms0 & Hen & Hg & -> & Hne).
    destruct (vlans s !! v) as [st|]; cbn in *; [|by rewrite lookup_empty in Hg].
    rewrite Hg. cbn. rewrite btree_retain_lookup, Hen.
    destruct (ms0 !! p) as [m'|]; [|naive_solver].
    destruct (expired _ _ _ m') eqn:E; cbn; [|naive_solver].
    split; [done|]. intros [[= <-] H]. destruct (H eq_refl). congruence.
  - split; [done|]. intros [Hm Hl]. destruct (Hl eq_refl) as [Hen He]. exfalso.
    destruct (vlans s !! v) as [st|]; cbn -[expire] in *; [|done].
    destruct (groups st !! g) as [ms0|] eqn:Hg; cbn in Hm; [|done].
    set (ms := btree_retain (λ _ m, negb (expired now (membership_hold s) (last_member_interval (config s)) m)) ms0).
    assert (ms !! p = Some m) as Hp by (subst ms; by rewrite btree_retain_lookup, Hm, He).
    assert (groups (expire (vlan_enabled s v) now (membership_hold s) (querier_hold s)
      (last_member_interval (config s)) st) !! g = Some ms) as Hc; [|congruence].
    apply expire_members. exists ms0. split_and!; [done..|]. intros Hz. by rewrite Hz, lookup_empty in Hp.
Qed.

Lemma passes_member now l s vlan g p m :
  member_at (passes now l s).1 vlan g p = Some m ↔
  member_at s vlan g p = Some m ∧ (vlan ∈ l → live s now vlan m).
Proof.
  revert s. induction l as [|v l IH]; intros s; cbn [passes].
  { split; [|by intros []]. intros H. split; [done|by intros ?%elem_of_nil]. }
  pose proof (vlan_pass_member now v s vlan g p m) as Hp.
  destruct (vlan_pass_frame now v s) as (_ & Hc & _).
  destruct (vlan_pass now v s) as [s1 out]. cbn in Hp, Hc. specialize (IH s1).
  destruct (passes now l s1) as [s2 out']. cbn in *. rewrite IH, Hp.
  assert (live s1 now vlan m ↔ live s now vlan m) as ->
    by (unfold live, vlan_enabled, membership_hold; by rewrite Hc).
  rewrite elem_of_cons. destruct (decide (vlan = v)); naive_solver.
Qed.

(** A pass keeps exactly the live members. *)
Lemma step_member now s vlan g p m :
  member_at (step now s).1 vlan g p = Some m ↔ member_at s vlan g p = Some m ∧ live s now vlan m.
Proof.
  unfold step. rewrite passes_member. split; intros [Hm Hl]; (split; [done|]); [|done].
  apply Hl. apply elem_of_app. left. apply elem_of_btree_keys.
  unfold member_at in Hm. destruct (vlans s !! vlan); [by eexists|done].
Qed.

Lemma expired_false now hold lm m :
  expired now hold lm m = false ↔
  since now (last_report m) < hold ∧ ∀ at_, pending_leave m = Some at_ → since now at_ < lm.
Proof.
  unfold expired. rewrite orb_false_iff, N.leb_gt.
  destruct (pending_leave m) as [a|]; [rewrite N.leb_gt|]; naive_solver.
Qed.

Lemma is_member_at s vlan now g p :
  is_member s vlan now g p ↔
  ∃ m, member_at s vlan g p = Some m
    ∧ expired now (membership_hold s) (last_member_interval (config s)) m = false.
Proof.
  unfold is_member, member_at. setoid_rewrite expired_false. split.
  - intros (st & ms & m & Hst & Hg & Hp & H1 & H2). exists m. rewrite Hst. cbn. rewrite Hg. cbn. auto.
  - intros (m & Hm & H1 & H2). apply bind_Some in Hm as (st & Hst & Hm).
    apply bind_Some in Hm as (ms & Hg & Hp). exists st, ms, m. auto.
Qed.

Lemma step_config now s : config (step now s).1 = config s.
Proof. apply passes_config. Qed.

(** The members after a turn: those of the state after the event, if live. *)
Lemma step_is_member now s vlan g p :
  is_member (step now s).1 vlan now g p ↔ is_member s vlan now g p ∧ vlan_enabled s vlan = true.
Proof.
  rewrite !is_member_at. unfold membership_hold. rewrite step_config.
  setoid_rewrite step_member. unfold live. naive_solver.
Qed.

(** A message touches the membership of its own port only. *)
Lemma apply_message_member at_ port vlan msg s vlan' g p :
  member_at (apply_message at_ port vlan msg s) vlan' g p =
  if decide (vlan' = vlan ∧ p = port) then
    match msg with
    | Report g' v => if decide (g = g') then Some (mkMember at_ v None) else member_at s vlan g p
    | Leave g' =>
        if decide (g = g') then
          m ← member_at s vlan g p;
          if default false (fast_leave <$> cfg_vlans (config s) !! vlan) then None
          else Some (mkMember (last_report m) (version m) (Some at_))
        else member_at s vlan g p
    | Query _ => member_at s vlan g p
    end
  else member_at s vlan' g p.
Proof.
  unfold member_at, apply_message. cbn [vlans with_vlan].
  destruct (decide (vlan' = vlan)) as [->|Hv].
  2: { rewrite lookup_insert_ne by done. by rewrite decide_False by naive_solver. }
  rewrite lookup_insert_eq. cbn [mbind option_bind].
  assert (∀ g, (st ← vlans s !! vlan; ms ← groups st !! g; ms !! p)
    = (ms ← groups (default default_state (vlans s !! vlan)) !! g; ms !! p)) as Hd.
  { intros g0. destruct (vlans s !! vlan); [done|]. cbn. by rewrite lookup_empty. }
  rewrite Hd. set (st := default default_state (vlans s !! vlan)). clearbody st.
  destruct msg as [g' v|g'|src]; cbn [groups set_groups].
  - destruct (decide (g = g')) as [->|Hg].
    + rewrite lookup_insert_eq. cbn [mbind option_bind].
      destruct (decide (p = port)) as [->|Hp].
      * rewrite lookup_insert_eq. by rewrite decide_True.
      * rewrite lookup_insert_ne by done. rewrite decide_False by naive_solver.
        destruct (groups st !! g'); cbn; [done|apply lookup_empty].
    + rewrite lookup_insert_ne by done. by case_decide.
  - destruct (groups st !! g') as [ms|] eqn:Eg; cbn [groups set_groups].
    + destruct (decide (g = g')) as [->|Hg].
      * rewrite lookup_insert_eq, Eg. cbn [mbind option_bind].
        destruct (decide (p = port)) as [->|Hp].
        -- rewrite decide_True by done.
           destruct (default false _); [rewrite lookup_delete_eq|rewrite lookup_alter_eq]; by destruct (ms !! port).
        -- rewrite decide_False by naive_solver.
           destruct (default false _); [by rewrite lookup_delete_ne|by rewrite lookup_alter_ne].
      * rewrite lookup_insert_ne by done. by case_decide.
    + destruct (decide (g = g')) as [->|Hg]; [|by case_decide].
      rewrite Eg. cbn. by case_decide.
  - by case_decide.
Qed.

Lemma apply_message_other at_ port vlan msg s g p :
  p ≠ port ∨ msg ≠ Leave g ∧ (∀ v, msg ≠ Report g v) →
  member_at (apply_message at_ port vlan msg s) vlan g p = member_at s vlan g p.
Proof.
  intros Hne. rewrite apply_message_member. case_decide as E; [|done].
  destruct E as [_ ->]. destruct Hne as [?|[Hl Hr]]; [done|].
  destruct msg as [g' v|g'|src]; [..|done]; case_decide; naive_solver.
Qed.

(** A frame that carries one message. *)
Lemma on_event_one clock port vlan frame msg s :
  vlan_enabled s vlan = true → parse (family s) frame = Ok [msg] →
  on_event (Packet clock port vlan frame) s = apply_message (clock 0%nat) port vlan msg s.
Proof. intros He Hp. cbn. unfold packet_in. by rewrite He, Hp. Qed.

Lemma apply_message_config at_ port vlan msg s : config (apply_message at_ port vlan msg s) = config s.
Proof. done. Qed.

(** C22: on an enabled VLAN a report makes its port a member of the group; a
    leave removes it at once under fast-leave, and otherwise keeps a member
    for the last-member interval and no longer; nothing else about the
    membership of the VLAN changes. *)
Theorem snoop_join_leave clock port vlan frame now s g :
  vlan_enabled s vlan = true →
  let at_ := clock 0%nat in
  let s' := (handle now (Packet clock port vlan frame) s).1 in
  (∀ v, parse (family s) frame = Ok [Report g v] → since now at_ < membership_hold s →
     is_member s' vlan now g port) ∧
  (parse (family s) frame = Ok [Leave g] →
     default false (fast_leave <$> cfg_vlans (config s) !! vlan) = true →
     ¬ is_member s' vlan now g port) ∧
  (parse (family s) frame = Ok [Leave g] →
     default false (fast_leave <$> cfg_vlans (config s) !! vlan) = false →
     (is_member s vlan now g port → since now at_ < last_member_interval (config s) →
      is_member s' vlan now g port) ∧
     ∀ now', last_member_interval (config s) ≤ since now' at_ →
       ¬ is_member (step now' s').1 vlan now' g port) ∧
  (∀ msg g' p', parse (family s) frame = Ok [msg] → p' ≠ port ∨ msg ≠ Leave g' ∧ (∀ v, msg ≠ Report g' v) →
     is_member s' vlan now g' p' ↔ is_member s vlan now g' p').
Proof.
  intros Hen at_ s'.
  assert (∀ msg, parse (family s) frame = Ok [msg] → ∀ g' p',
    is_member s' vlan now g' p' ↔ is_member (apply_message at_ port vlan msg s) vlan now g' p') as Hs'.
  { intros msg Hp g' p'. subst s'. unfold handle. rewrite (on_event_one _ _ _ _ msg) by done.
    rewrite step_is_member. unfold vlan_enabled in *. rewrite apply_message_config. tauto. }
  split_and!.
  - intros v Hp Hs. rewrite (Hs' _ Hp), is_member_at, apply_message_member.
    rewrite decide_True, decide_True by done. eexists. split; [done|].
    apply expired_false. split; [done|]. by intros.
  - intros Hp Hf. rewrite (Hs' _ Hp), is_member_at, apply_message_member.
    rewrite decide_True, decide_True by done. rewrite Hf.
    intros (m & Hm & _). by destruct (member_at s vlan g port).
  - intros Hp Hf. split.
    + rewrite (Hs' _ Hp), !is_member_at, apply_message_member.
      rewrite decide_True, decide_True by done. rewrite Hf.
      intros (m & -> & He) Ht. eexists. split; [done|]. apply expired_false in He as [He _].
      apply expired_false. split; [done|]. by intros ? [= <-].
    + intros now' Hle. rewrite step_is_member, is_member_at. subst s'.
      intros [(m & Hm & He) _]. unfold handle in *. rewrite (on_event_one _ _ _ _ _ _ Hen Hp) in *.
      apply step_member in Hm as [Hm _]. rewrite apply_message_member in Hm.
      rewrite decide_True, decide_True, Hf in Hm by done.
      destruct (member_at s vlan g port) as [m0|]; cbn in Hm; [|done]. injection Hm as <-.
      apply expired_false in He as [_ He]. specialize (He at_ eq_refl).
      rewrite step_config in He. cbn in He. lia.
  - intros msg g' p' Hp Hne. rewrite (Hs' _ Hp), !is_member_at.
    by setoid_rewrite (apply_message_other at_ port vlan msg s g' p' Hne).
Qed.

(** ** The local querier *)

(** The switch may query a VLAN: it is a configured querier, has heard no
    lower-addressed one within the hold, and its last query is an interval
    old. *)
Definition may_query (s : Inner) (vlan now : N) : Prop :=
  vlan_enabled s vlan = true
  ∧ (∃ c, cfg_vlans (config s) !! vlan = Some c ∧ querier c = true)
  ∧ ∀ st, vlans s !! vlan = Some st →
      (∀ src at_, other_querier st = Some (src, at_) → querier_hold s ≤ since now at_)
      ∧ (∀ t, last_query_tx st = Some t → query_interval (config s) ≤ since now t).

(** The foreign querier a pass leaves in place. *)
Lemma expire_other en now hold qhold lm st src at_ :
  other_querier (expire en now hold qhold lm st) = Some (src, at_) ↔
  en = true ∧ other_querier st = Some (src, at_) ∧ since now at_ < qhold.
Proof.
  unfold expire. cbn. destruct en; [|naive_solver].
  destruct (other_querier st) as [[src' at']|]; [|naive_solver].
  destruct (N.leb_spec qhold (since now at')); split; intros ?; destruct_and?; simplify_eq; try done; lia.
Qed.

Lemma query_due_iff s vlan now :
  query_due s vlan now (vlan_enabled s vlan) (default default_vlan (cfg_vlans (config s) !! vlan))
    (expire (vlan_enabled s vlan) now (membership_hold s) (querier_hold s)
       (last_member_interval (config s)) (default default_state (vlans s !! vlan))) = true
  ↔ may_query s vlan now.
Proof.
  unfold query_due, may_query. rewrite !andb_true_iff.
  set (st0 := default default_state (vlans s !! vlan)).
  assert (∀ P : VlanState → Prop, P default_state →
    (P st0 ↔ ∀ st, vlans s !! vlan = Some st → P st)) as Hst0.
  { intros P HP. subst st0. destruct (vlans s !! vlan); cbn; naive_solver. }
  assert (querier (default default_vlan (cfg_vlans (config s) !! vlan)) = true
    ↔ ∃ c, cfg_vlans (config s) !! vlan = Some c ∧ querier c = true) as ->
    by (destruct (cfg_vlans (config s) !! vlan); cbn; naive_solver).
  rewrite <-(Hst0 (λ st, (∀ src at_, other_querier st = Some (src, at_) → querier_hold s ≤ since now at_)
      ∧ (∀ t, last_query_tx st = Some t → query_interval (config s) ≤ since now t))) by done.
  cbn [last_query_tx expire].
  assert ((match last_query_tx st0 with
           | Some at_ => query_interval (config s) <=? since now at_
           | None => true
           end = true) ↔ ∀ t, last_query_tx st0 = Some t → query_interval (config s) ≤ since now t) as ->
    by (destruct (last_query_tx st0); [rewrite N.leb_le|]; naive_solver).
  split.
  - intros [[[He Hq] Ho] Ht]. split_and!; [done..| |done]. intros src at_ Hs.
    destruct (N.le_gt_cases (querier_hold s) (since now at_)) as [|Hlt]; [done|].
    assert (other_querier (expire (vlan_enabled s vlan) now (membership_hold s) (querier_hold s)
       (last_member_interval (config s)) st0) = Some (src, at_)) as E by (by apply expire_other).
    by rewrite E in Ho.
  - intros (He & Hq & Ho & Ht). split_and!; [done..| |done].
    destruct (other_querier (expire _ _ _ _ _ _)) as [[src at_]|] eqn:E; [|done].
    apply expire_other in E as (_ & E & Hlt). specialize (Ho _ _ E). lia.
Qed.

Lemma may_query_local s s' vlan now :
  config s' = config s → vlans s' !! vlan = vlans s !! vlan → may_query s' vlan now ↔ may_query s vlan now.
Proof.
  intros Hc Hv. unfold may_query, vlan_enabled, querier_hold. by rewrite Hc, Hv.
Qed.

(** Being visited never makes a VLAN due. *)
Lemma vlan_pass_may_query now v s vlan :
  may_query (vlan_pass now v s).1 vlan now → may_query s vlan now.
Proof.
  destruct (vlan_pass_spec now v s) as (Hst & _).
  destruct (vlan_pass_frame now v s) as (_ & Hc & _ & _ & Hv).
  destruct (decide (vlan = v)) as [->|Hne]; [|by rewrite (may_query_local s) by auto].
  intros Hm. apply query_due_iff.
  destruct (query_due s v now _ _ _) eqn:Ed; [done|]. rewrite <-Ed. apply query_due_iff.
  destruct Hm as (He & Hq & Hm). unfold vlan_enabled, querier_hold in *. rewrite Hc in *.
  specialize (Hm _ Hst) as [Ho Ht]. cbn [other_querier last_query_tx] in *.
  split_and!; [done..|]. intros st Hst0. rewrite Hst0 in *. cbn [default from_option id] in *. split.
  - intros src at_ Hs. destruct (N.le_gt_cases (querier_hold s) (since now at_)) as [|Hlt]; [done|].
    apply (Ho src). apply expire_other. done.
  - intros t. apply Ht.
Qed.

Definition query_frame (s : Inner) (vlan : N) : list N :=
  encode_general_query (family s) (system_mac s) (querier_source s vlan).

Lemma passes_queries now l s p f :
  SendQuery p f ∈ (passes now l s).2 ↔
  ∃ vlan, vlan ∈ l ∧ may_query s vlan now ∧ p ∈ default [] (vlan_ports s !! vlan) ∧ f = query_frame s vlan.
Proof.
  revert s. induction l as [|v l IH]; intros s; cbn [passes].
  { split; [by intros ?%elem_of_nil|]. by intros (? & ?%elem_of_nil & _). }
  destruct (vlan_pass_spec now v s) as (_ & _ & _ & _ & Hq). specialize (Hq p f).
  rewrite query_due_iff in Hq.
  destruct (vlan_pass_frame now v s) as (Hf & Hc & Hpo & Hma & Hv).
  pose proof (vlan_pass_may_query now v s) as Hmq.
  destruct (vlan_pass now v s) as [s1 out]. cbn in *. specialize (IH s1).
  destruct (passes now l s1) as [s2 out']. cbn in *. rewrite elem_of_app, Hq, IH, Hpo.
  assert (∀ vlan, query_frame s1 vlan = query_frame s vlan) as Hfr
    by (intros vlan; unfold query_frame, querier_source; by rewrite Hf, Hc, Hma).
  setoid_rewrite Hfr. setoid_rewrite elem_of_cons. split.
  - intros [(Hm & Hp & ->)|(vlan & Hin & Hm & Hp & ->)].
    + exists v. split_and!; [by left|done..].
    + exists vlan. split_and!; [by right|by apply Hmq|done..].
  - intros (vlan & Hin & Hm & Hp & ->).
    destruct (decide (vlan = v)) as [->|Hne]; [by left|right].
    destruct Hin as [?|Hin]; [done|]. exists vlan. split_and!; [done| |done..].
    apply (may_query_local s); auto.
Qed.


(** Of two queriers of one VLAN that hear each other, the one with the
    lower address goes on and the other is silent for the hold. *)
Theorem snoop_election vlan s1 s2 clock1 clock2 port1 port2 :
  family s1 = family s2 → length (system_mac s1) = 6%nat → length (system_mac s2) = 6%nat →
  vlan_enabled s1 vlan = true → vlan_enabled s2 vlan = true →
  addr_ok (family s1) (querier_source s1 vlan) → addr_ok (family s2) (querier_source s2 vlan) →
  key_lt (querier_source s1 vlan) (querier_source s2 vlan) →
  let s1' := on_event (Packet clock1 port1 vlan (query_frame s2 vlan)) s1 in
  let s2' := on_event (Packet clock2 port2 vlan (query_frame s1 vlan)) s2 in
  (∀ now, may_query s1' vlan now ↔ may_query s1 vlan now) ∧
  (∀ now, since now (clock2 0%nat) < querier_hold s2 → ¬ may_query s2' vlan now).
Proof.
  intros Hf Hm1 Hm2 He1 He2 Ha1 Ha2 Hlt. cbv zeta.
  rewrite (on_event_one _ _ _ _ (Query (querier_source s2 vlan))); [|done|].
  2: { rewrite Hf. by apply parse_general_query. }
  rewrite (on_event_one _ _ _ _ (Query (querier_source s1 vlan))); [|done|].
  2: { rewrite <-Hf. by apply parse_general_query. }
  split; intros now.
  - unfold may_query, vlan_enabled, querier_hold. rewrite apply_message_config.
    unfold apply_message. cbn [vlans with_vlan]. rewrite lookup_insert_eq.
    rewrite decide_False by (intros H; apply H; by apply key_lt_le).
    destruct (vlans s1 !! vlan) as [st|]; cbn; naive_solver.
  - intros Hs (_ & _ & Hm). unfold querier_hold in *. rewrite apply_message_config in Hm.
    unfold apply_message in Hm. cbn [vlans with_vlan] in Hm. rewrite lookup_insert_eq in Hm.
    specialize (Hm _ eq_refl) as [Ho _]. cbn [other_querier] in Ho.
    rewrite decide_True in Ho by done. specialize (Ho _ _ eq_refl). lia.
Qed.

(** ** Runs *)

Module SnoopDemo.
Definition mac1 : list N := [2; 0; 0; 0; 0; 1].
Definition mac2 : list N := [2; 0; 0; 0; 0; 2].
Definition clock (t : N) : nat → N := λ _, from_secs t.
Definition vlan10 (fast : bool) (a : IpAddr) : VlanConfig := mkVlanConfig false fast true (Some a) ["Ethernet9"].
Definition cfg (fast : bool) (a : IpAddr) : Config :=
  mkConfig false 2 {[ 10 := vlan10 fast a ]} (from_secs 125) (from_secs 2).
(** An IGMPv2 report or leave (kind 22 or 23) for 239.1.1.10. *)
Definition igmp_v2 (kind : N) : list N :=
  replicate 12 0 ++ [8; 0] ++ [69; 0; 0; 28; 0; 0; 0; 0; 1; 2; 0; 0; 10; 0; 0; 5; 239; 1; 1; 10]
  ++ [kind; 0; 0; 0; 239; 1; 1; 10].
Definition group : IpAddr := V4 4009820426.
Definition low : IpAddr := V4 167772161.
Definition high : IpAddr := V4 167772162.
Definition booted (fast : bool) (mac : list N) (a : IpAddr) : Inner :=
  (run [AConfig (cfg fast a); AVlanPorts {[ 10 := ["Ethernet1"; "Ethernet2"] ]}] (spawn Igmp mac)).1.
Definition joined (fast : bool) : list action :=
  [AConfig (cfg fast low); AEvent (from_secs 1) (Packet (clock 1) "Ethernet1" 10 (igmp_v2 22))].
End SnoopDemo.
Import SnoopDemo.

Lemma snoop_outputs_exact_witness :
  ∃ ports, group_view 10 group None (run (joined false) (spawn Igmp mac1)).2 = Some ports
    ∧ ∀ p, p ∈ ports ↔ is_member (run (joined false) (spawn Igmp mac1)).1 10 (from_secs 1) group p
                        ∨ is_mrouter (run (joined false) (spawn Igmp mac1)).1 10 (from_secs 1) p.
Proof.
  exists ["Ethernet1"; "Ethernet9"]. split; [by vm_compute|].
  destruct (snoop_outputs_exact Igmp mac1 [AConfig (cfg false low)] (from_secs 1)
    (Packet (clock 1) "Ethernet1" 10 (igmp_v2 22))
    (run (joined false) (spawn Igmp mac1)).1 (run (joined false) (spawn Igmp mac1)).2 10)
    as [H _]; [apply surjective_pairing|].
  apply H. by vm_compute.
Defined.

Lemma snoop_join_leave_witness :
  vlan_enabled (booted true mac1 low) 10 = true
  ∧ is_member (handle (from_secs 1) (Packet (clock 1) "Ethernet1" 10 (igmp_v2 22)) (booted true mac1 low)).1
      10 (from_secs 1) group "Ethernet1"
  ∧ ¬ is_member (handle (from_secs 1) (Packet (clock 1) "Ethernet1" 10 (igmp_v2 23)) (booted true mac1 low)).1
      10 (from_secs 1) group "Ethernet1".
Proof.
  split; [by vm_compute|]. split.
  - destruct (snoop_join_leave (clock 1) "Ethernet1" 10 (igmp_v2 22) (from_secs 1) (booted true mac1 low) group)
      as [H _]; [by vm_compute|]. apply (H 2); by vm_compute.
  - destruct (snoop_join_leave (clock 1) "Ethernet1" 10 (igmp_v2 23) (from_secs 1) (booted true mac1 low) group)
      as (_ & H & _); [by vm_compute|]. apply H; by vm_compute.
Defined.

Lemma snoop_election_witness :
  key_lt (querier_source (booted false mac1 low) 10) (querier_source (booted false mac2 high) 10)
  ∧ ¬ may_query (on_event (Packet (clock 1) "Ethernet7" 10 (query_frame (booted false mac1 low) 10))
       (booted false mac2 high)) 10 (from_secs 2).
Proof.
  assert (key_lt (querier_source (booted false mac1 low) 10) (querier_source (booted false mac2 high) 10)) as Hlt.
  { intros H. revert H. apply (bool_decide_eq_false_1 (key_le _ _)). by vm_compute. }
  split; [exact Hlt|].
  destruct (snoop_election 10 (booted false mac1 low) (booted false mac2 high) (clock 1) (clock 1)
    "Ethernet7" "Ethernet7") as [_ H]; [by vm_compute..|exact Hlt|].
  apply H. by vm_compute.
Defined.
