(* ===== verification/DhcpWire.v ===== *)
(** * DHCP, BOOTP and ARP framing (hemlock-orch/src/snoopsec.rs)

    The parsers of trapped frames, the relayed copy of a request, and the
    frame that carries a relayed reply to its client.  Indexing is fallible
    where the source indexes, [get] where the source uses [get]. *)

From Stdlib Require Import NArith Lia.
From stdpp Require Import base tactics list option.
From S2P Require Import Prelude Text Net SnoopWire.

Local Open Scope N_scope.

(** ** Options *)

(** The loop over the options, message type (53) and lease time (51) being
    the ones read.  Each turn consumes at least the code, so the length of
    the field is enough fuel ([options_fuel]). *)
Fixpoint dhcp_options (fuel : nat) (rest : list N) (message_type lease_secs : option N) :
    result panic (option N * option N) :=
  match fuel, rest with
  | O, _ | _, [] => Ok (message_type, lease_secs)
  | S fuel, code :: rest_after =>
      if code =? 0 then dhcp_options fuel rest_after message_type lease_secs
      else if code =? 255 then Ok (message_type, lease_secs)
      else
        match rest_after with
        | [] => Ok (message_type, lease_secs)
        | len :: value =>
            let len := N.to_nat len in
            if (length value <? len)%nat then Ok (message_type, lease_secs)
            else
              rest ← range len (length value) value;
              if (code =? 53) && (len =? 1)%nat then
                v ← index value 0;
                dhcp_options fuel rest (Some v) lease_secs
              else if (code =? 51) && (len =? 4)%nat then
                a ← index value 0;
                b ← index value 1;
                c ← index value 2;
                d ← index value 3;
                dhcp_options fuel rest message_type (Some (of_be32 a b c d))
              else dhcp_options fuel rest message_type lease_secs
        end
  end.

Definition MAGIC_COOKIE : list N := [99; 130; 83; 99].

(** [Ipv4Addr::new(l[at], l[at + 1], l[at + 2], l[at + 3])]. *)
Definition ipv4_at (l : list N) (at_ : nat) : result panic N :=
  a ← index l at_;
  b ← index l (at_ + 1);
  c ← index l (at_ + 2);
  d ← index l (at_ + 3);
  Ok (of_be32 a b c d).

(** ** Frames *)

Record DhcpMessage := mkDhcp {
  is_reply : bool;
  chaddr : list N;
  yiaddr : N;
  message_type : option N;
  lease_secs : option N;
}.

(** The BOOTP part of [parse_dhcp]. *)
Definition parse_dhcp_body (dhcp : list N) : result panic (option DhcpMessage) :=
  if (length dhcp <? 240)%nat then Ok None
  else
    op ← index dhcp 0;
    if negb (op =? 1) && negb (op =? 2) then Ok None
    else
      ch ← range 28 34 dhcp;
      yi ← ipv4_at dhcp 16;
      cookie ← range 236 240 dhcp;
      if bool_decide (cookie ≠ MAGIC_COOKIE) then Ok None
      else
        rest ← range 240 (length dhcp) dhcp;
        '(mt, lease) ← dhcp_options (length rest) rest None None;
        Ok (Some (mkDhcp (op =? 2) ch yi mt lease)).

Definition parse_dhcp (frame : list N) : result panic (option DhcpMessage) :=
  if (length frame <? 14 + 20 + 8)%nat then Ok None
  else
    ip ← range 14 (length frame) frame;
    ip0 ← index ip 0;
    if negb (N.shiftr ip0 4 =? 4) then Ok None
    else
      proto ← index ip 9;
      if negb (proto =? 17) then Ok None
      else
        let ihl := (N.to_nat (N.land ip0 15) * 4)%nat in
        match get_from ihl ip with
        | None => Ok None
        | Some udp =>
            match udp !! 2%nat, udp !! 3%nat with
            | Some hi, Some lo =>
                let dport := of_be16 hi lo in
                if negb ((dport =? 67) || (dport =? 68)) then Ok None
                else
                  match get_from 8 udp with
                  | None => Ok None
                  | Some dhcp => parse_dhcp_body dhcp
                  end
            | _, _ => Ok None
            end
        end.

Record ArpMessage := mkArp { arp_is_reply : bool; sha : list N; spa : N; tha : list N }.

Definition parse_arp (frame : list N) : result panic (option ArpMessage) :=
  match get_range 14 42 frame with
  | None => Ok None
  | Some arp =>
      hw ← range 0 2 arp;
      pr ← range 2 4 arp;
      hl ← index arp 4;
      pl ← index arp 5;
      if bool_decide (hw ≠ [0; 1]) || bool_decide (pr ≠ [8; 0]) || negb (hl =? 6) || negb (pl =? 4)
      then Ok None
      else
        o0 ← index arp 6;
        o1 ← index arp 7;
        s ← range 8 14 arp;
        ip ← ipv4_at arp 14;
        t ← range 18 24 arp;
        Ok (Some (mkArp (of_be16 o0 o1 =? 2) s ip t))
  end.

(** ** Relay framing *)

(** The payload behind the UDP header, cut at the IP total length. *)
Definition bootp_payload (frame : list N) : result panic (option (list N)) :=
  match get_from 14 frame with
  | None => Ok None
  | Some ip =>
      if (length ip <? 20)%nat then Ok None
      else
        ip0 ← index ip 0;
        proto ← index ip 9;
        if negb (N.shiftr ip0 4 =? 4) || negb (proto =? 17) then Ok None
        else
          let ihl := (N.to_nat (N.land ip0 15) * 4)%nat in
          hi ← index ip 2;
          lo ← index ip 3;
          e ← clamp (N.to_nat (of_be16 hi lo)) (ihl + 8) (length ip);
          Ok (get_range (ihl + 8) e ip)
  end.

(** [l[a..b].copy_from_slice(src)] for a source of the slice's length. *)
Definition copy_into (a b : nat) (src l : list N) : list N := take a l ++ src ++ drop b l.

(** [out[3].saturating_add(1)]. *)
Definition bump_hops (out : list N) : list N :=
  <[3%nat := N.min 255 (default 0 (out !! 3%nat) + 1)]> out.

Definition with_giaddr (payload : list N) (giaddr : N) : list N :=
  if (length payload <? 28)%nat then payload
  else
    let out := bump_hops payload in
    if decide (slice 24 28 out = [0; 0; 0; 0]) then copy_into 24 28 (octets 4 giaddr) out else out.

Record BootpReply := mkBootp {
  b_is_reply : bool;
  b_chaddr : list N;
  b_yiaddr : N;
  broadcast_flag : bool;
  b_message_type : option N;
  b_lease_secs : option N;
}.

Definition parse_bootp (payload : list N) : result panic (option BootpReply) :=
  if (length payload <? 240)%nat then Ok None
  else
    cookie ← range 236 240 payload;
    if bool_decide (cookie ≠ MAGIC_COOKIE) then Ok None
    else
      ch ← range 28 34 payload;
      rest ← range 240 (length payload) payload;
      '(mt, lease) ← dhcp_options (length rest) rest None None;
      op ← index payload 0;
      yi ← ipv4_at payload 16;
      flags ← index payload 10;
      Ok (Some (mkBootp (op =? 2) ch yi (negb (N.land flags 128 =? 0)) mt lease)).

(** The sum over [header.chunks(2)]. *)
Fixpoint sum_chunks (sum : N) (l : list N) : N :=
  match l with
  | [] => sum
  | [high] => wrap 32 (sum + of_be16 high 0)
  | high :: low :: l => sum_chunks (wrap 32 (sum + of_be16 high low)) l
  end.

(** [while sum >> 16 != 0]. *)
Fixpoint fold_high (fuel : nat) (sum : N) : N :=
  match fuel with
  | O => sum
  | S fuel =>
      if negb (N.shiftr sum 16 =? 0) then fold_high fuel (N.land sum 65535 + N.shiftr sum 16) else sum
  end.

Definition ip_checksum (header : list N) : N := 65535 - fold_high 3 (sum_chunks 0 header).

Definition reply_ip_header (total_len : N) (giaddr dst_ip : N) : list N :=
  let ip := [69; 0] ++ be16 (wrap 16 total_len) ++ [0; 0; 64; 0] ++ [64; 17] ++ [0; 0]
            ++ octets 4 giaddr ++ octets 4 dst_ip in
  patch16 10 (ip_checksum ip) ip.

Definition build_client_reply (system_mac : list N) (giaddr : N) (reply : BootpReply) (payload : list N) :
    list N :=
  let broadcast := broadcast_flag reply || (b_yiaddr reply =? 0) in
  let '(dst_mac, dst_ip) :=
    if broadcast then (replicate 6 255, 4294967295) else (b_chaddr reply, b_yiaddr reply) in
  let udp_len := 8 + N.of_nat (length payload) in
  let total_len := 20 + udp_len in
  let frame := dst_mac ++ system_mac ++ [8; 0] ++ reply_ip_header total_len giaddr dst_ip
               ++ be16 67 ++ be16 68 ++ be16 (wrap 16 udp_len) ++ [0; 0] ++ payload in
  if (length frame <? 60)%nat then frame ++ replicate (60 - length frame) 0 else frame.

(** ** No frame makes the parsers panic *)

Lemma ipv4_at_ok l at_ : (at_ + 4 ≤ length l)%nat → ∃ n, ipv4_at l at_ = Ok n.
Proof. intros H. unfold ipv4_at. in_bounds. eauto. Qed.

(** One turn of the option loop, whatever the fuel. *)
Lemma options_fuel f1 f2 rest mt lease :
  (length rest ≤ f1)%nat → (length rest ≤ f2)%nat →
  dhcp_options f1 rest mt lease = dhcp_options f2 rest mt lease.
Proof.
  revert f2 rest mt lease. induction f1 as [|f1 IH]; intros f2 rest mt lease H1 H2.
  { destruct rest; [|simpl in H1; lia]. by destruct f2. }
  destruct rest as [|code after]; [by destruct f2|].
  destruct f2 as [|f2]; [simpl in H2; lia|]. cbn [dhcp_options length] in *.
  destruct (code =? 0); [apply IH; lia|]. destruct (code =? 255); [done|].
  destruct after as [|len value]; [done|]. cbv zeta.
  destruct (Nat.ltb_spec (length value) (N.to_nat len)); [done|].
  destruct (range_ok value (N.to_nat len) (length value)) as [-> Hl]; [lia..|]. cbn [mbind result_bind].
  cbn [length] in *.
  assert (∀ mt lease, dhcp_options f1 (slice (N.to_nat len) (length value) value) mt lease
    = dhcp_options f2 (slice (N.to_nat len) (length value) value) mt lease) as Hr by (intros; apply IH; lia).
  repeat case_match; rewrite ?Hr; try done.
  - destruct (index value 0); cbn; [apply Hr|done].
  - repeat (destruct (index value _); cbn; [|done]). apply Hr.
Qed.

Lemma options_total f rest mt lease : no_panic (dhcp_options f rest mt lease).
Proof.
  revert rest mt lease. induction f as [|f IH]; intros rest mt lease; [by eexists|].
  destruct rest as [|code after]; [by eexists|]. cbn [dhcp_options].
  destruct (code =? 0); [apply IH|]. destruct (code =? 255); [by eexists|].
  destruct after as [|len value]; [by eexists|]. cbv zeta.
  destruct (Nat.ltb_spec (length value) (N.to_nat len)); [by eexists|].
  destruct (range_ok value (N.to_nat len) (length value)) as [-> Hl]; [lia..|]. cbn [mbind result_bind].
  destruct ((code =? 53) && (N.to_nat len =? 1)%nat) eqn:E1.
  { apply andb_true_iff in E1 as [_ E1]. apply Nat.eqb_eq in E1. in_bounds. apply IH. }
  destruct ((code =? 51) && (N.to_nat len =? 4)%nat) eqn:E2; [|apply IH].
  apply andb_true_iff in E2 as [_ E2]. apply Nat.eqb_eq in E2. in_bounds. apply IH.
Qed.

(** The steps of the parsers of this file. *)
Ltac dhcp_step :=
  match goal with
  | |- no_panic (mbind _ (ipv4_at ?l ?a)) => resolve (ipv4_at_ok l a)
  | |- no_panic (mbind _ (dhcp_options ?f ?l ?a ?b)) =>
      let x := fresh "x" in let y := fresh "y" in let E := fresh "E" in
      destruct (options_total f l a b) as ([x y] & E); rewrite E; cbn [mbind result_bind]; clear E
  | |- no_panic (match ?o with Some _ => _ | None => _ end) => destruct o eqn:?
  | |- _ => parse_step
  end.

Lemma parse_dhcp_body_total dhcp : no_panic (parse_dhcp_body dhcp).
Proof. unfold parse_dhcp_body. repeat dhcp_step. Qed.

Lemma parse_dhcp_total frame : no_panic (parse_dhcp frame).
Proof. unfold parse_dhcp. cbv zeta. repeat (dhcp_step || apply parse_dhcp_body_total). Qed.

Lemma parse_bootp_total payload : no_panic (parse_bootp payload).
Proof. unfold parse_bootp. repeat dhcp_step. Qed.

Lemma get_range_length {A} a b (l l' : list A) :
  get_range a b l = Some l' → length l' = (b - a)%nat ∧ (a ≤ b ≤ length l)%nat.
Proof.
  unfold get_range. destruct (Nat.leb_spec a b), (Nat.leb_spec b (length l)); try done.
  intros [= <-]. unfold slice. rewrite length_take, length_drop. lia.
Qed.

Lemma parse_arp_total frame : no_panic (parse_arp frame).
Proof.
  unfold parse_arp. destruct (get_range 14 42 frame) as [arp|] eqn:E; [|by eexists].
  apply get_range_length in E as [E _]. repeat dhcp_step.
Qed.

(** What [parse_dhcp] accepts has a payload: the bounds of the clamp are not
    crossed. *)
Lemma bootp_payload_ok frame d :
  parse_dhcp frame = Ok (Some d) → ∃ p, bootp_payload frame = Ok (Some p).
Proof.
  unfold parse_dhcp, bootp_payload.
  destruct (Nat.ltb_spec (length frame) (14 + 20 + 8)); [done|].
  destruct (range_ok frame 14 (length frame)) as [-> Hl]; [lia..|]. cbn [mbind result_bind].
  unfold get_from at 3. rewrite (proj2 (Nat.leb_le _ _)) by lia.
  assert (slice 14 (length frame) frame = drop 14 frame) as Hs
    by (unfold slice; apply take_ge; rewrite length_drop; lia).
  rewrite Hs in *. set (ip := drop 14 frame) in *. clearbody ip.
  rewrite (proj2 (Nat.ltb_ge _ _)) by lia.
  destruct (index_ok ip 0) as (ip0 & -> & _); [lia|]. cbn [mbind result_bind].
  destruct (N.shiftr ip0 4 =? 4); cbn [negb orb]; [|done].
  destruct (index_ok ip 9) as (proto & -> & _); [lia|]. cbn [mbind result_bind].
  destruct (proto =? 17); cbn [negb]; [|done]. cbv zeta.
  set (ihl := (N.to_nat (N.land ip0 15) * 4)%nat).
  destruct (index_ok ip 2) as (hi & -> & _); [lia|].
  destruct (index_ok ip 3) as (lo & -> & _); [lia|]. cbn [mbind result_bind].
  unfold get_from. destruct (Nat.leb_spec ihl (length ip)); [|done].
  destruct (drop ihl ip !! 2%nat), (drop ihl ip !! 3%nat); try done.
  destruct (negb _); [done|].
  destruct (Nat.leb_spec 8 (length (drop ihl ip))) as [H8|]; [|done]. intros _.
  rewrite length_drop in H8. unfold clamp. rewrite (proj2 (Nat.ltb_ge _ _)) by lia.
  cbn [mbind result_bind]. unfold get_range. eexists.
  rewrite (proj2 (Nat.leb_le _ _)) by lia. rewrite (proj2 (Nat.leb_le _ _)) by lia. done.
Qed.

(** ** The two checksums of the orchestrator agree *)

Lemma fold_high_carries f s : fold_high f s = fold_carries f s.
Proof.
  revert s. induction f as [|f IH]; intros s; [done|]. cbn [fold_high fold_carries]. rewrite IH.
  rewrite N.shiftr_div_pow2. change (2 ^ 16) with 65536.
  destruct (N.ltb_spec 65535 s) as [H|H].
  - assert (s / 65536 ≠ 0) as Hn by (apply N.neq_0_lt_0, N.div_str_pos; lia).
    by rewrite (proj2 (N.eqb_neq _ _) Hn).
  - by rewrite N.div_small by lia.
Qed.

(** The sum of chunks is the byte-wise sum with its carry. *)
Lemma sum_chunks_bytes l s :
  sum_chunks s l = match foldl checksum_byte (s, None) l with
                   | (sum, Some high) => wrap 32 (sum + of_be16 high 0)
                   | (sum, None) => sum
                   end.
Proof.
  remember (length l) as n eqn:Hn. revert l s Hn.
  induction (lt_wf n) as [n _ IH]; intros l s Hn. destruct l as [|a [|b l]]; [done|done|].
  cbn [sum_chunks foldl checksum_byte]. rewrite (IH (length l)); [done|cbn in Hn; lia|done].
Qed.

Lemma ip_checksum_checksum l : ip_checksum l = checksum [l].
Proof.
  unfold ip_checksum, checksum. rewrite fold_high_carries, sum_chunks_bytes. cbn [foldl].
  by destruct (foldl checksum_byte (0, None) l) as [sum [high|]].
Qed.

(** ** Options, against a reference encoding *)

(** Code and value of an option; the two codes without a length excluded. *)
Definition wire_option (o : N * list N) : list N := o.1 :: N.of_nat (length o.2) :: o.2.

Definition option_ok (o : N * list N) : Prop := o.1 ≠ 0 ∧ o.1 ≠ 255.

(** What an option contributes. *)
Definition read_option (acc : option N * option N) (o : N * list N) : option N * option N :=
  match o with
  | (53, [v]) => (Some v, acc.2)
  | (51, [a; b; c; d]) => (acc.1, Some (of_be32 a b c d))
  | _ => acc
  end.

Lemma range_rest (v l : list N) : range (length v) (length (v ++ l)) (v ++ l) = Ok l.
Proof. apply range_tail. Qed.

Lemma options_cons f o rest mt lease :
  option_ok o → (length (wire_option o ++ rest) ≤ f)%nat →
  dhcp_options f (wire_option o ++ rest) mt lease
  = dhcp_options f rest (read_option (mt, lease) o).1 (read_option (mt, lease) o).2.
Proof.
  intros [H0 H255] Hf. destruct o as [code v]. cbn [fst snd] in *.
  destruct f as [|f]; [cbn in Hf; lia|].
  unfold wire_option in *. cbn [fst snd app length] in *. rewrite length_app in Hf.
  rewrite (options_fuel (S f) f rest) by lia.
  set (rhs := dhcp_options f rest _ _). cbn [dhcp_options]. subst rhs.
  rewrite (proj2 (N.eqb_neq _ _) H0), (proj2 (N.eqb_neq _ _) H255). cbv zeta.
  rewrite Nat2N.id, length_app, (proj2 (Nat.ltb_ge _ _)) by lia.
  rewrite <-length_app, range_rest. cbn [mbind result_bind].
  destruct (N.eqb_spec code 53) as [->|H53]; cbn [andb].
  { destruct (Nat.eqb_spec (length v) 1) as [Hv|Hv].
    - destruct v as [|x [|]]; try done.
    - change (53 =? 51) with false. cbn [andb]. destruct v as [|x [|y v]]; try done. }
  destruct (N.eqb_spec code 51) as [->|H51]; cbn [andb].
  - destruct (Nat.eqb_spec (length v) 4) as [Hv|Hv].
    + destruct v as [|a [|b [|c [|d [|]]]]]; try done.
    + destruct v as [|a [|b [|c [|d [|e v]]]]]; try done.
  - assert (read_option (mt, lease) (code, v) = (mt, lease)) as ->; [|done].
    unfold read_option. repeat case_match; done.
Qed.

Lemma options_wire opts (pad : list N) mt lease f :
  Forall option_ok opts → (length (mjoin (wire_option <$> opts) ++ 255%N :: pad) ≤ f)%nat →
  dhcp_options f (mjoin (wire_option <$> opts) ++ 255 :: pad) mt lease
  = Ok (foldl read_option (mt, lease) opts).
Proof.
  intros Ho. revert mt lease. induction Ho as [|o opts Ho _ IH]; intros mt lease Hf.
  - destruct f; [cbn in Hf; lia|done].
  - rewrite fmap_cons, mjoin_cons, <-(assoc_L (++)) in *. rewrite options_cons by done.
    cbn [foldl]. rewrite IH; [by destruct (read_option (mt, lease) o)|].
    rewrite length_app in Hf. lia.
Qed.

(** ** A relayed reply reaches its client unchanged *)

Lemma parse_bootp_body payload r :
  parse_bootp payload = Ok (Some r) → b_is_reply r = true →
  parse_dhcp_body payload
  = Ok (Some (mkDhcp true (b_chaddr r) (b_yiaddr r) (b_message_type r) (b_lease_secs r)))
  ∧ (240 ≤ length payload)%nat ∧ length (b_chaddr r) = 6%nat.
Proof.
  unfold parse_bootp, parse_dhcp_body.
  destruct (Nat.ltb_spec (length payload) 240); [done|].
  destruct (range_ok payload 28 34) as [-> Hch]; [lia..|].
  destruct (range_ok payload 236 240) as [-> _]; [lia..|].
  destruct (range_ok payload 240 (length payload)) as [-> _]; [lia..|].
  destruct (index_ok payload 0) as (op & -> & _); [lia|].
  destruct (index_ok payload 10) as (fl & -> & _); [lia|].
  destruct (ipv4_at_ok payload 16) as [yi ->]; [lia|]. cbn [mbind result_bind].
  case_bool_decide; [done|].
  match goal with |- context [dhcp_options ?f ?l ?a ?b] =>
    destruct (options_total f l a b) as ([mt le] & ->) end.
  cbn [mbind result_bind]. intros [= <-]. cbn. intros Hop. rewrite Hop.
  apply N.eqb_eq in Hop as ->. done.
Qed.

Lemma reply_ip_header_shape total giaddr dst :
  ∃ c, c ≤ 65535
    ∧ reply_ip_header total giaddr dst
      = [69; 0] ++ be16 (wrap 16 total) ++ [0; 0; 64; 0; 64; 17] ++ be16 c ++ octets 4 giaddr ++ octets 4 dst
    ∧ checksum [reply_ip_header total giaddr dst] = 0.
Proof.
  set (a := [69; 0] ++ be16 (wrap 16 total) ++ [0; 0; 64; 0; 64; 17]).
  set (b := octets 4 giaddr ++ octets 4 dst).
  assert (reply_ip_header total giaddr dst = a ++ be16 (checksum [a ++ [0; 0] ++ b]) ++ b) as E.
  { unfold reply_ip_header. by rewrite ip_checksum_checksum. }
  assert (summable (a ++ [0; 0] ++ b)) as Hs.
  { exists 10%nat. split; [done|]. split; [done|]. subst a b. rewrite !Forall_app.
    split_and!; try (by repeat constructor); try apply octets_bytes. apply is_byte_be16, wrap_fits. }
  exists (checksum [a ++ [0; 0] ++ b]). split; [by apply checksum_le|]. split; [done|].
  rewrite E. by apply (checksum_verifies 5).
Qed.

(** The frame of a relayed reply, field by field. *)
Lemma client_reply_shape mac gi r payload :
  length mac = 6%nat → length (b_chaddr r) = 6%nat → (240 ≤ length payload)%nat →
  ∃ dst hdr, length dst = 6%nat ∧ length hdr = 20%nat ∧ checksum [hdr] = 0
    ∧ hdr !! 0%nat = Some 69 ∧ hdr !! 9%nat = Some 17
    ∧ (∃ a b, hdr !! 2%nat = Some a ∧ hdr !! 3%nat = Some b
         ∧ of_be16 a b = wrap 16 (28 + N.of_nat (length payload)))
    ∧ dst = (if broadcast_flag r || (b_yiaddr r =? 0) then replicate 6 255 else b_chaddr r)
    ∧ build_client_reply mac gi r payload
      = (dst ++ mac) ++ [8; 0] ++ hdr ++ (be16 67 ++ be16 68
          ++ be16 (wrap 16 (8 + N.of_nat (length payload))) ++ [0; 0]) ++ payload.
Proof.
  intros Hm Hc Hp. unfold build_client_reply.
  set (bc := broadcast_flag r || (b_yiaddr r =? 0)).
  set (dst_ip := if bc then 4294967295 else b_yiaddr r).
  set (dst := if bc then replicate 6 255 else b_chaddr r).
  assert ((if bc then (replicate 6 255, 4294967295) else (b_chaddr r, b_yiaddr r)) = (dst, dst_ip)) as ->
    by (subst dst dst_ip; by destruct bc).
  set (total := 20 + (8 + N.of_nat (length payload))).
  destruct (reply_ip_header_shape total gi dst_ip) as (c & _ & E & Hsum).
  assert (length dst = 6%nat) as Hd by (subst dst; by destruct bc).
  exists dst, (reply_ip_header total gi dst_ip).
  assert (length (reply_ip_header total gi dst_ip) = 20%nat) as Hh by by rewrite E.
  split_and!; try done.
  - exists (wrap 16 total / 256), (wrap 16 total mod 256). rewrite E. split; [done|]. split; [done|].
    rewrite of_be16_be16. f_equal. subst total. lia.
  - rewrite !length_app. rewrite (proj2 (Nat.ltb_ge _ _)) by lia.
    by rewrite <-!(assoc_L (++)).
Qed.

(** The UDP payload of an IPv4 frame without options. *)
Lemma parse_dhcp_frame eth hdr udp dhcp d0 d1 :
  length eth = 12%nat → length hdr = 20%nat → hdr !! 0%nat = Some 69 → hdr !! 9%nat = Some 17 →
  length udp = 8%nat → udp !! 2%nat = Some d0 → udp !! 3%nat = Some d1 →
  of_be16 d0 d1 = 67 ∨ of_be16 d0 d1 = 68 →
  parse_dhcp (eth ++ [8; 0] ++ hdr ++ udp ++ dhcp) = parse_dhcp_body dhcp.
Proof.
  intros He Hh H0 H9 Hu H2 H3 Hport. unfold parse_dhcp.
  destruct (ethernet_frame eth [8; 0] (hdr ++ udp ++ dhcp) He eq_refl) as (Hf & _ & ->).
  rewrite Hf, (proj2 (Nat.ltb_ge _ _)) by (rewrite !length_app; lia).
  cbn [mbind result_bind]. unfold index. rewrite !lookup_app_l by lia. rewrite H0, H9.
  cbn [mbind result_bind]. cbv zeta. change (negb (N.shiftr 69 4 =? 4)) with false.
  change (negb (17 =? 17)) with false. change (N.to_nat (N.land 69 15) * 4)%nat with 20%nat. cbv iota.
  assert (get_from 20 (hdr ++ udp ++ dhcp) = Some (udp ++ dhcp)) as ->.
  { unfold get_from. rewrite (proj2 (Nat.leb_le _ _)) by (rewrite length_app; lia).
    by rewrite drop_app_length'. }
  rewrite !lookup_app_l by lia. rewrite H2, H3.
  assert (negb ((of_be16 d0 d1 =? 67) || (of_be16 d0 d1 =? 68)) = false) as ->
    by (destruct Hport as [-> | ->]; done).
  unfold get_from. rewrite (proj2 (Nat.leb_le _ _)) by (rewrite length_app; lia).
  by rewrite drop_app_length'.
Qed.

Lemma bootp_payload_frame eth hdr udp payload a b :
  length eth = 12%nat → length hdr = 20%nat → hdr !! 0%nat = Some 69 → hdr !! 9%nat = Some 17 →
  hdr !! 2%nat = Some a → hdr !! 3%nat = Some b → of_be16 a b = 28 + N.of_nat (length payload) →
  length udp = 8%nat →
  bootp_payload (eth ++ [8; 0] ++ hdr ++ udp ++ payload) = Ok (Some payload).
Proof.
  intros He Hh H0 H9 H2 H3 Hab Hu. unfold bootp_payload.
  assert (get_from 14 (eth ++ [8; 0] ++ hdr ++ udp ++ payload) = Some (hdr ++ udp ++ payload)) as ->.
  { unfold get_from. rewrite (proj2 (Nat.leb_le _ _)) by (rewrite !length_app; cbn [length]; lia).
    rewrite (assoc_L (++)). rewrite drop_app_length'; [done|]. rewrite length_app. cbn [length]. lia. }
  rewrite (proj2 (Nat.ltb_ge _ _)) by (rewrite !length_app; lia).
  unfold index. rewrite !lookup_app_l by lia. rewrite H0, H9, H2, H3. cbn [mbind result_bind].
  change (negb (N.shiftr 69 4 =? 4)) with false. change (negb (17 =? 17)) with false. cbn [orb]. cbv zeta.
  change (N.to_nat (N.land 69 15) * 4)%nat with 20%nat. rewrite Hab.
  assert (length (hdr ++ udp ++ payload) = (28 + length payload)%nat) as Hl
    by (rewrite !length_app; lia).
  unfold clamp. rewrite Hl, (proj2 (Nat.ltb_ge _ _)) by lia. cbn [mbind result_bind].
  replace (Nat.max (20 + 8) (Nat.min (N.to_nat (28 + N.of_nat (length payload))) (28 + length payload)))
    with (28 + length payload)%nat by lia.
  unfold get_range. rewrite Hl, !(proj2 (Nat.leb_le _ _)) by lia. cbn [andb]. do 2 f_equal.
  unfold slice. rewrite (assoc_L (++)), drop_app_length' by (rewrite length_app; lia).
  apply take_ge. lia.
Qed.

(** A server reply the relay accepts is carried to the client intact:
    the frame built for it parses as a DHCP reply with the same client,
    address, type and lease, its payload is the server's payload, its IPv4
    header checksum verifies, and it goes to the client's own MAC unless the
    client asked for a broadcast or has no address. *)
Theorem relay_reply_intact mac gi payload r :
  parse_bootp payload = Ok (Some r) → b_is_reply r = true → length mac = 6%nat →
  N.of_nat (length payload) < 65508 →
  let f := build_client_reply mac gi r payload in
  parse_dhcp f
  = Ok (Some (mkDhcp true (b_chaddr r) (b_yiaddr r) (b_message_type r) (b_lease_secs r)))
  ∧ bootp_payload f = Ok (Some payload)
  ∧ checksum [slice 14 34 f] = 0
  ∧ take 6 f = (if broadcast_flag r || (b_yiaddr r =? 0) then replicate 6 255 else b_chaddr r).
Proof.
  intros Hp Hr Hm Hlen f. destruct (parse_bootp_body payload r Hp Hr) as (Hb & H240 & Hc).
  destruct (client_reply_shape mac gi r payload Hm Hc H240)
    as (dst & hdr & Hd & Hh & Hsum & H0 & H9 & (a & b & Ha & Hb' & Hab) & Hdst & E).
  subst f. rewrite E.
  assert (length (dst ++ mac) = 12%nat) as He by (rewrite length_app; lia).
  rewrite wrap_id in Hab by (unfold fits; change (2 ^ 16) with 65536; lia).
  split_and!.
  - rewrite <-Hb. eapply parse_dhcp_frame; try done. by right.
  - by eapply bootp_payload_frame.
  - rewrite <-Hsum. do 2 f_equal. unfold slice.
    rewrite (assoc_L (++) (dst ++ mac)), drop_app_length' by (rewrite length_app; cbn [length]; lia).
    by rewrite take_app_length' by lia.
  - rewrite <-Hdst, <-(assoc_L (++)), take_app_length'; [done|lia].
Qed.

(** The relayed copy of a request differs from it only in the hop count,
    one higher up to 255, and in a relay address that was empty, which
    becomes the switch's; a request another relay stamped keeps its address. *)
Theorem relay_request_stamped payload gi :
  (28 ≤ length payload)%nat →
  let out := with_giaddr payload gi in
  length out = length payload
  ∧ (∀ i, i ≠ 3%nat → ¬ (24 ≤ i < 28)%nat → out !! i = payload !! i)
  ∧ out !! 3%nat = (λ h, N.min 255 (h + 1)) <$> payload !! 3%nat
  ∧ slice 24 28 out = (if decide (slice 24 28 payload = [0; 0; 0; 0]) then octets 4 gi else slice 24 28 payload).
Proof.
  intros Hl. cbv zeta. unfold with_giaddr. rewrite (proj2 (Nat.ltb_ge _ _)) by done.
  assert (∀ i, i ≠ 3%nat → bump_hops payload !! i = payload !! i) as Hb
    by (intros i Hi; unfold bump_hops; by rewrite list_lookup_insert_ne).
  assert (length (bump_hops payload) = length payload) as Hlb by apply length_insert.
  assert (bump_hops payload !! 3%nat = (λ h, N.min 255 (h + 1)) <$> payload !! 3%nat) as Hb3.
  { unfold bump_hops. rewrite list_lookup_insert_eq by lia.
    destruct (lookup_lt_is_Some_2 payload 3) as [h Hh]; [lia|]. by rewrite Hh. }
  assert (slice 24 28 (bump_hops payload) = slice 24 28 payload) as Hs.
  { unfold slice. apply list_eq. intros i. destruct (decide (i < 4)%nat).
    - rewrite !lookup_take_lt by lia. rewrite !lookup_drop. apply Hb. lia.
    - rewrite !lookup_take_ge by lia. done. }
  rewrite Hs. case_decide as E; [|split_and!; auto].
  unfold copy_into. split_and!.
  - rewrite !length_app, length_take, length_drop, length_octets, Hlb. lia.
  - intros i Hi3 Hr. destruct (decide (i < 24)%nat).
    + rewrite lookup_app_l by (rewrite length_take; lia). rewrite lookup_take_lt by lia. by apply Hb.
    + rewrite (assoc_L (++)), lookup_app_r; rewrite length_app, length_take, length_octets; [|lia].
      rewrite lookup_drop, <-Hb by done. f_equal. lia.
  - rewrite lookup_app_l by (rewrite length_take; lia). by rewrite lookup_take_lt by lia.
  - unfold slice. rewrite drop_app_length' by (rewrite length_take; lia).
    by rewrite take_app_length' by (by rewrite length_octets).
Qed.

(** The fixed part of a BOOTP message is read off whatever follows it. *)
Lemma range_fixed (l l' : list N) a b : (a ≤ b ≤ length l)%nat → range a b (l ++ l') = Ok (slice a b l).
Proof.
  intros H. unfold range, slice. rewrite decide_True by (rewrite length_app; lia). f_equal.
  rewrite drop_app_le by lia. rewrite take_app_le; [done|]. rewrite length_drop. lia.
Qed.

Lemma ipv4_at_fixed l l' a : (a + 4 ≤ length l)%nat → ipv4_at (l ++ l') a = ipv4_at l a.
Proof. intros H. unfold ipv4_at, index. by rewrite !lookup_app_l by lia. Qed.

(** No frame makes the DHCP, BOOTP or ARP parsers index out of range,
    and a frame accepted as DHCP has a payload to relay.  A DHCP message with
    any fixed part and any well-formed options is read as its operation,
    client address, offered address, and the last message type and lease time
    among the options, whatever follows the end option. *)
Theorem dhcp_codec :
  (∀ frame, no_panic (parse_dhcp frame) ∧ no_panic (parse_arp frame) ∧ no_panic (parse_bootp frame)) ∧
  (∀ frame d, parse_dhcp frame = Ok (Some d) → ∃ p, bootp_payload frame = Ok (Some p)) ∧
  (∀ fixed op y opts pad,
     length fixed = 236%nat → fixed !! 0%nat = Some op → op = 1 ∨ op = 2 →
     ipv4_at fixed 16 = Ok y → Forall option_ok opts →
     parse_dhcp_body (fixed ++ MAGIC_COOKIE ++ mjoin (wire_option <$> opts) ++ 255 :: pad)
     = Ok (Some (mkDhcp (op =? 2) (slice 28 34 fixed) y (foldl read_option (None, None) opts).1
                   (foldl read_option (None, None) opts).2))).
Proof.
  split; [intros frame; split_and!; auto using parse_dhcp_total, parse_arp_total, parse_bootp_total|].
  split; [apply bootp_payload_ok|].
  intros fixed op y opts pad Hl Hop H12 Hy Ho. unfold parse_dhcp_body.
  set (rest := mjoin (wire_option <$> opts) ++ 255 :: pad).
  rewrite (proj2 (Nat.ltb_ge _ _)) by (rewrite !length_app; cbn [length MAGIC_COOKIE]; lia).
  rewrite (range_fixed fixed _ 28 34) by lia. rewrite ipv4_at_fixed by (rewrite Hl; lia). rewrite Hy.
  rewrite (range_middle fixed MAGIC_COOKIE rest 236 240) by (rewrite Hl; done).
  unfold index. rewrite lookup_app_l by lia. rewrite Hop. cbn [mbind result_bind].
  assert (negb (op =? 1) && negb (op =? 2) = false) as -> by (by destruct H12 as [-> | ->]).
  rewrite bool_decide_false by naive_solver.
  assert (range 240 (length (fixed ++ MAGIC_COOKIE ++ rest)) (fixed ++ MAGIC_COOKIE ++ rest) = Ok rest) as ->.
  { rewrite (assoc_L (++)). replace 240%nat with (length (fixed ++ MAGIC_COOKIE)); [apply range_tail|].
    rewrite length_app, Hl. done. }
  cbn [mbind result_bind]. subst rest. rewrite options_wire by done. cbn [mbind result_bind].
  by destruct (foldl read_option (None, None) opts).
Qed.

Module DhcpWireDemo.
(** An ACK (code 2) of 10.0.0.5 for 02:00:00:00:00:07, one hour. *)
Definition fixed (op : N) : list N :=
  [op; 1; 6; 0] ++ replicate 12 0 ++ [10; 0; 0; 5] ++ replicate 8 0 ++ [2; 0; 0; 0; 0; 7] ++ replicate 202 0.
Definition options : list (N * list N) := [(53, [5]); (12, [104; 105]); (51, [0; 0; 14; 16])].
Definition ack : list N := fixed 2 ++ MAGIC_COOKIE ++ mjoin (wire_option <$> options) ++ [255].
Definition reply : BootpReply := mkBootp true [2; 0; 0; 0; 0; 7] 167772165 false (Some 5) (Some 3600).
End DhcpWireDemo.
Import DhcpWireDemo.

Lemma dhcp_codec_witness :
  Forall option_ok options
  ∧ parse_dhcp_body ack = Ok (Some (mkDhcp true [2; 0; 0; 0; 0; 7] 167772165 (Some 5) (Some 3600))).
Proof.
  assert (Forall option_ok options) as H by (by repeat constructor).
  split; [done|]. destruct dhcp_codec as (_ & _ & Hp).
  apply (Hp (fixed 2) 2 167772165 options []); [done|done|by right|done|done].
Defined.

Lemma relay_reply_intact_witness :
  parse_bootp ack = Ok (Some reply)
  ∧ bootp_payload (build_client_reply [2; 0; 0; 0; 0; 1] 167772161 reply ack) = Ok (Some ack).
Proof.
  split; [by vm_compute|].
  by destruct (relay_reply_intact [2; 0; 0; 0; 0; 1] 167772161 ack reply) as (_ & H & _); [by vm_compute..|].
Defined.

Lemma relay_request_stamped_witness :
  (28 ≤ length (fixed 1))%nat ∧ slice 24 28 (with_giaddr (fixed 1) 167772161) = [10; 0; 0; 1].
Proof.
  split; [by apply Nat.leb_le; vm_compute|].
  destruct (relay_request_stamped (fixed 1) 167772161) as (_ & _ & _ & H);
    [by apply Nat.leb_le; vm_compute|]. etransitivity; [exact H|by vm_compute].
Defined.
