(* ===== verification/SnoopSec.v ===== *)
(** * DHCP snooping, ARP inspection and the relay (hemlock-orch/src/snoopsec.rs)

    [Inner] is the state behind the engine's mutex.  The tasks that [spawn]
    starts (frames, relay replies, the lease sweep) and the calls of the gRPC
    side ([set_config], [set_l2_view], [clear_bindings]) each hold the mutex
    for their whole body, so the engine is the transition function [act] over
    their arguments in the order they take it.  [env] is what a handler reads
    of its surroundings: the Unix clock and whether the binding file can be
    written.  The three channels are one list of [Output]s. *)

From Stdlib Require Import Ascii NArith Lia.
From stdpp Require Import base tactics list strings option gmap sorting.
From S2P Require Import Prelude Text Net SnoopWire DhcpWire.

Local Open Scope N_scope.

Inductive Validate := SrcMac | DstMac | Ip.

#[export] Instance Validate_eq_dec : EqDecision Validate.
Proof. solve_decision. Defined.
#[export] Instance Validate_countable : Countable Validate.
Proof.
  apply (inj_countable' (λ v, match v with SrcMac => 0 | DstMac => 1 | Ip => 2 end)
    (λ n, match n with 0 => SrcMac | 1 => DstMac | _ => Ip end)). by intros [].
Defined.

(** The derived [Ord]. *)
Definition validate_rank (v : Validate) : N := match v with SrcMac => 0 | DstMac => 1 | Ip => 2 end.

Record RelayVlan := mkRelayVlan { servers : list N; giaddr : N }.
Record StaticBinding := mkStatic { s_ip : N; s_interface : string }.

#[export] Instance RelayVlan_eq_dec : EqDecision RelayVlan.
Proof. solve_decision. Defined.
#[export] Instance StaticBinding_eq_dec : EqDecision StaticBinding.
Proof. solve_decision. Defined.

Record Config := mkConfig {
  dhcp_vlans : gset N;
  arp_vlans : gset N;
  validate : gset Validate;
  dhcp_trusted : gset string;
  arp_trusted : gset string;
  statics : gmap (string * N) StaticBinding;
  relay : gmap N RelayVlan;
}.

#[export] Instance Config_eq_dec : EqDecision Config.
Proof. solve_decision. Defined.

Definition default_config : Config := mkConfig ∅ ∅ ∅ ∅ ∅ ∅ ∅.

Record L2View := mkView {
  vlan_ports : gmap N (gset string);
  po_members : gmap string (gset string);
}.

#[export] Instance L2View_eq_dec : EqDecision L2View.
Proof. solve_decision. Defined.

Record RedirectProgram := mkProgram {
  rp_dhcp : list (N * list string * list string);
  rp_arp : list (N * list string);
}.

#[export] Instance RedirectProgram_eq_dec : EqDecision RedirectProgram.
Proof. solve_decision. Defined.

Record DynamicBinding := mkBinding { ip : N; interface : string; expires_at : N }.

Record DhcpVlanStats := mkDhcpStats { packets : N; d_dropped : N }.
Record RelayVlanStats := mkRelayStats { to_server : N; to_client : N; r_dropped : N }.
Record DaiVlanStats := mkDaiStats { forwarded : N; a_dropped : N; bad_binding : N; bad_src_mac : N }.

Definition no_dhcp_stats : DhcpVlanStats := mkDhcpStats 0 0.
Definition no_relay_stats : RelayVlanStats := mkRelayStats 0 0 0.
Definition no_dai_stats : DaiVlanStats := mkDaiStats 0 0 0 0.

(** [store] is [None] without a persistence path, else the file's content. *)
Record Inner := mkInner {
  config : Config;
  view : L2View;
  dynamics : gmap (string * N) DynamicBinding;
  pending : gmap (string * N) string;
  dhcp_stats : gmap N DhcpVlanStats;
  untrusted_server_drops : N;
  arp_stats : gmap N DaiVlanStats;
  pushed_redirects : option RedirectProgram;
  store : option (option string);
  relay_stats : gmap N RelayVlanStats;
  system_mac : list N;
}.

Record RelayDatagram := mkDatagram { dg_server : N; dg_giaddr : N; dg_payload : list N }.

Inductive Output :=
| PacketOut (port : string) (frame : list N)
| SendRedirects (p : RedirectProgram)
| RelayOut (d : RelayDatagram).

#[export] Instance RelayDatagram_eq_dec : EqDecision RelayDatagram.
Proof. solve_decision. Defined.
#[export] Instance Output_eq_dec : EqDecision Output.
Proof. solve_decision. Defined.

Record env := mkEnv { unix_now : N; disk_ok : bool }.

(** What the engine uses of [serde_json], and its contract. *)
Class JsonBindings := {
  bindings_to_json : gmap string DynamicBinding → option string;
  bindings_from_json : string → option (gmap string DynamicBinding);
}.

Class JsonBindingsOk `{JsonBindings} : Prop := {
  bindings_json : ∀ m, ∃ text, bindings_to_json m = Some text ∧ bindings_from_json text = Some m;
}.

Definition mac_text (bytes : list N) : string := join ":" (hex2 <$> bytes).

(** Field assignments. *)
Definition set_dynamics (d : gmap (string * N) DynamicBinding) (s : Inner) : Inner :=
  mkInner (config s) (view s) d (pending s) (dhcp_stats s) (untrusted_server_drops s) (arp_stats s)
    (pushed_redirects s) (store s) (relay_stats s) (system_mac s).
Definition set_pending (p : gmap (string * N) string) (s : Inner) : Inner :=
  mkInner (config s) (view s) (dynamics s) p (dhcp_stats s) (untrusted_server_drops s) (arp_stats s)
    (pushed_redirects s) (store s) (relay_stats s) (system_mac s).
Definition set_store (f : option (option string)) (s : Inner) : Inner :=
  mkInner (config s) (view s) (dynamics s) (pending s) (dhcp_stats s) (untrusted_server_drops s) (arp_stats s)
    (pushed_redirects s) f (relay_stats s) (system_mac s).

(** [inner.x_stats.entry(vlan).or_default()] and the counters. *)
Definition on_dhcp_stats (vlan : N) (f : DhcpVlanStats → DhcpVlanStats) (s : Inner) : Inner :=
  mkInner (config s) (view s) (dynamics s) (pending s)
    (<[vlan := f (default no_dhcp_stats (dhcp_stats s !! vlan))]> (dhcp_stats s))
    (untrusted_server_drops s) (arp_stats s) (pushed_redirects s) (store s) (relay_stats s) (system_mac s).
Definition on_arp_stats (vlan : N) (f : DaiVlanStats → DaiVlanStats) (s : Inner) : Inner :=
  mkInner (config s) (view s) (dynamics s) (pending s) (dhcp_stats s) (untrusted_server_drops s)
    (<[vlan := f (default no_dai_stats (arp_stats s !! vlan))]> (arp_stats s))
    (pushed_redirects s) (store s) (relay_stats s) (system_mac s).
Definition on_relay_stats (vlan : N) (f : RelayVlanStats → RelayVlanStats) (s : Inner) : Inner :=
  mkInner (config s) (view s) (dynamics s) (pending s) (dhcp_stats s) (untrusted_server_drops s) (arp_stats s)
    (pushed_redirects s) (store s)
    (<[vlan := f (default no_relay_stats (relay_stats s !! vlan))]> (relay_stats s)) (system_mac s).

Definition inc (n : N) : N := wrap 64 (n + 1).
Definition count_packet (st : DhcpVlanStats) := mkDhcpStats (inc (packets st)) (d_dropped st).
Definition count_drop (st : DhcpVlanStats) := mkDhcpStats (packets st) (inc (d_dropped st)).
Definition count_server_drop (s : Inner) : Inner :=
  mkInner (config s) (view s) (dynamics s) (pending s) (dhcp_stats s) (inc (untrusted_server_drops s))
    (arp_stats s) (pushed_redirects s) (store s) (relay_stats s) (system_mac s).
Definition relay_dropped (st : RelayVlanStats) := mkRelayStats (to_server st) (to_client st) (inc (r_dropped st)).
Definition relay_to_server (st : RelayVlanStats) := mkRelayStats (inc (to_server st)) (to_client st) (r_dropped st).
Definition relay_to_client (st : RelayVlanStats) := mkRelayStats (to_server st) (inc (to_client st)) (r_dropped st).

(** ** Trust and redirects *)

(** Named ports plus every member of a named Port-Channel. *)
Definition expand_trusted (v : L2View) (trusted : gset string) : gset string :=
  foldl (λ ports name, match po_members v !! name with
                       | Some members => ports ∪ members
                       | None => {[ name ]} ∪ ports
                       end) ∅ (bset_iter trusted).

Definition compute_redirects (c : Config) (v : L2View) : RedirectProgram :=
  let dhcp_t := expand_trusted v (dhcp_trusted c) in
  let arp_t := expand_trusted v (arp_trusted c) in
  mkProgram
    ((λ vlan,
        let carriers := bset_iter (default ∅ (vlan_ports v !! vlan)) in
        (vlan, filter (λ p, p ∉ dhcp_t) carriers, filter (λ p, p ∈ dhcp_t) carriers))
     <$> bset_iter (dhcp_vlans c))
    ((λ vlan,
        let carriers := bset_iter (default ∅ (vlan_ports v !! vlan)) in
        (vlan, filter (λ p, p ∉ arp_t) carriers))
     <$> bset_iter (arp_vlans c)).

(** Recompute and, when it changed, send the program. *)
Definition push_redirects (s : Inner) : Inner * list Output :=
  let program := compute_redirects (config s) (view s) in
  if decide (pushed_redirects s = Some program) then (s, [])
  else
    (mkInner (config s) (view s) (dynamics s) (pending s) (dhcp_stats s) (untrusted_server_drops s)
       (arp_stats s) (Some program) (store s) (relay_stats s) (system_mac s),
     [SendRedirects program]).

Definition set_config (c : Config) (s : Inner) : Inner * list Output :=
  if decide (config s = c) then (s, [])
  else
    push_redirects
      (mkInner c (view s) (dynamics s) (pending s) (dhcp_stats s) (untrusted_server_drops s) (arp_stats s)
         (pushed_redirects s) (store s) (relay_stats s) (system_mac s)).

Definition set_l2_view (v : L2View) (s : Inner) : Inner * list Output :=
  if decide (view s = v) then (s, [])
  else
    push_redirects
      (mkInner (config s) v (dynamics s) (pending s) (dhcp_stats s) (untrusted_server_drops s) (arp_stats s)
         (pushed_redirects s) (store s) (relay_stats s) (system_mac s)).

(** ** Persistence *)

Section engine.
Context {J : JsonBindings}.

Definition binding_key (k : string * N) : string := k.1 +:+ "@" +:+ to_dec k.2.

Definition persisted (d : gmap (string * N) DynamicBinding) : gmap string DynamicBinding :=
  collect_map ((λ kb, (binding_key kb.1, kb.2)) <$> btree_iter d).

Definition save_bindings (e : env) (s : Inner) : Inner :=
  match store s with
  | None => s
  | Some _ =>
      match bindings_to_json (persisted (dynamics s)) with
      | None => s
      | Some text => if disk_ok e then set_store (Some (Some text)) s else s
      end
  end.

Definition load_bindings (now : N) (file : option string) : gmap (string * N) DynamicBinding :=
  match file with
  | None => ∅
  | Some text =>
      match bindings_from_json text with
      | None => ∅
      | Some m =>
          collect_map (omap (λ kb : string * DynamicBinding,
            if expires_at kb.2 <=? now then None
            else
              '(mac, vlan) ← rsplit_once "@"%char kb.1;
              v ← parse_uint 16 vlan;
              Some ((mac, v), kb.2)) (btree_iter m))
      end
  end.

(** The state [spawn] starts from. *)
Definition spawn (now : N) (path : option (option string)) (mac : list N) : Inner :=
  mkInner default_config (mkView ∅ ∅) (match path with Some f => load_bindings now f | None => ∅ end)
    ∅ ∅ 0 ∅ None path ∅ mac.

(** ** DHCP *)

(** An acknowledged lease becomes a binding on the port the client was heard
    on; the two handlers of server messages share it. *)
Definition bind_lease (e : env) (vlan : N) (client_mac : string) (yi : N) (lease : option N) (s : Inner) : Inner :=
  let k := (client_mac, vlan) in
  let iface := match pending s !! k with
               | Some p => p
               | None => default "" (interface <$> dynamics s !! k)
               end in
  let s := set_pending (delete k (pending s)) s in
  save_bindings e (set_dynamics (<[k := mkBinding yi iface (unix_now e + default 86400 lease)]> (dynamics s)) s).

(** A copied server message from a trusted port. *)
Definition dhcp_reply (e : env) (vlan : N) (d : DhcpMessage) (s : Inner) : Inner :=
  let client_mac := mac_text (chaddr d) in
  match message_type d with
  | Some 5 => if yiaddr d =? 0 then s else bind_lease e vlan client_mac (yiaddr d) (lease_secs d) s
  | Some 6 => set_pending (delete (client_mac, vlan) (pending s)) s
  | _ => s
  end.

(** What a validated client message does to the tables. *)
Definition dhcp_request (e : env) (port : string) (vlan : N) (d : DhcpMessage) (s : Inner) : Inner :=
  let k := (mac_text (chaddr d), vlan) in
  match message_type d with
  | Some 7 | Some 4 => save_bindings e (set_dynamics (delete k (dynamics s)) s)
  | _ => set_pending (<[k := port]> (pending s)) s
  end.

(** The validated request goes to the relay's servers, or back into the
    dataplane toward the trusted ports. *)
Definition dhcp_forward (port : string) (vlan : N) (trusted : bool) (frame : list N) (s : Inner) :
    Inner * list Output :=
  match relay (config s) !! vlan with
  | Some r =>
      if (giaddr r =? 0) || bool_decide (servers r = []) then (on_relay_stats vlan relay_dropped s, [])
      else
        match bootp_payload frame with
        | Ok (Some payload) =>
            (on_relay_stats vlan relay_to_server s,
             (λ server, RelayOut (mkDatagram server (giaddr r) (with_giaddr payload (giaddr r)))) <$> servers r)
        | _ => (on_relay_stats vlan relay_dropped s, [])
        end
  | None =>
      if trusted then (s, [])
      else
        (s, (λ p, PacketOut p frame) <$>
              filter (λ p, p ≠ port ∧ p ∈ default ∅ (vlan_ports (view s) !! vlan))
                (bset_iter (expand_trusted (view s) (dhcp_trusted (config s)))))
  end.

Definition is_trusted (s : Inner) (port : string) : bool :=
  bool_decide (port ∈ expand_trusted (view s) (dhcp_trusted (config s)))
  || bool_decide (port ∈ dhcp_trusted (config s)).

Definition handle_dhcp (e : env) (port : string) (vlan : N) (frame : list N) (s : Inner) :
    Inner * list Output :=
  match parse_dhcp frame with
  | Ok (Some d) =>
      if decide (vlan ∉ dhcp_vlans (config s)) then (s, [])
      else
        let trusted := is_trusted s port in
        let s := on_dhcp_stats vlan count_packet s in
        if is_reply d then
          if negb trusted then (count_server_drop (on_dhcp_stats vlan count_drop s), [])
          else (dhcp_reply e vlan d s, [])
        else if decide (chaddr d ≠ slice 6 12 frame) then (on_dhcp_stats vlan count_drop s, [])
        else dhcp_forward port vlan trusted frame (dhcp_request e port vlan d s)
  | _ => (s, [])
  end.

(** ** ARP inspection *)

Definition checks (c : Config) : gset Validate :=
  if decide (validate c = ∅) then {[ SrcMac ]} else validate c.

(** [is_broadcast], [is_multicast], [is_loopback]. *)
Definition bad_sender_ip (a : ArpMessage) : bool :=
  (spa a =? 4294967295) || (N.shiftr (spa a) 28 =? 14) || (N.shiftr (spa a) 24 =? 127)
  || (arp_is_reply a && (spa a =? 0)).

(** The table's entry decides when there is one, else the static. *)
Definition bound (s : Inner) (mac : string) (vlan a : N) : bool :=
  match dynamics s !! (mac, vlan) with
  | Some b => ip b =? a
  | None => match statics (config s) !! (mac, vlan) with Some b => s_ip b =? a | None => false end
  end.

Definition arp_dropped (st : DaiVlanStats) :=
  mkDaiStats (forwarded st) (inc (a_dropped st)) (bad_binding st) (bad_src_mac st).
Definition arp_bad_src (st : DaiVlanStats) :=
  mkDaiStats (forwarded st) (inc (a_dropped st)) (bad_binding st) (inc (bad_src_mac st)).
Definition arp_bad_binding (st : DaiVlanStats) :=
  mkDaiStats (forwarded st) (inc (a_dropped st)) (inc (bad_binding st)) (bad_src_mac st).
Definition arp_forwarded (st : DaiVlanStats) :=
  mkDaiStats (inc (forwarded st)) (a_dropped st) (bad_binding st) (bad_src_mac st).

Definition handle_arp (port : string) (vlan : N) (frame : list N) (s : Inner) : Inner * list Output :=
  match parse_arp frame with
  | Ok (Some a) =>
      if decide (vlan ∉ arp_vlans (config s)) then (s, [])
      else
        let src_mac := mac_text (slice 6 12 frame) in
        let sender_mac := mac_text (sha a) in
        let cs := checks (config s) in
        if decide (SrcMac ∈ cs ∧ sender_mac ≠ src_mac) then (on_arp_stats vlan arp_bad_src s, [])
        else if decide (DstMac ∈ cs ∧ arp_is_reply a = true ∧ mac_text (tha a) ≠ mac_text (slice 0 6 frame))
        then (on_arp_stats vlan arp_dropped s, [])
        else if decide (Ip ∈ cs ∧ bad_sender_ip a = true) then (on_arp_stats vlan arp_dropped s, [])
        else if negb (bound s sender_mac vlan (spa a)) then (on_arp_stats vlan arp_bad_binding s, [])
        else
          (on_arp_stats vlan arp_forwarded s,
           (λ p, PacketOut p frame) <$>
             filter (λ p, p ≠ port) (bset_iter (default ∅ (vlan_ports (view s) !! vlan))))
  | _ => (s, [])
  end.

Definition handle_frame (e : env) (port : string) (vlan : N) (frame : list N) (s : Inner) :
    Inner * list Output :=
  if (length frame <? 14)%nat then (s, [])
  else
    let ethertype := of_be16 (default 0 (frame !! 12%nat)) (default 0 (frame !! 13%nat)) in
    if ethertype =? 2054 then handle_arp port vlan frame s
    else if ethertype =? 2048 then handle_dhcp e port vlan frame s
    else (s, []).

(** ** Relay replies *)

Definition handle_relay_reply (e : env) (gi : N) (payload : list N) (s : Inner) : Inner * list Output :=
  match list_find (λ vr : N * RelayVlan, giaddr vr.2 = gi) (btree_iter (relay (config s))) with
  | None => (s, [])
  | Some (_, (vlan, _)) =>
      match parse_bootp payload with
      | Ok (Some reply) =>
          if negb (b_is_reply reply) then (on_relay_stats vlan relay_dropped s, [])
          else
            let client_mac := mac_text (b_chaddr reply) in
            let s :=
              match b_message_type reply with
              | Some 5 =>
                  if b_yiaddr reply =? 0 then s
                  else bind_lease e vlan client_mac (b_yiaddr reply) (b_lease_secs reply) s
              | Some 6 => set_pending (delete (client_mac, vlan) (pending s)) s
              | _ => s
              end in
            let frame := build_client_reply (system_mac s) gi reply payload in
            let unicast_port :=
              if broadcast_flag reply then None
              else
                match dynamics s !! (client_mac, vlan) with
                | Some b => if decide (interface b = "") then None else Some (interface b)
                | None => None
                end in
            let targets :=
              match unicast_port with
              | Some port => [port]
              | None => bset_iter (default ∅ (vlan_ports (view s) !! vlan))
              end in
            (on_relay_stats vlan relay_to_client s, (λ p, PacketOut p frame) <$> targets)
      | _ => (on_relay_stats vlan relay_dropped s, [])
      end
  end.

(** ** Leases *)

Definition expire_leases (e : env) (s : Inner) : Inner :=
  let d := btree_retain (λ _ b, unix_now e <? expires_at b) (dynamics s) in
  if (size d =? size (dynamics s))%nat then set_dynamics d s else save_bindings e (set_dynamics d s).

Definition clear_bindings (e : env) (mac : option string) (s : Inner) : N * Inner :=
  let d := match mac with
           | Some m => btree_retain (λ k _, negb (bool_decide (k.1 = m))) (dynamics s)
           | None => ∅
           end in
  let cleared := wrap 32 (N.of_nat (size (dynamics s) - size d)) in
  (cleared, if 0 <? cleared then save_bindings e (set_dynamics d s) else set_dynamics d s).

(** ** The engine *)

Inductive action :=
| AConfig (c : Config)
| AView (v : L2View)
| AFrame (e : env) (port : string) (vlan : N) (frame : list N)
| AReply (e : env) (gi : N) (payload : list N)
| AExpire (e : env)
| AClear (e : env) (mac : option string).

Definition act (a : action) (s : Inner) : Inner * list Output :=
  match a with
  | AConfig c => set_config c s
  | AView v => set_l2_view v s
  | AFrame e port vlan frame => handle_frame e port vlan frame s
  | AReply e gi payload => handle_relay_reply e gi payload s
  | AExpire e => (expire_leases e s, [])
  | AClear e mac => ((clear_bindings e mac s).2, [])
  end.

Fixpoint run (acts : list action) (s : Inner) : Inner * list Output :=
  match acts with
  | [] => (s, [])
  | a :: acts =>
      let '(s, out) := act a s in
      let '(s, out') := run acts s in
      (s, out ++ out')
  end.

(** ** The snapshot *)

Record BindingSnapshot := mkBindingSnapshot {
  bs_mac : string;
  bs_vlan : N;
  bs_ip : N;
  bs_interface : string;
  bs_lease_secs : option N;
}.

Record Snapshot := mkSnapshot {
  sn_dhcp_vlans : list N;
  sn_arp_vlans : list N;
  sn_validate : list Validate;
  sn_dhcp_trusted : list string;
  sn_arp_trusted : list string;
  sn_bindings : list BindingSnapshot;
  sn_dhcp_stats : gmap N DhcpVlanStats;
  sn_untrusted_server_drops : N;
  sn_arp_stats : gmap N DaiVlanStats;
  sn_relay : gmap N (RelayVlan * RelayVlanStats);
}.

Definition snapshot (now : N) (s : Inner) : Snapshot :=
  let bindings :=
    ((λ kb : (string * N) * DynamicBinding,
        mkBindingSnapshot kb.1.1 kb.1.2 (ip kb.2) (interface kb.2) (Some (expires_at kb.2 - now)))
     <$> btree_iter (dynamics s))
    ++ ((λ kb : (string * N) * StaticBinding,
           mkBindingSnapshot kb.1.1 kb.1.2 (s_ip kb.2) (s_interface kb.2) None)
        <$> btree_iter (statics (config s))) in
  mkSnapshot (bset_iter (dhcp_vlans (config s))) (bset_iter (arp_vlans (config s)))
    (sort_by_key validate_rank (elements (checks (config s))))
    (bset_iter (dhcp_trusted (config s))) (bset_iter (arp_trusted (config s)))
    (sort_by_key (λ b, (bs_vlan b, bs_ip b)) bindings)
    (dhcp_stats s) (untrusted_server_drops s) (arp_stats s)
    (map_imap (λ vlan r, Some (r, default no_relay_stats (relay_stats s !! vlan))) (relay (config s))).

(** ** ARP inspection *)

Lemma mac_text_inj a b :
  length a = 6%nat → length b = 6%nat → Forall is_byte a → Forall is_byte b →
  mac_text a = mac_text b ↔ a = b.
Proof.
  intros Ha Hb Fa Fb. split; [|by intros ->]. apply join_hex2_inj; [by rewrite Ha, Hb|done..].
Qed.

(** The address a client holds: the table's if it is there, else the
    configured one. *)
Definition held_address (s : Inner) (mac : string) (vlan : N) : option N :=
  match dynamics s !! (mac, vlan) with
  | Some b => Some (ip b)
  | None => s_ip <$> statics (config s) !! (mac, vlan)
  end.

(** Not 255.255.255.255, not in 224.0.0.0/4, not in 127.0.0.0/8, and not
    0.0.0.0 in a reply. *)
Definition sane_sender (a : ArpMessage) : Prop :=
  spa a ≠ 4294967295 ∧ ¬ (224 * 2 ^ 24 ≤ spa a < 240 * 2 ^ 24) ∧ ¬ (127 * 2 ^ 24 ≤ spa a < 128 * 2 ^ 24)
  ∧ (arp_is_reply a = true → spa a ≠ 0).

Lemma bound_spec s mac vlan a : bound s mac vlan a = true ↔ held_address s mac vlan = Some a.
Proof.
  unfold bound, held_address. destruct (dynamics s !! _); [|destruct (statics _ !! _); [|done]]; cbn;
  rewrite N.eqb_eq; naive_solver.
Qed.

Lemma shiftr_eqb a k v : (N.shiftr a k =? v) = true ↔ v * 2 ^ k ≤ a < (v + 1) * 2 ^ k.
Proof.
  rewrite N.eqb_eq, N.shiftr_div_pow2. assert (2 ^ k ≠ 0) as H by (apply N.pow_nonzero; lia).
  generalize dependent (2 ^ k). intros p H.
  pose proof (N.div_mod a p H). pose proof (N.mod_lt a p H). split.
  - generalize dependent (a `mod` p). generalize (a `div` p). intros q r Hq Hr <-. lia.
  - intros [? ?]. symmetry. apply N.div_unique with (a - v * p); lia.
Qed.

Lemma bad_sender_spec a : bad_sender_ip a = false ↔ sane_sender a.
Proof.
  rewrite <-not_true_iff_false. unfold bad_sender_ip, sane_sender.
  rewrite !orb_true_iff, !shiftr_eqb, andb_true_iff, !N.eqb_eq.
  change (14 * 2 ^ 28) with (224 * 2 ^ 24). change ((14 + 1) * 2 ^ 28) with (240 * 2 ^ 24).
  change (127 + 1) with 128. tauto.
Qed.

(** What an ARP must satisfy to be forwarded. *)
Record arp_valid (s : Inner) (vlan : N) (frame : list N) (a : ArpMessage) : Prop := {
  valid_src : SrcMac ∈ checks (config s) → sha a = slice 6 12 frame;
  valid_dst : DstMac ∈ checks (config s) → arp_is_reply a = true → tha a = slice 0 6 frame;
  valid_ip : Ip ∈ checks (config s) → sane_sender a;
  valid_bound : held_address s (mac_text (sha a)) vlan = Some (spa a);
}.

Lemma slice_bytes a b (l : list N) : Forall is_byte l → Forall is_byte (slice a b l).
Proof. intros H. unfold slice. by apply Forall_take, Forall_drop. Qed.

Lemma parse_arp_fields frame a :
  parse_arp frame = Ok (Some a) → Forall is_byte frame →
  (42 ≤ length frame)%nat ∧ length (sha a) = 6%nat ∧ length (tha a) = 6%nat
  ∧ Forall is_byte (sha a) ∧ Forall is_byte (tha a).
Proof.
  unfold parse_arp. destruct (get_range 14 42 frame) as [arp|] eqn:E; [|done].
  pose proof (get_range_length _ _ _ _ E) as [Hl Hf]. intros Hp Hb.
  assert (Forall is_byte arp) as Ha.
  { unfold get_range in E. case_match; [|done]. injection E as <-. by apply slice_bytes. }
  revert Hp.
  destruct (range_ok arp 0 2) as [-> _]; [lia..|]. destruct (range_ok arp 2 4) as [-> _]; [lia..|].
  destruct (range_ok arp 8 14) as [-> Hs]; [lia..|]. destruct (range_ok arp 18 24) as [-> Ht]; [lia..|].
  destruct (ipv4_at_ok arp 14) as [p ->]; [lia|].
  destruct (index_ok arp 4) as (x4 & -> & _); [lia|]. destruct (index_ok arp 5) as (x5 & -> & _); [lia|].
  destruct (index_ok arp 6) as (x6 & -> & _); [lia|]. destruct (index_ok arp 7) as (x7 & -> & _); [lia|].
  cbn [mbind result_bind]. case_match; [done|]. intros [= <-].
  cbn [sha tha]. split_and!; [lia|done..|by apply slice_bytes|by apply slice_bytes].
Qed.

Lemma length_slice {A} a b (l : list A) : (a ≤ b ≤ length l)%nat → length (slice a b l) = (b - a)%nat.
Proof. intros H. unfold slice. rewrite length_take, length_drop. lia. Qed.

(** The verdict on an inspected ARP: what comes out, and which counters move. *)
Record dai_verdict (port : string) (vlan : N) (frame : list N) (a : ArpMessage) (s s' : Inner)
    (out : list Output) : Prop := {
  dai_out : ∀ o, o ∈ out ↔ arp_valid s vlan frame a
    ∧ ∃ p, o = PacketOut p frame ∧ p ≠ port ∧ p ∈ default ∅ (vlan_ports (view s) !! vlan);
  dai_pass : arp_valid s vlan frame a →
    arp_stats s' = <[vlan := arp_forwarded (default no_dai_stats (arp_stats s !! vlan))]> (arp_stats s);
  dai_fail : ¬ arp_valid s vlan frame a → ∃ st,
    arp_stats s' = <[vlan := st]> (arp_stats s)
    ∧ forwarded st = forwarded (default no_dai_stats (arp_stats s !! vlan))
    ∧ a_dropped st = inc (a_dropped (default no_dai_stats (arp_stats s !! vlan)));
}.

Lemma dai_drop port vlan frame a s f :
  ¬ arp_valid s vlan frame a →
  (∀ st, forwarded (f st) = forwarded st ∧ a_dropped (f st) = inc (a_dropped st)) →
  dai_verdict port vlan frame a s (on_arp_stats vlan f s) [].
Proof.
  intros Hno Hf. split.
  - intros o. split; [by intros ?%elem_of_nil|]. by intros [? _].
  - done.
  - intros _. eexists. split; [done|]. apply Hf.
Qed.


(** ** DHCP *)

(** A client message on a snooped VLAN whose hardware address is the frame's
    source. *)
Definition client_message (s : Inner) (vlan : N) (frame : list N) (d : DhcpMessage) : Prop :=
  parse_dhcp frame = Ok (Some d) ∧ vlan ∈ dhcp_vlans (config s) ∧ is_reply d = false
  ∧ chaddr d = slice 6 12 frame.

(** A server message from a trusted port of a snooped VLAN. *)
Definition server_message (s : Inner) (port : string) (vlan : N) (frame : list N) (d : DhcpMessage) : Prop :=
  parse_dhcp frame = Ok (Some d) ∧ vlan ∈ dhcp_vlans (config s) ∧ is_reply d = true
  ∧ is_trusted s port = true.

Lemma save_bindings_fields e s :
  config (save_bindings e s) = config s ∧ view (save_bindings e s) = view s
  ∧ dynamics (save_bindings e s) = dynamics s ∧ pending (save_bindings e s) = pending s
  ∧ pushed_redirects (save_bindings e s) = pushed_redirects s.
Proof. unfold save_bindings. repeat case_match; done. Qed.

Lemma dhcp_request_fields e port vlan d s :
  config (dhcp_request e port vlan d s) = config s ∧ view (dhcp_request e port vlan d s) = view s
  ∧ pushed_redirects (dhcp_request e port vlan d s) = pushed_redirects s.
Proof.
  unfold dhcp_request. destruct (save_bindings_fields e (set_dynamics (delete (mac_text (chaddr d), vlan) (dynamics s)) s))
    as (H1 & H2 & _ & _ & H3).
  repeat case_match; cbn; auto.
Qed.

(** The interface a lease is bound to. *)
Definition lease_interface (k : string * N) (s : Inner) : string :=
  match pending s !! k with Some p => p | None => default "" (interface <$> dynamics s !! k) end.

Lemma bind_lease_fields e vlan mac yi lease s :
  let s' := bind_lease e vlan mac yi lease s in
  dynamics s' = <[(mac, vlan) := mkBinding yi (lease_interface (mac, vlan) s)
                                   (unix_now e + default 86400 lease)]> (dynamics s)
  ∧ pending s' = delete (mac, vlan) (pending s)
  ∧ config s' = config s ∧ view s' = view s ∧ pushed_redirects s' = pushed_redirects s.
Proof.
  unfold bind_lease. cbv zeta.
  match goal with |- context [save_bindings e ?x] =>
    destruct (save_bindings_fields e x) as (-> & -> & -> & -> & ->) end. done.
Qed.

Lemma dhcp_reply_fields e vlan d s :
  config (dhcp_reply e vlan d s) = config s ∧ view (dhcp_reply e vlan d s) = view s
  ∧ pushed_redirects (dhcp_reply e vlan d s) = pushed_redirects s.
Proof.
  unfold dhcp_reply.
  destruct (bind_lease_fields e vlan (mac_text (chaddr d)) (yiaddr d) (lease_secs d) s) as (_ & _ & H1 & H2 & H3).
  repeat case_match; auto.
Qed.

(** The branches of [handle_dhcp], by what the frame is. *)
Lemma handle_dhcp_cases e port vlan frame s :
  let '(s', out) := handle_dhcp e port vlan frame s in
  (∃ d, client_message s vlan frame d ∧
     (s', out) = dhcp_forward port vlan (is_trusted s port) frame
                   (dhcp_request e port vlan d (on_dhcp_stats vlan count_packet s)))
  ∨ (∃ d, server_message s port vlan frame d
       ∧ s' = dhcp_reply e vlan d (on_dhcp_stats vlan count_packet s) ∧ out = [])
  ∨ out = [] ∧ dynamics s' = dynamics s ∧ pending s' = pending s ∧ store s' = store s
    ∧ config s' = config s ∧ view s' = view s ∧ pushed_redirects s' = pushed_redirects s.
Proof.
  unfold handle_dhcp. destruct (parse_dhcp_total frame) as [[d|] Hp]; rewrite Hp; [|by right; right].
  case_decide as Hv; [by right; right|].
  destruct (is_reply d) eqn:Hr.
  - destruct (is_trusted s port) eqn:Ht; cbn [negb]; [|by right; right].
    right. left. exists d. done.
  - case_decide as Hc; [by right; right|].
    destruct (dhcp_forward _ _ _ _ _) eqn:E. left. exists d. by rewrite E.
Qed.


(** C28: the relay loses no validated request: on a relaying VLAN with a
    server and an address every client message goes to each server, in
    order. *)
Theorem dhcp_relay_complete e port vlan frame s d r :
  client_message s vlan frame d → relay (config s) !! vlan = Some r → giaddr r ≠ 0 → servers r ≠ [] →
  ∃ payload, bootp_payload frame = Ok (Some payload)
    ∧ (handle_dhcp e port vlan frame s).2
      = (λ server, RelayOut (mkDatagram server (giaddr r) (with_giaddr payload (giaddr r)))) <$> servers r.
Proof.
  intros (Hp & Hv & Hr & Hc) Hrel Hg Hs. destruct (bootp_payload_ok frame d Hp) as [payload Hpay].
  exists payload. split; [done|]. unfold handle_dhcp. rewrite Hp, Hr.
  rewrite decide_False by tauto. rewrite decide_False by tauto.
  destruct (dhcp_request_fields e port vlan d (on_dhcp_stats vlan count_packet s)) as (Hco & _).
  unfold dhcp_forward. rewrite Hco. cbn [config on_dhcp_stats]. rewrite Hrel, Hpay.
  rewrite (proj2 (N.eqb_neq _ _) Hg). by rewrite bool_decide_false.
Qed.

(** ** Where bindings come from *)

(** The actions of a run, each with the state it met. *)
Fixpoint trace (acts : list action) (s : Inner) : list (Inner * action) :=
  match acts with
  | [] => []
  | a :: acts => (s, a) :: trace acts (act a s).1
  end.

(** [a], in state [s], is an acknowledgment of binding [b] for [k]. *)
Definition grants (s : Inner) (a : action) (k : string * N) (b : DynamicBinding) : Prop :=
  match a with
  | AFrame e port vlan frame => ∃ d, server_message s port vlan frame d ∧ message_type d = Some 5
      ∧ k = (mac_text (chaddr d), vlan) ∧ ip b = yiaddr d ∧ ip b ≠ 0
      ∧ expires_at b = unix_now e + default 86400 (lease_secs d)
  | AReply e gi payload => ∃ vlan rv r, relay (config s) !! vlan = Some rv ∧ giaddr rv = gi
      ∧ parse_bootp payload = Ok (Some r) ∧ b_is_reply r = true ∧ b_message_type r = Some 5
      ∧ k = (mac_text (b_chaddr r), vlan) ∧ ip b = b_yiaddr r ∧ ip b ≠ 0
      ∧ expires_at b = unix_now e + default 86400 (b_lease_secs r)
  | _ => False
  end.

(** [a], in state [s], is a client message of [k] heard on port [p]. *)
Definition heard (s : Inner) (a : action) (k : string * N) (p : string) : Prop :=
  match a with
  | AFrame e port vlan frame => ∃ d, client_message s vlan frame d ∧ k = (mac_text (chaddr d), vlan) ∧ port = p
  | _ => False
  end.

(** Every binding was loaded or granted, on an interface that was loaded,
    unknown, or where its client was heard. *)
Record explained (l0 : gmap (string * N) DynamicBinding) (tr : list (Inner * action)) (s : Inner) : Prop := {
  explained_lease : ∀ k b, dynamics s !! k = Some b →
    (∃ b0, l0 !! k = Some b0 ∧ ip b = ip b0 ∧ expires_at b = expires_at b0)
    ∨ ∃ sa, sa ∈ tr ∧ grants sa.1 sa.2 k b;
  explained_interface : ∀ k b, dynamics s !! k = Some b →
    interface b = "" ∨ (∃ b0, l0 !! k = Some b0 ∧ interface b = interface b0)
    ∨ ∃ sa, sa ∈ tr ∧ heard sa.1 sa.2 k (interface b);
  explained_pending : ∀ k p, pending s !! k = Some p → ∃ sa, sa ∈ tr ∧ heard sa.1 sa.2 k p;
}.

Lemma explained_shrink l0 tr tr' s s' :
  explained l0 tr s → dynamics s' ⊆ dynamics s → pending s' ⊆ pending s → tr ⊆ tr' → explained l0 tr' s'.
Proof.
  intros [H1 H2 H3] Hd Hp Ht. split.
  - intros k b Hb. destruct (H1 k b) as [?|(sa & ? & ?)]; [by eapply lookup_weaken|by left|].
    right. exists sa. split; [by apply Ht|done].
  - intros k b Hb. destruct (H2 k b) as [?|[?|(sa & ? & ?)]]; [by eapply lookup_weaken|by left|by right; left|].
    right. right. exists sa. split; [by apply Ht|done].
  - intros k p Hk. destruct (H3 k p) as (sa & ? & ?); [by eapply lookup_weaken|].
    exists sa. split; [by apply Ht|done].
Qed.

Lemma explained_bind l0 tr s s' a k b :
  explained l0 tr s → grants s a k b → interface b = lease_interface k s →
  dynamics s' = <[k := b]> (dynamics s) → pending s' = delete k (pending s) →
  explained l0 (tr ++ [(s, a)]) s'.
Proof.
  intros He Hg Hi Hd Hp.
  destruct (explained_shrink l0 tr (tr ++ [(s, a)]) s s He) as [H1 H2 H3]; [done|done|set_solver|].
  split; rewrite ?Hd, ?Hp.
  - intros k' b'. destruct (decide (k' = k)) as [->|Hne].
    + rewrite lookup_insert_eq. intros [= <-]. right. exists (s, a). split; [set_solver|done].
    + rewrite lookup_insert_ne by done. apply H1.
  - intros k' b'. destruct (decide (k' = k)) as [->|Hne].
    + rewrite lookup_insert_eq. intros [= <-]. rewrite Hi. unfold lease_interface.
      destruct (pending s !! k) as [p|] eqn:Ep; [right; right; by apply H3|].
      destruct (dynamics s !! k) as [b0|] eqn:Eb; [by apply H2|by left].
    + rewrite lookup_insert_ne by done. apply H2.
  - intros k' p' [_ ?]%lookup_delete_Some. by apply H3.
Qed.

Lemma explained_heard l0 tr s s' a k p :
  explained l0 tr s → heard s a k p → dynamics s' = dynamics s → pending s' = <[k := p]> (pending s) →
  explained l0 (tr ++ [(s, a)]) s'.
Proof.
  intros He Hh Hd Hp.
  destruct (explained_shrink l0 tr (tr ++ [(s, a)]) s s He) as [H1 H2 H3]; [done|done|set_solver|].
  split; rewrite ?Hd, ?Hp; [done..|].
  intros k' p'. destruct (decide (k' = k)) as [->|Hne].
  - rewrite lookup_insert_eq. intros [= <-]. exists (s, a). split; [set_solver|done].
  - rewrite lookup_insert_ne by done. apply H3.
Qed.

Lemma dhcp_forward_tables port vlan t frame s :
  dynamics (dhcp_forward port vlan t frame s).1 = dynamics s
  ∧ pending (dhcp_forward port vlan t frame s).1 = pending s
  ∧ store (dhcp_forward port vlan t frame s).1 = store s
  ∧ config (dhcp_forward port vlan t frame s).1 = config s
  ∧ view (dhcp_forward port vlan t frame s).1 = view s
  ∧ pushed_redirects (dhcp_forward port vlan t frame s).1 = pushed_redirects s.
Proof. unfold dhcp_forward. repeat case_match; done. Qed.

Lemma handle_arp_tables port vlan frame s :
  dynamics (handle_arp port vlan frame s).1 = dynamics s
  ∧ pending (handle_arp port vlan frame s).1 = pending s
  ∧ store (handle_arp port vlan frame s).1 = store s
  ∧ config (handle_arp port vlan frame s).1 = config s
  ∧ view (handle_arp port vlan frame s).1 = view s
  ∧ pushed_redirects (handle_arp port vlan frame s).1 = pushed_redirects s.
Proof. unfold handle_arp. repeat case_match; done. Qed.

Lemma handle_dhcp_explained l0 tr e port vlan frame s :
  explained l0 tr s →
  explained l0 (tr ++ [(s, AFrame e port vlan frame)]) (handle_dhcp e port vlan frame s).1.
Proof.
  intros He. pose proof (handle_dhcp_cases e port vlan frame s) as Hc.
  destruct (handle_dhcp e port vlan frame s) as [s' out]. cbn [fst].
  destruct Hc as [(d & Hcl & Hf)|[(d & Hsv & -> & _)|(_ & Hd & Hp & _)]].
  - set (s1 := on_dhcp_stats vlan count_packet s) in *.
    destruct (dhcp_forward_tables port vlan (is_trusted s port) frame (dhcp_request e port vlan d s1)) as (Hd & Hp & _).
    rewrite <-Hf in Hd, Hp. cbn [fst] in Hd, Hp. revert Hd Hp. unfold dhcp_request.
    assert (∀ k, dynamics (save_bindings e (set_dynamics (delete k (dynamics s1)) s1)) = delete k (dynamics s)
      ∧ pending (save_bindings e (set_dynamics (delete k (dynamics s1)) s1)) = pending s) as Hdel.
    { intros k. by destruct (save_bindings_fields e (set_dynamics (delete k (dynamics s1)) s1)) as (_ & _ & -> & -> & _). }
    destruct (Hdel (mac_text (chaddr d), vlan)) as [Hx Hy].
    repeat case_match; intros Hd Hp;
      first [eapply explained_heard; [done|by exists d|exact Hd|exact Hp]
            |eapply explained_shrink; [done|rewrite Hd, Hx; apply delete_subseteq|by rewrite Hp, Hy|set_solver]].
  - unfold dhcp_reply.
    set (s1 := on_dhcp_stats vlan count_packet s).
    destruct (bind_lease_fields e vlan (mac_text (chaddr d)) (yiaddr d) (lease_secs d) s1) as (Hd & Hp & _).
    repeat case_match;
      first [eapply explained_shrink; [done|done|done|set_solver]
            |eapply explained_shrink; [done|done|apply delete_subseteq|set_solver]
            |idtac].
    eapply (explained_bind _ _ _ _ _ (mac_text (chaddr d), vlan)); [done| | |exact Hd|exact Hp]; [|done].
    exists d. split_and!; try done. cbn. by apply N.eqb_neq.
  - eapply explained_shrink; [done|by rewrite Hd|by rewrite Hp|set_solver].
Qed.

Lemma handle_relay_explained l0 tr e gi payload s :
  explained l0 tr s →
  explained l0 (tr ++ [(s, AReply e gi payload)]) (handle_relay_reply e gi payload s).1.
Proof.
  intros He. unfold handle_relay_reply.
  assert (∀ s', dynamics s' = dynamics s → pending s' ⊆ pending s →
    explained l0 (tr ++ [(s, AReply e gi payload)]) s') as Hsame.
  { intros s' Hd Hp. eapply explained_shrink; [done|by rewrite Hd|done|set_solver]. }
  destruct (list_find _ _) as [[i [vlan rv]]|] eqn:Ef; [|by apply Hsame].
  apply list_find_Some in Ef as (Hi & Hg & _). cbn in Hg.
  apply list_elem_of_lookup_2, elem_of_btree_iter in Hi.
  destruct (parse_bootp_total payload) as [[r|] Hp]; rewrite Hp; [|by apply Hsame].
  destruct (b_is_reply r) eqn:Hr; cbn [negb]; [|by apply Hsame].
  destruct (bind_lease_fields e vlan (mac_text (b_chaddr r)) (b_yiaddr r) (b_lease_secs r) s) as (Hd & Hpe & _).
  cbv zeta. cbn [fst].
  assert (∀ m, b_message_type r = Some m → m = 5 → b_yiaddr r ≠ 0 →
    explained l0 (tr ++ [(s, AReply e gi payload)])
      (on_relay_stats vlan relay_to_client (bind_lease e vlan (mac_text (b_chaddr r)) (b_yiaddr r) (b_lease_secs r) s))) as Hb.
  { intros m Hm -> Hy. eapply (explained_bind _ _ _ _ _ (mac_text (b_chaddr r), vlan));
      [done| | |exact Hd|exact Hpe]; [|done].
    exists vlan, rv, r. done. }
  repeat case_match; simplify_eq;
    first [by apply Hsame|apply Hsame; [done|apply delete_subseteq]|eapply Hb; [done|done|by apply N.eqb_neq]].
Qed.

Lemma act_explained l0 tr a s : explained l0 tr s → explained l0 (tr ++ [(s, a)]) (act a s).1.
Proof.
  intros He.
  assert (∀ s', dynamics s' ⊆ dynamics s → pending s' = pending s → explained l0 (tr ++ [(s, a)]) s') as Hs.
  { intros s' Hd Hp. eapply explained_shrink; [done|done|by rewrite Hp|set_solver]. }
  assert (∀ e d, dynamics (save_bindings e (set_dynamics d s)) = d
    ∧ pending (save_bindings e (set_dynamics d s)) = pending s) as Hsave.
  { intros e d. by destruct (save_bindings_fields e (set_dynamics d s)) as (_ & _ & -> & -> & _). }
  destruct a as [c|v|e port vlan frame|e gi payload|e|e mac]; cbn [act].
  - unfold set_config, push_redirects. repeat case_match; by apply Hs.
  - unfold set_l2_view, push_redirects. repeat case_match; by apply Hs.
  - unfold handle_frame. case_match; [by apply Hs|]. cbv zeta.
    case_match; [|case_match; [by apply handle_dhcp_explained|by apply Hs]].
    destruct (handle_arp_tables port vlan frame s) as (Hd & Hp & _). apply Hs; [by rewrite Hd|done].
  - by apply handle_relay_explained.
  - unfold expire_leases. cbn [fst]. destruct (Hsave e (btree_retain (λ _ b, unix_now e <? expires_at b) (dynamics s)))
      as [Hd Hp].
    case_match; apply Hs; rewrite ?Hd, ?Hp; try done; apply map_filter_subseteq.
  - unfold clear_bindings. cbn [fst snd].
    set (d := match mac with Some _ => _ | None => _ end). destruct (Hsave e d) as [Hd Hp].
    assert (d ⊆ dynamics s) by (subst d; case_match; [apply map_filter_subseteq|apply map_empty_subseteq]).
    case_match; apply Hs; rewrite ?Hd, ?Hp; done.
Qed.

Lemma run_explained l0 acts tr s :
  explained l0 tr s → explained l0 (tr ++ trace acts s) (run acts s).1.
Proof.
  revert tr s. induction acts as [|a acts IH]; intros tr s He; cbn [trace run].
  { by rewrite app_nil_r. }
  pose proof (IH _ _ (act_explained l0 tr a s He)) as H. rewrite <-(assoc_L (++)) in H.
  destruct (act a s) as [s1 out]. cbn [fst app] in *. by destruct (run acts s1).
Qed.

(** C26: in every reachable state each binding of the table was loaded at
    start or granted by an acknowledgment for that client and VLAN — from a
    server on a trusted port of a VLAN snooped at that moment, or to the relay
    address of the VLAN — with the acknowledged address and lease; and its
    interface is the one loaded, unknown, or a port where the client itself
    was heard under its own source MAC. *)
Theorem dhcp_bindings_explained now path mac acts :
  let s0 := spawn now path mac in
  explained (dynamics s0) (trace acts s0) (run acts s0).1.
Proof.
  intros s0. apply (run_explained _ acts [] s0). split.
  - intros k b Hb. left. by exists b.
  - intros k b Hb. right. left. by exists b.
  - intros k p. cbn. by rewrite lookup_empty.
Qed.

(** ** The table survives a restart *)

Lemma binding_key_split k : rsplit_once "@"%char (binding_key k) = Some (k.1, to_dec k.2).
Proof.
  unfold binding_key. change ("@" +:+ to_dec k.2) with (String "@"%char (to_dec k.2)).
  apply rsplit_once_app, digits_avoid; [done|apply to_dec_digits].
Qed.

Lemma binding_key_inj k1 k2 : binding_key k1 = binding_key k2 → k1 = k2.
Proof.
  intros E. pose proof (binding_key_split k1) as H. rewrite E, binding_key_split in H.
  injection H as H1 H2. apply (f_equal (λ s, parse_digits s 0)) in H2.
  rewrite !parse_digits_to_dec in H2. destruct k1, k2. cbn in *. congruence.
Qed.

Lemma persisted_lookup d key b :
  persisted d !! key = Some b ↔ ∃ k, key = binding_key k ∧ d !! k = Some b.
Proof.
  unfold persisted.
  assert (∀ v, (key, v) ∈ (λ kb, (binding_key kb.1, kb.2)) <$> btree_iter d
    ↔ ∃ k, key = binding_key k ∧ d !! k = Some v) as Hin.
  { intros v. rewrite list_elem_of_fmap. split.
    - intros ([k v'] & [= -> ->] & Hk%elem_of_btree_iter). eauto.
    - intros (k & -> & Hk). exists (k, v). by rewrite elem_of_btree_iter. }
  rewrite collect_map_lookup; [done|]. intros v1 v2 (k1 & -> & H1)%Hin (k2 & E & H2)%Hin.
  apply binding_key_inj in E as ->. congruence.
Qed.

(** The bindings still valid at [now]. *)
Definition unexpired (now : N) (d : gmap (string * N) DynamicBinding) : gmap (string * N) DynamicBinding :=
  btree_retain (λ _ b, now <? expires_at b) d.

Lemma load_persisted now d text :
  bindings_from_json text = Some (persisted d) → (∀ k b, d !! k = Some b → fits 16 k.2) →
  load_bindings now (Some text) = unexpired now d.
Proof.
  intros Ht Hfit. unfold load_bindings. rewrite Ht. apply map_eq. intros k.
  set (l := omap _ _).
  assert (∀ b, (k, b) ∈ l ↔ unexpired now d !! k = Some b) as Hin.
  { intros b. unfold unexpired. rewrite btree_retain_lookup. subst l. rewrite list_elem_of_omap. split.
    - intros ([key b'] & Hk%elem_of_btree_iter & E). apply persisted_lookup in Hk as (k' & -> & Hd).
      cbn [fst snd] in E. destruct (N.leb_spec (expires_at b') now); [done|].
      rewrite binding_key_split in E. cbn [mbind option_bind] in E.
      rewrite (parse_uint_to_dec 16) in E by (by eapply Hfit). cbn [mbind option_bind] in E.
      destruct k'. cbn [fst snd] in E. injection E as <- <-. rewrite Hd.
      by rewrite (proj2 (N.ltb_lt _ _)).
    - destruct (d !! k) as [b'|] eqn:Hd; [|done].
      destruct (N.ltb_spec now (expires_at b')); [|done]. intros [= <-].
      exists (binding_key k, b'). split; [apply elem_of_btree_iter, persisted_lookup; eauto|].
      cbn [fst snd]. destruct (N.leb_spec (expires_at b') now); [lia|].
      rewrite binding_key_split. cbn [mbind option_bind].
      rewrite (parse_uint_to_dec 16) by (by eapply Hfit). by destruct k. }
  apply option_eq. intros b. rewrite collect_map_lookup; [apply Hin|].
  intros v1 v2 H1%Hin H2%Hin. congruence.
Qed.

(** What the width of the source's integers and a working disk give. *)
Definition action_ok (s : Inner) (a : action) : Prop :=
  match a with
  | AConfig c => ∀ vlan r, relay c !! vlan = Some r → fits 16 vlan
  | AView _ => True
  | AFrame e _ vlan _ => fits 16 vlan ∧ disk_ok e = true
  | AReply e _ _ | AExpire e => disk_ok e = true
  | AClear e _ => disk_ok e = true ∧ fits 32 (N.of_nat (size (dynamics s)))
  end.

(** The file holds the table. *)
Record in_sync (s : Inner) : Prop := {
  sync_keys : ∀ k b, dynamics s !! k = Some b → fits 16 k.2;
  sync_relay : ∀ vlan r, relay (config s) !! vlan = Some r → fits 16 vlan;
  sync_file : ∀ f now, store s = Some f → load_bindings now f = unexpired now (dynamics s);
}.

Lemma in_sync_same s s' :
  in_sync s → dynamics s' = dynamics s → store s' = store s → config s' = config s → in_sync s'.
Proof. intros [H1 H2 H3] Hd Hs Hc. split; by rewrite ?Hd, ?Hs, ?Hc. Qed.

Lemma save_in_sync `{!JsonBindingsOk} e s s' :
  disk_ok e = true → (∀ k b, dynamics s' !! k = Some b → fits 16 k.2) →
  in_sync s → config s' = config s → in_sync (save_bindings e s').
Proof.
  intros He Hk [_ Hr _] Hc. destruct (save_bindings_fields e s') as (Hc' & _ & Hd & _ & _).
  split; rewrite ?Hc', ?Hd, ?Hc; [done..|].
  intros f now. unfold save_bindings. destruct (store s') as [f0|] eqn:Es; [|by rewrite Es].
  destruct (bindings_json (persisted (dynamics s'))) as (text & -> & Hfrom). rewrite He.
  cbn. intros [= <-]. by apply load_persisted.
Qed.

Lemma bind_lease_in_sync `{!JsonBindingsOk} e vlan mac yi lease s :
  disk_ok e = true → fits 16 vlan → in_sync s → in_sync (bind_lease e vlan mac yi lease s).
Proof.
  intros He Hv Hs. unfold bind_lease. cbv zeta. apply (save_in_sync e s); [done| |done|done].
  cbn. intros k b [[<- _]|[_ Hk]]%lookup_insert_Some; [done|]. by eapply sync_keys.
Qed.

Lemma handle_dhcp_in_sync `{!JsonBindingsOk} e port vlan frame s :
  disk_ok e = true → fits 16 vlan → in_sync s → in_sync (handle_dhcp e port vlan frame s).1.
Proof.
  intros He Hv Hs. pose proof (handle_dhcp_cases e port vlan frame s) as Hc.
  destruct (handle_dhcp e port vlan frame s) as [s' out]. cbn [fst].
  set (s1 := on_dhcp_stats vlan count_packet s) in *.
  assert (in_sync s1) as Hs1 by by apply (in_sync_same s).
  destruct Hc as [(d & _ & Hf)|[(d & _ & -> & _)|(_ & Hd & _ & Hst & Hco & _)]].
  - destruct (dhcp_forward_tables port vlan (is_trusted s port) frame (dhcp_request e port vlan d s1))
      as (Hd & _ & Hst & Hco & _ & _).
    rewrite <-Hf in Hd, Hst, Hco. cbn [fst] in *.
    eapply in_sync_same; [|exact Hd|exact Hst|exact Hco].
    assert (in_sync (save_bindings e (set_dynamics (delete (mac_text (chaddr d), vlan) (dynamics s1)) s1))) as Hdel.
    { apply (save_in_sync e s1); [done| |done|done]. cbn [dynamics set_dynamics].
      intros k b [_ Hk]%lookup_delete_Some. by eapply (sync_keys s1). }
    unfold dhcp_request. repeat case_match; first [exact Hdel|by apply (in_sync_same s1)].
  - unfold dhcp_reply. repeat case_match; try done; [by apply bind_lease_in_sync|by apply (in_sync_same s1)].
  - by apply (in_sync_same s).
Qed.

Lemma retain_all {K V} `{Countable K} (p : K → V → bool) (m : gmap K V) :
  size (btree_retain p m) = size m → btree_retain p m = m.
Proof.
  intros Hs. apply map_subseteq_size_eq; [apply map_filter_subseteq|lia].
Qed.

Lemma act_in_sync `{!JsonBindingsOk} a s : action_ok s a → in_sync s → in_sync (act a s).1.
Proof.
  intros Ha Hs.
  assert (∀ e d, disk_ok e = true → d ⊆ dynamics s → in_sync (save_bindings e (set_dynamics d s))) as Hsub.
  { intros e d He Hd. apply (save_in_sync e s); [done| |done|done].
    cbn. intros k b Hk. eapply sync_keys; [done|by eapply lookup_weaken]. }
  destruct a as [c|v|e port vlan frame|e gi payload|e|e mac]; cbn [act action_ok] in *.
  - unfold set_config, push_redirects. destruct Hs as [H1 H2 H3]. repeat case_match; by split.
  - unfold set_l2_view, push_redirects. repeat case_match; by apply (in_sync_same s).
  - destruct Ha as [Hv He]. unfold handle_frame. case_match; [done|]. cbv zeta.
    case_match; [|case_match; [by apply handle_dhcp_in_sync|done]].
    destruct (handle_arp_tables port vlan frame s) as (Hd & _ & Hst & Hc & _). by apply (in_sync_same s).
  - unfold handle_relay_reply.
    destruct (list_find _ _) as [[i [vlan rv]]|] eqn:Ef; [|done].
    apply list_find_Some in Ef as (Hi & _ & _). apply list_elem_of_lookup_2, elem_of_btree_iter in Hi.
    assert (fits 16 vlan) as Hv by (by eapply sync_relay).
    destruct (parse_bootp_total payload) as [[r|] ->]; [|by apply (in_sync_same s)].
    destruct (b_is_reply r); cbn [negb]; [|by apply (in_sync_same s)]. cbv zeta. cbn [fst].
    match goal with |- in_sync (on_relay_stats _ _ ?x) => apply (in_sync_same x); [|done..] end.
    repeat case_match; first [done|by apply (bind_lease_in_sync e vlan)|by apply (in_sync_same s)].
  - unfold expire_leases. cbn [fst]. set (d := btree_retain _ _).
    destruct (Nat.eqb_spec (size d) (size (dynamics s))) as [E|_].
    + apply (in_sync_same s); [done| |done|done]. by apply retain_all.
    + apply Hsub; [done|apply map_filter_subseteq].
  - destruct Ha as [He Hsz]. unfold clear_bindings. cbn [fst snd].
    set (d := match mac with Some _ => _ | None => _ end).
    assert (d ⊆ dynamics s) as Hd by (subst d; case_match; [apply map_filter_subseteq|apply map_empty_subseteq]).
    pose proof (map_subseteq_size _ _ Hd) as Hle.
    rewrite wrap_id by (unfold fits in *; lia).
    destruct (N.ltb_spec 0 (N.of_nat (size (dynamics s) - size d))); [by apply Hsub|].
    apply (in_sync_same s); [done| |done|done]. cbn. apply map_subseteq_size_eq; [done|lia].
Qed.

Lemma save_store e s : is_Some (store s) → is_Some (store (save_bindings e s)).
Proof. intros [f Hf]. unfold save_bindings. rewrite Hf. repeat case_match; cbn; rewrite ?Hf; by eexists. Qed.

(** The persistence path stays what [spawn] was given. *)
Lemma act_store a s : is_Some (store s) → is_Some (store (act a s).1).
Proof.
  intros Hs. assert (∀ e vlan mac yi lease s1, store s1 = store s → is_Some (store (bind_lease e vlan mac yi lease s1))) as Hb.
  { intros e vlan mac yi lease s1 E. unfold bind_lease. cbv zeta. apply save_store. cbn. by rewrite E. }
  destruct a as [c|v|e port vlan frame|e gi payload|e|e mac]; cbn [act].
  - unfold set_config, push_redirects. by repeat case_match.
  - unfold set_l2_view, push_redirects. by repeat case_match.
  - unfold handle_frame. case_match; [done|]. cbv zeta.
    case_match; [destruct (handle_arp_tables port vlan frame s) as (_ & _ & -> & _); done|]. case_match; [|done].
    pose proof (handle_dhcp_cases e port vlan frame s) as Hc.
    destruct (handle_dhcp e port vlan frame s) as [s' out]. cbn [fst].
    destruct Hc as [(d & _ & Hf)|[(d & _ & -> & _)|(_ & _ & _ & -> & _)]]; [| |done].
    + change s' with (s', out).1. rewrite Hf.
      destruct (dhcp_forward_tables port vlan (is_trusted s port) frame
        (dhcp_request e port vlan d (on_dhcp_stats vlan count_packet s))) as (_ & _ & -> & _).
      unfold dhcp_request. repeat case_match; try done; by apply save_store.
    + unfold dhcp_reply. repeat case_match; try done; by apply Hb.
  - unfold handle_relay_reply. repeat case_match; cbn; try done; by apply Hb.
  - unfold expire_leases. case_match; [done|by apply save_store].
  - unfold clear_bindings. cbn [snd fst]. case_match; [by apply save_store|done].
Qed.

Lemma run_store acts s : is_Some (store s) → is_Some (store (run acts s).1).
Proof.
  revert s. induction acts as [|a acts IH]; intros s Hs; [done|]. cbn [run].
  pose proof (act_store a s Hs) as H1. destruct (act a s) as [s1 out]. specialize (IH s1 H1).
  by destruct (run acts s1).
Qed.

Lemma run_in_sync `{!JsonBindingsOk} acts s :
  (∀ sa, sa ∈ trace acts s → action_ok sa.1 sa.2) → in_sync s → in_sync (run acts s).1.
Proof.
  revert s. induction acts as [|a acts IH]; intros s Hok Hs; [done|]. cbn [run trace] in *.
  assert (in_sync (act a s).1) as H1 by (apply act_in_sync; [apply (Hok (s, a)); left|done]).
  specialize (IH (act a s).1). destruct (act a s) as [s1 out]. cbn [fst] in *.
  assert (in_sync (run acts s1).1) by (apply IH; [|done]; intros sa Hsa; apply Hok; by right).
  by destruct (run acts s1).
Qed.


(** ** The redirect program *)

Definition last_program : option RedirectProgram → list Output → option RedirectProgram :=
  foldl (λ acc o, match o with SendRedirects p => Some p | _ => acc end).

Definition not_program (o : Output) : Prop := match o with SendRedirects _ => False | _ => True end.

Lemma last_program_app acc o1 o2 : last_program acc (o1 ++ o2) = last_program (last_program acc o1) o2.
Proof. apply foldl_app. Qed.

Lemma last_program_other acc out : Forall not_program out → last_program acc out = acc.
Proof. induction 1 as [|o out Ho _ IH]; [done|]. cbn. by destruct o. Qed.

Lemma Forall_fmap_program {A} (f : A → Output) l : (∀ x, not_program (f x)) → Forall not_program (f <$> l).
Proof. intros H. apply Forall_fmap, Forall_true. intros x. apply H. Qed.

(** Everything but the two setters leaves the program alone. *)
Lemma act_redirects_frame a s :
  match a with AConfig _ | AView _ => True | _ =>
    config (act a s).1 = config s ∧ view (act a s).1 = view s
    ∧ pushed_redirects (act a s).1 = pushed_redirects s ∧ Forall not_program (act a s).2
  end.
Proof.
  assert (∀ e d, config (save_bindings e (set_dynamics d s)) = config s
    ∧ view (save_bindings e (set_dynamics d s)) = view s
    ∧ pushed_redirects (save_bindings e (set_dynamics d s)) = pushed_redirects s) as Hsave.
  { intros e d. by destruct (save_bindings_fields e (set_dynamics d s)) as (-> & -> & _ & _ & ->). }
  destruct a as [c|v|e port vlan frame|e gi payload|e|e mac]; cbn [act]; [done|done|..].
  - unfold handle_frame. case_match; [done|]. cbv zeta. case_match; [|case_match; [|done]].
    + destruct (handle_arp_tables port vlan frame s) as (_ & _ & _ & -> & -> & ->). split_and!; try done.
      unfold handle_arp. repeat case_match; try done. by apply Forall_fmap_program.
    + pose proof (handle_dhcp_cases e port vlan frame s) as Hc.
      destruct (handle_dhcp e port vlan frame s) as [s' out]. cbn [fst snd].
      destruct Hc as [(d & _ & Hf)|[(d & _ & -> & ->)|(-> & _ & _ & _ & -> & -> & ->)]]; [| |done].
      * set (s1 := dhcp_request e port vlan d (on_dhcp_stats vlan count_packet s)) in *.
        destruct (dhcp_request_fields e port vlan d (on_dhcp_stats vlan count_packet s)) as (R1 & R2 & R3).
        destruct (dhcp_forward_tables port vlan (is_trusted s port) frame s1) as (_ & _ & _ & F1 & F2 & F3).
        rewrite <-Hf in F1, F2, F3. cbn [fst] in F1, F2, F3.
        split_and!; [exact (eq_trans F1 R1)|exact (eq_trans F2 R2)|exact (eq_trans F3 R3)|].
        assert (out = (s', out).2) as -> by done. rewrite Hf. unfold dhcp_forward.
        repeat case_match; try done; by apply Forall_fmap_program.
      * by destruct (dhcp_reply_fields e vlan d (on_dhcp_stats vlan count_packet s)) as (-> & -> & ->).
  - unfold handle_relay_reply.
    destruct (list_find _ _) as [[i [vlan rv]]|]; [|done].
    destruct (parse_bootp_total payload) as [[r|] ->]; [|done].
    destruct (b_is_reply r); cbn [negb]; [|done]. cbv zeta. cbn [fst snd].
    destruct (bind_lease_fields e vlan (mac_text (b_chaddr r)) (b_yiaddr r) (b_lease_secs r) s) as (_ & _ & H1 & H2 & H3).
    split_and!; [repeat case_match; cbn; done..|]. by apply Forall_fmap_program.
  - unfold expire_leases. cbn [fst snd]. case_match; [done|]. by destruct (Hsave e (btree_retain (λ _ b, unix_now e <? expires_at b) (dynamics s))) as (-> & -> & ->).
  - unfold clear_bindings. cbn [fst snd]. case_match; [|done].
    set (d := match mac with Some _ => _ | None => _ end). by destruct (Hsave e d) as (-> & -> & ->).
Qed.

(** The program last sent is the one of the current settings. *)
Record program_known (s : Inner) (seen : option RedirectProgram) : Prop := {
  known_seen : pushed_redirects s = seen;
  known_program : match seen with
                  | Some p => p = compute_redirects (config s) (view s)
                  | None => config s = default_config ∧ view s = mkView ∅ ∅
                  end;
}.

Lemma push_redirects_known s seen :
  pushed_redirects s = seen →
  program_known (push_redirects s).1 (last_program seen (push_redirects s).2).
Proof.
  intros Hp. unfold push_redirects. case_decide as E; cbn; split; cbn; try done.
  rewrite <-Hp, E. done.
Qed.

Lemma act_known a s seen :
  program_known s seen → program_known (act a s).1 (last_program seen (act a s).2).
Proof.
  intros [H1 H2]. pose proof (act_redirects_frame a s) as Hf.
  destruct a as [c|v|e port vlan frame|e gi payload|e|e mac].
  1: { cbn [act]. unfold set_config. case_decide; [by split|]. by apply push_redirects_known. }
  1: { cbn [act]. unfold set_l2_view. case_decide; [by split|]. by apply push_redirects_known. }
  all: destruct Hf as (Hc & Hv & Hp & Hout); rewrite last_program_other by done; split; rewrite ?Hc, ?Hv, ?Hp; done.
Qed.

End engine.

(** A dynamic binding hides a static one of the same client: an ARP for the
    static address is not bound although the static names it. *)
Theorem dai_dynamic_shadows_static s mac vlan b sb :
  dynamics s !! (mac, vlan) = Some b → statics (config s) !! (mac, vlan) = Some sb → ip b ≠ s_ip sb →
  bound s mac vlan (s_ip sb) = false.
Proof. intros Hd _ Hne. unfold bound. rewrite Hd. by apply N.eqb_neq. Qed.

(** A new configuration keeps every counter, also those of VLANs it drops. *)
Theorem set_config_keeps_stats c s :
  dhcp_stats (set_config c s).1 = dhcp_stats s ∧ arp_stats (set_config c s).1 = arp_stats s
  ∧ relay_stats (set_config c s).1 = relay_stats s.
Proof. unfold set_config, push_redirects. by repeat case_decide. Qed.

(** ** Runs *)

#[export] Instance DynamicBinding_eq_dec : EqDecision DynamicBinding.
Proof. solve_decision. Defined.
#[export] Instance DynamicBinding_countable : Countable DynamicBinding.
Proof.
  apply (inj_countable' (λ b, (ip b, interface b, expires_at b))
    (λ t, mkBinding t.1.1 t.1.2 t.2)). by intros [].
Defined.

Module SnoopSecDemo.
(** A serialization with the contract of the JSON one. *)
#[export] Instance demo_json : JsonBindings := {
  bindings_to_json m := Some (to_dec (Npos (encode m)));
  bindings_from_json text := match parse_digits text 0 with Some (Npos p) => decode p | _ => None end;
}.

#[export] Instance demo_json_ok : JsonBindingsOk.
Proof.
  split. intros m. eexists. split; [done|]. cbn [bindings_from_json demo_json].
  rewrite parse_digits_to_dec. apply decode_encode.
Defined.

Definition mac : list N := [2; 0; 0; 0; 0; 1].
Definition client : list N := [2; 0; 0; 0; 0; 7].
Definition cfg (r : gmap N RelayVlan) : Config := mkConfig {[ 10 ]} {[ 10 ]} ∅ {[ "Ethernet9" ]} {[ "Ethernet9" ]} ∅ r.
Definition l2 : L2View := mkView {[ 10 := {[ "Ethernet1"; "Ethernet2"; "Ethernet9" ]} ]} ∅.
Definition e : env := mkEnv 1000 true.
(** A DHCP message to port [dport] behind plain headers. *)
Definition dhcp_frame (src : list N) (dport op mtype : N) : list N :=
  replicate 6 255 ++ src ++ [8; 0] ++ [69; 0; 1; 23; 0; 0; 0; 0; 64; 17; 0; 0; 0; 0; 0; 0; 255; 255; 255; 255]
  ++ [0; 68] ++ be16 dport ++ [1; 3; 0; 0] ++ DhcpWireDemo.fixed op ++ MAGIC_COOKIE ++ [53; 1; mtype; 51; 4; 0; 0; 14; 16; 255].
Definition discover : list N := dhcp_frame client 67 1 1.
Definition ack : list N := dhcp_frame mac 68 2 5.
(** Who has 10.0.0.9?  Tell 10.0.0.5. *)
Definition arp_frame : list N :=
  replicate 6 255 ++ client ++ [8; 6] ++ [0; 1; 8; 0; 6; 4; 0; 1] ++ client ++ [10; 0; 0; 5] ++ replicate 6 0 ++ [10; 0; 0; 9].
Definition boot (r : gmap N RelayVlan) : list action := [AConfig (cfg r); AView l2].
Definition lease : list action :=
  boot ∅ ++ [AFrame e "Ethernet1" 10 discover; AFrame e "Ethernet9" 10 ack].
Definition booted (r : gmap N RelayVlan) : Inner := (run (boot r) (spawn 0 None mac)).1.
Definition leased : Inner := (run lease (spawn 0 None mac)).1.
Definition saved : Inner := (run lease (spawn 0 (Some None) mac)).1.
Definition arp : ArpMessage := mkArp false client 167772165 (replicate 6 0).
Definition request : DhcpMessage := mkDhcp false client 167772165 (Some 1) (Some 3600).
Definition relay10 : gmap N RelayVlan := {[ 10 := mkRelayVlan [3232235777; 3232235778] 167772161 ]}.
End SnoopSecDemo.
Import SnoopSecDemo.

(** The client of the run above holds its lease on the port it was heard on. *)
Example lease_learned :
  dynamics leased = {[ (mac_text client, 10) := mkBinding 167772165 "Ethernet1" 4600 ]}.
Proof. apply (bool_decide_unpack _). by vm_compute. Qed.



Lemma dhcp_relay_complete_witness :
  ∃ payload, bootp_payload discover = Ok (Some payload)
    ∧ (handle_dhcp e "Ethernet1" 10 discover (booted relay10)).2
      = (λ server, RelayOut (mkDatagram server 167772161 (with_giaddr payload 167772161)))
        <$> [3232235777; 3232235778].
Proof.
  apply (dhcp_relay_complete e "Ethernet1" 10 discover (booted relay10) request
    (mkRelayVlan [3232235777; 3232235778] 167772161)); [|by vm_compute|done|done].
  split; [by vm_compute|]. split; [by apply (bool_decide_unpack _); vm_compute|]. by vm_compute.
Defined.

