(* ===== verification/Dot1x.v ===== *)
(** * Port authentication (hemlock-orch/src/dot1x.rs)

    The 802.1X engine: which ports the switch lets through, the directives
    for the authenticator process, its configuration files, the runtime that
    manages the process, and the control socket it is watched through.  The
    two channels of the engine are the lists of the sends; a failure of the
    operating system is chosen by the environment. *)

From Stdlib Require Import Ascii NArith Lia.
From stdpp Require Import base tactics list strings option gmap.
From S2P Require Import Prelude Text.

Local Open Scope N_scope.

(** ** Data *)

Record Radius := mkRadius {
  r_ip : string; r_key : string; r_port : N; r_timeout : N; r_retransmit : N }.

Record Config := mkConfig {
  radius : list Radius; reauth_interval : N; c_ports : gset string }.

Definition no_config : Config := mkConfig [] 0 ∅.

Inductive CtrlEvent :=
| AuthSuccess (port mac : string)
| AuthFailure (port mac : string)
| Logoff (port mac : string).

Inductive Directive :=
| Reconfigure (c : Config)
| Reauth (port : string).

Record PortState := mkPortState {
  authorized : bool; supplicant : option string; last_auth : option N; failures : N }.

Record PortSnapshot := mkPortSnapshot {
  sn_port : string; sn_authorized : bool; sn_supplicant : option string;
  sn_last_auth : option N; sn_failures : N }.

Record Snapshot := mkSnapshot {
  sn_radius : list Radius; sn_reauth_interval : N; sn_ports : list PortSnapshot }.

Record Inner := mkInner { config : Config; ports : gmap string PortState }.

#[export] Instance Radius_eq_dec : EqDecision Radius.
Proof. solve_decision. Defined.

#[export] Instance Config_eq_dec : EqDecision Config.
Proof. solve_decision. Defined.

(** ** Operations

    The result of an operation is the new state, the sends on [auth_tx] and
    the sends on [directives_tx]. *)

Definition sent : Type := list (string * bool) * list Directive.

Definition spawn : Inner := mkInner no_config ∅.

Definition new_port : PortState := mkPortState false None None 0.

Definition set_config (c : Config) (s : Inner) : Inner * sent :=
  if decide (config s = c) then (s, ([], []))
  else
    let changed_process :=
      bool_decide (radius (config s) ≠ radius c ∨ reauth_interval (config s) ≠ reauth_interval c
                   ∨ c_ports (config s) ≠ c_ports c) in
    let stale := filter (λ p, p ∉ c_ports c) (btree_keys (ports s)) in
    let kept := foldl (λ m p, delete p m) (ports s) stale in
    let '(ps, opened) :=
      foldl (λ (acc : gmap string PortState * list (string * bool)) p,
               if decide (is_Some (acc.1 !! p)) then acc
               else (<[p := new_port]> acc.1, acc.2 ++ [(p, false)]))
        (kept, []) (bset_iter (c_ports c)) in
    (mkInner c ps,
     (((λ p, (p, true)) <$> stale) ++ opened, if changed_process then [Reconfigure c] else [])).

Definition handle_event (now : N) (event : CtrlEvent) (s : Inner) : Inner * sent :=
  match event with
  | AuthSuccess port mac =>
      match ports s !! port with
      | None => (s, ([], []))
      | Some st =>
          (mkInner (config s) (<[port := mkPortState true (Some mac) (Some now) (failures st)]> (ports s)),
           (if negb (authorized st) then [(port, true)] else [], []))
      end
  | AuthFailure port mac =>
      match ports s !! port with
      | None => (s, ([], []))
      | Some st =>
          (mkInner (config s)
             (<[port := mkPortState false (if decide (mac = "") then None else Some mac)
                          (last_auth st) (wrap 32 (failures st + 1))]> (ports s)),
           (if authorized st then [(port, false)] else [], []))
      end
  | Logoff port _ =>
      match ports s !! port with
      | None => (s, ([], []))
      | Some st =>
          (mkInner (config s) (<[port := mkPortState false None (last_auth st) (failures st)]> (ports s)),
           (if authorized st then [(port, false)] else [], []))
      end
  end.

Definition reauth (port : string) (s : Inner) : bool * sent :=
  let enabled := bool_decide (is_Some (ports s !! port)) in
  (enabled, ([], if enabled then [Reauth port] else [])).

Definition snapshot (s : Inner) : Snapshot :=
  mkSnapshot (radius (config s)) (reauth_interval (config s))
    ((λ e : string * PortState,
        mkPortSnapshot e.1 (authorized e.2) (supplicant e.2) (last_auth e.2) (failures e.2))
       <$> btree_iter (ports s)).

(** ** The authenticator's configuration file *)

Definition nl : string := String (ascii_of_N 10) "".

Definition render_radius (r : Radius) : string :=
  ("auth_server_addr=" +:+ r_ip r +:+ nl) +:+
  ("auth_server_port=" +:+ to_dec (r_port r) +:+ nl) +:+
  ("auth_server_shared_secret=" +:+ r_key r +:+ nl).

Definition render_hostapd_conf (port : string) (c : Config) (ctrl_dir : string) : string :=
  ("interface=" +:+ port +:+ nl) +:+
  ("driver=wired" +:+ nl) +:+
  ("ieee8021x=1" +:+ nl) +:+
  ("use_pae_group_addr=1" +:+ nl) +:+
  ("ctrl_interface=" +:+ ctrl_dir +:+ nl) +:+
  (if 0 <? reauth_interval c then "eap_reauth_period=" +:+ to_dec (reauth_interval c) +:+ nl else "") +:+
  ("own_ip_addr=127.0.0.1" +:+ nl) +:+
  foldr (λ r acc, render_radius r +:+ acc) "" (radius c) +:+
  match radius c with
  | first :: _ =>
      "radius_retry_primary_interval="
        +:+ to_dec (wrap 32 (r_timeout first * (r_retransmit first + 1))) +:+ nl
  | [] => ""
  end.

(** ** The runtime

    [child] is the running process with the files it was started on; the
    environment says how each system call ends. *)

Inductive WriteResult := Written | NotWritten | NotPrivate.

Record Env := mkEnv { mkdir_ok : bool; write_result : string → WriteResult; spawn_ok : bool }.

Inductive Effect :=
| KillChild
| WriteFile (path text : string)
| SetMode (path : string) (mode : N)
| SpawnHostapd (confs : list string)
| SpawnReader (socket port : string)
| CtrlCommand (socket command : string).

(** [Path::join]: an absolute right-hand side replaces the left. *)
Definition path_join (base p : string) : string :=
  match p with
  | String "/" _ => p
  | _ => base +:+ "/" +:+ p
  end.

Definition run_dir : string := "/run/hemlock/hostapd".
Definition ctrl_dir : string := path_join run_dir "ctrl".
Definition ctrl_socket (port : string) : string := path_join ctrl_dir port.
Definition conf_path (port : string) : string := path_join run_dir (port +:+ ".conf").

Definition write_private (e : Env) (path text : string) : bool * list Effect :=
  match write_result e path with
  | Written => (true, [WriteFile path text; SetMode path 384])
  | NotPrivate => (false, [WriteFile path text])
  | NotWritten => (false, [])
  end.

Definition write_confs (e : Env) (c : Config) : list string * list Effect :=
  foldl (λ (acc : list string * list Effect) port,
           let path := conf_path port in
           let '(ok, out) := write_private e path (render_hostapd_conf port c ctrl_dir) in
           (if ok then acc.1 ++ [path] else acc.1, acc.2 ++ out))
    ([], []) (bset_iter (c_ports c)).

Definition run_directive (e : Env) (d : Directive) (child : option (list string)) :
    option (list string) * list Effect :=
  match d with
  | Reconfigure c =>
      let killed := match child with Some _ => [KillChild] | None => [] end in
      if decide (c_ports c = ∅ ∨ radius c = []) then (None, killed)
      else if negb (mkdir_ok e) then (None, killed)
      else
        let '(conf_paths, writes) := write_confs e c in
        if spawn_ok e then
          (Some conf_paths,
           killed ++ writes ++ SpawnHostapd conf_paths
             :: ((λ p, SpawnReader (ctrl_socket p) p) <$> bset_iter (c_ports c)))
        else (None, killed ++ writes)
  | Reauth port => (child, [CtrlCommand (ctrl_socket port) "REAUTHENTICATE"])
  end.

(** The loop over the directives received, each with the environment it
    meets. *)
Definition run_hostapd (ds : list (Env * Directive)) (child : option (list string)) :
    option (list string) * list Effect :=
  foldl (λ (acc : option (list string) * list Effect) ed,
           let '(r, out) := run_directive ed.1 ed.2 acc.1 in (r, acc.2 ++ out)) (child, []) ds.

(** ** Control-socket lines *)

Definition level_char (c : ascii) : bool :=
  bool_decide (c = "<"%char) || is_ascii_digit c || bool_decide (c = ">"%char).

(** [rest.split_whitespace().next()] *)
Definition first_word (s : string) : option string :=
  match take_while (λ c, negb (is_whitespace c)) (skip_while is_whitespace s) with
  | "" => None
  | w => Some w
  end.

Definition mac_after (line marker : string) : option string :=
  rest ← split_str_second marker line; first_word rest.

Definition parse_ctrl_event (port line : string) : option CtrlEvent :=
  let line := skip_while level_char line in
  if contains_str "CTRL-EVENT-EAP-SUCCESS" line || contains_str "AP-STA-CONNECTED" line then
    Some (AuthSuccess port
      (default "" (match mac_after line "AP-STA-CONNECTED " with
                   | Some m => Some m
                   | None => mac_after line "CTRL-EVENT-EAP-SUCCESS "
                   end)))
  else if contains_str "CTRL-EVENT-EAP-FAILURE" line then
    Some (AuthFailure port (default "" (mac_after line "CTRL-EVENT-EAP-FAILURE ")))
  else if contains_str "AP-STA-DISCONNECTED" line then
    Some (Logoff port (default "" (mac_after line "AP-STA-DISCONNECTED ")))
  else None.

(** ** The control socket

    Unix datagram sockets as [std::os::unix::net] has them: an address is a
    path, [bind] gives a path to a fresh socket and a datagram sent to a path
    is received by the socket bound there, if it is still open.  The
    authenticator registers the address an [ATTACH] comes from; to which
    addresses it sends its events is the class below. *)

Record Os := mkOs {
  bound : gmap string nat; open_sockets : gset nat; next_id : nat;
  attached : list (string * string) }.

Class Hostapd := monitor_addrs : list (string * string) → string → list string.

(** An unsolicited event of an interface goes to every address attached to
    its socket. *)
Class HostapdOk `{Hostapd} : Prop :=
  monitor_addrs_spec att socket a : a ∈ monitor_addrs att socket ↔ (socket, a) ∈ att.

(** [std::env::temp_dir()] and [std::process::id()] *)
Record Process := mkProcess { temp_dir : string; process_id : N }.

Definition local_addr (pr : Process) : string :=
  path_join (temp_dir pr) ("hemlock-hostapd-" +:+ to_dec (process_id pr)).

(** [reachable] is whether the authenticator's socket exists; when it does
    not the new socket is dropped, its path stays. *)
Definition attach_ctrl (pr : Process) (reachable : bool) (socket : string) (o : Os) : option nat * Os :=
  let id := next_id o in
  let o := mkOs (<[local_addr pr := id]> (delete (local_addr pr) (bound o)))
             (open_sockets o) (S id) (attached o) in
  if reachable then
    (Some id, mkOs (bound o) ({[ id ]} ∪ open_sockets o) (next_id o)
                (attached o ++ [(socket, local_addr pr)]))
  else (None, o).

Definition close (id : nat) (o : Os) : Os :=
  mkOs (bound o) (open_sockets o ∖ {[ id ]}) (next_id o) (attached o).

Definition send_ctrl_command (pr : Process) (reachable : bool) (socket : string) (o : Os) : Os :=
  match attach_ctrl pr reachable socket o with
  | (Some id, o) => close id o
  | (None, o) => o
  end.

(** One attempt of a reader thread: on success its socket reports for its
    port; on failure it sleeps and tries again. *)
Definition reader_attach (pr : Process) (reachable : bool) (port : string)
    (st : gmap nat string * Os) : gmap nat string * Os :=
  match attach_ctrl pr reachable (ctrl_socket port) st.2 with
  | (Some id, o) => (<[id := port]> st.1, o)
  | (None, o) => (st.1, o)
  end.

(** The sockets that receive an event of an interface, and what the readers
    behind them report for a line. *)
Definition receivers `{Hostapd} (o : Os) (socket : string) : list nat :=
  omap (λ a, id ← bound o !! a; if decide (id ∈ open_sockets o) then Some id else None)
    (monitor_addrs (attached o) socket).

Definition reported `{Hostapd} (readers : gmap nat string) (o : Os) (port line : string) : list CtrlEvent :=
  omap (λ id, p ← readers !! id; parse_ctrl_event p line) (receivers o (ctrl_socket port)).

(** ** The engine's runs *)

Inductive action :=
| ASetConfig (c : Config)
| AEvent (now : N) (e : CtrlEvent)
| AReauth (port : string).

Definition act (a : action) (s : Inner) : Inner * sent :=
  match a with
  | ASetConfig c => set_config c s
  | AEvent now e => handle_event now e s
  | AReauth port => (s, (reauth port s).2)
  end.

(** The state after a trace (most recent action first) and everything sent. *)
Fixpoint run (tr : list action) : Inner * sent :=
  match tr with
  | [] => (spawn, ([], []))
  | a :: tr' =>
      let '(s, (au, ds)) := run tr' in
      let '(s', (au', ds')) := act a s in
      (s', (au ++ au', ds ++ ds'))
  end.

(** The switch's side: the authorization of a port after the updates
    received; a port nobody mentioned is open. *)
Definition switch_open (updates : list (string * bool)) (p : string) : bool :=
  foldl (λ b u, if decide (u.1 = p) then u.2 else b) true updates.

(** ** The promise: a port gate

    Read off the trace alone: a port is enforced when the last configuration
    names it, and then open only when the last report about it, since it was
    enforced, was a success. *)
Definition ev_port (e : CtrlEvent) : string :=
  match e with AuthSuccess p _ | AuthFailure p _ | Logoff p _ => p end.

Definition is_success (e : CtrlEvent) : bool :=
  match e with AuthSuccess _ _ => true | _ => false end.

Fixpoint enforced (p : string) (tr : list action) : bool :=
  match tr with
  | [] => false
  | ASetConfig c :: _ => bool_decide (p ∈ c_ports c)
  | _ :: tr' => enforced p tr'
  end.

Fixpoint authenticated (p : string) (tr : list action) : bool :=
  match tr with
  | [] => false
  | ASetConfig c :: tr' => bool_decide (p ∈ c_ports c) && authenticated p tr'
  | AEvent _ e :: tr' =>
      if decide (ev_port e = p) then enforced p tr' && is_success e else authenticated p tr'
  | AReauth _ :: tr' => authenticated p tr'
  end.

(** ** The gate *)

Definition settle (p : string) (b : bool) (u : string * bool) : bool :=
  if decide (u.1 = p) then u.2 else b.

(** Case analysis on memberships of a list cell. *)
Ltac decide_cons := repeat case_decide; try done; rewrite ?elem_of_cons in *; naive_solver.

Lemma settle_pair p b q v : settle p b (q, v) = if decide (q = p) then v else b.
Proof. done. Qed.

Lemma settle_const p b v l :
  foldl (settle p) b ((λ q, (q, v)) <$> l) = if decide (p ∈ l) then v else b.
Proof.
  revert b. induction l as [|q l IH]; intros b; [done|]. cbn. rewrite IH. unfold settle. cbn.
  decide_cons.
Qed.

Definition enable (acc : gmap string PortState * list (string * bool)) (p : string) :=
  if decide (is_Some (acc.1 !! p)) then acc else (<[p := new_port]> acc.1, acc.2 ++ [(p, false)]).

Lemma foldl_enable p l m out b :
  let r := foldl enable (m, out) l in
  r.1 !! p = (if decide (p ∈ l) then Some (default new_port (m !! p)) else m !! p)
  ∧ foldl (settle p) b r.2
    = if decide (p ∈ l ∧ m !! p = None) then false else foldl (settle p) b out.
Proof.
  revert m out. induction l as [|q l IH]; intros m out; cbn.
  { split; [done|]. rewrite decide_False; [done|]. by intros [?%elem_of_nil ?]. }
  unfold enable at 2 4. cbn [fst snd]. destruct (decide (is_Some (m !! q))) as [Hq|Hq].
  - destruct (IH m out) as [-> ->]. clear IH. destruct (decide (p = q)) as [->|Hne].
    + destruct Hq as [st Hq]. rewrite Hq. split; decide_cons.
    + split; decide_cons.
  - destruct (IH (<[q := new_port]> m) (out ++ [(q, false)])) as [-> ->].
    apply eq_None_not_Some in Hq. rewrite foldl_snoc, settle_pair. clear IH.
    destruct (decide (p = q)) as [->|Hne].
    + rewrite lookup_insert_eq, Hq. split; decide_cons.
    + rewrite lookup_insert_ne by done. split; decide_cons.
Qed.

Lemma foldl_delete_lookup {V} (l : list string) (m : gmap string V) p :
  foldl (λ m p, delete p m) m l !! p = if decide (p ∈ l) then None else m !! p.
Proof.
  revert m. induction l as [|q l IH]; intros m; [done|]. cbn. rewrite IH.
  destruct (decide (p = q)) as [->|Hne].
  - rewrite lookup_delete_eq. decide_cons.
  - rewrite lookup_delete_ne by done. decide_cons.
Qed.

(** What [set_config] does to one port, and what it tells the switch. *)
Lemma set_config_port c s p b :
  dom (ports s) = c_ports (config s) →
  let r := set_config c s in
  config r.1 = c
  ∧ ports r.1 !! p = (if decide (p ∈ c_ports c) then Some (default new_port (ports s !! p)) else None)
  ∧ foldl (settle p) b r.2.1
    = match ports s !! p with
      | Some _ => if decide (p ∈ c_ports c) then b else true
      | None => if decide (p ∈ c_ports c) then false else b
      end.
Proof.
  intros Hdom. unfold set_config. case_decide as Hc; cbn.
  { subst c. split; [done|]. destruct (ports s !! p) as [st|] eqn:E.
    - apply elem_of_dom_2 in E. rewrite Hdom in E. by case_decide.
    - apply not_elem_of_dom in E. rewrite Hdom in E. by case_decide. }
  set (stale := filter _ _). fold enable.
  pose proof (foldl_enable p (bset_iter (c_ports c)) (foldl (λ m p, delete p m) (ports s) stale) []
    (foldl (settle p) b ((λ p, (p, true)) <$> stale))) as [H1 H2].
  destruct (foldl enable _ _) as [ps opened]. cbn in *. split; [done|].
  rewrite foldl_app, H1, H2, settle_const, !foldl_delete_lookup.
  assert (p ∈ stale ↔ p ∉ c_ports c ∧ is_Some (ports s !! p)) as Hst.
  { unfold stale. by rewrite list_elem_of_filter, elem_of_btree_keys. }
  pose proof (elem_of_bset_iter (c_ports c) p) as Hin.
  destruct (ports s !! p) as [st|]; repeat case_decide; naive_solver.
Qed.

(** What [handle_event] does to one port, and what it tells the switch. *)
Lemma handle_event_port now e s p b :
  let r := handle_event now e s in
  config r.1 = config s ∧ dom (ports r.1) = dom (ports s)
  ∧ (authorized <$> ports r.1 !! p)
    = (if decide (ev_port e = p) then (λ _, is_success e) <$> ports s !! p else authorized <$> ports s !! p)
  ∧ (b = from_option authorized true (ports s !! p) →
     foldl (settle p) b r.2.1 = from_option authorized true (ports r.1 !! p)).
Proof.
  assert (∀ port st st' au, ports s !! port = Some st → port = ev_port e → authorized st' = is_success e →
    au = (if eqb (authorized st) (authorized st') then [] else [(port, authorized st')]) →
    let s' := mkInner (config s) (<[port := st']> (ports s)) in
    dom (ports s') = dom (ports s)
    ∧ (authorized <$> ports s' !! p)
      = (if decide (ev_port e = p) then (λ _, is_success e) <$> ports s !! p else authorized <$> ports s !! p)
    ∧ (b = from_option authorized true (ports s !! p) →
       foldl (settle p) b au = from_option authorized true (ports s' !! p))) as Hup.
  { intros port st st' au Hst <- Hau -> s'. cbn. split; [apply dom_insert_lookup_L; eauto|].
    rewrite <-Hau. destruct (decide (port = p)) as [->|Hne].
    - rewrite lookup_insert_eq, Hst. split; [done|]. intros ->. cbn.
      destruct (authorized st), (authorized st'); cbn; by rewrite ?settle_pair, ?decide_True.
    - rewrite lookup_insert_ne by done. split; [done|]. intros ->.
      destruct (eqb _ _); cbn; by rewrite ?settle_pair, ?decide_False. }
  destruct e as [port mac|port mac|port mac]; cbn [handle_event]; cbn in Hup;
    destruct (ports s !! port) as [st|] eqn:E; cbn; (split; [done|]).
  1,3,5: eapply Hup; [done|done|done|by destruct (authorized st)].
  all: split; [done|]; case_decide as Hp; [subst; by rewrite E|done].
Qed.

(** The engine's state tells the same story as the trace, and so does the
    switch. *)
Record tells (tr : list action) (s : Inner) (updates : list (string * bool)) : Prop := {
  tells_dom : dom (ports s) = c_ports (config s);
  tells_enforced p : enforced p tr = bool_decide (is_Some (ports s !! p));
  tells_auth p : authenticated p tr = from_option authorized false (ports s !! p);
  tells_open p : switch_open updates p = from_option authorized true (ports s !! p);
}.

Lemma run_tells tr : tells tr (run tr).1 (run tr).2.1.
Proof.
  induction tr as [|a tr IH]; cbn; [by split|].
  destruct (run tr) as [s [au ds]]. cbn in IH. destruct IH as [Hd He Ha Ho].
  assert (∀ l p, switch_open (au ++ l) p = foldl (settle p) (from_option authorized true (ports s !! p)) l)
    as Happ.
  { intros l p. unfold switch_open. rewrite foldl_app. f_equal. apply Ho. }
  destruct a as [c|now e|port]; cbn [act].
  - assert (Hs := λ p b, set_config_port c s p b Hd). destruct (set_config c s) as [s' [au' ds']]. cbn in *.
    assert (∀ p, is_Some (ports s' !! p) ↔ p ∈ c_ports c) as Hin.
    { intros p. destruct (Hs p true) as (_ & -> & _). case_decide; naive_solver. }
    split; [| |intros p; cbn; rewrite Ha|intros p; rewrite Happ].
    + destruct (Hs "" true) as (-> & _). apply set_eq. intros p. by rewrite elem_of_dom, Hin.
    + intros p. cbn. apply bool_decide_ext. by rewrite Hin.
    + destruct (Hs p true) as (_ & -> & _). case_decide; [rewrite bool_decide_true by done|by rewrite bool_decide_false].
      by destruct (ports s !! p).
    + destruct (Hs p (from_option authorized true (ports s !! p))) as (_ & -> & ->).
      by destruct (ports s !! p), (decide _).
  - assert (Hs := λ p b, handle_event_port now e s p b).
    destruct (handle_event now e s) as [s' [au' ds']]. cbn in *.
    destruct (Hs "" true) as (Hc & Hdom & _).
    assert (∀ p, is_Some (ports s' !! p) ↔ is_Some (ports s !! p)) as Hin.
    { intros p. by rewrite <-!elem_of_dom, Hdom. }
    split; [by rewrite Hdom, Hc| |intros p; cbn; rewrite Ha, He|intros p; rewrite Happ; by apply Hs].
    + intros p. cbn. rewrite He. apply bool_decide_ext. by rewrite Hin.
    + destruct (Hs p true) as (_ & _ & Hp & _). specialize (Hin p).
      destruct (ports s' !! p), (ports s !! p), (decide (ev_port e = p)); cbn in *; naive_solver.
  - split; [done|apply He|apply Ha|]. intros p. apply (Happ []).
Qed.

(** C31: The switch lets a port through exactly when it is not enforced, or when
    the last report about it since it was enforced was a success: whatever
    the order of configurations, reports and reauthentications, with a port
    starting shut and a removed one reopened. *)
Theorem dot1x_gate_exact tr p :
  switch_open (run tr).2.1 p = negb (enforced p tr) || authenticated p tr.
Proof.
  destruct (run_tells tr) as [_ He Ha Ho]. rewrite Ho, He, Ha.
  destruct (ports (run tr).1 !! p) as [st|]; cbn; [by destruct (authorized st)|done].
Qed.

(** ** The authenticator process *)

(** The files after a list of effects, with whether only the owner reads
    them: [fs::write] keeps the mode of an existing file. *)
Definition apply_effect (m : gmap string (string * bool)) (x : Effect) : gmap string (string * bool) :=
  match x with
  | WriteFile path text => <[path := (text, match m !! path with Some f => f.2 | None => false end)]> m
  | SetMode path mode => alter (λ f : string * bool, (f.1, bool_decide (mode = 384))) path m
  | _ => m
  end.

Definition files (m : gmap string (string * bool)) (l : list Effect) : gmap string (string * bool) :=
  foldl apply_effect m l.

(** Every system call of a round succeeds. *)
Definition works (e : Env) : Prop :=
  mkdir_ok e = true ∧ (∀ path, write_result e path = Written) ∧ spawn_ok e = true.

Definition relative (p : string) : Prop := match p with String "/" _ => False | _ => True end.

#[export] Instance relative_dec p : Decision (relative p).
Proof. unfold relative. repeat case_match; apply _. Defined.

Lemma string_app_inj_l a x y : a +:+ x = a +:+ y → x = y.
Proof. induction a as [|c a IH]; [done|]. cbn. intros [= H]. auto. Qed.

Lemma string_app_inj_r a x y : x +:+ a = y +:+ a → x = y.
Proof.
  intros H. apply (f_equal String.list_ascii_of_string) in H.
  assert (∀ x y, String.list_ascii_of_string (x +:+ y)
    = String.list_ascii_of_string x ++ String.list_ascii_of_string y) as Happ.
  { clear. intros x y. induction x as [|c x IH]; [done|]. exact (f_equal (cons c) IH). }
  rewrite !Happ in H. apply (inj (.++ _)) in H.
  rewrite <-(String.string_of_list_ascii_of_string x), H. apply String.string_of_list_ascii_of_string.
Qed.

Lemma conf_path_inj p q : relative p → relative q → conf_path p = conf_path q → p = q.
Proof.
  assert (∀ p, relative p → conf_path p = run_dir +:+ "/" +:+ p +:+ ".conf") as Hrel.
  { intros r. unfold conf_path, path_join, relative.
    destruct r as [|[[] [] [] [] [] [] [] []] r]; done. }
  intros Hp Hq. rewrite !Hrel by done. intros H%string_app_inj_l%string_app_inj_l.
  by apply string_app_inj_r in H.
Qed.

Lemma write_confs_works e c m :
  works e → Forall relative (bset_iter (c_ports c)) →
  (write_confs e c).1 = conf_path <$> bset_iter (c_ports c)
  ∧ ∀ p, p ∈ bset_iter (c_ports c) →
      files m (write_confs e c).2 !! conf_path p = Some (render_hostapd_conf p c ctrl_dir, true).
Proof.
  intros (_ & Hw & _) Hrel. unfold write_confs.
  induction (bset_iter (c_ports c)) as [|q l IH] using rev_ind; [split; [done|]; by intros p ?%elem_of_nil|].
  apply Forall_app in Hrel as [Hrel Hq]. destruct (IH Hrel) as [H1 H2]. rewrite foldl_snoc.
  destruct (foldl _ _ l) as [paths out]. cbn in *. unfold write_private. rewrite Hw. cbn.
  rewrite H1, fmap_app. split; [done|]. intros p Hp. unfold files. rewrite foldl_app. cbn.
  destruct (decide (p = q)) as [->|Hne].
  - by rewrite lookup_alter_eq, lookup_insert_eq.
  - assert (p ∈ l) as Hl by set_solver. assert (conf_path q ≠ conf_path p) as Hpath.
    { intros E. apply Hne. symmetry. apply conf_path_inj; [by inversion Hq| |done].
      rewrite Forall_forall in Hrel. by apply Hrel. }
    rewrite lookup_alter_ne, lookup_insert_ne by done. by apply H2.
Qed.

Definition is_reauth (d : Directive) : Prop := match d with Reauth _ => True | _ => False end.

Lemma run_hostapd_app a b child :
  run_hostapd (a ++ b) child
  = ((run_hostapd b (run_hostapd a child).1).1,
     (run_hostapd a child).2 ++ (run_hostapd b (run_hostapd a child).1).2).
Proof.
  unfold run_hostapd. rewrite foldl_app. destruct (foldl _ (child, []) a) as [r out]. cbn. clear.
  induction b as [|x b IH] using rev_ind; cbn; [by rewrite app_nil_r|].
  rewrite !foldl_snoc, IH. cbn. destruct (run_directive _ _ _). cbn. by rewrite app_assoc.
Qed.

Lemma run_hostapd_reauths eds child m :
  Forall (λ ed, is_reauth ed.2) eds →
  (run_hostapd eds child).1 = child ∧ files m (run_hostapd eds child).2 = m.
Proof.
  induction eds as [|[e d] eds IH] using rev_ind; intros Hall; [done|].
  apply Forall_app in Hall as [Hall Hd]. destruct (IH Hall) as [H1 H2].
  rewrite run_hostapd_app. cbn [fst snd]. rewrite H1. unfold files. rewrite foldl_app.
  fold (files m (run_hostapd eds child).2). rewrite H2.
  inversion Hd as [|? ? Hd' _]. destruct d; done.
Qed.

(** The last configuration sent to the runtime is the engine's. *)
Lemma run_directives tr :
  let s := (run tr).1 in
  let ds := (run tr).2.2 in
  (config s = no_config ∧ Forall is_reauth ds)
  ∨ ∃ pre post, ds = pre ++ Reconfigure (config s) :: post ∧ Forall is_reauth post.
Proof.
  assert (∀ c l ds, Forall is_reauth l →
    (c = no_config ∧ Forall is_reauth ds
     ∨ ∃ pre post, ds = pre ++ Reconfigure c :: post ∧ Forall is_reauth post) →
    (c = no_config ∧ Forall is_reauth (ds ++ l)
     ∨ ∃ pre post, ds ++ l = pre ++ Reconfigure c :: post ∧ Forall is_reauth post)) as Hext.
  { intros c l ds Hl [[-> Hd]|(pre & post & -> & Hp)]; [left|right].
    - split; [done|]. by apply Forall_app.
    - exists pre, (post ++ l). by rewrite <-app_assoc, Forall_app. }
  induction tr as [|a tr IH]; cbn; [by left|].
  destruct (run tr) as [s [au ds]]. cbn in IH. destruct a as [c|now e|port]; cbn [act].
  - unfold set_config. case_decide as Hc.
    { cbn. rewrite app_nil_r. apply IH. }
    destruct (foldl _ _ (bset_iter (c_ports c))) as [ps opened]. cbn. rewrite bool_decide_true.
    { right. by exists ds, []. }
    apply dec_stable. intros Hno. apply Hc. destruct (config s), c. cbn in Hno.
    f_equal; apply dec_stable; tauto.
  - pose proof (handle_event_port now e s "" true) as (Hc & _).
    assert ((handle_event now e s).2.2 = []) as Hds by (destruct e; cbn; by case_match).
    destruct (handle_event now e s) as [s' [au' ds']]. cbn in *. subst ds'. rewrite Hc. by apply Hext.
  - apply Hext; [|done]. by case_bool_decide; repeat constructor.
Qed.

(** A round in which every call succeeds. *)
Lemma run_reconfigure e c ch m :
  works e → (∀ p, p ∈ c_ports c → relative p) →
  (run_directive e (Reconfigure c) ch).1
    = (if decide (c_ports c = ∅ ∨ radius c = []) then None else Some (conf_path <$> bset_iter (c_ports c)))
  ∧ (∀ p, p ∈ c_ports c → radius c ≠ [] →
       files m (run_directive e (Reconfigure c) ch).2 !! conf_path p
       = Some (render_hostapd_conf p c ctrl_dir, true)).
Proof.
  intros We Hrel. assert (Forall relative (bset_iter (c_ports c))) as Hfr.
  { apply Forall_forall. intros p. rewrite elem_of_bset_iter. apply Hrel. }
  pose proof (λ m, write_confs_works e c m We Hfr) as Hwc. destruct We as (Hm & _ & Hsp).
  unfold run_directive. rewrite Hm, Hsp. cbn [negb].
  destruct (write_confs e c) as [paths writes]. cbn [fst snd] in Hwc.
  case_decide as Hoff; cbn [fst snd].
  - split; [done|]. intros p Hp Hr. destruct Hoff as [Hoff|Hoff]; [set_solver|done].
  - destruct (Hwc ∅) as [-> _]. split; [done|]. intros p Hp _.
    assert (∀ m l, foldl apply_effect m ((λ p, SpawnReader (ctrl_socket p) p) <$> l) = m) as Hrd.
    { clear. intros m l. revert m. by induction l; intros; cbn. }
    unfold files. rewrite !foldl_app. cbn. rewrite Hrd. apply Hwc. by rewrite elem_of_bset_iter.
Qed.

(** C32: Once the runtime has consumed the directives, the authenticator runs on
    exactly one file per enforced port, each holding the port's current
    configuration and readable by its owner only; it does not run when no
    port or no server is configured.  Failures of earlier rounds leave no
    trace: only the round of the current configuration must succeed. *)
Theorem dot1x_authenticator_current tr eds :
  let c := config (run tr).1 in
  eds.*2 = (run tr).2.2 →
  (∀ e, (e, Reconfigure c) ∈ eds → works e) →
  (∀ p, p ∈ c_ports c → relative p) →
  (run_hostapd eds None).1
    = (if decide (c_ports c = ∅ ∨ radius c = []) then None else Some (conf_path <$> bset_iter (c_ports c)))
  ∧ (∀ p, p ∈ c_ports c → radius c ≠ [] →
       files ∅ (run_hostapd eds None).2 !! conf_path p = Some (render_hostapd_conf p c ctrl_dir, true)).
Proof.
  intros c Heds Hw Hrel. pose proof (run_directives tr) as [[Hc Hd]|(pre & post & Hds & Hpost)]; fold c in Hc || fold c in Hds.
  - assert (Forall (λ ed : Env * Directive, is_reauth ed.2) eds) as Hall.
    { apply (Forall_fmap snd is_reauth). by rewrite Heds. }
    destruct (run_hostapd_reauths eds None ∅ Hall) as [-> _].
    rewrite Hc. split; [done|]. by intros p ?%elem_of_empty.
  - rewrite Hds in Heds.
    apply fmap_app_inv in Heds as (l1 & l2 & _ & Hl2 & ->).
    destruct l2 as [|[e d] l2]; cbn in Hl2; [done|]. injection Hl2 as <- ->.
    rewrite run_hostapd_app. cbn [fst snd]. set (ch := (run_hostapd l1 None).1).
    change ((e, Reconfigure c) :: l2) with ([(e, Reconfigure c)] ++ l2). rewrite run_hostapd_app. cbn [fst snd].
    apply (Forall_fmap snd is_reauth) in Hpost.
    destruct (run_hostapd_reauths l2 (run_hostapd [(e, Reconfigure c)] ch).1
      (files (files ∅ (run_hostapd l1 None).2) (run_hostapd [(e, Reconfigure c)] ch).2) Hpost) as [-> Hf].
    unfold files in *. rewrite !foldl_app, Hf. clear Hf.
    assert (run_hostapd [(e, Reconfigure c)] ch = run_directive e (Reconfigure c) ch) as ->.
    { unfold run_hostapd. cbn [foldl fst snd]. by destruct (run_directive e _ ch). }
    apply run_reconfigure; [|done]. apply Hw. set_solver.
Qed.

(** ** Events on the control socket *)

Section sockets.
Context `{Hostapd, !HostapdOk}.

(** Every address attached is the process's one local path, held by socket
    [id] when it is open. *)
Definition shared (pr : Process) (o : Os) : Prop :=
  ∀ socket a, (socket, a) ∈ attached o → a = local_addr pr.

Lemma receivers_shared pr o socket id :
  shared pr o →
  id ∈ receivers o socket ↔
    (socket, local_addr pr) ∈ attached o ∧ bound o !! local_addr pr = Some id ∧ id ∈ open_sockets o.
Proof.
  intros Hsh. unfold receivers. rewrite list_elem_of_omap. split.
  - intros (a & Ha%monitor_addrs_spec & Hid). rewrite <-(Hsh _ _ Ha).
    destruct (bound o !! a) as [i|] eqn:E; cbn in Hid; [|done]. case_decide; naive_solver.
  - intros (Ha & Hb & Ho). exists (local_addr pr). split; [by apply monitor_addrs_spec|].
    rewrite Hb. cbn. by rewrite decide_True.
Qed.

Definition attach_all (pr : Process) (ps : list string) (st : gmap nat string * Os) : gmap nat string * Os :=
  foldl (λ st p, reader_attach pr true p st) st ps.

Lemma attach_all_spec pr ps st :
  shared pr st.2 →
  let st' := attach_all pr ps st in
  shared pr st'.2
  ∧ (∀ p, p ∈ ps → (ctrl_socket p, local_addr pr) ∈ attached st'.2).
Proof.
  intros Hsh. unfold attach_all. induction ps as [|q ps IH] using rev_ind; [split; [done|]; by intros p ?%elem_of_nil|].
  rewrite foldl_snoc. destruct (foldl _ st ps) as [rd o]. cbn in *. destruct IH as [H1 H2]. split.
  - intros socket a. cbn. rewrite elem_of_app, list_elem_of_singleton. intros [?|[= -> ->]]; [eauto|done].
  - intros p. rewrite !elem_of_app, !list_elem_of_singleton. intros [Hp| ->]; [left; auto|by right].
Qed.

(** All readers of a process attach from one address: whatever the
    authenticator reports about any watched port is delivered to the reader
    that attached last, and taken for an event of its port; and one
    reauthentication request leaves every reader deaf. *)
Theorem dot1x_readers_collide pr ps q st :
  shared pr st.2 →
  let st' := attach_all pr (ps ++ [q]) st in
  (∀ p line ev, p ∈ ps ++ [q] →
     ev ∈ reported st'.1 st'.2 p line ↔ parse_ctrl_event q line = Some ev)
  ∧ (∀ port p line, reported st'.1 (send_ctrl_command pr true (ctrl_socket port) st'.2) p line = []).
Proof.
  intros Hsh st'. destruct (attach_all_spec pr (ps ++ [q]) st Hsh) as [Hs Ha]. fold st' in Hs, Ha.
  assert (∃ id, st'.1 !! id = Some q ∧ bound st'.2 !! local_addr pr = Some id ∧ id ∈ open_sockets st'.2)
    as (id & Hid & Hb & Ho).
  { unfold st', attach_all. rewrite foldl_snoc. destruct (foldl _ st ps) as [rd o]. cbn.
    exists (next_id o). rewrite !lookup_insert_eq. set_solver. }
  split.
  - intros p line ev Hp. unfold reported. rewrite list_elem_of_omap. split.
    + intros (i & (_ & Hi & _)%(receivers_shared pr) & Hev); [|done]. simplify_eq. by rewrite Hid in Hev.
    + intros Hev. exists id. split; [apply (receivers_shared pr); auto|]. by rewrite Hid.
  - intros port p line. unfold reported.
    set (o' := send_ctrl_command pr true (ctrl_socket port) st'.2).
    assert (receivers o' (ctrl_socket p) = []) as ->; [|done].
    apply elem_of_nil_inv. intros i Hi. apply (receivers_shared pr) in Hi as (_ & Hi & Hop).
    + cbn in Hi, Hop. rewrite lookup_insert_eq in Hi. injection Hi as <-. set_solver.
    + intros socket a. cbn. rewrite elem_of_app, list_elem_of_singleton. intros [?|[= _ ->]]; [eauto|done].
Qed.

End sockets.

(** ** Parsing an event *)

Definition mac_char (c : ascii) : bool := is_ascii_hexdigit c || bool_decide (c = ":"%char).

(** A line of the authenticator: a level in brackets, the event, its station. *)
Definition event_line (level event mac : string) : string :=
  "<" +:+ level +:+ ">" +:+ event +:+ " " +:+ mac.

Lemma skip_while_all p s t : string_all p s = true → skip_while p (s +:+ t) = skip_while p t.
Proof. induction s as [|c s IH]; simpl; [done|]. intros [-> H]%andb_true_iff. by apply IH. Qed.

Lemma strip_prefix_avoids (ok : ascii → bool) p s rest :
  string_all ok s = true → strip_prefix_str p s = Some rest → string_all ok p = true.
Proof.
  revert s. induction p as [|a p IH]; intros [|b s]; [done..|]. cbn.
  intros [Hb Hs]%andb_true_iff. case_decide; [subst|done]. intros Hp. rewrite Hb. by apply (IH s).
Qed.

Lemma split_once_avoids (ok : ascii → bool) p s :
  string_all ok p = false → string_all ok s = true → split_once_str p s = None.
Proof.
  intros Hp. induction s as [|c s IH]; intros Hs; cbn [split_once_str].
  - destruct (strip_prefix_str p "") eqn:E; [|done]. apply (strip_prefix_avoids ok) in E; [congruence|done].
  - destruct (strip_prefix_str p (String c s)) eqn:E; [apply (strip_prefix_avoids ok) in E; [congruence|done]|].
    cbn in Hs. apply andb_true_iff in Hs as [_ Hs]. by rewrite IH.
Qed.

Lemma first_word_mac mac : mac ≠ "" → string_all mac_char mac = true → first_word mac = Some mac.
Proof.
  intros Hne Hm. unfold first_word.
  assert (∀ c, mac_char c = true → is_whitespace c = false) as Hws.
  { intros [[] [] [] [] [] [] [] []]; vm_compute; congruence. }
  assert (skip_while is_whitespace mac = mac) as ->.
  { destruct mac as [|c m]; [done|]. cbn in *. apply andb_true_iff in Hm as [Hc _]. by rewrite Hws. }
  assert (take_while (λ c, negb (is_whitespace c)) mac = mac) as ->; [|by destruct mac].
  clear Hne. induction mac as [|c m IH]; [done|]. cbn in *. apply andb_true_iff in Hm as [Hc Hm].
  rewrite Hws by done. cbn. by rewrite IH.
Qed.

(** A report of a station is read as the event it names, with the station's
    address, whatever the level it is logged at. *)
Theorem ctrl_event_lines port level mac :
  string_all is_ascii_digit level = true → mac ≠ "" → string_all mac_char mac = true →
  parse_ctrl_event port (event_line level "AP-STA-CONNECTED" mac) = Some (AuthSuccess port mac)
  ∧ parse_ctrl_event port (event_line level "CTRL-EVENT-EAP-SUCCESS" mac) = Some (AuthSuccess port mac)
  ∧ parse_ctrl_event port (event_line level "CTRL-EVENT-EAP-FAILURE" mac) = Some (AuthFailure port mac)
  ∧ parse_ctrl_event port (event_line level "AP-STA-DISCONNECTED" mac) = Some (Logoff port mac).
Proof.
  intros Hl Hne Hm.
  assert (string_all level_char level = true) as Hlev.
  { revert Hl. apply string_all_impl. intros c Hc. unfold level_char. rewrite Hc. by destruct (bool_decide _). }
  assert (∀ x, skip_while level_char ("<" +:+ level +:+ ">" +:+ x) = skip_while level_char x) as Hskip.
  { intros x. rewrite !(skip_while_all level_char); done. }
  assert (∀ m, string_all mac_char m = false → split_once_str m mac = None) as Hno.
  { intros m Hm'. by apply (split_once_avoids mac_char). }
  unfold event_line, parse_ctrl_event, mac_after, split_str_second, contains_str.
  rewrite !Hskip. simpl.
  rewrite !Hno by done. simpl. rewrite !first_word_mac by done. done.
Qed.

(** ** Reading the configuration file back *)

(** A [key=value] per line. *)
Definition settings (text : string) : list (string * string) :=
  omap (split_once "="%char) (split (ascii_of_N 10) text).

Definition avoids (c : ascii) (s : string) : bool := string_all (λ d, negb (bool_decide (d = c))) s.

(** What must hold for a value to stay on its line. *)
Definition one_line (c : Config) : Prop :=
  Forall (λ r, avoids (ascii_of_N 10) (r_ip r) = true ∧ avoids (ascii_of_N 10) (r_key r) = true) (radius c).

Lemma split_line c a rest : avoids c a = true → split c (a +:+ String c rest) = a :: split c rest.
Proof.
  unfold avoids. induction a as [|d a IH]; simpl; [by rewrite decide_True|].
  intros [Hd Ha]%andb_true_iff. apply negb_true_iff, bool_decide_eq_false in Hd.
  rewrite decide_False by done. by rewrite (IH Ha).
Qed.

Lemma app_string_assoc (a b c : string) : (a +:+ b) +:+ c = a +:+ b +:+ c.
Proof. induction a as [|d a IH]; [done|]. exact (f_equal (String d) IH). Qed.

Lemma string_app_nil_r s : s +:+ "" = s.
Proof. induction s as [|c s IH]; [done|]. exact (f_equal (String c) IH). Qed.

Lemma settings_fixed line k v rest :
  split_once "="%char line = Some (k, v) → avoids (ascii_of_N 10) line = true →
  settings (line +:+ nl +:+ rest) = (k, v) :: settings rest.
Proof.
  intros Hs Hl. unfold settings. change (nl +:+ rest) with (String (ascii_of_N 10) rest).
  rewrite split_line by done. simpl. by rewrite Hs.
Qed.

Lemma settings_line key k v rest :
  key = k +:+ "=" → avoids "=" k = true → avoids (ascii_of_N 10) k = true → avoids (ascii_of_N 10) v = true →
  settings (key +:+ v +:+ nl +:+ rest) = (k, v) :: settings rest.
Proof.
  intros -> Hk Hkn Hv. rewrite <-(app_string_assoc (k +:+ "=") v). apply settings_fixed; rewrite app_string_assoc.
  - by apply split_once_app.
  - unfold avoids in *. rewrite string_all_app, Hkn. done.
Qed.

Lemma to_dec_line n : avoids (ascii_of_N 10) (to_dec n) = true.
Proof. apply digits_avoid; [done|]. apply to_dec_digits. Qed.

Definition server_settings (r : Radius) : list (string * string) :=
  [("auth_server_addr", r_ip r); ("auth_server_port", to_dec (r_port r));
   ("auth_server_shared_secret", r_key r)].

Lemma settings_servers l rest :
  Forall (λ r, avoids (ascii_of_N 10) (r_ip r) = true ∧ avoids (ascii_of_N 10) (r_key r) = true) l →
  settings (foldr (λ r acc, render_radius r +:+ acc) "" l +:+ rest)
  = (l ≫= server_settings) ++ settings rest.
Proof.
  intros Hl. induction Hl as [|r l [Hip Hkey] _ IH]; [done|]. simpl foldr. unfold render_radius at 1.
  rewrite !app_string_assoc.
  rewrite (settings_line _ "auth_server_addr" (r_ip r)) by done.
  rewrite (settings_line _ "auth_server_port" (to_dec (r_port r))) by (done || apply to_dec_line).
  rewrite (settings_line _ "auth_server_shared_secret" (r_key r)) by done.
  by rewrite IH.
Qed.

(** The authenticator reads back exactly what was configured: the port, the
    servers in their order with address, port and secret, the
    reauthentication period when there is one, and the retry interval of the
    first server, whose product never overflows. *)
Theorem dot1x_conf_roundtrip port c dir :
  avoids (ascii_of_N 10) port = true → avoids (ascii_of_N 10) dir = true → one_line c →
  Forall (λ r, fits 16 (r_timeout r) ∧ fits 16 (r_retransmit r)) (radius c) →
  settings (render_hostapd_conf port c dir)
  = [("interface", port); ("driver", "wired"); ("ieee8021x", "1"); ("use_pae_group_addr", "1");
     ("ctrl_interface", dir)]
    ++ (if 0 <? reauth_interval c then [("eap_reauth_period", to_dec (reauth_interval c))] else [])
    ++ [("own_ip_addr", "127.0.0.1")]
    ++ (radius c ≫= server_settings)
    ++ match radius c with
       | first :: _ => [("radius_retry_primary_interval", to_dec (r_timeout first * (r_retransmit first + 1)))]
       | [] => []
       end.
Proof.
  intros Hp Hd Hl Hf. unfold render_hostapd_conf. rewrite !app_string_assoc.
  rewrite (settings_line _ "interface" port) by done.
  rewrite (settings_fixed "driver=wired" "driver" "wired") by done.
  rewrite (settings_fixed "ieee8021x=1" "ieee8021x" "1") by done.
  rewrite (settings_fixed "use_pae_group_addr=1" "use_pae_group_addr" "1") by done.
  rewrite (settings_line _ "ctrl_interface" dir) by done.
  assert (∀ x, settings ("own_ip_addr=127.0.0.1" +:+ nl +:+ x) = ("own_ip_addr", "127.0.0.1") :: settings x)
    as Hown by (intros; by apply settings_fixed).
  assert (settings (match radius c with
    | first :: _ => "radius_retry_primary_interval="
        +:+ to_dec (wrap 32 (r_timeout first * (r_retransmit first + 1))) +:+ nl
    | [] => "" end) = match radius c with
    | first :: _ => [("radius_retry_primary_interval", to_dec (r_timeout first * (r_retransmit first + 1)))]
    | [] => [] end) as Hretry.
  { destruct (radius c) as [|r l]; [done|]. apply Forall_cons in Hf as [[Ht Hr] _].
    rewrite wrap_id by (unfold fits in *; change (2 ^ 16) with 65536 in *; change (2 ^ 32) with 4294967296;
      pose proof (N.mul_le_mono (r_timeout r) 65535 (r_retransmit r + 1) 65536); lia).
    rewrite <-(string_app_nil_r nl), (settings_line _ "radius_retry_primary_interval")
      by (done || apply to_dec_line). done. }
  do 5 (apply (f_equal (cons _))). rewrite <-Hretry. destruct (0 <? reauth_interval c).
  - rewrite !app_string_assoc, (settings_line _ "eap_reauth_period") by (done || apply to_dec_line).
    apply (f_equal (cons _)). rewrite Hown. apply (f_equal (cons _)). by apply settings_servers.
  - etransitivity; [apply Hown|]. apply (f_equal (cons _)). by apply settings_servers.
Qed.

(** ** Witnesses *)

Definition w_server : Radius := mkRadius "10.0.0.9" "s3cret" 1812 5 3.
Definition w_config : Config := mkConfig [w_server] 3600 {[ "Ethernet1"; "Ethernet2" ]}.
Definition w_env : Env := mkEnv true (λ _, Written) true.
Definition w_trace : list action :=
  [AReauth "Ethernet1"; AEvent 7 (AuthSuccess "Ethernet1" "aa:bb"); ASetConfig w_config].

#[local] Instance w_hostapd : Hostapd :=
  λ att socket, omap (λ x, if decide (x.1 = socket) then Some x.2 else None) att.

Lemma w_hostapd_ok : HostapdOk.
Proof.
  intros att socket a. unfold monitor_addrs, w_hostapd. rewrite list_elem_of_omap. split.
  - intros ([s a'] & Hx & Hs). cbn in Hs. case_decide; naive_solver.
  - intros Ha. exists (socket, a). split; [done|]. cbn. by rewrite decide_True.
Qed.

(** The authenticator runs on the two ports' files. *)
Lemma dot1x_authenticator_witness :
  (run_hostapd ((λ d, (w_env, d)) <$> (run w_trace).2.2) None).1
  = Some ["/run/hemlock/hostapd/Ethernet1.conf"; "/run/hemlock/hostapd/Ethernet2.conf"].
Proof.
  destruct (dot1x_authenticator_current w_trace ((λ d, (w_env, d)) <$> (run w_trace).2.2)) as [H _].
  - rewrite <-list_fmap_compose. apply list_fmap_id.
  - intros e (d & [= -> _] & _)%list_elem_of_fmap. done.
  - assert (config (run w_trace).1 = w_config) as -> by (vm_compute; reflexivity).
    intros p [->%elem_of_singleton | ->%elem_of_singleton]%elem_of_union; exact I.
  - rewrite H. vm_compute. reflexivity.
Defined.

(** Two ports are watched; a station that authenticates on the first opens
    the second, and the first stays shut. *)
Definition w_process : Process := mkProcess "/tmp" 42.

Lemma dot1x_readers_collide_witness :
  let st := attach_all w_process (["Ethernet1"] ++ ["Ethernet2"]) (∅, mkOs ∅ ∅ 0 []) in
  let line := "<3>AP-STA-CONNECTED aa:bb" in
  AuthSuccess "Ethernet2" "aa:bb" ∈ reported st.1 st.2 "Ethernet1" line
  ∧ let tr := [AEvent 1 (AuthSuccess "Ethernet2" "aa:bb"); ASetConfig w_config] in
    switch_open (run tr).2.1 "Ethernet2" = true ∧ switch_open (run tr).2.1 "Ethernet1" = false.
Proof.
  split; [|split; vm_compute; reflexivity].
  pose proof (@dot1x_readers_collide w_hostapd w_hostapd_ok w_process ["Ethernet1"] "Ethernet2"
    (∅, mkOs ∅ ∅ 0 [])) as H.
  apply H; [by intros ? ? ?%elem_of_nil|left|vm_compute; reflexivity].
Defined.

Lemma ctrl_event_lines_witness :
  parse_ctrl_event "Ethernet1" "<3>AP-STA-DISCONNECTED 02:00:5e:00:00:01"
  = Some (Logoff "Ethernet1" "02:00:5e:00:00:01").
Proof. apply (ctrl_event_lines "Ethernet1" "3" "02:00:5e:00:00:01"); done. Defined.

Lemma dot1x_conf_roundtrip_witness :
  ("auth_server_shared_secret", "s3cret") ∈ settings (render_hostapd_conf "Ethernet1" w_config ctrl_dir).
Proof.
  rewrite (dot1x_conf_roundtrip "Ethernet1" w_config ctrl_dir).
  - vm_compute. repeat constructor.
  - done.
  - done.
  - repeat constructor.
  - repeat constructor; vm_compute; reflexivity.
Defined.
