(* ===== verification/Sflow.v ===== *)
(** * The sFlow exporter (hemlock-orch/src/sflow.rs)

    Sampled frames and counter polls are packed into sFlow v5 datagrams.  The
    writer [Xdr] appends to one buffer, so each of its methods is the bytes it
    appends.  [collect] is a collector's reading of the v5 layout, against
    which the encoder is proved. *)

From Stdlib Require Import NArith Lia.
From stdpp Require Import base tactics list strings option gmap.
From S2P Require Import Prelude Net.

Local Open Scope N_scope.

Definition MAX_HEADER_BYTES : nat := 128.
Definition DEFAULT_COLLECTOR_PORT : N := 6343.
Definition MAX_DATAGRAM_BYTES : nat := 1400.
Definition FLUSH_AFTER : N := from_millis 500.

Record Config := mkConfig {
  enabled : bool; collectors : list (IpAddr * N); sample_rate : N; polling_interval : N; agent_address : N;
  agent_interface : string; enabled_ports : list string; disabled_ports : list string }.

Definition default_config : Config := mkConfig false [] 0 0 0 "" [] [].

Record Sample := mkSample { sample_if_index : N; original_length : N; sample_bytes : list N }.

Record InterfaceCounters := mkInterfaceCounters {
  if_index : N; if_type : N; if_speed_bps : N; full_duplex : bool; admin_up : bool; oper_up : bool;
  in_octets : N; in_ucast_pkts : N; in_mcast_pkts : N; in_bcast_pkts : N; in_discards : N; in_errors : N;
  out_octets : N; out_ucast_pkts : N; out_mcast_pkts : N; out_bcast_pkts : N; out_discards : N; out_errors : N }.

(** ** Encoding *)

Definition u32 (v : N) : list N := be32 v.
Definition u64 (v : N) : list N := u32 (v / 2 ^ 32) ++ u32 (v mod 2 ^ 32).

(** [u32::try_from(n).unwrap_or(d)] *)
Definition try_u32 (n d : N) : N := if n <? 2 ^ 32 then n else d.

Definition opaque (bytes : list N) : list N :=
  u32 (try_u32 (N.of_nat (length bytes)) (2 ^ 32 - 1)) ++ bytes ++ repeat 0 ((4 - length bytes mod 4) mod 4).

(** A length slot, the body, and the slot filled in afterwards. *)
Definition sized (body : list N) : list N := u32 (try_u32 (N.of_nat (length body)) 0) ++ body.

Inductive Record_ :=
| Flow (sequence if_index sampling_rate sample_pool drops frame_length : N) (header : list N)
| Counters (sequence : N) (counters : InterfaceCounters).

Definition encode (r : Record_) : list N :=
  match r with
  | Flow sequence if_index sampling_rate sample_pool drops frame_length header =>
      u32 1 ++ sized (u32 sequence ++ u32 (N.land if_index (2 ^ 24 - 1)) ++ u32 sampling_rate ++ u32 sample_pool
        ++ u32 drops ++ u32 if_index ++ u32 0 ++ u32 1 ++ u32 1
        ++ sized (u32 1 ++ u32 frame_length ++ u32 4 ++ opaque header))
  | Counters sequence c =>
      u32 2 ++ sized (u32 sequence ++ u32 (N.land (if_index c) (2 ^ 24 - 1)) ++ u32 1 ++ u32 1
        ++ sized (u32 (if_index c) ++ u32 (if_type c) ++ u64 (if_speed_bps c)
          ++ u32 (if full_duplex c then 1 else 2)
          ++ u32 (N.lor (N.b2n (admin_up c)) (N.shiftl (N.b2n (oper_up c)) 1))
          ++ u64 (in_octets c) ++ u32 (in_ucast_pkts c) ++ u32 (in_mcast_pkts c) ++ u32 (in_bcast_pkts c)
          ++ u32 (in_discards c) ++ u32 (in_errors c) ++ u32 0
          ++ u64 (out_octets c) ++ u32 (out_ucast_pkts c) ++ u32 (out_mcast_pkts c) ++ u32 (out_bcast_pkts c)
          ++ u32 (out_discards c) ++ u32 (out_errors c) ++ u32 0))
  end.

Definition encoded_len (r : Record_) : nat := length (encode r).

Record Datagram := mkDatagram { dg_agent_address : N; sub_agent_id : N; dg_sequence : N; uptime_ms : N;
  records : list Record_ }.

Definition encode_datagram (d : Datagram) : list N :=
  u32 5 ++ u32 1 ++ be32 (dg_agent_address d) ++ u32 (sub_agent_id d) ++ u32 (dg_sequence d) ++ u32 (uptime_ms d)
  ++ u32 (try_u32 (N.of_nat (length (records d))) 0) ++ (records d ≫= encode).

Definition HEADER_BYTES : nat := 7 * 4.

(** ** The engine *)

Record ExportCounters := mkExportCounters { samples_taken : N; counter_samples : N; datagrams_sent : N;
  datagrams_failed : N }.

Record Inner := mkInner {
  config : Config; counters : ExportCounters; sequence : N;
  flow_sequences : gmap N N; counter_sequences : gmap N N; sample_pool : gmap N N;
  pending : list Record_; pending_bytes : nat; first_pending : option N; started : N }.

Definition new (now : N) : Inner :=
  mkInner default_config (mkExportCounters 0 0 0 0) 0 ∅ ∅ ∅ [] HEADER_BYTES None now.

Definition set_config (c : Config) (s : Inner) : Inner :=
  if enabled c then
    mkInner c (counters s) (sequence s) (flow_sequences s) (counter_sequences s) (sample_pool s) (pending s)
      (pending_bytes s) (first_pending s) (started s)
  else
    mkInner c (counters s) (sequence s) (flow_sequences s) (counter_sequences s) (sample_pool s) []
      HEADER_BYTES None (started s).

Definition next (sequences : gmap N N) (key : N) : N * gmap N N :=
  let v := wrap 32 (default 0 (sequences !! key) + 1) in (v, <[key := v]> sequences).

(** Everything queued as one datagram; [now] is the clock's reading. *)
Definition seal (now : N) (s : Inner) : Datagram * Inner :=
  let seq := wrap 32 (sequence s + 1) in
  let uptime := try_u32 (since now (started s) / 1000000) (2 ^ 32 - 1) in
  (mkDatagram (agent_address (config s)) 0 seq uptime (pending s),
   mkInner (config s) (counters s) seq (flow_sequences s) (counter_sequences s) (sample_pool s) []
     HEADER_BYTES None (started s)).

Definition queue (now : N) (r : Record_) (s : Inner) : Inner :=
  mkInner (config s) (counters s) (sequence s) (flow_sequences s) (counter_sequences s) (sample_pool s)
    (pending s ++ [r]) (pending_bytes s + encoded_len r)
    (if decide (pending s = []) then Some now else first_pending s) (started s).

(** The clock is read when a datagram is sealed and when a record is first in
    the queue. *)
Definition push (seal_now now : N) (r : Record_) (s : Inner) : option Datagram * Inner :=
  if (MAX_DATAGRAM_BYTES <? pending_bytes s + encoded_len r)%nat && negb (bool_decide (pending s = [])) then
    let '(d, s) := seal seal_now s in (Some d, queue now r s)
  else (None, queue now r s).

Definition with_counters (c : ExportCounters) (s : Inner) : Inner :=
  mkInner (config s) c (sequence s) (flow_sequences s) (counter_sequences s) (sample_pool s) (pending s)
    (pending_bytes s) (first_pending s) (started s).

Definition with_maps (flow counter pool : gmap N N) (s : Inner) : Inner :=
  mkInner (config s) (counters s) (sequence s) flow counter pool (pending s) (pending_bytes s)
    (first_pending s) (started s).

Definition count_sample (c : ExportCounters) : ExportCounters :=
  mkExportCounters (wrap 64 (samples_taken c + 1)) (counter_samples c) (datagrams_sent c) (datagrams_failed c).
Definition count_counter (c : ExportCounters) : ExportCounters :=
  mkExportCounters (samples_taken c) (wrap 64 (counter_samples c + 1)) (datagrams_sent c) (datagrams_failed c).

(** The record of a sample, and the maps it moves. *)
Definition flow_record (x : Sample) (s : Inner) : Record_ * Inner :=
  let '(seq, flow) := next (flow_sequences s) (sample_if_index x) in
  let rate := N.max (sample_rate (config s)) 1 in
  let pool := wrap 32 (default 0 (sample_pool s !! sample_if_index x) + rate) in
  (Flow seq (sample_if_index x) rate pool 0 (original_length x) (take MAX_HEADER_BYTES (sample_bytes x)),
   with_maps flow (counter_sequences s) (<[sample_if_index x := pool]> (sample_pool s)) s).

Definition take_sample (seal_now now : N) (x : Sample) (s : Inner) : option Datagram * Inner :=
  if negb (enabled (config s)) then (None, s)
  else
    let s := with_counters (count_sample (counters s)) s in
    let '(r, s) := flow_record x s in
    push seal_now now r s.

Definition counter_record (c : InterfaceCounters) (s : Inner) : Record_ * Inner :=
  let '(seq, counter) := next (counter_sequences s) (if_index c) in
  (Counters seq c, with_maps (flow_sequences s) counter (sample_pool s) s).

(** One turn of the loop of [take_counters]. *)
Definition take_counter (seal_now now : N) (c : InterfaceCounters) (s : Inner) : option Datagram * Inner :=
  let s := with_counters (count_counter (counters s)) s in
  let '(r, s) := counter_record c s in
  push seal_now now r s.

(** The clock is read at every turn. *)
Definition take_counters (l : list (N * N * InterfaceCounters)) (s : Inner) : list Datagram * Inner :=
  if negb (enabled (config s)) then ([], s)
  else
    foldl (λ st e, let '(d, s) := take_counter e.1.1 e.1.2 e.2 st.2 in (st.1 ++ option_list d, s)) ([], s) l.

(** [now] is the caller's instant, [seal_now] the clock when it seals. *)
Definition flush_due (now seal_now : N) (s : Inner) : option Datagram * Inner :=
  let waited := match first_pending s with Some at_ => FLUSH_AFTER <=? since now at_ | None => false end in
  if negb waited || bool_decide (pending s = []) then (None, s)
  else let '(d, s) := seal seal_now s in (Some d, s).

Definition count_send (ok : bool) (s : Inner) : Inner :=
  let c := counters s in
  with_counters
    (if ok then mkExportCounters (samples_taken c) (counter_samples c) (wrap 64 (datagrams_sent c + 1)) (datagrams_failed c)
     else mkExportCounters (samples_taken c) (counter_samples c) (datagrams_sent c) (wrap 64 (datagrams_failed c + 1))) s.

(** The sends of a datagram: [sent] is the socket's answer per collector. *)
Definition export (sent : IpAddr * N → bool) (d : Datagram) (s : Inner) : list (IpAddr * N * list N) * Inner :=
  let bytes := encode_datagram d in
  ((λ c, (c, bytes)) <$> collectors (config s), foldl (λ s c, count_send (sent c) s) s (collectors (config s))).

(** ** A collector

    The v5 layout read by position, with the lengths a collector skips by. *)

Definition rd32 (l : list N) : option (N * list N) :=
  match l with a :: b :: c :: d :: l => Some (of_be32 a b c d, l) | _ => None end.

Definition rd64 (l : list N) : option (N * list N) :=
  '(hi, l) ← rd32 l; '(lo, l) ← rd32 l; Some (hi * 2 ^ 32 + lo, l).

(** A length and that many bytes. *)
Definition rd_sized (l : list N) : option (list N * list N) :=
  '(n, l) ← rd32 l;
  if (length l <? N.to_nat n)%nat then None else Some (take (N.to_nat n) l, drop (N.to_nat n) l).

Definition rd_opaque (l : list N) : option (list N * list N) :=
  '(bytes, l) ← rd_sized l; Some (bytes, drop ((4 - length bytes mod 4) mod 4) l).

Definition rd_is (v : N) (l : list N) : option (list N) :=
  '(n, l) ← rd32 l; if n =? v then Some l else None.

Definition collect_flow (l : list N) : option Record_ :=
  '(seq, l) ← rd32 l; '(source, l) ← rd32 l; '(rate, l) ← rd32 l; '(pool, l) ← rd32 l; '(drops, l) ← rd32 l;
  '(input, l) ← rd32 l; l ← rd_is 0 l; l ← rd_is 1 l; l ← rd_is 1 l;
  '(raw, l) ← rd_sized l;
  raw ← rd_is 1 raw; '(len, raw) ← rd32 raw; raw ← rd_is 4 raw; '(header, raw) ← rd_opaque raw;
  if decide (l = [] ∧ raw = [] ∧ source = input mod 2 ^ 24)
  then Some (Flow seq input rate pool drops len header) else None.

Definition collect_counters (l : list N) : option Record_ :=
  '(seq, l) ← rd32 l; '(source, l) ← rd32 l; l ← rd_is 1 l; l ← rd_is 1 l; '(b, l) ← rd_sized l;
  '(idx, b) ← rd32 b; '(ty, b) ← rd32 b; '(speed, b) ← rd64 b; '(dir, b) ← rd32 b; '(status, b) ← rd32 b;
  '(io, b) ← rd64 b; '(iu, b) ← rd32 b; '(im, b) ← rd32 b; '(ib, b) ← rd32 b; '(id_, b) ← rd32 b; '(ie, b) ← rd32 b;
  '(_, b) ← rd32 b;
  '(oo, b) ← rd64 b; '(ou, b) ← rd32 b; '(om, b) ← rd32 b; '(ob, b) ← rd32 b; '(od, b) ← rd32 b; '(oe, b) ← rd32 b;
  '(_, b) ← rd32 b;
  if decide (l = [] ∧ b = [] ∧ source = idx mod 2 ^ 24)
  then Some (Counters seq (mkInterfaceCounters idx ty speed (dir =? 1) (N.testbit status 0) (N.testbit status 1)
         io iu im ib id_ ie oo ou om ob od oe)) else None.

Definition collect_record (l : list N) : option (Record_ * list N) :=
  '(ty, l) ← rd32 l; '(body, l) ← rd_sized l;
  r ← (if ty =? 1 then collect_flow body else if ty =? 2 then collect_counters body else None);
  Some (r, l).

Fixpoint collect_records (n : nat) (l : list N) : option (list Record_) :=
  match n with
  | O => match l with [] => Some [] | _ => None end
  | S n => '(r, l) ← collect_record l; rs ← collect_records n l; Some (r :: rs)
  end.

Definition collect (l : list N) : option Datagram :=
  l ← rd_is 5 l; l ← rd_is 1 l; '(agent, l) ← rd32 l; '(sub, l) ← rd32 l; '(seq, l) ← rd32 l; '(up, l) ← rd32 l;
  '(n, l) ← rd32 l; rs ← collect_records (N.to_nat n) l; Some (mkDatagram agent sub seq up rs).

(** ** The encoder against the collector *)

Lemma rd32_u32 n l : rd32 (u32 n ++ l) = Some (n, l).
Proof. unfold u32, be32. cbn. by rewrite of_be32_be32. Qed.

Lemma rd64_u64 n l : rd64 (u64 n ++ l) = Some (n, l).
Proof.
  unfold rd64, u64. rewrite <-app_assoc, rd32_u32. cbn [mbind option_bind]. rewrite rd32_u32. cbn [mbind option_bind].
  f_equal. f_equal. pose proof (N.div_mod n (2 ^ 32)). lia.
Qed.

Lemma rd_is_u32 n l : rd_is n (u32 n ++ l) = Some l.
Proof. unfold rd_is. rewrite rd32_u32. cbn. by rewrite N.eqb_refl. Qed.

Lemma rd_sized_sized body l : fits 32 (N.of_nat (length body)) → rd_sized (sized body ++ l) = Some (body, l).
Proof.
  intros Hf. unfold rd_sized, sized, try_u32. rewrite (proj2 (N.ltb_lt _ _) Hf), <-app_assoc, rd32_u32. cbn [mbind option_bind].
  rewrite Nat2N.id, length_app. rewrite (proj2 (Nat.ltb_ge _ _)) by lia.
  by rewrite take_app_length, drop_app_length.
Qed.

Lemma rd_opaque_opaque bytes l :
  fits 32 (N.of_nat (length bytes)) → rd_opaque (opaque bytes ++ l) = Some (bytes, l).
Proof.
  intros Hf. unfold rd_opaque. pose proof (rd_sized_sized bytes (repeat 0 ((4 - length bytes mod 4) mod 4) ++ l) Hf) as H.
  unfold sized, try_u32 in H. unfold opaque, try_u32. rewrite (proj2 (N.ltb_lt _ _) Hf) in *.
  rewrite <-!app_assoc in *. rewrite H. cbn [mbind option_bind]. f_equal. f_equal. rewrite <-(repeat_length 0 ((4 - _) mod 4)) at 1.
  apply drop_app_length.
Qed.

Lemma length_u32 n : length (u32 n) = 4%nat.
Proof. done. Qed.

Lemma length_u64 n : length (u64 n) = 8%nat.
Proof. done. Qed.

Lemma length_sized b : length (sized b) = (4 + length b)%nat.
Proof. done. Qed.

Lemma length_opaque b : length (opaque b) = (4 + length b + (4 - length b mod 4) mod 4)%nat.
Proof. unfold opaque. rewrite !length_app, repeat_length, length_u32. lia. Qed.

Lemma encoded_len_counters q c : encoded_len (Counters q c) = 116%nat.
Proof. done. Qed.

Lemma encoded_len_flow q i r p d f h :
  encoded_len (Flow q i r p d f h) = (60 + 4 + length h + (4 - length h mod 4) mod 4)%nat.
Proof. unfold encoded_len, encode. rewrite !length_app, length_sized, !length_app, length_sized, !length_app, length_opaque, !length_u32. lia. Qed.

(** Each reader in front of the rest of a decoder, also at the end of the
    input. *)
Section readers.
Context {B : Type}.

Lemma bind_rd32 n l (f : N * list N → option B) : (rd32 (u32 n ++ l) ≫= f) = f (n, l).
Proof. by rewrite rd32_u32. Qed.

Lemma bind_rd32_end n (f : N * list N → option B) : (rd32 (u32 n) ≫= f) = f (n, []).
Proof. rewrite <-(app_nil_r (u32 n)). apply bind_rd32. Qed.

Lemma bind_rd64 n l (f : N * list N → option B) : (rd64 (u64 n ++ l) ≫= f) = f (n, l).
Proof. by rewrite rd64_u64. Qed.

Lemma bind_rd_is n l (f : list N → option B) : (rd_is n (u32 n ++ l) ≫= f) = f l.
Proof. by rewrite rd_is_u32. Qed.

Lemma bind_sized body l (f : list N * list N → option B) :
  fits 32 (N.of_nat (length body)) → (rd_sized (sized body ++ l) ≫= f) = f (body, l).
Proof. intros Hf. by rewrite rd_sized_sized. Qed.

Lemma bind_sized_end body (f : list N * list N → option B) :
  fits 32 (N.of_nat (length body)) → (rd_sized (sized body) ≫= f) = f (body, []).
Proof. rewrite <-(app_nil_r (sized body)). apply bind_sized. Qed.

Lemma bind_opaque_end bytes (f : list N * list N → option B) :
  fits 32 (N.of_nat (length bytes)) → (rd_opaque (opaque bytes) ≫= f) = f (bytes, []).
Proof. intros Hf. rewrite <-(app_nil_r (opaque bytes)). by rewrite rd_opaque_opaque. Qed.
End readers.

(** Read one field after the other. *)
Ltac reads :=
  repeat (first [ rewrite bind_rd32 | rewrite bind_rd64 | rewrite bind_rd_is | rewrite bind_rd32_end
                | rewrite bind_sized by assumption | rewrite bind_sized_end by assumption
                | rewrite bind_opaque_end by assumption ]; cbv beta iota).

(** What a record is queued with: the header is cut, the record is short. *)
Definition record_ok (r : Record_) : Prop :=
  match r with Flow _ _ _ _ _ _ h => (length h ≤ MAX_HEADER_BYTES)%nat | Counters _ _ => True end.

Lemma encoded_len_bound r : record_ok r → (encoded_len r ≤ 196)%nat.
Proof.
  destruct r as [q i ra p d f h|q c]; intros Hr.
  - rewrite encoded_len_flow. unfold record_ok, MAX_HEADER_BYTES in Hr.
    pose proof (Nat.mod_upper_bound (length h) 4). pose proof (Nat.mod_upper_bound (4 - length h mod 4) 4). lia.
  - rewrite encoded_len_counters. lia.
Qed.

Lemma source_id n : N.land n (2 ^ 24 - 1) = n mod 2 ^ 24.
Proof. change (2 ^ 24 - 1) with (N.ones 24). apply N.land_ones. Qed.

Lemma collect_flow_body q i ra p d f h :
  (length h ≤ MAX_HEADER_BYTES)%nat →
  collect_flow (u32 q ++ u32 (N.land i (2 ^ 24 - 1)) ++ u32 ra ++ u32 p ++ u32 d ++ u32 i ++ u32 0 ++ u32 1 ++ u32 1
    ++ sized (u32 1 ++ u32 f ++ u32 4 ++ opaque h)) = Some (Flow q i ra p d f h).
Proof.
  intros Hh. unfold MAX_HEADER_BYTES in Hh. rewrite source_id.
  assert (fits 32 (N.of_nat (length h))) as H1 by (unfold fits; lia).
  assert (fits 32 (N.of_nat (length (u32 1 ++ u32 f ++ u32 4 ++ opaque h)))) as H2.
  { unfold fits. rewrite !length_app, length_opaque, !length_u32. pose proof (Nat.mod_upper_bound (4 - length h mod 4) 4). lia. }
  unfold collect_flow. reads. by rewrite decide_True.
Qed.

Lemma status_bits a o : let st := N.lor (N.b2n a) (N.shiftl (N.b2n o) 1) in N.testbit st 0 = a ∧ N.testbit st 1 = o.
Proof. by destruct a, o. Qed.

Lemma collect_record_encode r l : record_ok r → collect_record (encode r ++ l) = Some (r, l).
Proof.
  destruct r as [q i ra p d f h|q c]; intros Hr; unfold collect_record, encode; rewrite <-app_assoc; reads.
  - rewrite bind_sized.
    2: { pose proof (encoded_len_bound (Flow q i ra p d f h) Hr) as Hb. unfold encoded_len, encode in Hb.
         rewrite length_app, length_sized in Hb. unfold fits. lia. }
    cbv beta iota. by rewrite collect_flow_body.
  - rewrite bind_sized by done. cbv beta iota. unfold collect_counters. change (if 2 =? 1 then ?a else ?b) with b. change (if 2 =? 2 then ?a else ?b) with a.
    reads. rewrite bind_sized_end by done. cbv beta iota. reads. rewrite source_id, decide_True by done.
    destruct (status_bits (admin_up c) (oper_up c)) as [-> ->]. by destruct c as [? ? ? [] ? ?].
Qed.

Lemma collect_records_encode rs : Forall record_ok rs → collect_records (length rs) (rs ≫= encode) = Some rs.
Proof.
  induction 1 as [|r rs Hr Hrs IH]; [done|]. rewrite bind_cons. cbn [collect_records length].
  rewrite collect_record_encode by done. cbn [mbind option_bind]. by rewrite IH.
Qed.

Lemma collect_encode d :
  Forall record_ok (records d) → fits 32 (N.of_nat (length (records d))) → collect (encode_datagram d) = Some d.
Proof.
  intros Hr Hf. unfold collect, encode_datagram, try_u32. rewrite (proj2 (N.ltb_lt _ _) Hf).
  change (be32 (dg_agent_address d)) with (u32 (dg_agent_address d)). reads.
  rewrite Nat2N.id, collect_records_encode by done. by destruct d.
Qed.

(** ** The queue *)

Definition queued_bytes (rs : list Record_) : nat := (HEADER_BYTES + length (rs ≫= encode))%nat.

Record inv (s : Inner) : Prop := {
  inv_bytes : pending_bytes s = queued_bytes (pending s);
  inv_room : (pending_bytes s ≤ MAX_DATAGRAM_BYTES)%nat;
  inv_records : Forall record_ok (pending s);
  inv_first : first_pending s = None ↔ pending s = [];
  inv_off : enabled (config s) = false → pending s = [];
}.

Lemma queued_bytes_snoc rs r : queued_bytes (rs ++ [r]) = (queued_bytes rs + encoded_len r)%nat.
Proof. unfold queued_bytes, encoded_len. rewrite bind_app, length_app. cbn. rewrite app_nil_r. lia. Qed.

Lemma records_short rs : Forall record_ok rs → (length rs ≤ length (rs ≫= encode))%nat.
Proof.
  induction 1 as [|r rs _ _ IH]; [done|]. rewrite bind_cons, length_app. cbn [length].
  assert (4 ≤ length (encode r))%nat; [|lia]. destruct r; cbn; lia.
Qed.

(** What leaves for the collectors: never more than one payload, and read
    back as it was queued. *)
Definition datagram_ok (d : Datagram) : Prop :=
  records d ≠ [] ∧ (length (encode_datagram d) ≤ MAX_DATAGRAM_BYTES)%nat ∧ collect (encode_datagram d) = Some d.

Lemma length_datagram d : length (encode_datagram d) = queued_bytes (records d).
Proof. unfold encode_datagram, queued_bytes, HEADER_BYTES. rewrite !length_app, !length_u32. cbn. lia. Qed.

Lemma seal_ok now s : inv s → pending s ≠ [] → datagram_ok (seal now s).1.
Proof.
  intros [Hb Hroom Hrec _ _] Hne. split_and!; [done| |].
  - rewrite length_datagram. change (records (seal now s).1) with (pending s). by rewrite <-Hb.
  - apply collect_encode; [done|]. cbn. pose proof (records_short (pending s) Hrec).
    unfold queued_bytes, MAX_DATAGRAM_BYTES, fits in *. lia.
Qed.

(** ** Runs *)

Inductive event :=
| ESetConfig (c : Config)
| ESample (seal_now now : N) (x : Sample)
| ECounters (l : list (N * N * InterfaceCounters))
| EFlush (now seal_now : N).

Definition handle (e : event) (s : Inner) : list Datagram * Inner :=
  match e with
  | ESetConfig c => ([], set_config c s)
  | ESample seal_now now x => let '(d, s) := take_sample seal_now now x s in (option_list d, s)
  | ECounters l => take_counters l s
  | EFlush now seal_now => let '(d, s) := flush_due now seal_now s in (option_list d, s)
  end.

Fixpoint run (es : list event) (s : Inner) : list Datagram * Inner :=
  match es with
  | [] => ([], s)
  | e :: es => let '(ds, s) := handle e s in let '(ds', s) := run es s in (ds ++ ds', s)
  end.

(** What an operation sends. *)
Record sent (s : Inner) (ds : list Datagram) (s' : Inner) : Prop := {
  sent_inv : inv s';
  sent_ok : Forall datagram_ok ds;
  sent_sequence : dg_sequence <$> ds = (λ i, wrap 32 (sequence s + 1 + N.of_nat i)) <$> seq 0 (length ds);
  sent_next : sequence s' = wrap 32 (sequence s + N.of_nat (length ds));
}.

(** Nothing queued is lost or reordered. *)
Definition in_order (made : list Record_) (s : Inner) (ds : list Datagram) (s' : Inner) : Prop :=
  (ds ≫= records) ++ pending s' = pending s ++ made.

Lemma wrap_add w a b : wrap w (wrap w a + b) = wrap w (a + b).
Proof. unfold wrap. apply N.Div0.add_mod_idemp_l. Qed.

Lemma queue_inv now r s :
  inv s → record_ok r → enabled (config s) = true → (pending_bytes s + encoded_len r ≤ MAX_DATAGRAM_BYTES)%nat →
  inv (queue now r s).
Proof.
  intros [Hb Hroom Hrec Hf Hoff] Hr Hen Hfit. split; cbn [queue pending pending_bytes first_pending config].
  - by rewrite queued_bytes_snoc, Hb.
  - done.
  - apply Forall_app. by split; [|constructor].
  - split; [|by intros [_ ?]%app_eq_nil].
    intros Hn. case_decide as Hp; [done|]. by apply Hf in Hn.
  - congruence.
Qed.

Lemma seal_inv now s : inv s → inv (seal now s).2.
Proof. intros [Hb Hroom Hrec Hf Hoff]. split; cbn; try done. unfold HEADER_BYTES, MAX_DATAGRAM_BYTES. lia. Qed.

Lemma sent_nil s : inv s → fits 32 (sequence s) → sent s [] s.
Proof. intros. split; cbn; [done..|]. by rewrite N.add_0_r, wrap_id. Qed.

Lemma sent_trans s ds1 s1 ds2 s2 : sent s ds1 s1 → sent s1 ds2 s2 → sent s (ds1 ++ ds2) s2.
Proof.
  intros [I1 O1 S1 N1] [I2 O2 S2 N2]. split; [done|by apply Forall_app| |].
  - rewrite fmap_app, S1, S2, length_app, seq_app, fmap_app. f_equal. rewrite N1.
    replace (seq (0 + length ds1) (length ds2)) with (Nat.add (length ds1) <$> seq 0 (length ds2))
      by (by rewrite fmap_add_seq, Nat.add_0_r). rewrite <-list_fmap_compose.
    apply list_fmap_ext. intros i x _. cbn. rewrite <-!N.add_assoc, wrap_add. f_equal. lia.
  - rewrite N2, N1, wrap_add, length_app. f_equal. lia.
Qed.

Lemma order_trans m1 m2 s ds1 s1 ds2 s2 :
  in_order m1 s ds1 s1 → in_order m2 s1 ds2 s2 → in_order (m1 ++ m2) s (ds1 ++ ds2) s2.
Proof.
  unfold in_order. intros H1 H2. rewrite bind_app, <-app_assoc, H2, app_assoc, H1. by rewrite app_assoc.
Qed.

Lemma push_sent seal_now now r s :
  inv s → fits 32 (sequence s) → record_ok r → enabled (config s) = true →
  let '(d, s') := push seal_now now r s in
  sent s (option_list d) s' ∧ in_order [r] s (option_list d) s' ∧ config s' = config s.
Proof.
  intros Hinv Hseq Hr Hen. pose proof (encoded_len_bound r Hr) as Hlen. unfold push.
  destruct (Nat.ltb_spec MAX_DATAGRAM_BYTES (pending_bytes s + encoded_len r)) as [Hfull|Hroom];
    [destruct (decide (pending s = [])) as [Hp|Hp]|]; cbn [andb].
  - exfalso. pose proof (inv_bytes s Hinv) as Hb. rewrite Hp in Hb. unfold queued_bytes, HEADER_BYTES, MAX_DATAGRAM_BYTES in *.
    cbn in Hb. lia.
  - rewrite bool_decide_eq_false_2 by done. cbn [negb].
    pose proof (seal_ok seal_now s Hinv Hp) as Hok. pose proof (seal_inv seal_now s Hinv) as Hinv'.
    cbn [seal fst snd option_list]. split_and!; [split| |done].
    + apply (queue_inv now r (seal seal_now s).2); [done..|]. cbn. unfold HEADER_BYTES, MAX_DATAGRAM_BYTES. lia.
    + by apply Forall_singleton.
    + cbn. by rewrite N.add_0_r.
    + done.
    + unfold in_order. cbn. by rewrite app_nil_r.
  - cbn [option_list]. split_and!; [split|done|done]; cbn [length]; [by apply queue_inv|done|done|].
    cbn. by rewrite N.add_0_r, wrap_id.
Qed.

(** The counters and the maps are not part of the queue. *)
Lemma inv_with_counters c s : inv s → inv (with_counters c s).
Proof. intros []. by split. Qed.

Lemma inv_with_maps f c p s : inv s → inv (with_maps f c p s).
Proof. intros []. by split. Qed.

Lemma sent_from s s0 ds s' : sequence s0 = sequence s → sent s0 ds s' → sent s ds s'.
Proof. intros Hs [I1 O1 S1 N1]. rewrite Hs in *. by split. Qed.

Lemma flow_record_ok x s : record_ok (flow_record x s).1.
Proof. unfold flow_record. cbn [next fst record_ok]. rewrite length_take. apply Nat.le_min_l. Qed.

Definition made_sample (x : Sample) (s : Inner) : list Record_ :=
  if enabled (config s) then [(flow_record x s).1] else [].

Lemma take_sample_sent seal_now now x s :
  inv s → fits 32 (sequence s) →
  let '(d, s') := take_sample seal_now now x s in
  sent s (option_list d) s' ∧ in_order (made_sample x s) s (option_list d) s' ∧ config s' = config s.
Proof.
  intros Hinv Hseq. unfold take_sample, made_sample. destruct (enabled (config s)) eqn:Hen; cbn [negb].
  - set (s1 := with_counters _ s). pose proof (flow_record_ok x s1) as Hok.
    destruct (flow_record x s1) as [r s2] eqn:Hf.
    assert (inv s2 ∧ sequence s2 = sequence s ∧ pending s2 = pending s ∧ config s2 = config s) as (H2 & Hs & Hp & Hc).
    { injection Hf as _ <-. split_and!; [by apply inv_with_maps, inv_with_counters|done..]. }
    assert ((flow_record x s).1 = r) as -> by (by injection Hf as <- _).
    pose proof (push_sent seal_now now r s2 H2) as Hpush. destruct (push seal_now now r s2) as [d s'].
    destruct Hpush as (Hs1 & Ho & Hc'); [by rewrite Hs|done|by rewrite Hc|]. split_and!; [|by unfold in_order in *; rewrite <-Hp|congruence].
    by eapply sent_from.
  - split_and!; [by apply sent_nil|unfold in_order; cbn; by rewrite app_nil_r|done].
Qed.

Lemma take_counter_sent seal_now now c s :
  inv s → fits 32 (sequence s) → enabled (config s) = true →
  let '(d, s') := take_counter seal_now now c s in
  sent s (option_list d) s' ∧ in_order [(counter_record c s).1] s (option_list d) s' ∧ config s' = config s.
Proof.
  intros Hinv Hseq Hen. unfold take_counter. set (s1 := with_counters _ s).
  destruct (counter_record c s1) as [r s2] eqn:Hf.
  assert (inv s2 ∧ sequence s2 = sequence s ∧ pending s2 = pending s ∧ config s2 = config s) as (H2 & Hs & Hp & Hc).
  { injection Hf as _ <-. split_and!; [by apply inv_with_maps, inv_with_counters|done..]. }
  assert ((counter_record c s).1 = r) as -> by (by injection Hf as <- _).
  assert (record_ok r) as Hr by (by injection Hf as <- _).
  pose proof (push_sent seal_now now r s2 H2) as Hpush. destruct (push seal_now now r s2) as [d s'].
  destruct Hpush as (Hs1 & Ho & Hc'); [by rewrite Hs|done|by rewrite Hc|]. split_and!; [|by unfold in_order in *; rewrite <-Hp|congruence].
  by eapply sent_from.
Qed.

(** The records of a poll, in order. *)
Fixpoint made_counters (l : list (N * N * InterfaceCounters)) (s : Inner) : list Record_ :=
  match l with
  | [] => []
  | e :: l => (counter_record e.2 s).1 :: made_counters l (take_counter e.1.1 e.1.2 e.2 s).2
  end.

Definition made (e : event) (s : Inner) : list Record_ :=
  match e with
  | ESample _ _ x => made_sample x s
  | ECounters l => if enabled (config s) then made_counters l s else []
  | _ => []
  end.

Lemma sent_fits s ds s' : sent s ds s' → fits 32 (sequence s').
Proof. intros [_ _ _ ->]. apply wrap_fits. Qed.

Lemma counters_loop l ds0 s0 s made0 :
  sent s0 ds0 s → in_order made0 s0 ds0 s → enabled (config s) = true →
  let '(ds, s') := foldl (λ st e, let '(d, s) := take_counter e.1.1 e.1.2 e.2 st.2 in (st.1 ++ option_list d, s))
                     (ds0, s) l in
  sent s0 ds s' ∧ in_order (made0 ++ made_counters l s) s0 ds s' ∧ config s' = config s.
Proof.
  revert ds0 s made0. induction l as [|e l IH]; intros ds0 s made0 Hs Ho Hen; cbn [foldl made_counters].
  { by rewrite app_nil_r. }
  pose proof (take_counter_sent e.1.1 e.1.2 e.2 s (sent_inv _ _ _ Hs) (sent_fits _ _ _ Hs) Hen) as H1.
  cbn [snd fst]. destruct (take_counter e.1.1 e.1.2 e.2 s) as [d s1]. destruct H1 as (Hs1 & Ho1 & Hc1). cbn [snd].
  pose proof (IH (ds0 ++ option_list d) s1 (made0 ++ [(counter_record e.2 s).1])) as H2.
  destruct (foldl _ (ds0 ++ option_list d, s1) l) as [ds s'].
  destruct H2 as (Hs2 & Ho2 & Hc2); [by eapply sent_trans|by eapply order_trans|by rewrite Hc1|].
  split_and!; [done| |congruence]. by rewrite <-app_assoc in Ho2.
Qed.

Lemma order_nil s : in_order [] s [] s.
Proof. unfold in_order. cbn. by rewrite app_nil_r. Qed.

Lemma take_counters_sent l s :
  inv s → fits 32 (sequence s) →
  let '(ds, s') := take_counters l s in sent s ds s' ∧ in_order (made (ECounters l) s) s ds s'.
Proof.
  intros Hinv Hseq. unfold take_counters, made. destruct (enabled (config s)) eqn:Hen; cbn [negb].
  - pose proof (counters_loop l [] s s [] (sent_nil s Hinv Hseq) (order_nil s) Hen) as H.
    destruct (foldl _ _ _). naive_solver.
  - split; [by apply sent_nil|apply order_nil].
Qed.

(** A flush takes all of the queue. *)
Lemma flush_due_sent now seal_now s :
  inv s → fits 32 (sequence s) →
  let '(d, s') := flush_due now seal_now s in
  sent s (option_list d) s' ∧ in_order [] s (option_list d) s'.
Proof.
  intros Hinv Hseq. unfold flush_due. destruct (negb _ || bool_decide _) eqn:Hw; [by split; [apply sent_nil|apply order_nil]|].
  apply orb_false_iff in Hw as [_ Hp%bool_decide_eq_false].
  pose proof (seal_ok seal_now s Hinv Hp) as Hok. pose proof (seal_inv seal_now s Hinv) as Hinv'.
  cbn [seal option_list]. split; [split|].
  - done.
  - by apply Forall_singleton.
  - cbn. by rewrite N.add_0_r.
  - done.
  - unfold in_order. cbn. by rewrite !app_nil_r.
Qed.

(** A configuration that keeps the exporter on. *)
Definition keeps_on (e : event) : Prop := match e with ESetConfig c => enabled c = true | _ => True end.

Lemma handle_sent e s :
  inv s → fits 32 (sequence s) →
  let '(ds, s') := handle e s in sent s ds s' ∧ (keeps_on e → in_order (made e s) s ds s').
Proof.
  intros Hinv Hseq. destruct e as [c|seal_now now x|l|now seal_now]; cbn [handle made keeps_on].
  - unfold set_config. destruct (enabled c) eqn:Hen.
    + destruct Hinv as [H1 H2 H3 H4 H5]. split; [split|intros _; unfold in_order; cbn; by rewrite app_nil_r]; try done.
      * split; try done. cbn. congruence.
      * cbn. by rewrite N.add_0_r, wrap_id.
    + split; [split|done]; try done.
      * destruct Hinv. split; cbn; try done. unfold HEADER_BYTES, MAX_DATAGRAM_BYTES. lia.
      * cbn. by rewrite N.add_0_r, wrap_id.
  - pose proof (take_sample_sent seal_now now x s Hinv Hseq) as H. destruct (take_sample seal_now now x s). naive_solver.
  - pose proof (take_counters_sent l s Hinv Hseq) as H. cbn [made] in H. destruct (take_counters l s). naive_solver.
  - pose proof (flush_due_sent now seal_now s Hinv Hseq) as H. destruct (flush_due now seal_now s). naive_solver.
Qed.

Fixpoint made_by (es : list event) (s : Inner) : list Record_ :=
  match es with [] => [] | e :: es => made e s ++ made_by es (handle e s).2 end.

Lemma run_sent es s :
  inv s → fits 32 (sequence s) →
  let '(ds, s') := run es s in sent s ds s' ∧ (Forall keeps_on es → in_order (made_by es s) s ds s').
Proof.
  revert s. induction es as [|e es IH]; intros s Hinv Hseq; cbn [run made_by].
  { split; [by apply sent_nil|intros _; apply order_nil]. }
  pose proof (handle_sent e s Hinv Hseq) as H1. destruct (handle e s) as [ds1 s1]. destruct H1 as [Hs1 Ho1].
  pose proof (IH s1 (sent_inv _ _ _ Hs1) (sent_fits _ _ _ Hs1)) as H2. destruct (run es s1) as [ds2 s2].
  destruct H2 as [Hs2 Ho2]. split; [by eapply sent_trans|]. intros [? ?]%Forall_cons. cbn [snd]. eapply order_trans; eauto.
Qed.

(** ** Numbering, as a collector sees each source *)

(** Sequence, rate and pool of the flow samples of source [i]. *)
Definition flow_of (i : N) (r : Record_) : option (N * N * N) :=
  match r with Flow q j ra p _ _ _ => if decide (j = i) then Some (q, ra, p) else None | _ => None end.

Definition counter_of (i : N) (r : Record_) : option N :=
  match r with Counters q c => if decide (if_index c = i) then Some q else None | _ => None end.

Definition sum_rates (l : list (N * N * N)) : N := foldr (λ e a, e.1.2 + a) 0 l.

(** The [k]-th sample of a source is numbered [k + 1] and its pool counts the
    packets of all the samples so far. *)
Definition numbered_flows (l : list (N * N * N)) : Prop :=
  ∀ k q ra p, l !! k = Some (q, ra, p) → q = wrap 32 (N.of_nat k + 1) ∧ p = wrap 32 (sum_rates (take (S k) l)).

Definition numbered_counters (l : list N) : Prop := ∀ k q, l !! k = Some q → q = wrap 32 (N.of_nat k + 1).

Record numbered (rs : list Record_) (s : Inner) : Prop := {
  num_flows i : numbered_flows (omap (flow_of i) rs);
  num_counters i : numbered_counters (omap (counter_of i) rs);
  num_flow_next i : default 0 (flow_sequences s !! i) = wrap 32 (N.of_nat (length (omap (flow_of i) rs)));
  num_pool i : default 0 (sample_pool s !! i) = wrap 32 (sum_rates (omap (flow_of i) rs));
  num_counter_next i : default 0 (counter_sequences s !! i) = wrap 32 (N.of_nat (length (omap (counter_of i) rs)));
}.

(** The maps of the numbering. *)
Definition maps (s : Inner) := (flow_sequences s, counter_sequences s, sample_pool s).

Lemma numbered_maps rs s s' : maps s' = maps s → numbered rs s → numbered rs s'.
Proof. unfold maps. intros [= E1 E2 E3] [H1 H2 H3 H4 H5]. by split; rewrite ?E1, ?E2, ?E3. Qed.

Lemma push_maps seal_now now r s : maps (push seal_now now r s).2 = maps s.
Proof. unfold push. by case_match. Qed.

Lemma sum_rates_app l1 l2 : sum_rates (l1 ++ l2) = sum_rates l1 + sum_rates l2.
Proof. unfold sum_rates. induction l1 as [|e l1 IH]; cbn; [done|]. rewrite IH. lia. Qed.

Lemma numbered_flows_snoc l q ra p :
  numbered_flows l → q = wrap 32 (N.of_nat (length l) + 1) → p = wrap 32 (sum_rates l + ra) →
  numbered_flows (l ++ [(q, ra, p)]).
Proof.
  intros Hl -> -> k q' ra' p' Hk. destruct (decide (k < length l)%nat) as [Hlt|Hge].
  - rewrite lookup_app_l in Hk by done. rewrite take_app_le by lia. by eapply Hl.
  - apply lookup_app_Some in Hk as [Hk|[Hle Hk]]; [apply lookup_lt_Some in Hk; lia|].
    apply list_lookup_singleton_Some in Hk as [Hk [= <- <- <-]].
    replace k with (length l) by lia. split; [done|]. rewrite firstn_all2 by (rewrite length_app; cbn; lia).
    rewrite sum_rates_app. cbn. by rewrite N.add_0_r.
Qed.

Lemma numbered_counters_snoc l q :
  numbered_counters l → q = wrap 32 (N.of_nat (length l) + 1) → numbered_counters (l ++ [q]).
Proof.
  intros Hl -> k q' Hk. destruct (decide (k < length l)%nat) as [Hlt|Hge].
  - rewrite lookup_app_l in Hk by done. by eapply Hl.
  - apply lookup_app_Some in Hk as [Hk|[Hle Hk]]; [apply lookup_lt_Some in Hk; lia|].
    apply list_lookup_singleton_Some in Hk as [Hk <-]. by replace k with (length l) by lia.
Qed.

Lemma flow_record_numbered rs x s :
  numbered rs s → numbered (rs ++ [(flow_record x s).1]) (flow_record x s).2.
Proof.
  intros [H1 H2 H3 H4 H5]. set (j := sample_if_index x). split; intros i;
    rewrite omap_app; unfold flow_record; cbn [next fst snd with_maps flow_sequences sample_pool counter_sequences omap list_omap flow_of counter_of];
    try rewrite app_nil_r; try done.
  - case_decide as Hij; [|by rewrite app_nil_r]. apply numbered_flows_snoc; [done| |].
    + by rewrite Hij, H3, wrap_add.
    + by rewrite Hij, H4, wrap_add.
  - rewrite lookup_insert. repeat case_decide; try done; [|by rewrite app_nil_r].
    rewrite length_app. cbn. subst. rewrite H3, wrap_add. f_equal. lia.
  - rewrite lookup_insert. repeat case_decide; try done; [|by rewrite app_nil_r].
    rewrite sum_rates_app. cbn. subst. by rewrite H4, wrap_add, N.add_0_r.
Qed.

Lemma counter_record_numbered rs c s :
  numbered rs s → numbered (rs ++ [(counter_record c s).1]) (counter_record c s).2.
Proof.
  intros [H1 H2 H3 H4 H5]. split; intros i;
    rewrite omap_app; unfold counter_record; cbn [next fst snd with_maps flow_sequences sample_pool counter_sequences omap list_omap flow_of counter_of];
    try rewrite app_nil_r; try done.
  - case_decide as Hij; [|by rewrite app_nil_r]. apply numbered_counters_snoc; [done|].
    by rewrite Hij, H5, wrap_add.
  - rewrite lookup_insert. repeat case_decide; try done; [|by rewrite app_nil_r].
    rewrite length_app. cbn. subst. rewrite H5, wrap_add. f_equal. lia.
Qed.

Lemma counters_numbered l rs s ds0 :
  numbered rs s →
  numbered (rs ++ made_counters l s)
    (foldl (λ st e, let '(d, s) := take_counter e.1.1 e.1.2 e.2 st.2 in (st.1 ++ option_list d, s)) (ds0, s) l).2.
Proof.
  revert rs s ds0. induction l as [|e l IH]; intros rs s ds0 Hn; cbn [foldl made_counters snd].
  { by rewrite app_nil_r. }
  pose proof (counter_record_numbered rs e.2 s Hn) as H1.
  assert (numbered (rs ++ [(counter_record e.2 s).1]) (take_counter e.1.1 e.1.2 e.2 s).2) as H2.
  { eapply numbered_maps, H1. unfold take_counter. cbn [counter_record next]. by rewrite push_maps. }
  destruct (take_counter e.1.1 e.1.2 e.2 s) as [d s1]. cbn [snd] in *.
  rewrite cons_middle, app_assoc. by apply IH.
Qed.

Lemma handle_numbered e rs s : numbered rs s → numbered (rs ++ made e s) (handle e s).2.
Proof.
  intros Hn. destruct e as [c|seal_now now x|l|now seal_now]; cbn [handle made].
  - rewrite app_nil_r. eapply numbered_maps, Hn. cbn. unfold set_config. by case_match.
  - unfold take_sample, made_sample. destruct (enabled (config s)); cbn [negb snd]; [|by rewrite app_nil_r].
    pose proof (flow_record_numbered rs x s Hn) as H1.
    destruct (flow_record x (with_counters _ s)) as [r s2] eqn:Hf.
    assert (maps s2 = maps (flow_record x s).2) as Hm by (by injection Hf as _ <-).
    pose proof (push_maps seal_now now r s2) as Hm'. destruct (push seal_now now r s2) as [d s'].
    eapply numbered_maps, H1. cbn [snd] in *. congruence.
  - unfold take_counters. destruct (enabled (config s)); cbn [negb snd]; [by apply counters_numbered|by rewrite app_nil_r].
  - rewrite app_nil_r. eapply numbered_maps, Hn. unfold flush_due. by destruct (negb _ || bool_decide _).
Qed.

Lemma run_numbered es rs s : numbered rs s → numbered (rs ++ made_by es s) (run es s).2.
Proof.
  revert rs s. induction es as [|e es IH]; intros rs s Hn; cbn [run made_by]; [by rewrite app_nil_r|].
  pose proof (IH _ _ (handle_numbered e rs s Hn)) as H. rewrite <-app_assoc in H.
  destruct (handle e s) as [ds1 s1]. cbn [snd] in *. by destruct (run es s1).
Qed.

Lemma new_inv now : inv (new now).
Proof. split; cbn; try done. unfold HEADER_BYTES, MAX_DATAGRAM_BYTES. lia. Qed.

Lemma new_numbered now : numbered [] (new now).
Proof. by split. Qed.


(** Pacing: a queue that has waited half a second is flushed whole, a younger
    or empty one is left alone. *)
Theorem sflow_pacing now seal_now s at_ :
  first_pending s = Some at_ → inv s →
  match flush_due now seal_now s with
  | (Some d, s') => at_ + FLUSH_AFTER ≤ now ∧ records d = pending s ∧ pending s' = [] ∧ datagram_ok d
  | (None, s') => now < at_ + FLUSH_AFTER ∧ s' = s
  end.
Proof.
  intros Hf Hinv. unfold flush_due. rewrite Hf.
  assert (pending s ≠ []) as Hp by (intros Hp; apply (inv_first s Hinv) in Hp; congruence).
  rewrite (bool_decide_eq_false_2 _ Hp), orb_false_r.
  destruct (N.leb_spec FLUSH_AFTER (since now at_)) as [Hw|Hw]; cbn [negb]; unfold since, FLUSH_AFTER in *.
  - split_and!; [vm_compute (from_millis _) in Hw |- *; lia|done|done|by apply (seal_ok seal_now s)].
  - split; [vm_compute (from_millis _) in Hw |- *; lia|done].
Qed.
