(* ===== verification/AgentX.v ===== *)
(** * AgentX (hemlock-orch/src/agentx.rs)

    The RFC 2741 wire format of the SNMP sub-agent.  The reader's slice and
    position are one list, the bytes not read yet.  [i32] values are [Z]. *)

From Stdlib Require Import NArith ZArith Lia.
From stdpp Require Import base tactics list strings option gmap.
From S2P Require Import Prelude Text.

Local Open Scope N_scope.

Definition VERSION : N := 1.
Definition HEADER_LEN : nat := 20.
Definition FLAG_NETWORK_BYTE_ORDER : N := 16.
Definition OID_INCLUDE : N := 1.

Inductive PduType :=
| Open | Close | Register_ | Unregister | Get | GetNext | GetBulk | TestSet | CommitSet | UndoSet | CleanupSet
| Notify | Ping | Response | Other (code : N).

#[export] Instance PduType_eq_dec : EqDecision PduType.
Proof. solve_decision. Defined.

Definition code (t : PduType) : N :=
  match t with
  | Open => 1 | Close => 2 | Register_ => 3 | Unregister => 4 | Get => 5 | GetNext => 6 | GetBulk => 7
  | TestSet => 8 | CommitSet => 9 | UndoSet => 10 | CleanupSet => 11 | Notify => 12 | Ping => 13 | Response => 18
  | Other c => c
  end.

Definition from_code (c : N) : PduType :=
  match c with
  | 1 => Open | 2 => Close | 3 => Register_ | 4 => Unregister | 5 => Get | 6 => GetNext | 7 => GetBulk
  | 8 => TestSet | 9 => CommitSet | 10 => UndoSet | 11 => CleanupSet | 12 => Notify | 13 => Ping | 18 => Response
  | other => Other other
  end.

Definition ERROR_NONE : N := 0.
Definition ERROR_NOT_WRITABLE : N := 17.

Record Header := mkHeader { pdu_type : PduType; flags : N; session_id : N; transaction_id : N; packet_id : N;
  payload_len : N }.

(** Every index is below the length checked first. *)
Definition header_parse (bytes : list N) : option Header :=
  match bytes with
  | version :: ty :: flags :: _ :: s0 :: s1 :: s2 :: s3 :: t0 :: t1 :: t2 :: t3 :: p0 :: p1 :: p2 :: p3
      :: l0 :: l1 :: l2 :: l3 :: _ =>
      if negb (version =? VERSION) then None
      else if N.land flags FLAG_NETWORK_BYTE_ORDER =? 0 then None
      else Some (mkHeader (from_code ty) flags (of_be32 s0 s1 s2 s3) (of_be32 t0 t1 t2 t3) (of_be32 p0 p1 p2 p3)
                   (of_be32 l0 l1 l2 l3))
  | _ => None
  end.

Inductive Value :=
| Integer (v : Z) | OctetString (bytes : list N) | Counter32 (v : N) | Gauge32 (v : N) | TimeTicks (v : N)
| Counter64 (v : N) | EndOfMibView | NoSuchInstance | NoSuchObject.

#[export] Instance Value_eq_dec : EqDecision Value.
Proof. solve_decision. Defined.

Definition tag (v : Value) : N :=
  match v with
  | Integer _ => 2 | OctetString _ => 4 | Counter32 _ => 65 | Gauge32 _ => 66 | TimeTicks _ => 67
  | Counter64 _ => 70 | NoSuchObject => 128 | NoSuchInstance => 129 | EndOfMibView => 130
  end.

Definition Oid := list N.

Record VarBind := mkVarBind { name : Oid; value : Value }.

Record SearchRange := mkSearchRange { start : Oid; include : bool; end_ : Oid }.

Record Request := mkRequest { header : Header; ranges : list SearchRange; non_repeaters : N; max_repetitions : N }.

(** ** Encoding *)

(** [u32::try_from(n).unwrap_or(u32::MAX)] *)
Definition len32 (n : nat) : N := if N.of_nat n <? 2 ^ 32 then N.of_nat n else 2 ^ 32 - 1.

Definition push_oid (oid : Oid) (include : bool) : list N :=
  let count := N.min (N.of_nat (length oid)) 255 in
  [count; 0; if include then OID_INCLUDE else 0; 0] ++ (take (N.to_nat count) oid ≫= be32).

Definition push_octets (bytes : list N) : list N :=
  be32 (len32 (length bytes)) ++ bytes ++ repeat 0 ((4 - length bytes mod 4) mod 4).

Definition be64 (v : N) : list N := be32 (v / 2 ^ 32) ++ be32 (v mod 2 ^ 32).

(** [v as u32] of an [i32]. *)
Definition i32_bits (v : Z) : N := Z.to_N (v mod 2 ^ 32).

Definition push_value (v : Value) : list N :=
  match v with
  | Integer v => be32 (i32_bits v)
  | Counter32 v | Gauge32 v | TimeTicks v => be32 v
  | Counter64 v => be64 v
  | OctetString bytes => push_octets bytes
  | EndOfMibView | NoSuchInstance | NoSuchObject => []
  end.

Definition push_varbind (b : VarBind) : list N :=
  be16 (tag (value b)) ++ be16 0 ++ push_oid (name b) false ++ push_value (value b).

Definition frame (ty : PduType) (session transaction packet : N) (payload : list N) : list N :=
  [VERSION; code ty; FLAG_NETWORK_BYTE_ORDER; 0] ++ be32 session ++ be32 transaction ++ be32 packet
  ++ be32 (len32 (length payload)) ++ payload.

Definition open_pdu (packet : N) (id : Oid) (description : list N) : list N :=
  frame Open 0 0 packet ([5; 0; 0; 0] ++ push_oid id false ++ push_octets description).

Definition register_pdu (session packet : N) (subtree : Oid) (priority : N) : list N :=
  frame Register_ session 0 packet ([0; priority; 0; 0] ++ push_oid subtree false).

Definition response_payload (error index : N) (binds : list VarBind) : list N :=
  be32 0 ++ be16 error ++ be16 index ++ (binds ≫= push_varbind).

Definition response_pdu (h : Header) (error index : N) (binds : list VarBind) : list N :=
  frame Response (session_id h) (transaction_id h) (packet_id h) (response_payload error index binds).

(** ** Decoding *)

Definition r_u8 (l : list N) : option (N * list N) := match l with b :: l => Some (b, l) | [] => None end.

Definition r_u16 (l : list N) : option (N * list N) :=
  match l with a :: b :: l => Some (of_be16 a b, l) | _ => None end.

Definition r_u32 (l : list N) : option (N * list N) :=
  match l with a :: b :: c :: d :: l => Some (of_be32 a b c d, l) | _ => None end.

(** [for _ in 0..count { oid.push(self.u32()?) }] *)
Fixpoint r_subs (count : nat) (l : list N) : option (Oid * list N) :=
  match count with
  | O => Some ([], l)
  | S n => '(sub, l) ← r_u32 l; '(subs, l) ← r_subs n l; Some (sub :: subs, l)
  end.

Definition r_oid (l : list N) : option ((Oid * bool) * list N) :=
  '(count, l) ← r_u8 l;
  '(prefix, l) ← r_u8 l;
  '(inc, l) ← r_u8 l;
  '(_, l) ← r_u8 l;
  '(subs, l) ← r_subs (N.to_nat count) l;
  Some ((if prefix =? 0 then subs else [1; 3; 6; 1; prefix] ++ subs, negb (inc =? 0)), l).

(** Every round reads two identifiers, eight bytes at least. *)
Fixpoint r_ranges (fuel : nat) (l : list N) : option (list SearchRange) :=
  match l, fuel with
  | [], _ => Some []
  | _, O => None
  | _, S f =>
      '((start, include), l) ← r_oid l;
      '((end_, _), l) ← r_oid l;
      rs ← r_ranges f l;
      Some (mkSearchRange start include end_ :: rs)
  end.

Definition parse_request (h : Header) (payload : list N) : option Request :=
  '((non_repeaters, max_repetitions), l) ←
    (if decide (pdu_type h = GetBulk) then
       '(n, l) ← r_u16 payload; '(m, l) ← r_u16 l; Some ((n, m), l)
     else Some ((0, 0), payload));
  rs ← r_ranges (length l) l;
  Some (mkRequest h rs non_repeaters max_repetitions).

Definition parse_response (h : Header) (payload : list N) : option (N * N) :=
  '(_, l) ← r_u32 payload; '(error, _) ← r_u16 l; Some (session_id h, error).

Definition is_duplicate_registration (error : N) : bool := error =? 263.

(** ** The master

    The other end of the session, from RFC 2741 section 5: it writes search
    ranges and reads variable bindings by their tags. *)

Definition push_range (r : SearchRange) : list N := push_oid (start r) (include r) ++ push_oid (end_ r) false.

Definition request_payload (ty : PduType) (non_repeaters max_repetitions : N) (rs : list SearchRange) : list N :=
  (if decide (ty = GetBulk) then be16 non_repeaters ++ be16 max_repetitions else []) ++ (rs ≫= push_range).

Definition request_pdu (ty : PduType) (session transaction packet non_repeaters max_repetitions : N)
    (rs : list SearchRange) : list N :=
  frame ty session transaction packet (request_payload ty non_repeaters max_repetitions rs).

Definition m_u64 (l : list N) : option (N * list N) :=
  '(hi, l) ← r_u32 l; '(lo, l) ← r_u32 l; Some (hi * 2 ^ 32 + lo, l).

Definition m_octets (l : list N) : option (list N * list N) :=
  '(n, l) ← r_u32 l;
  let n := N.to_nat n in
  if (length l <? n)%nat then None else Some (take n l, drop ((4 - n mod 4) mod 4) (drop n l)).

(** Two's complement. *)
Definition i32_of (n : N) : Z := if n <? 2 ^ 31 then Z.of_N n else (Z.of_N n - 2 ^ 32)%Z.

Definition m_value (tag : N) (l : list N) : option (Value * list N) :=
  match tag with
  | 2 => '(n, l) ← r_u32 l; Some (Integer (i32_of n), l)
  | 4 => '(b, l) ← m_octets l; Some (OctetString b, l)
  | 65 => '(n, l) ← r_u32 l; Some (Counter32 n, l)
  | 66 => '(n, l) ← r_u32 l; Some (Gauge32 n, l)
  | 67 => '(n, l) ← r_u32 l; Some (TimeTicks n, l)
  | 70 => '(n, l) ← m_u64 l; Some (Counter64 n, l)
  | 128 => Some (NoSuchObject, l)
  | 129 => Some (NoSuchInstance, l)
  | 130 => Some (EndOfMibView, l)
  | _ => None
  end.

Definition m_varbind (l : list N) : option (VarBind * list N) :=
  '(tag, l) ← r_u16 l;
  '(_, l) ← r_u16 l;
  '((oid, _), l) ← r_oid l;
  '(v, l) ← m_value tag l;
  Some (mkVarBind oid v, l).

(** Every binding is eight bytes at least. *)
Fixpoint m_varbinds (fuel : nat) (l : list N) : option (list VarBind) :=
  match l, fuel with
  | [], _ => Some []
  | _, O => None
  | _, S f => '(b, l) ← m_varbind l; bs ← m_varbinds f l; Some (b :: bs)
  end.

Record MasterResponse := mkMasterResponse { m_header : Header; m_error : N; m_index : N; m_binds : list VarBind }.

Definition m_response (bytes : list N) : option MasterResponse :=
  h ← header_parse bytes;
  let payload := drop HEADER_LEN bytes in
  if negb (payload_len h =? N.of_nat (length payload)) then None
  else
    '(_, l) ← r_u32 payload;
    '(error, l) ← r_u16 l;
    '(index, l) ← r_u16 l;
    bs ← m_varbinds (length l) l;
    Some (mkMasterResponse h error index bs).

(** ** Identifiers, read back *)

Lemma r_u32_be32 n l : r_u32 (be32 n ++ l) = Some (n, l).
Proof. unfold be32. cbn. by rewrite of_be32_be32. Qed.

Lemma r_u16_be16 n l : r_u16 (be16 n ++ l) = Some (n, l).
Proof. unfold be16. cbn. by rewrite of_be16_be16. Qed.

Lemma r_subs_be32 (oid : Oid) l : r_subs (length oid) ((oid ≫= be32) ++ l) = Some (oid, l).
Proof.
  induction oid as [|x oid IH]; [done|]. rewrite bind_cons, <-app_assoc. cbn [length r_subs].
  rewrite r_u32_be32. cbn [mbind option_bind]. by rewrite IH.
Qed.

(** Identifiers are at most 128 long (RFC 2741 section 5.1); the encoder
    writes up to 255. *)
Definition oid_ok (oid : Oid) : Prop := (length oid ≤ 255)%nat.

Lemma r_oid_push oid inc l : oid_ok oid → r_oid (push_oid oid inc ++ l) = Some ((oid, inc), l).
Proof.
  unfold oid_ok. intros Ho. unfold push_oid, r_oid. cbn [app r_u8 mbind option_bind].
  replace (N.min (N.of_nat (length oid)) 255) with (N.of_nat (length oid)) by lia.
  rewrite Nat2N.id, firstn_all, r_subs_be32. cbn. by destruct inc.
Qed.

(** ** Framing *)

Lemma from_code_code ty : (∀ c, ty = Other c → from_code c = Other c) → from_code (code ty) = ty.
Proof. intros H. destruct ty; try done. cbn [code]. by apply H. Qed.

(** A frame's header is read back, whatever follows it. *)
Lemma header_frame ty s t p payload l :
  from_code (code ty) = ty → fits 32 (N.of_nat (length payload)) →
  header_parse (frame ty s t p payload ++ l)
  = Some (mkHeader ty FLAG_NETWORK_BYTE_ORDER s t p (N.of_nat (length payload))).
Proof.
  intros Ht Hf. unfold frame, be32. cbn [app header_parse].
  change (negb (VERSION =? VERSION)) with false. change (N.land FLAG_NETWORK_BYTE_ORDER FLAG_NETWORK_BYTE_ORDER =? 0) with false.
  cbv iota. rewrite Ht, !of_be32_be32. unfold len32. by rewrite (proj2 (N.ltb_lt _ _) Hf).
Qed.

Lemma frame_payload ty s t p payload : drop HEADER_LEN (frame ty s t p payload) = payload.
Proof. done. Qed.

(** ** Requests, read by the sub-agent *)

Definition range_ok (r : SearchRange) : Prop := oid_ok (start r) ∧ oid_ok (end_ r).

Lemma r_ranges_push fuel rs :
  Forall range_ok rs → (length rs ≤ fuel)%nat → r_ranges fuel (rs ≫= push_range) = Some rs.
Proof.
  intros Hrs. revert fuel. induction Hrs as [|r rs [Hs He] Hrs IH]; intros fuel Hf; [by destruct fuel|].
  destruct fuel as [|fuel]; [cbn in Hf; lia|]. cbn [length] in Hf. rewrite bind_cons. unfold push_range at 1.
  rewrite <-app_assoc. pose proof (r_oid_push (start r) (include r) (push_oid (end_ r) false ++ (rs ≫= push_range)) Hs) as E1.
  destruct (push_oid (start r) (include r) ++ _) as [|b l] eqn:El; [by apply app_eq_nil in El as [? _]|].
  cbn [r_ranges]. rewrite E1. cbn [mbind option_bind]. rewrite (r_oid_push _ _ _ He). cbn [mbind option_bind].
  rewrite IH by lia. by destruct r.
Qed.

Lemma length_ranges rs : (length rs ≤ length (rs ≫= push_range))%nat.
Proof.
  induction rs as [|r rs IH]; [done|]. rewrite bind_cons, length_app. unfold push_range at 1. unfold push_oid. rewrite !length_app. cbn [length]. lia.
Qed.

Lemma parse_request_push h rs n m :
  Forall range_ok rs →
  parse_request h (request_payload (pdu_type h) n m rs)
  = Some (if decide (pdu_type h = GetBulk) then mkRequest h rs n m else mkRequest h rs 0 0).
Proof.
  intros Hrs. unfold parse_request, request_payload. case_decide as Hb.
  - rewrite <-app_assoc, r_u16_be16. cbn [mbind option_bind]. rewrite r_u16_be16. cbn [mbind option_bind].
    rewrite r_ranges_push; [done|done|apply length_ranges].
  - cbn [app mbind option_bind]. rewrite r_ranges_push; [done|done|apply length_ranges].
Qed.

(** ** Responses, read by the master *)

(** What a binding's fields hold at their widths. *)
Definition value_ok (v : Value) : Prop :=
  match v with
  | Integer v => (- 2 ^ 31 ≤ v < 2 ^ 31)%Z
  | OctetString b => fits 32 (N.of_nat (length b))
  | _ => True
  end.

Definition bind_ok (b : VarBind) : Prop := oid_ok (name b) ∧ value_ok (value b).

Lemma i32_of_bits v : (- 2 ^ 31 ≤ v < 2 ^ 31)%Z → i32_of (i32_bits v) = v.
Proof.
  intros Hv. unfold i32_of, i32_bits.
  destruct (decide (v < 0)%Z) as [Hn|Hn].
  - replace (v mod 2 ^ 32)%Z with (v + 2 ^ 32)%Z by (apply Zmod_unique with (q := (-1)%Z); lia).
    rewrite (proj2 (N.ltb_ge _ _)) by lia. lia.
  - rewrite Z.mod_small by lia. rewrite (proj2 (N.ltb_lt _ _)) by lia. lia.
Qed.

Lemma m_octets_push b l : fits 32 (N.of_nat (length b)) → m_octets (push_octets b ++ l) = Some (b, l).
Proof.
  intros Hf. unfold m_octets, push_octets, len32. rewrite (proj2 (N.ltb_lt _ _) Hf), <-app_assoc, r_u32_be32.
  cbn [mbind option_bind]. rewrite Nat2N.id, <-app_assoc, length_app, (proj2 (Nat.ltb_ge _ _)) by lia.
  rewrite take_app_length, drop_app_length. f_equal. f_equal.
  rewrite <-(repeat_length 0 ((4 - _) mod 4)) at 1. apply drop_app_length.
Qed.

Lemma m_u64_be64 n l : m_u64 (be64 n ++ l) = Some (n, l).
Proof.
  unfold m_u64, be64. rewrite <-app_assoc, r_u32_be32. cbn [mbind option_bind]. rewrite r_u32_be32.
  cbn [mbind option_bind]. f_equal. f_equal. pose proof (N.div_mod n (2 ^ 32)). lia.
Qed.

Lemma m_value_push v l : value_ok v → m_value (tag v) (push_value v ++ l) = Some (v, l).
Proof.
  intros Hv. destruct v; cbn [tag push_value]; unfold m_value; rewrite ?r_u32_be32; cbn [mbind option_bind]; try done.
  - by rewrite i32_of_bits.
  - by rewrite m_octets_push.
  - by rewrite m_u64_be64.
Qed.

Lemma m_varbind_push b l : bind_ok b → m_varbind (push_varbind b ++ l) = Some (b, l).
Proof.
  intros [Ho Hv]. unfold m_varbind, push_varbind. rewrite <-!app_assoc, r_u16_be16. cbn [mbind option_bind].
  rewrite r_u16_be16. cbn [mbind option_bind]. rewrite r_oid_push by done. cbn [mbind option_bind].
  rewrite m_value_push by done. by destruct b.
Qed.

Lemma length_varbinds bs : (length bs ≤ length (bs ≫= push_varbind))%nat.
Proof.
  induction bs as [|b bs IH]; [done|]. rewrite bind_cons, length_app. unfold push_varbind at 1. unfold be16. rewrite !length_app. cbn [length]. lia.
Qed.

Lemma m_varbinds_push fuel bs :
  Forall bind_ok bs → (length bs ≤ fuel)%nat → m_varbinds fuel (bs ≫= push_varbind) = Some bs.
Proof.
  intros Hbs. revert fuel. induction Hbs as [|b bs Hb Hbs IH]; intros fuel Hf; [by destruct fuel|].
  destruct fuel as [|fuel]; [cbn in Hf; lia|]. cbn [length] in Hf. rewrite bind_cons.
  pose proof (m_varbind_push b (bs ≫= push_varbind) Hb) as E1.
  destruct (push_varbind b ++ _) as [|x l] eqn:El; [by apply app_eq_nil in El as [? _]|].
  cbn [m_varbinds]. rewrite E1. cbn [mbind option_bind]. by rewrite IH by lia.
Qed.

(** The master reads a response's bindings, under the identifiers of its own
    request. *)
Lemma m_response_push h error idx bs :
  Forall bind_ok bs → fits 32 (N.of_nat (length (response_payload error idx bs))) →
  m_response (response_pdu h error idx bs)
  = Some (mkMasterResponse
      (mkHeader Response FLAG_NETWORK_BYTE_ORDER (session_id h) (transaction_id h) (packet_id h)
         (N.of_nat (length (response_payload error idx bs)))) error idx bs).
Proof.
  intros Hbs Hf. unfold m_response, response_pdu.
  rewrite <-(app_nil_r (frame _ _ _ _ _)) at 1. rewrite header_frame by done. cbn [mbind option_bind].
  rewrite frame_payload. cbn [payload_len]. rewrite N.eqb_refl. cbn [negb].
  assert (r_u32 (response_payload error idx bs) = Some (0, be16 error ++ be16 idx ++ (bs ≫= push_varbind))) as ->
    by apply r_u32_be32. cbn [mbind option_bind]. rewrite r_u16_be16. cbn [mbind option_bind].
  rewrite r_u16_be16. cbn [mbind option_bind]. by rewrite m_varbinds_push by (done || apply length_varbinds).
Qed.
