(* ===== verification/SnmpSub.v ===== *)
(** * The SNMP sub-agent (hemlock-orch/src/snmpsub.rs)

    The IF-MIB of an interface snapshot, the retrievals against it, the engine
    that caches it and the master's session.  [Instant]s are nanoseconds read by
    the caller; the snapshot a refresh fetches is an input, [None] when syncd
    cannot be reached.  [InterfaceState] has the fields the MIB reads. *)

From Stdlib Require Import NArith ZArith Ascii Lia.
From stdpp Require Import base tactics list strings option gmap sorting.
From S2P Require Import Prelude Text Net Lldp AgentX.

Local Open Scope N_scope.

Definition INTERFACES : Oid := [1; 3; 6; 1; 2; 1; 2].
Definition IF_X : Oid := [1; 3; 6; 1; 2; 1; 31; 1; 1].
Definition SUBAGENT_ID : Oid := [1; 3; 6; 1; 4; 1; 62742].
Definition PRIORITY : N := 1.
Definition CACHE_TTL : N := from_secs 5.

Record InterfaceCounters := mkInterfaceCounters {
  in_octets : N; in_ucast_pkts : N; in_mcast_pkts : N; in_bcast_pkts : N; in_discards : N; in_errors : N;
  out_octets : N; out_ucast_pkts : N; out_mcast_pkts : N; out_bcast_pkts : N; out_discards : N; out_errors : N }.

Definition no_counters : InterfaceCounters := mkInterfaceCounters 0 0 0 0 0 0 0 0 0 0 0 0.

(** The enumerations of the wire are [i32]. *)
Definition OPER_STATUS_UP : Z := 1.
Definition ADMIN_STATE_DOWN : Z := 2.

Record InterfaceState := mkInterfaceState {
  if_name : string; kind : string; index : N; admin_state : Z; oper_status : Z; mac : string; if_description : string;
  mtu : N; speed_mbps : N; seconds_since_change : option N; seconds_since_clear : option N;
  if_counters : option InterfaceCounters }.

(** ** The MIB *)

(** [1_000 + n] on [u32]. *)
Definition trailing (prefix name : string) (base : N) : option N :=
  rest ← strip_prefix_str prefix name; n ← parse_uint 32 rest; Some (wrap 32 (base + n)).

Definition if_index (kind name : string) (index : N) : option N :=
  if decide (kind = "ethernet") then (if 0 <? index then Some index else None)
  else if decide (kind = "management") then trailing "Management" name 1000
  else if decide (kind = "port-channel") then trailing "Port-Channel" name 2000
  else if decide (kind = "vlan") then trailing "Vlan" name 10000
  else None.

Definition octets (text : string) : Value := OctetString (as_bytes text).

(** [u8::from_str_radix(byte, 16)] *)
Definition parse_hex8 (h : string) : option N :=
  let digits := match h with String "+"%char rest => rest | _ => h end in
  if decide (digits = "") then None
  else if string_all is_ascii_hexdigit digits then
    let n := hex_number digits 0 in if n <? 256 then Some n else None
  else None.

Definition phys_address (mac : string) : Value :=
  let bytes := omap parse_hex8 (split ":"%char mac) in
  OctetString (if (length bytes =? 6)%nat then bytes else []).

Definition counter32 (value : N) : Value := Counter32 (N.land value 4294967295).

(** [v as i32] of a [u32]. *)
Definition as_i32 (v : N) : Z := if v <? 2 ^ 31 then Z.of_N v else (Z.of_N v - 2 ^ 32)%Z.

(** [u32::try_from(v).unwrap_or(u32::MAX)] and [saturating_mul] on [u64]. *)
Definition try_u32 (v : N) : N := if v <? 2 ^ 32 then v else 2 ^ 32 - 1.
Definition saturating_mul (a b : N) : N := N.min (a * b) (2 ^ 64 - 1).

Definition hundredths (secs : option N) : N :=
  match secs with Some secs => try_u32 (saturating_mul secs 100) | None => 0 end.

Definition if_table : Oid := [1; 3; 6; 1; 2; 1; 2; 2; 1].
Definition if_x : Oid := [1; 3; 6; 1; 2; 1; 31; 1; 1; 1].

(** The [column] calls of one interface, in their order. *)
Definition columns (index : N) (i : InterfaceState) : list (Oid * N * Value) :=
  let c := default no_counters (if_counters i) in
  [(if_table, 1, Integer (as_i32 index));
   (if_table, 2, octets (if_name i));
   (if_table, 3, Integer (if decide (kind i = "ethernet") then 6 else 53));
   (if_table, 4, Integer (as_i32 (mtu i)));
   (if_table, 5, Gauge32 (try_u32 (saturating_mul (speed_mbps i) 1000000)));
   (if_table, 6, phys_address (mac i));
   (if_table, 7, Integer (if decide (admin_state i = ADMIN_STATE_DOWN) then 2 else 1));
   (if_table, 8, Integer (if decide (oper_status i = OPER_STATUS_UP) then 1 else 2));
   (if_table, 9, TimeTicks (hundredths (seconds_since_change i)));
   (if_table, 10, counter32 (in_octets c));
   (if_table, 11, counter32 (in_ucast_pkts c));
   (if_table, 12, counter32 (wrap 64 (in_mcast_pkts c + in_bcast_pkts c)));
   (if_table, 13, counter32 (in_discards c));
   (if_table, 14, counter32 (in_errors c));
   (if_table, 16, counter32 (out_octets c));
   (if_table, 17, counter32 (out_ucast_pkts c));
   (if_table, 18, counter32 (wrap 64 (out_mcast_pkts c + out_bcast_pkts c)));
   (if_table, 19, counter32 (out_discards c));
   (if_table, 20, counter32 (out_errors c));
   (if_x, 1, octets (if_name i));
   (if_x, 2, counter32 (in_mcast_pkts c));
   (if_x, 3, counter32 (in_bcast_pkts c));
   (if_x, 4, counter32 (out_mcast_pkts c));
   (if_x, 5, counter32 (out_bcast_pkts c));
   (if_x, 6, Counter64 (in_octets c));
   (if_x, 7, Counter64 (in_ucast_pkts c));
   (if_x, 8, Counter64 (in_mcast_pkts c));
   (if_x, 9, Counter64 (in_bcast_pkts c));
   (if_x, 10, Counter64 (out_octets c));
   (if_x, 11, Counter64 (out_ucast_pkts c));
   (if_x, 12, Counter64 (out_mcast_pkts c));
   (if_x, 13, Counter64 (out_bcast_pkts c));
   (if_x, 14, Integer 2);
   (if_x, 15, Gauge32 (try_u32 (speed_mbps i)));
   (if_x, 16, Integer 2);
   (if_x, 17, Integer 1);
   (if_x, 18, octets (if_description i));
   (if_x, 19, TimeTicks (hundredths (seconds_since_clear i)))].

Definition column (index : N) (e : Oid * N * Value) : Oid * Value := (e.1.1 ++ [e.1.2; index], e.2).

Definition Mib := list (Oid * Value).

Definition indexed (interfaces : list InterfaceState) : list (N * InterfaceState) :=
  omap (λ i, (λ n, (n, i)) <$> if_index (kind i) (if_name i) (index i)) interfaces.

(** [i32::try_from(rows.len()).unwrap_or(i32::MAX)] *)
Definition if_number (rows : nat) : Z := if N.of_nat rows <? 2 ^ 31 then Z.of_nat rows else (2 ^ 31 - 1)%Z.

Definition build_mib (interfaces : list InterfaceState) : Mib :=
  let rows := sort_by_key fst (indexed interfaces) in
  sort_by_key fst
    (([1; 3; 6; 1; 2; 1; 2; 1; 0], Integer (if_number (length rows)))
     :: (rows ≫= λ r, column r.1 <$> columns r.1 r.2)).

(** ** Retrieval *)

(** [*oid >= range.start] or [*oid > range.start] *)
Definition from_start (range : SearchRange) (oid : Oid) : Prop :=
  if include range then key_le (start range) oid else key_lt (start range) oid.

#[export] Instance from_start_dec range oid : Decision (from_start range oid).
Proof. unfold from_start. destruct (include range); apply _. Defined.

Definition find_entry (P : Oid → Prop) `{∀ oid, Decision (P oid)} (mib : Mib) : option (Oid * Value) :=
  snd <$> list_find (λ e, P e.1) mib.

Definition next_after (mib : Mib) (range : SearchRange) : option (Oid * Value) :=
  found ← find_entry (from_start range) mib;
  if decide (end_ range ≠ [] ∧ key_le (end_ range) found.1) then None else Some found.

Definition bind_of (e : Oid * Value) : VarBind := mkVarBind e.1 e.2.

Definition bind_or_end (found : option (Oid * Value)) (start : Oid) : VarBind :=
  match found with Some e => bind_of e | None => mkVarBind start EndOfMibView end.

Definition names_a_column (mib : Mib) (oid : Oid) : bool :=
  match last oid with
  | None => false
  | Some _ =>
      let column := removelast oid in
      negb (bool_decide (column = [])) && existsb (λ e, bool_decide (column `prefix_of` e.1)) mib
  end.

Definition answer_get (mib : Mib) (range : SearchRange) : VarBind :=
  match find_entry (λ oid, oid = start range) mib with
  | Some e => bind_of e
  | None => mkVarBind (start range) (if names_a_column mib (start range) then NoSuchInstance else NoSuchObject)
  end.

Definition answer_next (mib : Mib) (range : SearchRange) : VarBind := bind_or_end (next_after mib range) (start range).

(** One cursor of a repetition: the binding, the cursor moved, whether it
    moved. *)
Definition repeat_cursor (mib : Mib) (c : SearchRange) : VarBind * SearchRange * bool :=
  match next_after mib c with
  | Some e => (bind_of e, mkSearchRange e.1 false (end_ c), true)
  | None => (mkVarBind (start c) EndOfMibView, c, false)
  end.

(** [for _ in 0..request.max_repetitions] *)
Fixpoint repeats (mib : Mib) (n : nat) (cursors : list SearchRange) : list VarBind :=
  match n with
  | O => []
  | S n =>
      let round := repeat_cursor mib <$> cursors in
      (round.*1.*1) ++ (if existsb snd round then repeats mib n (round.*1.*2) else [])
  end.

Definition answer (mib : Mib) (r : Request) : list VarBind :=
  match pdu_type (header r) with
  | Get => answer_get mib <$> ranges r
  | GetNext => answer_next mib <$> ranges r
  | GetBulk =>
      let non_repeaters := Nat.min (N.to_nat (non_repeaters r)) (length (ranges r)) in
      (answer_next mib <$> take non_repeaters (ranges r))
      ++ repeats mib (N.to_nat (max_repetitions r)) (drop non_repeaters (ranges r))
  | _ => []
  end.

(** ** The engine *)

Record Config := mkConfig { enabled : bool; socket : string; location : string; contact : string;
  communities : list (string * string); users : list string; listen_interface : string; listen_address : string }.

Definition default_config : Config := mkConfig false "" "" "" [] [] "" "".

Record Counters := mkCounters { packets_in : N; packets_out : N; get_requests : N; getnext_requests : N; errors : N }.

Record Inner := mkInner { config : Config; connected : bool; counters : Counters; mib : Mib; built : option N }.

Definition new : Inner := mkInner default_config false (mkCounters 0 0 0 0 0) [] None.

Definition set_connected (b : bool) (s : Inner) : Inner := mkInner (config s) b (counters s) (mib s) (built s).

Definition set_config (c : Config) (s : Inner) : Inner :=
  mkInner c (if enabled c then connected s else false) (counters s) (mib s) (built s).

Record Snapshot := mkSnapshot { snap_config : Config; snap_connected : bool; snap_packets_in : N;
  snap_packets_out : N; snap_get_requests : N; snap_getnext_requests : N; snap_errors : N }.

Definition snapshot (s : Inner) : Snapshot :=
  mkSnapshot (config s) (connected s) (packets_in (counters s)) (packets_out (counters s))
    (get_requests (counters s)) (getnext_requests (counters s)) (errors (counters s)).

Definition mib_fresh (now : N) (s : Inner) : bool :=
  match built s with Some b => since now b <? CACHE_TTL | None => false end.

Definition store_mib (now : N) (m : Mib) (s : Inner) : Inner := mkInner (config s) (connected s) (counters s) m (Some now).

Definition inc (n : N) : N := wrap 64 (n + 1).

Definition count_request (ty : PduType) (c : Counters) : Counters :=
  let gets := match ty with Get => inc (get_requests c) | _ => get_requests c end in
  let nexts := match ty with GetNext | GetBulk => inc (getnext_requests c) | _ => getnext_requests c end in
  mkCounters (inc (packets_in c)) (inc (packets_out c)) gets nexts (errors c).

Definition serve (r : Request) (s : Inner) : list N * Inner :=
  (response_pdu (header r) ERROR_NONE 0 (answer (mib s) r),
   mkInner (config s) (connected s) (count_request (pdu_type (header r)) (counters s)) (mib s) (built s)).

Definition count_error (s : Inner) : Inner :=
  let c := counters s in
  mkInner (config s) (connected s)
    (mkCounters (packets_in c) (packets_out c) (get_requests c) (getnext_requests c) (inc (errors c))) (mib s) (built s).

(** ** The session *)

(** What one turn of the loop reads from outside: the clock, syncd's answer,
    and the clock when the answer is stored. *)
Record Tick := mkTick { now : N; fetched : option (list InterfaceState); store_now : N }.

Definition refresh_mib (t : Tick) (s : Inner) : Inner :=
  if mib_fresh (now t) s then s
  else match fetched t with Some interfaces => store_mib (store_now t) (build_mib interfaces) s | None => s end.

(** [1 << 20] *)
Definition MAX_PAYLOAD : N := 1048576.

Inductive ReadError := Eof | BadHeader | TooLarge (len : N).

Definition read_pdu (stream : list N) : result ReadError (Header * list N * list N) :=
  if (length stream <? HEADER_LEN)%nat then Err Eof
  else
    match header_parse (take HEADER_LEN stream) with
    | None => Err BadHeader
    | Some h =>
        let rest := drop HEADER_LEN stream in
        if MAX_PAYLOAD <? payload_len h then Err (TooLarge (payload_len h))
        else if (length rest <? N.to_nat (payload_len h))%nat then Err Eof
        else Ok (h, take (N.to_nat (payload_len h)) rest, drop (N.to_nat (payload_len h)) rest)
    end.

(** One turn of the loop: the reply written, [None] on [continue]. *)
Definition session_turn (t : Tick) (h : Header) (payload : list N) (s : Inner) : option (list N) * Inner :=
  match pdu_type h with
  | Get | GetNext | GetBulk =>
      let s := refresh_mib t s in
      match parse_request h payload with
      | Some r => let '(bytes, s) := serve r s in (Some bytes, s)
      | None => (Some (response_pdu h ERROR_NONE 0 []), count_error s)
      end
  | TestSet => (Some (response_pdu h ERROR_NOT_WRITABLE 1 []), count_error s)
  | Response => (None, s)
  | _ => (Some (response_pdu h ERROR_NONE 0 []), s)
  end.

(** The loop: every turn takes a header off the stream, so its length is
    enough fuel. *)
Fixpoint session_loop (fuel : nat) (ticks : nat → Tick) (stream : list N) (s : Inner) : list (list N) * Inner :=
  match fuel with
  | O => ([], s)
  | S f =>
      match read_pdu stream with
      | Err _ => ([], s)
      | Ok (h, payload, rest) =>
          let '(reply, s) := session_turn (ticks O) h payload s in
          let '(replies, s) := session_loop f (λ n, ticks (S n)) rest s in
          (option_list reply ++ replies, s)
      end
  end.

Inductive SessionError := Read (e : ReadError) | UnreadableOpen | OpenRefused (error : N) | RegistrationRefused (error : N).

(** [for subtree in [INTERFACES, IF_X]]: what is written, and the stream left
    or the error the session ends with. *)
Fixpoint register_all (session packet : N) (subtrees : list Oid) (stream : list N)
    : list (list N) * result SessionError (list N) :=
  match subtrees with
  | [] => ([], Ok stream)
  | t :: ts =>
      let pdu := register_pdu session packet t PRIORITY in
      match read_pdu stream with
      | Err e => ([pdu], Err (Read e))
      | Ok (h, payload, rest) =>
          match parse_response h payload with
          | Some (_, error) =>
              if negb (error =? ERROR_NONE) && negb (is_duplicate_registration error)
              then ([pdu], Err (RegistrationRefused error))
              else let '(out, r) := register_all session (packet + 1) ts rest in (pdu :: out, r)
          | None => let '(out, r) := register_all session (packet + 1) ts rest in (pdu :: out, r)
          end
      end
  end.

Definition handshake (stream : list N) : list (list N) * result SessionError (list N) :=
  let open := open_pdu 1 SUBAGENT_ID (as_bytes "hemlock-orch") in
  match read_pdu stream with
  | Err e => ([open], Err (Read e))
  | Ok (h, payload, rest) =>
      match parse_response h payload with
      | None => ([open], Err UnreadableOpen)
      | Some (session, error) =>
          if negb (error =? ERROR_NONE) then ([open], Err (OpenRefused error))
          else let '(out, r) := register_all session 2 [INTERFACES; IF_X] rest in (open :: out, r)
      end
  end.

(** A session over the whole input stream, and [run]'s [set_connected(false)]
    when it ends. *)
Definition serve_session (ticks : nat → Tick) (stream : list N) (s : Inner) : list (list N) * Inner :=
  match handshake stream with
  | (out, Err _) => (out, set_connected false s)
  | (out, Ok rest) =>
      let '(replies, s) := session_loop (length rest) ticks rest (set_connected true s) in
      (out ++ replies, set_connected false s)
  end.

(** ** The MIB is in order, one entry an identifier *)

Lemma app_tail_inj (t t' : Oid) c c' i i' : t ++ [c; i] = t' ++ [c'; i'] → t = t' ∧ c = c' ∧ i = i'.
Proof.
  intros H. change ([c; i]) with ([c] ++ [i]) in H. change ([c'; i']) with ([c'] ++ [i']) in H.
  rewrite !app_assoc in H. apply app_inj_tail in H as [H ->]. apply app_inj_tail in H as [-> ->]. done.
Qed.

Lemma columns_keys n i : NoDup ((columns n i).*1).
Proof. unfold columns. cbn [fmap list_fmap fst]. apply (bool_decide_unpack _). vm_compute. done. Qed.

Lemma row_nodup n m i : NoDup ((column n <$> columns m i).*1).
Proof.
  rewrite <-list_fmap_compose. pose proof (columns_keys m i) as H. revert H.
  generalize (columns m i) as l. induction l as [|e l IH]; [constructor|]. rewrite !fmap_cons, !NoDup_cons.
  intros [Hn Hl]. split; [|by apply IH]. intros [e' [He Hin]]%list_elem_of_fmap.
  apply app_tail_inj in He as (E1 & E2 & _). apply Hn. apply list_elem_of_fmap. exists e'. split; [|done].
  destruct e as [[??]?], e' as [[??]?]. cbn in *. congruence.
Qed.

Lemma row_index n m i oid v : (oid, v) ∈ column n <$> columns m i → ∃ t c, oid = t ++ [c; n] ∧ (t = if_table ∨ t = if_x).
Proof.
  intros [[[t c] w] [[= -> ->] Hin]]%list_elem_of_fmap. exists t, c. split; [done|].
  unfold columns in Hin. repeat (apply elem_of_cons in Hin as [[= -> -> ->]|Hin]; [by auto|]). by apply elem_of_nil in Hin.
Qed.

Definition rows_of (rows : list (N * InterfaceState)) : Mib := rows ≫= λ r, column r.1 <$> columns r.1 r.2.

Lemma rows_of_index rows oid v :
  (oid, v) ∈ rows_of rows → ∃ n t c, n ∈ rows.*1 ∧ oid = t ++ [c; n] ∧ (t = if_table ∨ t = if_x).
Proof.
  unfold rows_of. intros [r [Hin Hr]]%list_elem_of_bind. apply row_index in Hin as (t & c & -> & Ht).
  exists r.1, t, c. split_and!; [by apply list_elem_of_fmap; exists r|done|done].
Qed.

Lemma rows_of_nodup rows : NoDup rows.*1 → NoDup (rows_of rows).*1.
Proof.
  induction rows as [|r rows IH]; [constructor|]. rewrite fmap_cons, NoDup_cons. intros [Hn Hr].
  unfold rows_of. rewrite bind_cons, fmap_app. apply NoDup_app. split_and!; [apply row_nodup| |by apply IH].
  intros oid [[o v] [-> Hin]]%list_elem_of_fmap [[o' v'] [E Hin']]%list_elem_of_fmap. cbn in E. subst o'.
  apply row_index in Hin as (t & c & -> & _). apply (rows_of_index rows) in Hin' as (n & t' & c' & Hin & E & _).
  apply app_tail_inj in E as (_ & _ & <-). done.
Qed.

Lemma build_mib_perm ifs :
  build_mib ifs ≡ₚ ([1; 3; 6; 1; 2; 1; 2; 1; 0], Integer (if_number (length (indexed ifs))))
                   :: rows_of (sort_by_key fst (indexed ifs)).
Proof. unfold build_mib. rewrite sort_by_key_perm. by rewrite (Permutation_length (sort_by_key_perm fst (indexed ifs))). Qed.

Lemma build_mib_nodup ifs : NoDup (indexed ifs).*1 → NoDup (build_mib ifs).*1.
Proof.
  intros Hd. rewrite build_mib_perm, fmap_cons, NoDup_cons. split.
  - intros [[o v] [E Hin]]%list_elem_of_fmap. cbn in E. subst o.
    apply rows_of_index in Hin as (n & t & c & _ & E & [-> | ->]); by apply (f_equal length) in E.
  - apply rows_of_nodup. by rewrite sort_by_key_perm.
Qed.

Lemma build_mib_named ifs oid v : (oid, v) ∈ build_mib ifs → oid_ok oid ∧ oid ≠ [].
Proof.
  rewrite build_mib_perm. intros [[= -> _]|Hin]%elem_of_cons; [split; [unfold oid_ok; cbn; lia|done]|].
  apply rows_of_index in Hin as (n & t & c & _ & -> & [-> | ->]); (split; [unfold oid_ok; cbn; lia|done]).
Qed.

Definition strict (m : Mib) : Prop := StronglySorted (λ a b, key_lt a.1 b.1) m.

Lemma strict_of_sorted (m : Mib) : StronglySorted (λ a b, key_le a.1 b.1) m → NoDup m.*1 → strict m.
Proof.
  induction 1 as [|e m Hm IH He]; [constructor|]. rewrite fmap_cons, NoDup_cons. intros [Hn Hd].
  constructor; [by apply IH|]. apply Forall_forall. intros e' Hin Hle. rewrite Forall_forall in He. apply Hn.
  apply list_elem_of_fmap. exists e'. split; [|done]. apply (anti_symm key_le); [by apply He|done].
Qed.

Lemma build_mib_strict ifs : NoDup (indexed ifs).*1 → strict (build_mib ifs).
Proof. intros Hd. apply strict_of_sorted; [apply sort_by_key_sorted|by apply build_mib_nodup]. Qed.

Lemma strict_mid (l1 l2 : Mib) e :
  strict (l1 ++ e :: l2) → Forall (λ x, key_lt x.1 e.1) l1 ∧ Forall (λ x, key_lt e.1 x.1) l2.
Proof.
  induction l1 as [|x l1 IH]; cbn [app]; intros [Hs Hx]%StronglySorted_inv; [by split; [constructor|]|].
  destruct (IH Hs) as [H1 H2]. split; [|done]. constructor; [|done].
  apply Forall_app in Hx as [_ Hx]. by apply Forall_cons in Hx as [Hx _].
Qed.

(** ** Every entry fits the wire *)

(** The widths of the fields the MIB carries; the texts fit an octet string. *)
Definition state_ok (i : InterfaceState) : Prop :=
  fits 32 (index i) ∧ fits 32 (mtu i) ∧ (N.of_nat (String.length (if_name i)) < 2 ^ 31)
  ∧ (N.of_nat (String.length (if_description i)) < 2 ^ 31).

(** An entry of a MIB: not one of the exceptions, at its width. *)
Definition entry_value (v : Value) : Prop :=
  match v with
  | Integer v => (- 2 ^ 31 ≤ v < 2 ^ 31)%Z
  | OctetString b => N.of_nat (length b) < 2 ^ 31
  | EndOfMibView | NoSuchInstance | NoSuchObject => False
  | _ => True
  end.

Lemma as_i32_bound v : fits 32 v → (- 2 ^ 31 ≤ as_i32 v < 2 ^ 31)%Z.
Proof. unfold as_i32, fits. destruct (N.ltb_spec v (2 ^ 31)); lia. Qed.

Lemma if_index_fits kind name n m : fits 32 n → if_index kind name n = Some m → fits 32 m.
Proof.
  intros Hn. unfold if_index, trailing. repeat case_decide; [by case_match; intros [= <-]|..|done];
    intros (rest & _ & (k & _ & [= <-])%bind_Some)%bind_Some; apply wrap_fits.
Qed.

Lemma columns_value n i t c v : fits 32 n → state_ok i → (t, c, v) ∈ columns n i → entry_value v.
Proof.
  intros Hn (Hi & Hm & Hs & Hd) Hin. unfold columns in Hin.
  repeat (apply elem_of_cons in Hin as [[= -> -> ->]|Hin];
    [cbn [entry_value octets counter32]; first
      [ exact I | by apply as_i32_bound | by rewrite length_as_bytes | (repeat case_decide); lia
      | unfold phys_address; destruct (Nat.eqb_spec (length (omap parse_hex8 (split ":"%char (mac i)))) 6) as [E|]; cbn [entry_value]; [rewrite E|cbn]; lia ]|]).
  by apply elem_of_nil in Hin.
Qed.

Lemma if_number_bound n : (- 2 ^ 31 ≤ if_number n < 2 ^ 31)%Z.
Proof. unfold if_number. destruct (N.ltb_spec (N.of_nat n) (2 ^ 31)); lia. Qed.

Lemma build_mib_value ifs oid v : Forall state_ok ifs → (oid, v) ∈ build_mib ifs → entry_value v.
Proof.
  intros Hok. rewrite build_mib_perm. intros [[= _ ->]|Hin]%elem_of_cons; [apply if_number_bound|].
  unfold rows_of in Hin. apply list_elem_of_bind in Hin as ([n i] & Hin & Hr). rewrite sort_by_key_perm in Hr.
  apply list_elem_of_fmap in Hin as ([[t c] w] & [= -> ->] & Hin).
  unfold indexed in Hr. apply list_elem_of_omap in Hr as (i' & Hi' & E).
  apply fmap_Some in E as (m & E & [= -> ->]). rewrite Forall_forall in Hok. specialize (Hok i' Hi').
  eapply columns_value; [|exact Hok|exact Hin]. eapply if_index_fits; [|exact E]. apply Hok.
Qed.

(** ** GetNext is the successor *)

Lemma find_entry_split (P : Oid → Prop) `{∀ oid, Decision (P oid)} (l1 l2 : Mib) :
  Forall (λ e, ¬ P e.1) l1 → Forall (λ e, P e.1) l2 → find_entry P (l1 ++ l2) = head l2.
Proof.
  intros H1 H2. unfold find_entry. induction H1 as [|e l1 He H1 IH]; cbn [app list_find].
  - destruct H2 as [|e l2 He H2]; [done|]. cbn [list_find]. by rewrite decide_True.
  - rewrite decide_False by done. rewrite <-IH. by destruct (list_find _ _) as [[??]|].
Qed.

Definition open_from (oid : Oid) : SearchRange := mkSearchRange oid false [].

Lemma next_after_split (l1 l2 : Mib) oid :
  Forall (λ e, key_le e.1 oid) l1 → Forall (λ e, key_lt oid e.1) l2 → next_after (l1 ++ l2) (open_from oid) = head l2.
Proof.
  intros H1 H2. unfold next_after. rewrite find_entry_split; [|by eapply Forall_impl; [exact H1|]; intros e He Hlt|done].
  destruct l2 as [|e l2]; [done|]. cbn. by rewrite decide_False by naive_solver.
Qed.

Lemma answer_next_split (l1 l2 : Mib) oid :
  Forall (λ e, key_le e.1 oid) l1 → Forall (λ e, key_lt oid e.1) l2 →
  answer_next (l1 ++ l2) (open_from oid)
  = match l2 with e :: _ => bind_of e | [] => mkVarBind oid EndOfMibView end.
Proof. intros H1 H2. unfold answer_next. rewrite next_after_split by done. by destruct l2. Qed.

(** ** A walk by the master *)

Section walk.
Context (session transaction packet : N).

(** One GetNext over the wire: the request's bytes, the turn of the session
    that answers it, and the binding the master reads. *)
Definition ask (t : Tick) (oid : Oid) (s : Inner) : option VarBind * Inner :=
  match read_pdu (request_pdu GetNext session transaction packet 0 0 [open_from oid]) with
  | Ok (h, payload, _) =>
      let '(reply, s) := session_turn t h payload s in
      (bytes ← reply; r ← m_response bytes; head (m_binds r), s)
  | Err _ => (None, s)
  end.

(** [snmpwalk]: from each answer's name on, until the end of the view. *)
Fixpoint walk (fuel : nat) (ticks : nat → Tick) (oid : Oid) (s : Inner) : option Mib :=
  match fuel with
  | O => None
  | S f =>
      match ask (ticks O) oid s with
      | (Some (mkVarBind _ EndOfMibView), _) => Some []
      | (Some b, s) => rest ← walk f (λ n, ticks (S n)) (name b) s; Some ((name b, value b) :: rest)
      | (None, _) => None
      end
  end.

Lemma length_push_oid oid inc : oid_ok oid → length (push_oid oid inc) = (4 + 4 * length oid)%nat.
Proof.
  unfold oid_ok. intros Ho. unfold push_oid. rewrite length_app. cbn [length].
  replace (N.to_nat (N.min (N.of_nat (length oid)) 255)) with (length oid) by lia. rewrite firstn_all. f_equal.
  clear Ho. induction oid as [|x oid IH]; [done|]. rewrite bind_cons, length_app, IH. cbn [length be32]. lia.
Qed.

Lemma read_pdu_frame ty payload rest :
  from_code (code ty) = ty → N.of_nat (length payload) ≤ MAX_PAYLOAD →
  read_pdu (frame ty session transaction packet payload ++ rest)
  = Ok (mkHeader ty FLAG_NETWORK_BYTE_ORDER session transaction packet (N.of_nat (length payload)), payload, rest).
Proof.
  intros Ht Hl. unfold read_pdu.
  assert (length (frame ty session transaction packet payload ++ rest) = (20 + length (payload ++ rest))%nat) as -> by done.
  rewrite (proj2 (Nat.ltb_ge _ _)) by (unfold HEADER_LEN; lia).
  assert (header_parse (take HEADER_LEN (frame ty session transaction packet payload ++ rest))
    = header_parse (frame ty session transaction packet payload ++ [])) as -> by (rewrite app_nil_r; done).
  rewrite header_frame; [|done|unfold fits, MAX_PAYLOAD in *; lia]. cbn [payload_len].
  assert (drop HEADER_LEN (frame ty session transaction packet payload ++ rest) = payload ++ rest) as -> by done.
  rewrite (proj2 (N.ltb_ge _ _)) by done. rewrite Nat2N.id, length_app, (proj2 (Nat.ltb_ge _ _)) by lia.
  by rewrite take_app_length, drop_app_length.
Qed.

Definition get_next_header (oid : Oid) : Header :=
  mkHeader GetNext FLAG_NETWORK_BYTE_ORDER session transaction packet
    (N.of_nat (length (request_payload GetNext 0 0 [open_from oid]))).

Lemma turn_get_next t oid s :
  oid_ok oid →
  let s' := refresh_mib t s in
  session_turn t (get_next_header oid) (request_payload GetNext 0 0 [open_from oid]) s
  = (Some (response_pdu (get_next_header oid) ERROR_NONE 0 [answer_next (mib s') (open_from oid)]),
     snd (serve (mkRequest (get_next_header oid) [open_from oid] 0 0) s')).
Proof.
  intros Ho. unfold session_turn. cbn [pdu_type get_next_header].
  assert (parse_request (get_next_header oid) (request_payload GetNext 0 0 [open_from oid])
    = Some (mkRequest (get_next_header oid) [open_from oid] 0 0)) as ->; [|done].
  apply (parse_request_push (get_next_header oid) [open_from oid] 0 0).
  apply Forall_singleton. split; [done|unfold oid_ok; cbn; lia].
Qed.

Lemma response_one_length oid v :
  oid_ok oid → entry_value v ∨ v = EndOfMibView →
  fits 32 (N.of_nat (length (response_payload ERROR_NONE 0 [mkVarBind oid v]))).
Proof.
  intros Ho Hv. unfold response_payload, push_varbind. rewrite bind_cons, app_nil_r.
  rewrite !length_app, length_push_oid by done. unfold oid_ok in Ho.
  assert (N.of_nat (length (push_value v)) < 2 ^ 31 + 8) as Hl.
  { destruct Hv as [Hv| ->]; [|done]. destruct v; cbn [push_value entry_value] in *; try done.
    unfold push_octets. rewrite !length_app, repeat_length. cbn [length be32].
    pose proof (Nat.mod_upper_bound (4 - length bytes mod 4) 4). lia. }
  cbn [length be32 be16 name value]. unfold fits. lia.
Qed.

Lemma ask_result t oid s h payload bytes r b s' :
  read_pdu (request_pdu GetNext session transaction packet 0 0 [open_from oid] ++ []) = Ok (h, payload, []) →
  session_turn t h payload s = (Some bytes, s') → m_response bytes = Some r → head (m_binds r) = Some b →
  ask t oid s = (Some b, s').
Proof. intros H1 H2 H3 H4. unfold ask. rewrite app_nil_r in H1. rewrite H1, H2. cbn [mbind option_bind]. rewrite H3. cbn [mbind option_bind]. by rewrite H4. Qed.

Lemma request_short oid : oid_ok oid → N.of_nat (length (request_payload GetNext 0 0 [open_from oid])) ≤ MAX_PAYLOAD.
Proof.
  intros Ho. unfold request_payload. rewrite decide_False by done. cbn [app]. rewrite bind_cons, app_nil_r.
  unfold push_range. rewrite length_app, !length_push_oid by (done || (unfold oid_ok; cbn; lia)).
  cbn [start end_ open_from length]. unfold oid_ok, MAX_PAYLOAD in *. lia.
Qed.

Lemma entry_value_ok v : entry_value v ∨ v = EndOfMibView → value_ok v.
Proof. intros [Hv| ->]; [|done]. destruct v; cbn in *; try done. unfold fits. lia. Qed.

Lemma ask_answers t oid s b :
  oid_ok oid → answer_next (mib (refresh_mib t s)) (open_from oid) = b →
  oid_ok (name b) → entry_value (value b) ∨ value b = EndOfMibView →
  ∃ s', ask t oid s = (Some b, s') ∧ mib s' = mib (refresh_mib t s).
Proof.
  intros Ho Eb Hb Hv. eexists. split.
  - eapply ask_result; [exact (read_pdu_frame GetNext _ [] eq_refl (request_short oid Ho))|exact (turn_get_next t oid s Ho)| |].
    + rewrite Eb. apply m_response_push; [|destruct b as [bn bv]; by apply response_one_length].
      apply Forall_singleton. split; [done|by apply entry_value_ok].
    + done.
  - done.
Qed.

(** The cache holds the snapshot, or nothing. *)
Definition cached (ifs : list InterfaceState) (s : Inner) : Prop := built s = None ∨ mib s = build_mib ifs.

Lemma refresh_cached ifs t s : fetched t = Some ifs → cached ifs s → mib (refresh_mib t s) = build_mib ifs.
Proof.
  intros Hf [Hn|Hm]; unfold refresh_mib, mib_fresh; [by rewrite Hn, Hf|].
  destruct (built s); [case_match; [done|]|]; by rewrite Hf.
Qed.

Lemma walk_suffix ifs (l1 l2 : Mib) fuel ticks oid s :
  build_mib ifs = l1 ++ l2 → strict (l1 ++ l2) → Forall state_ok ifs → (∀ n, fetched (ticks n) = Some ifs) → cached ifs s →
  oid_ok oid → Forall (λ e, key_le e.1 oid) l1 → Forall (λ e, key_lt oid e.1) l2 → (length l2 < fuel)%nat →
  walk fuel ticks oid s = Some l2.
Proof.
  revert fuel ticks l1 oid s. induction l2 as [|[o v] l2 IH]; intros fuel ticks l1 oid s Hm Hs Hok Hf Hc Ho H1 H2 Hl;
    (destruct fuel as [|fuel]; [cbn in Hl; lia|]); cbn [walk];
    pose proof (ask_answers (ticks O) oid s) as Ha;
    rewrite (refresh_cached ifs), Hm, answer_next_split in Ha by done; specialize (Ha _ Ho eq_refl);
    cbn [bind_of fst snd name value] in Ha.
  - destruct Ha as (s' & -> & _); [done|by right|done].
  - assert ((o, v) ∈ build_mib ifs) as Hin by (rewrite Hm; set_solver).
    destruct (build_mib_named _ _ _ Hin) as [Hoo _]. pose proof (build_mib_value _ _ _ Hok Hin) as Hv.
    destruct (strict_mid _ _ _ Hs) as [Hb Ha']. destruct Ha as (s' & -> & Hm'); [done|by left|]. cbn [name value].
    rewrite (IH fuel _ (l1 ++ [(o, v)])); first by destruct v.
    + by rewrite <-app_assoc.
    + by rewrite <-app_assoc.
    + done.
    + done.
    + right. by rewrite Hm', Hm.
    + done.
    + apply Forall_app. split; [|by repeat constructor]. eapply Forall_impl; [exact Hb|]. intros e. apply key_lt_le.
    + done.
    + cbn in Hl. lia.
Qed.
End walk.

(** ** The walk, end to end *)

(** An interface of the test suite's shape. *)
Definition sample_interface (name kind : string) (index : N) : InterfaceState :=
  mkInterfaceState name kind index 1 1 "2c:dd:e9:4a:1b:01" "uplink to core-1" 9100 1000 (Some 3600) None
    (Some (mkInterfaceCounters 4816030792344 4294811034 12004 881 3 1 2118030792344 2294811034 9004 441 2 0)).

Definition sample_interfaces : list InterfaceState :=
  [sample_interface "Ethernet1" "ethernet" 1; sample_interface "Vlan99" "vlan" 0;
   sample_interface "Port-Channel1" "port-channel" 0; sample_interface "Loopback0" "loopback" 0].



(** ** GetBulk is GetNext, repeated *)

(** Where a manager asks next after an answer: from its name, unless it was
    told the view ends. *)
Definition follow (c : SearchRange) (b : VarBind) : SearchRange :=
  match value b with EndOfMibView => c | _ => mkSearchRange (name b) false (end_ c) end.

Fixpoint cursor_at (m : Mib) (c : SearchRange) (k : nat) : SearchRange :=
  match k with O => c | S k => cursor_at m (follow c (answer_next m c)) k end.

(** The [k]-th GetNext along a range. *)
Definition nth_next (m : Mib) (k : nat) (c : SearchRange) : VarBind := answer_next m (cursor_at m c k).

Definition proper (m : Mib) : Prop := Forall (λ e, e.2 ≠ EndOfMibView) m.

Lemma build_mib_proper ifs : proper (build_mib ifs).
Proof.
  apply Forall_forall. intros [o v]. rewrite build_mib_perm. intros [[= -> ->]|Hin]%elem_of_cons; [done|].
  apply list_elem_of_bind in Hin as ([n i] & Hin & _). apply list_elem_of_fmap in Hin as ([[t c] w] & [= -> ->] & Hin).
  unfold columns in Hin. repeat (apply elem_of_cons in Hin as [[= -> -> ->]|Hin]; [done|]). by apply elem_of_nil in Hin.
Qed.

Lemma next_after_elem m c e : next_after m c = Some e → e ∈ m.
Proof.
  unfold next_after, find_entry. intros (e' & ([i x] & Hf & ->)%fmap_Some & E)%bind_Some.
  apply list_find_Some in Hf as (Hi & _ & _). case_decide; simplify_eq. by eapply list_elem_of_lookup_2.
Qed.

Lemma repeat_cursor_follow m c :
  proper m → repeat_cursor m c = (answer_next m c, follow c (answer_next m c),
    negb (match value (answer_next m c) with EndOfMibView => true | _ => false end)).
Proof.
  intros Hp. unfold repeat_cursor, answer_next, bind_or_end, follow.
  destruct (next_after m c) as [[o v]|] eqn:E; [|done]. apply next_after_elem in E.
  pose proof (proj1 (Forall_forall _ _) Hp _ E) as Hv. cbn in *. by destruct v.
Qed.

Definition is_end (b : VarBind) : Prop := value b = EndOfMibView.

Lemma repeats_rounds m n cs :
  proper m → ∃ rounds, (rounds ≤ n)%nat
    ∧ repeats m n cs = (seq 0 rounds ≫= λ k, nth_next m k <$> cs)
    ∧ (rounds = n ∨ ∃ k, rounds = S k ∧ Forall (λ c, is_end (nth_next m k c)) cs).
Proof.
  intros Hp. revert cs. induction n as [|n IH]; intros cs; [exists O; split_and!; [done|done|by left]|].
  set (adv := λ c, follow c (answer_next m c)).
  assert ((repeat_cursor m <$> cs).*1.*1 = answer_next m <$> cs) as E1.
  { rewrite <-!list_fmap_compose. apply list_fmap_ext. intros ???. cbn. by rewrite repeat_cursor_follow. }
  assert ((repeat_cursor m <$> cs).*1.*2 = adv <$> cs) as E2.
  { rewrite <-!list_fmap_compose. apply list_fmap_ext. intros ???. cbn. by rewrite repeat_cursor_follow. }
  cbn [repeats]. rewrite E1, E2. destruct (existsb snd (repeat_cursor m <$> cs)) eqn:Ex.
  - destruct (IH (adv <$> cs)) as (r & Hr & -> & Hend). exists (S r). split_and!; [lia| |].
    + cbn [seq]. rewrite bind_cons. f_equal. rewrite <-fmap_S_seq, list_fmap_bind.
      apply list_bind_ext; [|done]. intros k. rewrite <-list_fmap_compose. done.
    + destruct Hend as [-> |(k & -> & Hk)]; [by left|]. right. exists (S k). split; [done|].
      by rewrite Forall_fmap in Hk.
  - exists 1%nat. split_and!; [lia|done|]. right. exists O. split; [done|].
    apply Forall_forall. intros c Hc. unfold is_end, nth_next. cbn [cursor_at].
    destruct (decide (value (answer_next m c) = EndOfMibView)) as [|Hv]; [done|].
    exfalso. apply not_true_iff_false in Ex. apply Ex. apply existsb_exists.
    exists (repeat_cursor m c). split; [apply list_elem_of_In, list_elem_of_fmap; by exists c|].
    rewrite repeat_cursor_follow by done. cbn. by destruct (value (answer_next m c)).
Qed.


(** ** Get *)

(** Every identifier of the MIB reads as its own value; any other is one of
    the exceptions. *)
Theorem snmp_get_exact ifs oid inc end_ :
  NoDup (indexed ifs).*1 →
  let b := answer_get (build_mib ifs) (mkSearchRange oid inc end_) in
  name b = oid
  ∧ (∀ v, (oid, v) ∈ build_mib ifs → value b = v)
  ∧ (oid ∉ (build_mib ifs).*1 → value b = NoSuchInstance ∨ value b = NoSuchObject).
Proof.
  intros Hd. apply build_mib_nodup in Hd. cbv zeta. unfold answer_get, find_entry. cbn [start].
  destruct (list_find _ (build_mib ifs)) as [[i [o v]]|] eqn:E; cbn [fmap option_fmap option_map snd].
  - apply list_find_Some in E as (Hi & Ho & _). cbn in Ho. subst o. apply list_elem_of_lookup_2 in Hi.
    split_and!; [done| |].
    + intros w Hw. apply elem_of_list_to_map in Hw, Hi; [|done|done]. cbn. congruence.
    + intros Hn. destruct Hn. apply list_elem_of_fmap. by exists (oid, v).
  - apply list_find_None in E. split_and!; [done| |].
    + intros v Hv. by destruct (proj1 (Forall_forall _ _) E _ Hv).
    + intros _. cbn. case_match; auto.
Qed.

(** [names_a_column] asks for any entry under the identifier less its last
    number, so an identifier beside the table, under no column at all, is
    answered [noSuchInstance]. *)
Theorem snmp_column_test_is_loose ifs :
  answer_get (build_mib ifs) (open_from (INTERFACES ++ [99])) = mkVarBind (INTERFACES ++ [99]) NoSuchInstance.
Proof.
  unfold answer_get, find_entry. cbn [start open_from].
  destruct (list_find _ _) as [[i [o v]]|] eqn:E; cbn [fmap option_fmap option_map snd].
  - apply list_find_Some in E as (Hi%list_elem_of_lookup_2 & Ho & _). cbn in Ho. subst o. revert Hi.
    rewrite build_mib_perm. intros [[=]|(n & t & c & _ & Ho & [-> | ->])%rows_of_index]%elem_of_cons;
      by apply (f_equal length) in Ho.
  - unfold names_a_column. cbn [last app INTERFACES removelast].
    replace (existsb _ _) with true; [done|]. symmetry. apply existsb_exists. eexists.
    split; [apply list_elem_of_In; rewrite build_mib_perm; by left|]. apply bool_decide_eq_true. by exists [1; 0].
Qed.

(** ** A stream of requests stays in step *)

Record Pdu := mkPdu { p_type : PduType; p_session : N; p_transaction : N; p_packet : N; p_payload : list N }.

Definition pdu_bytes (p : Pdu) : list N := frame (p_type p) (p_session p) (p_transaction p) (p_packet p) (p_payload p).

Definition pdu_header (p : Pdu) : Header :=
  mkHeader (p_type p) FLAG_NETWORK_BYTE_ORDER (p_session p) (p_transaction p) (p_packet p) (N.of_nat (length (p_payload p))).

Definition pdu_ok (p : Pdu) : Prop :=
  from_code (code (p_type p)) = p_type p ∧ N.of_nat (length (p_payload p)) ≤ MAX_PAYLOAD.

(** The turns one by one. *)
Fixpoint turns (ticks : nat → Tick) (ps : list Pdu) (s : Inner) : list (list N) * Inner :=
  match ps with
  | [] => ([], s)
  | p :: ps =>
      let '(reply, s) := session_turn (ticks O) (pdu_header p) (p_payload p) s in
      let '(replies, s) := turns (λ n, ticks (S n)) ps s in
      (option_list reply ++ replies, s)
  end.

Lemma session_loop_turns fuel ticks ps s :
  Forall pdu_ok ps → (length ps ≤ fuel)%nat → session_loop fuel ticks (ps ≫= pdu_bytes) s = turns ticks ps s.
Proof.
  intros Hok. revert fuel ticks s. induction Hok as [|p ps [Ht Hl] Hok IH]; intros fuel ticks s Hf.
  - by destruct fuel.
  - destruct fuel as [|fuel]; [cbn in Hf; lia|]. rewrite bind_cons. cbn [session_loop]. unfold pdu_bytes at 1.
    rewrite read_pdu_frame by done. cbn [turns]. fold (pdu_header p).
    destruct (session_turn _ _ _ s) as [reply s']. rewrite IH by (cbn in Hf; lia). done.
Qed.

Lemma length_pdus ps : (length ps ≤ length (ps ≫= pdu_bytes))%nat.
Proof.
  induction ps as [|p ps IH]; [done|]. rewrite bind_cons, length_app. unfold pdu_bytes at 1, frame. rewrite length_app.
  cbn [length]. lia.
Qed.

(** A master that accepts the open and both registrations and then sends any
    sequence of PDUs gets the open, the two registrations and then the reply to
    each PDU, in order: a PDU of an unknown type does not put the stream out of
    step.  The session counts as connected only while it lasts. *)
Theorem snmp_session_in_step (h : Header) ticks ps s :
  Forall pdu_ok ps →
  let ok := response_pdu h ERROR_NONE 0 [] in
  let '(replies, s') := turns ticks ps (set_connected true s) in
  serve_session ticks (ok ++ ok ++ ok ++ (ps ≫= pdu_bytes)) s
  = ([open_pdu 1 SUBAGENT_ID (as_bytes "hemlock-orch"); register_pdu (session_id h) 2 INTERFACES PRIORITY;
      register_pdu (session_id h) 3 IF_X PRIORITY] ++ replies, set_connected false s').
Proof.
  intros Hok. cbv zeta. destruct (turns ticks ps (set_connected true s)) as [replies s'] eqn:Et.
  assert (∀ rest, ∃ h', read_pdu (response_pdu h ERROR_NONE 0 [] ++ rest) = Ok (h', response_payload ERROR_NONE 0 [], rest)
    ∧ parse_response h' (response_payload ERROR_NONE 0 []) = Some (session_id h, ERROR_NONE)) as Hr.
  { intros rest. eexists. split; [by apply read_pdu_frame|done]. }
  unfold serve_session, handshake. edestruct Hr as (h1 & -> & ->). cbn [register_all].
  edestruct Hr as (h2 & -> & ->). edestruct Hr as (h3 & -> & ->).
  change (negb (ERROR_NONE =? ERROR_NONE)) with false. cbn [andb].
  rewrite session_loop_turns, Et by (done || apply length_pdus). done.
Qed.
