(* ===== verification/SaiMock.v ===== *)
(** * The switch backend, its QoS calls (hemlock-sai/src/lib.rs, mock.rs)

    The QoS part of the trait [SwitchBackend] as the mock backend implements
    it: objects are created under fresh identifiers, a binding needs a live
    object of the right kind, and an object that is still bound cannot be
    removed.  A call that fails changes nothing.  Identifiers are allocated
    from a counter that is nowhere near the end of its 64 bits. *)

From Stdlib Require Import NArith ZArith Lia.
From stdpp Require Import base tactics list strings option gmap fin_maps.
From S2P Require Import Prelude.

Local Open Scope N_scope.

Inductive QosMapType := DscpToTc | Dot1pToTc | TcToDscp | TcToDot1p.

#[export] Instance QosMapType_eq_dec : EqDecision QosMapType.
Proof. solve_decision. Defined.
#[export] Instance QosMapType_countable : Countable QosMapType.
Proof.
  refine (inj_countable'
    (λ k, match k with DscpToTc => 0 | Dot1pToTc => 1 | TcToDscp => 2 | TcToDot1p => 3 end)
    (λ n, match n with 0 => DscpToTc | 1 => Dot1pToTc | 2 => TcToDscp | _ => TcToDot1p end) _).
  by intros [].
Defined.

Definition ingress (k : QosMapType) : bool := match k with DscpToTc | Dot1pToTc => true | _ => false end.

Record SchedulerSpec := mkSchedulerSpec { strict : bool; weight : N; max_rate_bps : option N }.

#[export] Instance SchedulerSpec_eq_dec : EqDecision SchedulerSpec.
Proof. solve_decision. Defined.
#[export] Instance SchedulerSpec_countable : Countable SchedulerSpec.
Proof.
  refine (inj_countable' (λ s, (strict s, weight s, max_rate_bps s)) (λ t, mkSchedulerSpec t.1.1 t.1.2 t.2) _).
  by intros [].
Defined.

Definition default_queue : SchedulerSpec := mkSchedulerSpec false 1 None.

Definition is_default (s : SchedulerSpec) : bool := bool_decide (s = default_queue).

Record WredSpec := mkWredSpec { min_threshold_bytes : N; max_threshold_bytes : N; drop_probability : N; ecn : bool }.

#[export] Instance WredSpec_eq_dec : EqDecision WredSpec.
Proof. solve_decision. Defined.

Definition default_wred : WredSpec := mkWredSpec 0 0 0 false.

(** The capabilities the QoS code reads. *)
Record SaiCapabilities := mkSaiCapabilities { qos_map_ingress : bool; qos_map_egress : bool; cap_wred : bool;
  cap_ecn : bool; queue_shaper : bool; buffer_bytes_total : N }.

Definition all_capabilities : SaiCapabilities := mkSaiCapabilities true true true true true (4 * 1024 * 1024).

(** [Oid]s and [PortId]s are their numbers; the text of an [Other] is its format
    with its identifiers. *)
Inductive SaiError := Load (text : string) | SaiStatus (call : string) (status : Z) | NoSwitch | UnknownPort (port : N)
| Other (text : string) (oids : list N).

Record MockBackend := mkMockBackend {
  created : bool; port_likes : gset N; next_oid : N; capabilities : SaiCapabilities;
  qos_maps : gmap N (QosMapType * list (N * N)); port_qos_maps : gmap (N * QosMapType) N;
  port_default_tc : gmap N N; schedulers : gmap N SchedulerSpec; queue_schedulers : gmap (N * N) N;
  port_shapers : gmap N N; wreds : gmap N WredSpec; queue_wreds : gmap (N * N) N }.

Definition with_next (n : N) (b : MockBackend) := mkMockBackend (created b) (port_likes b) n (capabilities b)
  (qos_maps b) (port_qos_maps b) (port_default_tc b) (schedulers b) (queue_schedulers b) (port_shapers b) (wreds b) (queue_wreds b).
Definition with_qos_maps m (b : MockBackend) := mkMockBackend (created b) (port_likes b) (next_oid b) (capabilities b)
  m (port_qos_maps b) (port_default_tc b) (schedulers b) (queue_schedulers b) (port_shapers b) (wreds b) (queue_wreds b).
Definition with_port_qos_maps m (b : MockBackend) := mkMockBackend (created b) (port_likes b) (next_oid b) (capabilities b)
  (qos_maps b) m (port_default_tc b) (schedulers b) (queue_schedulers b) (port_shapers b) (wreds b) (queue_wreds b).
Definition with_port_default_tc m (b : MockBackend) := mkMockBackend (created b) (port_likes b) (next_oid b) (capabilities b)
  (qos_maps b) (port_qos_maps b) m (schedulers b) (queue_schedulers b) (port_shapers b) (wreds b) (queue_wreds b).
Definition with_schedulers m (b : MockBackend) := mkMockBackend (created b) (port_likes b) (next_oid b) (capabilities b)
  (qos_maps b) (port_qos_maps b) (port_default_tc b) m (queue_schedulers b) (port_shapers b) (wreds b) (queue_wreds b).
Definition with_queue_schedulers m (b : MockBackend) := mkMockBackend (created b) (port_likes b) (next_oid b) (capabilities b)
  (qos_maps b) (port_qos_maps b) (port_default_tc b) (schedulers b) m (port_shapers b) (wreds b) (queue_wreds b).
Definition with_port_shapers m (b : MockBackend) := mkMockBackend (created b) (port_likes b) (next_oid b) (capabilities b)
  (qos_maps b) (port_qos_maps b) (port_default_tc b) (schedulers b) (queue_schedulers b) m (wreds b) (queue_wreds b).
Definition with_wreds m (b : MockBackend) := mkMockBackend (created b) (port_likes b) (next_oid b) (capabilities b)
  (qos_maps b) (port_qos_maps b) (port_default_tc b) (schedulers b) (queue_schedulers b) (port_shapers b) m (queue_wreds b).
Definition with_queue_wreds m (b : MockBackend) := mkMockBackend (created b) (port_likes b) (next_oid b) (capabilities b)
  (qos_maps b) (port_qos_maps b) (port_default_tc b) (schedulers b) (queue_schedulers b) (port_shapers b) (wreds b) m.

(** A call: the error, or the answer and the backend after it. *)
Definition Call (A : Type) : Type := MockBackend → result SaiError (A * MockBackend).

Definition require_switch (b : MockBackend) : result SaiError unit := if created b then Ok tt else Err NoSwitch.

Definition require_port_like (port : N) (b : MockBackend) : result SaiError unit :=
  if decide (port ∈ port_likes b) then Ok tt else Err (UnknownPort port).

Definition require_qos_map (kind : QosMapType) (b : MockBackend) : result SaiError unit :=
  if (if ingress kind then qos_map_ingress (capabilities b) else qos_map_egress (capabilities b)) then Ok tt
  else Err (Other (if ingress kind then "ingress QoS maps are not supported" else "egress QoS maps are not supported") []).

(** The bases of the identifiers of each kind of object. *)
Definition MOCK_QOS_MAP_OID_BASE : N := 0x2100000000016000.
Definition MOCK_SCHEDULER_OID_BASE : N := 0x2100000000017000.
Definition MOCK_WRED_OID_BASE : N := 0x2100000000018000.

Definition alloc (base : N) (b : MockBackend) : N * MockBackend :=
  let n := next_oid b + 1 in (base + n, with_next n b).

(** [values().any(|bound| *bound == oid)] *)
Definition any_bound {K} `{Countable K} (oid : N) (m : gmap K N) : bool := existsb (λ kv, kv.2 =? oid) (map_to_list m).

Definition create_qos_map (kind : QosMapType) (entries : list (N * N)) : Call N := λ b,
  require_switch b;; require_qos_map kind b;;
  let '(oid, b) := alloc MOCK_QOS_MAP_OID_BASE b in
  Ok (oid, with_qos_maps (<[oid := (kind, entries)]> (qos_maps b)) b).

Definition set_qos_map (map : N) (entries : list (N * N)) : Call unit := λ b,
  require_switch b;;
  match qos_maps b !! map with
  | None => Err (Other "no such QoS map {map}" [map])
  | Some (kind, _) => Ok (tt, with_qos_maps (<[map := (kind, entries)]> (qos_maps b)) b)
  end.

Definition remove_qos_map (map : N) : Call unit := λ b,
  require_switch b;;
  if any_bound map (port_qos_maps b) then Err (Other "QoS map {map} is still bound" [map])
  else match qos_maps b !! map with
       | None => Err (Other "no such QoS map {map}" [map])
       | Some _ => Ok (tt, with_qos_maps (delete map (qos_maps b)) b)
       end.

Definition set_port_qos_map_binding (port : N) (kind : QosMapType) (map : option N) : Call unit := λ b,
  require_switch b;; require_port_like port b;; require_qos_map kind b;;
  match map with
  | Some map =>
      match qos_maps b !! map with
      | Some (map_kind, _) =>
          if decide (map_kind = kind) then Ok (tt, with_port_qos_maps (<[(port, kind) := map]> (port_qos_maps b)) b)
          else Err (Other "QoS map {map} is not a {kind:?} map" [map])
      | None => Err (Other "no such QoS map {map}" [map])
      end
  | None => Ok (tt, with_port_qos_maps (delete (port, kind) (port_qos_maps b)) b)
  end.

Definition set_port_default_tc (port tc : N) : Call unit := λ b,
  require_switch b;; require_port_like port b;;
  Ok (tt, with_port_default_tc (<[port := tc]> (port_default_tc b)) b).

Definition create_scheduler (spec : SchedulerSpec) : Call N := λ b,
  require_switch b;;
  if bool_decide (is_Some (max_rate_bps spec)) && negb (queue_shaper (capabilities b)) then Err (Other "egress shapers are not supported" [])
  else let '(oid, b) := alloc MOCK_SCHEDULER_OID_BASE b in Ok (oid, with_schedulers (<[oid := spec]> (schedulers b)) b).

Definition remove_scheduler (scheduler : N) : Call unit := λ b,
  require_switch b;;
  if any_bound scheduler (queue_schedulers b) then Err (Other "scheduler {scheduler} is still bound" [scheduler])
  else match schedulers b !! scheduler with
       | None => Err (Other "no such scheduler {scheduler}" [scheduler])
       | Some _ => Ok (tt, with_schedulers (delete scheduler (schedulers b)) b)
       end.

Definition bind_queue_scheduler (port queue : N) (scheduler : option N) : Call unit := λ b,
  require_switch b;; require_port_like port b;;
  match scheduler with
  | Some s =>
      match schedulers b !! s with
      | None => Err (Other "no such scheduler {scheduler}" [s])
      | Some _ => Ok (tt, with_queue_schedulers (<[(port, queue) := s]> (queue_schedulers b)) b)
      end
  | None => Ok (tt, with_queue_schedulers (delete (port, queue) (queue_schedulers b)) b)
  end.

Definition set_port_shaper (port : N) (rate_bps : option N) : Call unit := λ b,
  require_switch b;; require_port_like port b;;
  Ok (tt, with_port_shapers (match rate_bps with Some r => <[port := r]> (port_shapers b) | None => delete port (port_shapers b) end) b).

Definition create_wred (spec : WredSpec) : Call N := λ b,
  require_switch b;;
  if negb (cap_wred (capabilities b)) then Err (Other "WRED is not supported" [])
  else if ecn spec && negb (cap_ecn (capabilities b)) then Err (Other "ECN marking is not supported" [])
  else let '(oid, b) := alloc MOCK_WRED_OID_BASE b in Ok (oid, with_wreds (<[oid := spec]> (wreds b)) b).

Definition set_wred (wred : N) (spec : WredSpec) : Call unit := λ b,
  require_switch b;;
  if ecn spec && negb (cap_ecn (capabilities b)) then Err (Other "ECN marking is not supported" [])
  else match wreds b !! wred with
       | None => Err (Other "no such WRED profile {wred}" [wred])
       | Some _ => Ok (tt, with_wreds (<[wred := spec]> (wreds b)) b)
       end.

Definition remove_wred (wred : N) : Call unit := λ b,
  require_switch b;;
  if any_bound wred (queue_wreds b) then Err (Other "WRED profile {wred} is still bound" [wred])
  else match wreds b !! wred with
       | None => Err (Other "no such WRED profile {wred}" [wred])
       | Some _ => Ok (tt, with_wreds (delete wred (wreds b)) b)
       end.

Definition bind_queue_wred (port queue : N) (wred : option N) : Call unit := λ b,
  require_switch b;; require_port_like port b;;
  match wred with
  | Some w =>
      match wreds b !! w with
      | None => Err (Other "no such WRED profile {wred}" [w])
      | Some _ => Ok (tt, with_queue_wreds (<[(port, queue) := w]> (queue_wreds b)) b)
      end
  | None => Ok (tt, with_queue_wreds (delete (port, queue) (queue_wreds b)) b)
  end.

Lemma any_bound_false {K} `{Countable K} oid (m : gmap K N) : any_bound oid m = false ↔ ∀ k, m !! k ≠ Some oid.
Proof.
  unfold any_bound. rewrite <-not_true_iff_false, existsb_exists. split.
  - intros Hn k Hk. apply Hn. exists (k, oid). split; [|apply N.eqb_refl].
    by apply list_elem_of_In, elem_of_map_to_list.
  - intros Hn ([k o] & Hin & E). apply N.eqb_eq in E. cbn in E. subst o. apply list_elem_of_In, elem_of_map_to_list in Hin. by apply (Hn k).
Qed.
