(* ===== verification/Refcount.v ===== *)
(** * Shared, counted objects

    The switch daemon shares hardware objects between queues: a table gives
    every key in use an object and a count of references.  [pool_inv] is what
    keeps such a table right: the counts are the bindings of the hardware, plus
    one for a reference that is taken and not bound yet (or unbound and not
    given back yet); no object is dangling and none is leaked.  Used by [QosSound]
    for scheduler and WRED objects. *)

From Stdlib Require Import NArith Lia.
From stdpp Require Import base tactics list option gmap fin_maps.
From S2P Require Import Prelude.

Local Open Scope N_scope.

(** The bindings of an object. *)
Definition bindings {X} `{Countable X} (o : N) (binds : gmap X N) : N := N.of_nat (size (filter (λ kv, kv.2 = o) binds)).

Definition one (b : bool) : N := if b then 1 else 0.

Section bindings.
Context {X : Type} `{Countable X}.
Implicit Types (m : gmap X N) (x : X) (o : N).

Lemma bindings_delete_le o m x : m !! x = Some o → bindings o m = 1 + bindings o (delete x m).
Proof.
  intros Hx. unfold bindings. rewrite map_filter_delete. rewrite map_size_delete_Some.
  - assert (size (filter (λ kv, kv.2 = o) m) ≠ 0%nat) as Hs; [|lia].
    intros E%map_size_empty_inv. assert (filter (λ kv, kv.2 = o) m !! x = Some o) as Hf
      by (by apply map_lookup_filter_Some). by rewrite E in Hf.
  - exists o. by apply map_lookup_filter_Some.
Qed.

Lemma bindings_delete_ne o m x : m !! x ≠ Some o → bindings o (delete x m) = bindings o m.
Proof.
  intros Hx. unfold bindings. rewrite map_filter_delete, delete_id; [done|].
  apply map_lookup_filter_None. destruct (m !! x) as [o'|] eqn:E; [right|by left]. intros y [= <-]. naive_solver.
Qed.

Lemma bindings_delete o m x : bindings o m = one (bool_decide (m !! x = Some o)) + bindings o (delete x m).
Proof. unfold one. case_bool_decide; [by apply bindings_delete_le|]. by rewrite bindings_delete_ne. Qed.

Lemma bindings_insert o m x o' : bindings o (<[x := o']> m) = one (bool_decide (o' = o)) + bindings o (delete x m).
Proof.
  rewrite (bindings_delete o (<[x := o']> m) x), lookup_insert_eq, delete_insert_eq. f_equal. unfold one.
  repeat case_bool_decide; naive_solver.
Qed.

Lemma bindings_pos o m : 0 < bindings o m ↔ ∃ x, m !! x = Some o.
Proof.
  split.
  - unfold bindings. intros Hs. destruct (map_choose (filter (λ kv, kv.2 = o) m)) as (x & o' & Hf).
    { intros E. rewrite E, map_size_empty in Hs. done. }
    apply map_lookup_filter_Some in Hf as [Hx Ho]. cbn in Ho. subst. by exists x.
  - intros [x Hx]. rewrite (bindings_delete_le o m x Hx). lia.
Qed.
End bindings.

(** Case analysis on which key the pending reference is of. *)
Ltac counts := unfold one in *; repeat case_bool_decide; simplify_eq; lia.

Section pool.
Context {K X : Type} `{Countable K} `{Countable X}.
Implicit Types (pool : gmap K (N * N)) (live : gset N) (binds : gmap X N) (hold : gmap X K) (k : K) (x : X).

Record pool_inv pool live binds hold (pending : option K) : Prop := {
  pi_refs : ∀ k o n, pool !! k = Some (o, n) → n = bindings o binds + one (bool_decide (pending = Some k)) ∧ 0 < n;
  pi_live : ∀ o, o ∈ live ↔ ∃ k n, pool !! k = Some (o, n);
  pi_inj : ∀ k k' o n n', pool !! k = Some (o, n) → pool !! k' = Some (o, n') → k = k';
  pi_bound : ∀ x o, binds !! x = Some o ↔ ∃ k n, hold !! x = Some k ∧ pool !! k = Some (o, n);
  pi_hold : ∀ x k, hold !! x = Some k → is_Some (pool !! k);
  pi_pend : ∀ k, pending = Some k → is_Some (pool !! k) }.

Lemma pool_inv_empty : pool_inv ∅ ∅ ∅ ∅ None.
Proof.
  split; intros *; rewrite ?lookup_empty; try done.
  - split; [by intros ?%elem_of_empty|]. intros (? & ? & E). by rewrite lookup_empty in E.
  - split; [done|]. intros (? & ? & E & ?). by rewrite ?lookup_empty in E.
Qed.

Section steps.
Context pool live binds hold (pending : option K).
Hypothesis Hinv : pool_inv pool live binds hold pending.

(** Keys with the same object before and after an update of one key. *)
Lemma pool_acquire k o n :
  pending = None → pool !! k = Some (o, n) → pool_inv (<[k := (o, n + 1)]> pool) live binds hold (Some k).
Proof.
  intros -> Hk. assert (∀ k' o', (∃ n', <[k := (o, n + 1)]> pool !! k' = Some (o', n')) ↔ ∃ n', pool !! k' = Some (o', n')) as Hd.
  { intros k' o'. destruct (decide (k' = k)) as [->|]; [rewrite lookup_insert_eq, Hk; naive_solver|by rewrite lookup_insert_ne]. }
  split.
  - intros k' o' n'. destruct (decide (k' = k)) as [->|Hne].
    + rewrite lookup_insert_eq. intros [= <- <-]. destruct (pi_refs _ _ _ _ _ Hinv _ _ _ Hk) as [-> Hp].
      counts.
    + rewrite lookup_insert_ne by done. intros Hk'. destruct (pi_refs _ _ _ _ _ Hinv _ _ _ Hk') as [-> Hp].
      counts.
  - intros o'. rewrite (pi_live _ _ _ _ _ Hinv). split; intros [k' E%Hd]; by exists k'.
  - intros k1 k2 o' n1 n2 H1 H2. destruct (proj1 (Hd k1 o')) as [? ?]; [eauto|]. destruct (proj1 (Hd k2 o')) as [? ?]; [eauto|].
    by eapply (pi_inj _ _ _ _ _ Hinv).
  - intros x o'. rewrite (pi_bound _ _ _ _ _ Hinv). split; intros (k' & n' & Hx & E); exists k'.
    + destruct (proj2 (Hd k' o')) as [n'' ?]; eauto.
    + destruct (proj1 (Hd k' o')) as [n'' ?]; eauto.
  - intros x k' Hx. destruct (pi_hold _ _ _ _ _ Hinv _ _ Hx) as [[o' n'] Hk']. destruct (proj2 (Hd k' o')) as [? ?]; eauto.
  - intros k' [= <-]. rewrite lookup_insert_eq. eauto.
Qed.

Lemma pool_create k o :
  pending = None → pool !! k = None → o ∉ live → pool_inv (<[k := (o, 1)]> pool) ({[o]} ∪ live) binds hold (Some k).
Proof.
  intros -> Hk Ho. assert (∀ k' n, pool !! k' ≠ Some (o, n)) as Hno.
  { intros k' n E. apply Ho. apply (pi_live _ _ _ _ _ Hinv). eauto. }
  split.
  - intros k' o' n'. destruct (decide (k' = k)) as [->|Hne].
    + rewrite lookup_insert_eq. intros [= <- <-]. rewrite bool_decide_true by done.
      assert (bindings o binds = 0) as ->; [|by unfold one].
      destruct (decide (0 < bindings o binds)) as [[x Hx]%bindings_pos|]; [|lia].
      apply (pi_bound _ _ _ _ _ Hinv) in Hx as (k' & n & _ & E). by destruct (Hno k' n).
    + rewrite lookup_insert_ne by done. intros Hk'. destruct (pi_refs _ _ _ _ _ Hinv _ _ _ Hk') as [-> Hp].
      counts.
  - intros o'. rewrite elem_of_union, elem_of_singleton, (pi_live _ _ _ _ _ Hinv). split.
    + intros [->|(k' & n & E)]; [exists k, 1; by rewrite lookup_insert_eq|]. exists k', n. rewrite lookup_insert_ne; naive_solver.
    + intros (k' & n & E). destruct (decide (k' = k)) as [->|]; [rewrite lookup_insert_eq in E; naive_solver|].
      rewrite lookup_insert_ne in E by done. eauto.
  - intros k1 k2 o' n1 n2. destruct (decide (k1 = k)) as [->|], (decide (k2 = k)) as [->|];
      rewrite ?lookup_insert_eq, ?lookup_insert_ne by done; [done|naive_solver|naive_solver|apply (pi_inj _ _ _ _ _ Hinv)].
  - intros x o'. rewrite (pi_bound _ _ _ _ _ Hinv). split; intros (k' & n & Hx & E); exists k', n; (split; [done|]).
    + rewrite lookup_insert_ne; naive_solver.
    + destruct (decide (k' = k)) as [->|]; [|by rewrite lookup_insert_ne in E].
      destruct (pi_hold _ _ _ _ _ Hinv _ _ Hx). congruence.
  - intros x k' Hx. destruct (decide (k' = k)) as [->|]; [rewrite lookup_insert_eq; eauto|].
    rewrite lookup_insert_ne by done. by eapply (pi_hold _ _ _ _ _ Hinv).
  - intros k' [= <-]. rewrite lookup_insert_eq. eauto.
Qed.

(** The reference of the queue's former holder stays to be given back. *)
Lemma pool_bind k o n x :
  pending = Some k → pool !! k = Some (o, n) → pool_inv pool live (<[x := o]> binds) (<[x := k]> hold) (hold !! x).
Proof.
  intros -> Hk. split.
  - intros k' o' n' Hk'. destruct (pi_refs _ _ _ _ _ Hinv _ _ _ Hk') as [-> Hp]. split; [|done].
    rewrite bindings_insert, (bindings_delete o' binds x).
    assert (bool_decide (o = o') = bool_decide (Some k = Some k')) as ->.
    { apply bool_decide_ext. split; [intros ->; f_equal; by eapply (pi_inj _ _ _ _ _ Hinv)|naive_solver]. }
    assert (bool_decide (binds !! x = Some o') = bool_decide (hold !! x = Some k')) as ->; [|lia].
    apply bool_decide_ext. rewrite (pi_bound _ _ _ _ _ Hinv). split.
    + intros (k'' & n'' & Hx & E). rewrite Hx. f_equal. by eapply (pi_inj _ _ _ _ _ Hinv).
    + intros Hx. eauto.
  - apply (pi_live _ _ _ _ _ Hinv).
  - apply (pi_inj _ _ _ _ _ Hinv).
  - intros y o'. destruct (decide (y = x)) as [->|]; [|rewrite !lookup_insert_ne by done; apply (pi_bound _ _ _ _ _ Hinv)].
    rewrite !lookup_insert_eq. naive_solver.
  - intros y k'. destruct (decide (y = x)) as [->|]; [rewrite lookup_insert_eq; naive_solver|].
    rewrite lookup_insert_ne by done. apply (pi_hold _ _ _ _ _ Hinv).
  - apply (pi_hold _ _ _ _ _ Hinv).
Qed.

Lemma pool_unbind x : pending = None → pool_inv pool live (delete x binds) (delete x hold) (hold !! x).
Proof.
  intros ->. split.
  - intros k' o' n' Hk'. destruct (pi_refs _ _ _ _ _ Hinv _ _ _ Hk') as [-> Hp]. split; [|done].
    rewrite (bindings_delete o' binds x).
    assert (bool_decide (binds !! x = Some o') = bool_decide (hold !! x = Some k')) as ->.
    { apply bool_decide_ext. rewrite (pi_bound _ _ _ _ _ Hinv). split.
      + intros (k'' & n'' & Hx & E). rewrite Hx. f_equal. by eapply (pi_inj _ _ _ _ _ Hinv).
      + intros Hx. eauto. }
    counts.
  - apply (pi_live _ _ _ _ _ Hinv).
  - apply (pi_inj _ _ _ _ _ Hinv).
  - intros y o'. destruct (decide (y = x)) as [->|]; [|rewrite !lookup_delete_ne by done; apply (pi_bound _ _ _ _ _ Hinv)].
    rewrite !lookup_delete_eq. naive_solver.
  - intros y k'. destruct (decide (y = x)) as [->|]; [by rewrite lookup_delete_eq|].
    rewrite lookup_delete_ne by done. apply (pi_hold _ _ _ _ _ Hinv).
  - apply (pi_hold _ _ _ _ _ Hinv).
Qed.

Lemma pool_release_some k o n :
  pending = Some k → pool !! k = Some (o, n) → 1 < n → pool_inv (<[k := (o, n - 1)]> pool) live binds hold None.
Proof.
  intros -> Hk Hn. assert (∀ k' o', (∃ n', <[k := (o, n - 1)]> pool !! k' = Some (o', n')) ↔ ∃ n', pool !! k' = Some (o', n')) as Hd.
  { intros k' o'. destruct (decide (k' = k)) as [->|]; [rewrite lookup_insert_eq, Hk; naive_solver|by rewrite lookup_insert_ne]. }
  split.
  - intros k' o' n'. destruct (decide (k' = k)) as [->|Hne].
    + rewrite lookup_insert_eq. intros [= <- <-]. destruct (pi_refs _ _ _ _ _ Hinv _ _ _ Hk) as [-> Hp].
      counts.
    + rewrite lookup_insert_ne by done. intros Hk'. destruct (pi_refs _ _ _ _ _ Hinv _ _ _ Hk') as [-> Hp].
      counts.
  - intros o'. rewrite (pi_live _ _ _ _ _ Hinv). split; intros [k' E%Hd]; by exists k'.
  - intros k1 k2 o' n1 n2 H1 H2. destruct (proj1 (Hd k1 o')) as [? ?]; [eauto|]. destruct (proj1 (Hd k2 o')) as [? ?]; [eauto|].
    by eapply (pi_inj _ _ _ _ _ Hinv).
  - intros x o'. rewrite (pi_bound _ _ _ _ _ Hinv). split; intros (k' & n' & Hx & E); exists k'.
    + destruct (proj2 (Hd k' o')) as [n'' ?]; eauto.
    + destruct (proj1 (Hd k' o')) as [n'' ?]; eauto.
  - intros x k' Hx. destruct (pi_hold _ _ _ _ _ Hinv _ _ Hx) as [[o' n'] Hk']. destruct (proj2 (Hd k' o')) as [? ?]; eauto.
  - done.
Qed.

(** The last reference: nothing binds the object any more. *)
Lemma pool_release_last k o n :
  pending = Some k → pool !! k = Some (o, n) → n ≤ 1 →
  (∀ x, binds !! x ≠ Some o) ∧ pool_inv (delete k pool) (live ∖ {[o]}) binds hold None.
Proof.
  intros -> Hk Hn. destruct (pi_refs _ _ _ _ _ Hinv _ _ _ Hk) as [E Hp].
  rewrite (bool_decide_true (Some k = Some k)) in E by done. unfold one in E.
  assert (∀ x, binds !! x ≠ Some o) as Hnb.
  { intros x Hx. assert (0 < bindings o binds) by (apply bindings_pos; eauto). lia. }
  split; [done|]. assert (∀ x, hold !! x ≠ Some k) as Hnh.
  { intros x Hx. apply (Hnb x). apply (pi_bound _ _ _ _ _ Hinv). eauto. }
  split.
  - intros k' o' n' [Hne Hk']%lookup_delete_Some. destruct (pi_refs _ _ _ _ _ Hinv _ _ _ Hk') as [-> Hp'].
    counts.
  - intros o'. rewrite elem_of_difference, elem_of_singleton, (pi_live _ _ _ _ _ Hinv). split.
    + intros [(k' & n' & E') Ho]. exists k', n'. rewrite lookup_delete_ne; [done|]. intros <-. naive_solver.
    + intros (k' & n' & [Hne E']%lookup_delete_Some). split; [eauto|]. intros ->. apply Hne. by eapply (pi_inj _ _ _ _ _ Hinv).
  - intros k1 k2 o' n1 n2 [_ H1]%lookup_delete_Some [_ H2]%lookup_delete_Some. by eapply (pi_inj _ _ _ _ _ Hinv).
  - intros x o'. rewrite (pi_bound _ _ _ _ _ Hinv). split; intros (k' & n' & Hx & E'); exists k', n'; (split; [done|]).
    + rewrite lookup_delete_ne; [done|]. intros <-. by apply (Hnh x).
    + by apply lookup_delete_Some in E' as [_ ?].
  - intros x k' Hx. rewrite lookup_delete_ne; [by eapply (pi_hold _ _ _ _ _ Hinv)|]. intros <-. by apply (Hnh x).
  - done.
Qed.
End steps.
End pool.
