(* ===== verification/Qos.v ===== *)
(** * The switch daemon's QoS engine (hemlock-syncd/src/qos.rs, state.rs)

    The QoS world behind its lock, the calls to the backend, and the request
    handlers.  A handler runs in a state and error monad over the daemon's
    tables and the backend: an error keeps what was done before it.  Requests
    run one at a time, so a lock taken, released and taken again sees the same
    table; the branches for a raced allocation are kept as written.  The counts
    of references are bounded by the queues of the switch. *)

From Stdlib Require Import NArith Ascii Lia.
From stdpp Require Import base tactics list strings option gmap sorting.
From S2P Require Import Prelude Text SaiMock.

Local Open Scope N_scope.

(** ** State *)

Record QosMaps := mkQosMaps { dscp_to_tc : gmap N N; cos_to_tc : gmap N N; tc_to_dscp : gmap N N; tc_to_cos : gmap N N }.

#[export] Instance QosMaps_eq_dec : EqDecision QosMaps.
Proof. solve_decision. Defined.

Definition table (m : QosMaps) (kind : QosMapType) : gmap N N :=
  match kind with
  | DscpToTc => dscp_to_tc m
  | Dot1pToTc => cos_to_tc m
  | TcToDscp => tc_to_dscp m
  | TcToDot1p => tc_to_cos m
  end.

Inductive QosTrust := Untrusted | Dscp | Cos.

#[export] Instance QosTrust_eq_dec : EqDecision QosTrust.
Proof. solve_decision. Defined.

Definition trust_word (t : QosTrust) : string :=
  match t with Untrusted => "untrusted" | Dscp => "dscp" | Cos => "cos" end.

Definition parse_trust (word : string) : option QosTrust :=
  if decide (word = "untrusted" ∨ word = "") then Some Untrusted
  else if decide (word = "dscp") then Some Dscp
  else if decide (word = "cos") then Some Cos
  else None.

Definition trust_map (t : QosTrust) : option QosMapType :=
  match t with Untrusted => None | Dscp => Some DscpToTc | Cos => Some Dot1pToTc end.

Record QueueQosProgram := mkQueueQosProgram { q_strict : bool; q_weight : N; q_shape_bps : option N; wred_profile : string }.

#[export] Instance QueueQosProgram_eq_dec : EqDecision QueueQosProgram.
Proof. solve_decision. Defined.

Definition default_program_queue : QueueQosProgram := mkQueueQosProgram false 0 None "".

Definition scheduler (q : QueueQosProgram) : SchedulerSpec :=
  mkSchedulerSpec (q_strict q) (if q_weight q =? 0 then 1 else q_weight q) (q_shape_bps q).

Record PortQosProgram := mkPortQosProgram { trust : QosTrust; default_tc : N; shape_bps : option N;
  queues : gmap N QueueQosProgram }.

Definition default_program : PortQosProgram := mkPortQosProgram Untrusted 0 None ∅.

Record AppliedPortQos := mkAppliedPortQos { source : string; a_trust : QosTrust; a_default_tc : N;
  a_shape_bps : option N; a_queue_schedulers : gmap N (SchedulerSpec * N); a_queue_wreds : gmap N string;
  bound_maps : gset QosMapType }.

Definition default_applied : AppliedPortQos := mkAppliedPortQos "" Untrusted 0 None ∅ ∅ ∅.

Record WredProfileState := mkWredProfileState { spec : WredSpec; w_oid : option N; refs : N }.

Definition default_profile : WredProfileState := mkWredProfileState default_wred None 0.

Record QosWorld := mkQosWorld { maps : QosMaps; map_objects : gmap QosMapType N;
  wred_profiles : gmap string WredProfileState; programs : gmap string PortQosProgram;
  applied : gmap string AppliedPortQos; w_schedulers : gmap SchedulerSpec (N * N) }.

Definition empty_world : QosWorld := mkQosWorld (mkQosMaps ∅ ∅ ∅ ∅) ∅ ∅ ∅ ∅ ∅.

(** The tables of the daemon the QoS code reads: the ports with their
    front-panel index, and the port channels with their members. *)
Record PortState := mkPortState { def_index : N; sai_id : N }.
Record LagState := mkLagState { group : N; lag_sai_id : N; members : gset string }.

Record Daemon := mkDaemon { qos : QosWorld; sai : MockBackend; ports : gmap string PortState; lags : gmap N LagState;
  uc_queues : N }.

Definition with_qos (q : QosWorld) (d : Daemon) : Daemon := mkDaemon q (sai d) (ports d) (lags d) (uc_queues d).
Definition with_sai (b : MockBackend) (d : Daemon) : Daemon := mkDaemon (qos d) b (ports d) (lags d) (uc_queues d).
Definition with_lags (l : gmap N LagState) (d : Daemon) : Daemon := mkDaemon (qos d) (sai d) (ports d) l (uc_queues d).

Definition with_maps m (q : QosWorld) := mkQosWorld m (map_objects q) (wred_profiles q) (programs q) (applied q) (w_schedulers q).
Definition with_map_objects m (q : QosWorld) := mkQosWorld (maps q) m (wred_profiles q) (programs q) (applied q) (w_schedulers q).
Definition with_profiles m (q : QosWorld) := mkQosWorld (maps q) (map_objects q) m (programs q) (applied q) (w_schedulers q).
Definition with_programs m (q : QosWorld) := mkQosWorld (maps q) (map_objects q) (wred_profiles q) m (applied q) (w_schedulers q).
Definition with_applied m (q : QosWorld) := mkQosWorld (maps q) (map_objects q) (wred_profiles q) (programs q) m (w_schedulers q).
Definition with_world_schedulers m (q : QosWorld) := mkQosWorld (maps q) (map_objects q) (wred_profiles q) (programs q) (applied q) m.

(** ** The monad of the handlers *)

(** [tonic::Status], by its code and the format of its message. *)
Inductive Code := InvalidArgument | FailedPrecondition | NotFound | Internal.
Record Status := mkStatus { code : Code; message : string; args : list string }.

Definition M (A : Type) : Type := Daemon → result Status A * Daemon.

#[export] Instance M_ret : MRet M := λ A a d, (Ok a, d).
#[export] Instance M_bind : MBind M := λ A B f m d,
  match m d with (Ok a, d) => f a d | (Err e, d) => (Err e, d) end.

Definition fail {A} (c : Code) (msg : string) (args : list string) : M A := λ d, (Err (mkStatus c msg args), d).
Definition read {A} (f : Daemon → A) : M A := λ d, (Ok (f d), d).
Definition modify (f : QosWorld → QosWorld) : M unit := λ d, (Ok tt, with_qos (f (qos d)) d).

(** A call through the actor, [map_err(Self::qos_sai)]. *)
Definition call {A} (c : Call A) : M A := λ d,
  match c (sai d) with
  | Ok (a, b) => (Ok a, with_sai b d)
  | Err _ => (Err (mkStatus Internal "SAI: {e}" []), d)
  end.

(** [let _ = call.await] *)
Definition call_ignored {A} (c : Call A) : M unit := λ d,
  match c (sai d) with Ok (_, b) => (Ok tt, with_sai b d) | Err _ => (Ok tt, d) end.

Fixpoint each {A B} (f : B → A → M B) (b : B) (l : list A) : M B :=
  match l with [] => mret b | a :: l => b ← f b a; each f b l end.

Definition check (b : bool) (c : Code) (msg : string) (args : list string) : M unit :=
  if b then fail c msg args else mret tt.

Definition lift {A} (o : option A) (c : Code) (msg : string) (args : list string) : M A :=
  match o with Some a => mret a | None => fail c msg args end.

(** ** Tables *)

Definition MAP_TYPES : list QosMapType := [DscpToTc; Dot1pToTc; TcToDscp; TcToDot1p].

Definition map_entry (tbl : string) (key_max value_max : N) (out : gmap N N) (e : N * N) : M (gmap N N) :=
  check (key_max <? e.1) InvalidArgument "qos map {table}: key {} is out of range (0..{key_max})" [tbl; to_dec e.1];;
  check (value_max <? e.2) InvalidArgument "qos map {table}: value {} is out of range (0..{value_max})" [tbl; to_dec e.2];;
  mret (<[e.1 := e.2]> out).

(** The bounds are below 256, so [u8::try_from] refuses nothing more. *)
Definition map_entries (tbl : string) (key_max value_max : N) (entries : list (N * N)) : M (gmap N N) :=
  each (map_entry tbl key_max value_max) ∅ entries.

Definition entries_to_proto (t : gmap N N) : list (N * N) := btree_iter t.

Record WredProfile := mkWredProfile { p_name : string; min_threshold_kb : N; max_threshold_kb : N; p_drop_probability : N;
  p_ecn : bool }.

(** [kb.checked_mul(1024)] *)
Definition kb_bytes (name what : string) (kb : N) : M N :=
  if kb * 1024 <? 2 ^ 32 then mret (kb * 1024)
  else fail InvalidArgument "qos wred-profile {}: {what} {kb} KB is out of range" [name; what; to_dec kb].

Definition wred_spec (p : WredProfile) : M WredSpec :=
  check ((min_threshold_kb p =? 0) || (max_threshold_kb p =? 0)) InvalidArgument
    "qos wred-profile {}: min-threshold and max-threshold are required" [p_name p];;
  check (max_threshold_kb p <=? min_threshold_kb p) InvalidArgument
    "qos wred-profile {}: min-threshold must be below max-threshold" [p_name p];;
  check (negb ((1 <=? p_drop_probability p) && (p_drop_probability p <=? 100))) InvalidArgument
    "qos wred-profile {}: drop-probability must be 1..100" [p_name p];;
  lo ← kb_bytes (p_name p) "min-threshold" (min_threshold_kb p);
  hi ← kb_bytes (p_name p) "max-threshold" (max_threshold_kb p);
  mret (mkWredSpec lo hi (p_drop_probability p) (p_ecn p)).

Definition profile_to_proto (name : string) (s : WredProfileState) : WredProfile :=
  mkWredProfile name (min_threshold_bytes (spec s) / 1024) (max_threshold_bytes (spec s) / 1024)
    (drop_probability (spec s)) (ecn (spec s)).

(** [u8::try_from(uc_queues).unwrap_or(8)] *)
Definition qos_queue_count (d : Daemon) : N := if uc_queues d <? 256 then uc_queues d else 8.

Definition require_qos_maps (kind : QosMapType) : M unit :=
  caps ← read (λ d, capabilities (sai d));
  check (negb (if ingress kind then qos_map_ingress caps else qos_map_egress caps)) FailedPrecondition
    "{} QoS maps are not supported by this platform's SAI" [if ingress kind then "ingress" else "egress rewrite"].

(** [sort()] on pairs of an index and a name. *)
Definition qos_ports_ordered (d : Daemon) : list string :=
  (sort_by_key id ((λ e, (def_index e.2, e.1)) <$> map_to_list (ports d))).*2.

Definition lag_group_of (name : string) : option N :=
  digits ← strip_prefix_str "Port-Channel" name;
  g ← parse_uint 16 digits;
  if (1 <=? g) && (g <=? 64) && negb (match digits with String "0"%char _ => true | _ => false end) then Some g else None.

Definition channel_name (group : N) : string := "Port-Channel" +:+ to_dec group.

Fixpoint first_some {A B} (f : A → option B) (l : list A) : option B :=
  match l with [] => None | a :: l => match f a with Some b => Some b | None => first_some f l end end.

Definition resolved_qos (d : Daemon) (port : string) : option (string * PortQosProgram) :=
  match programs (qos d) !! port with
  | Some program => Some (port, program)
  | None =>
      first_some (λ lag, if decide (port ∈ members lag)
                         then (λ p, (channel_name (group lag), p)) <$> programs (qos d) !! channel_name (group lag)
                         else None) (btree_values (lags d))
  end.

Definition physical_targets (name : string) : M (list string) :=
  d ← read id;
  match lag_group_of name with
  | Some g =>
      lag ← lift (lags d !! g) FailedPrecondition "Port-Channel{group} not created" [to_dec g];
      mret (bset_iter (members lag))
  | None =>
      check (negb (bool_decide (is_Some (ports d !! name)))) NotFound "no such interface {name:?}" [name];;
      mret [name]
  end.

Definition port_like_sai_id (name : string) : M N :=
  d ← read id;
  match lag_group_of name with
  | Some g => lag ← lift (lags d !! g) FailedPrecondition "Port-Channel{group} not created" [to_dec g]; mret (lag_sai_id lag)
  | None => p ← lift (ports d !! name) NotFound "no port {name:?}" [name]; mret (sai_id p)
  end.

(** ** Shared objects *)

Definition acquire_scheduler (s : SchedulerSpec) : M (option N) :=
  if is_default s then mret None
  else
    w ← read qos;
    match w_schedulers w !! s with
    | Some (oid, n) => modify (with_world_schedulers (<[s := (oid, n + 1)]> (w_schedulers w)));; mret (Some oid)
    | None =>
        oid ← call (create_scheduler s);
        w ← read qos;
        match w_schedulers w !! s with
        | Some (existing, n) =>
            modify (with_world_schedulers (<[s := (existing, n + 1)]> (w_schedulers w)));;
            call_ignored (remove_scheduler oid);; mret (Some existing)
        | None => modify (with_world_schedulers (<[s := (oid, 1)]> (w_schedulers w)));; mret (Some oid)
        end
    end.

Definition release_scheduler (s : SchedulerSpec) : M unit :=
  if is_default s then mret tt
  else
    w ← read qos;
    match w_schedulers w !! s with
    | Some (oid, n) =>
        if 1 <? n then modify (with_world_schedulers (<[s := (oid, n - 1)]> (w_schedulers w)))
        else modify (with_world_schedulers (delete s (w_schedulers w)));; call (remove_scheduler oid)
    | None => mret tt
    end.

Definition take_ref (name : string) (w : QosWorld) : QosWorld :=
  match wred_profiles w !! name with
  | Some st => with_profiles (<[name := mkWredProfileState (spec st) (w_oid st) (refs st + 1)]> (wred_profiles w)) w
  | None => w
  end.

Definition acquire_wred (name : string) : M N :=
  w ← read qos;
  st ← lift (wred_profiles w !! name) FailedPrecondition "no such qos wred-profile {name:?}" [name];
  match w_oid st with
  | Some oid => modify (take_ref name);; mret oid
  | None =>
      caps ← read (λ d, capabilities (sai d));
      check (negb (cap_wred caps)) FailedPrecondition "WRED is not supported by this platform's SAI" [];;
      check (ecn (spec st) && negb (cap_ecn caps)) FailedPrecondition "ECN marking is not supported by this platform's SAI" [];;
      oid ← call (create_wred (spec st));
      w ← read qos;
      st ← lift (wred_profiles w !! name) FailedPrecondition "no such qos wred-profile {name:?}" [name];
      match w_oid st with
      | Some published => call_ignored (remove_wred oid);; modify (take_ref name);; mret published
      | None =>
          modify (with_profiles (<[name := mkWredProfileState (spec st) (Some oid) (refs st + 1)]> (wred_profiles w)));;
          mret oid
      end
  end.

Definition release_wred (name : string) : M unit :=
  w ← read qos;
  match wred_profiles w !! name with
  | Some st =>
      if 1 <? refs st
      then modify (with_profiles (<[name := mkWredProfileState (spec st) (w_oid st) (refs st - 1)]> (wred_profiles w)))
      else
        modify (with_profiles (<[name := mkWredProfileState (spec st) None 0]> (wred_profiles w)));;
        match w_oid st with Some oid => call (remove_wred oid) | None => mret tt end
  | None => mret tt
  end.

(** ** Reconciling a port *)

Definition desired_maps (w : QosWorld) (t : QosTrust) : gset QosMapType :=
  let has k := bool_decide (is_Some (map_objects w !! k)) in
  list_to_set (filter (λ k, has k = true) (option_list (trust_map t) ++ [TcToDscp; TcToDot1p])).

Definition apply_map (port_id : N) (wanted : gset QosMapType) (objects : gmap QosMapType N) (c : AppliedPortQos)
    (kind : QosMapType) : M AppliedPortQos :=
  let want := bool_decide (kind ∈ wanted) in
  if bool_decide (want = bool_decide (kind ∈ bound_maps c)) then mret c
  else
    let map := if want then objects !! kind else None in
    if want && bool_decide (map = None) then mret c
    else
      call (set_port_qos_map_binding port_id kind map);;
      mret (mkAppliedPortQos (source c) (a_trust c) (a_default_tc c) (a_shape_bps c) (a_queue_schedulers c) (a_queue_wreds c)
        (if want then {[kind]} ∪ bound_maps c else bound_maps c ∖ {[kind]})).

Definition apply_tc (port_id tc : N) (c : AppliedPortQos) : M AppliedPortQos :=
  if bool_decide (tc = a_default_tc c) then mret c
  else
    call (set_port_default_tc port_id tc);;
    mret (mkAppliedPortQos (source c) (a_trust c) tc (a_shape_bps c) (a_queue_schedulers c) (a_queue_wreds c) (bound_maps c)).

Definition apply_shaper (port_id : N) (bps : option N) (c : AppliedPortQos) : M AppliedPortQos :=
  if bool_decide (bps = a_shape_bps c) then mret c
  else
    call (set_port_shaper port_id bps);;
    mret (mkAppliedPortQos (source c) (a_trust c) (a_default_tc c) bps (a_queue_schedulers c) (a_queue_wreds c) (bound_maps c)).

Definition apply_scheduler (port_id queue : N) (want_spec : SchedulerSpec) (c : AppliedPortQos) : M AppliedPortQos :=
  let have := a_queue_schedulers c !! queue in
  if bool_decide (fst <$> have = Some want_spec) then mret c
  else
    new ← acquire_scheduler want_spec;
    call (bind_queue_scheduler port_id queue new);;
    match have with Some (s, _) => release_scheduler s | None => mret tt end;;
    mret (mkAppliedPortQos (source c) (a_trust c) (a_default_tc c) (a_shape_bps c)
      (match new with
       | Some oid => <[queue := (want_spec, oid)]> (a_queue_schedulers c)
       | None => delete queue (a_queue_schedulers c)
       end) (a_queue_wreds c) (bound_maps c)).

Definition apply_wred (port_id queue : N) (want_wred : string) (c : AppliedPortQos) : M AppliedPortQos :=
  let have := a_queue_wreds c !! queue in
  if bool_decide (default "" have = want_wred) then mret c
  else
    new ← (if decide (want_wred = "") then mret None else oid ← acquire_wred want_wred; mret (Some oid));
    call (bind_queue_wred port_id queue new);;
    match have with Some old => release_wred old | None => mret tt end;;
    mret (mkAppliedPortQos (source c) (a_trust c) (a_default_tc c) (a_shape_bps c) (a_queue_schedulers c)
      (if decide (want_wred = "") then delete queue (a_queue_wreds c) else <[queue := want_wred]> (a_queue_wreds c))
      (bound_maps c)).

Definition apply_queue (port_id : N) (desired : PortQosProgram) (c : AppliedPortQos) (queue : N) : M AppliedPortQos :=
  let program := default default_program_queue (queues desired !! queue) in
  c ← apply_scheduler port_id queue (scheduler program) c;
  apply_wred port_id queue (wred_profile program) c.

Definition is_default_applied (c : AppliedPortQos) : bool :=
  bool_decide (a_trust c = Untrusted) && (a_default_tc c =? 0) && bool_decide (a_shape_bps c = None)
  && bool_decide (a_queue_schedulers c = ∅) && bool_decide (a_queue_wreds c = ∅) && bool_decide (bound_maps c = ∅).

(** [0..n] *)
Definition seqN (n : N) : list N := N.of_nat <$> seq 0 (N.to_nat n).

Definition apply_port_qos (port : string) : M unit :=
  d ← read id;
  let '(src, desired) := default ("", default_program) (resolved_qos d port) in
  port_id ← port_like_sai_id port;
  let wanted := desired_maps (qos d) (trust desired) in
  let objects := map_objects (qos d) in
  let current := default default_applied (applied (qos d) !! port) in
  current ← each (apply_map port_id wanted objects) current MAP_TYPES;
  current ← apply_tc port_id (default_tc desired) current;
  let current := mkAppliedPortQos src (trust desired) (a_default_tc current) (a_shape_bps current)
    (a_queue_schedulers current) (a_queue_wreds current) (bound_maps current) in
  current ← apply_shaper port_id (shape_bps desired) current;
  current ← each (apply_queue port_id desired) current (seqN (qos_queue_count d));
  modify (λ w, with_applied (if is_default_applied current then delete port (applied w) else <[port := current]> (applied w)) w).

Definition apply_qos_targets (targets : list string) : M unit := each (λ _ port, apply_port_qos port) tt targets.

Definition refresh_lag_qos (g : N) (stale current : list string) : M unit :=
  w ← read qos;
  if negb (bool_decide (is_Some (programs w !! channel_name g))) then mret tt
  else apply_qos_targets (stale ++ current).

(** ** Requests *)

(** The object of one map type: rewritten, to be removed, or created. *)
Definition settle_map (current wanted : QosMaps) (objects : gmap QosMapType N) (removals : list N) (kind : QosMapType)
    : M (list N) :=
  let tbl := table wanted kind in
  let entries := btree_iter tbl in
  match objects !! kind, bool_decide (tbl = ∅) with
  | Some oid, false =>
      if bool_decide (table current kind = tbl) then mret removals else call (set_qos_map oid entries);; mret removals
  | Some oid, true => modify (λ w, with_map_objects (delete kind (map_objects w)) w);; mret (removals ++ [oid])
  | None, false =>
      oid ← call (create_qos_map kind entries);
      modify (λ w, with_map_objects (<[kind := oid]> (map_objects w)) w);; mret removals
  | None, true => mret removals
  end.

Record SetQosMapsRequest := mkSetQosMapsRequest { r_dscp_to_tc : list (N * N); r_cos_to_tc : list (N * N);
  r_tc_to_dscp : list (N * N); r_tc_to_cos : list (N * N) }.

Definition set_qos_maps (req : SetQosMapsRequest) : M unit :=
  dscp_to_tc ← map_entries "dscp-to-tc" 63 7 (r_dscp_to_tc req);
  cos_to_tc ← map_entries "cos-to-tc" 7 7 (r_cos_to_tc req);
  tc_to_dscp ← map_entries "tc-to-dscp" 7 63 (r_tc_to_dscp req);
  tc_to_cos ← map_entries "tc-to-cos" 7 7 (r_tc_to_cos req);
  let wanted := mkQosMaps dscp_to_tc cos_to_tc tc_to_dscp tc_to_cos in
  w ← read qos;
  if decide (maps w = wanted) then mret tt
  else
    each (λ _ kind, if decide (table wanted kind = ∅) then mret tt else require_qos_maps kind) tt MAP_TYPES;;
    removals ← each (settle_map (maps w) wanted (map_objects w)) [] MAP_TYPES;
    modify (with_maps wanted);;
    ports ← read qos_ports_ordered;
    apply_qos_targets ports;;
    each (λ _ oid, call (remove_qos_map oid)) tt removals.

Record QueueQos := mkQueueQos { rq_queue : N; rq_strict : bool; rq_weight : N; rq_shape_bps : option N; rq_wred_profile : string }.

Record SetPortQosRequest := mkSetPortQosRequest { rp_port : string; rp_trust : string; rp_default_tc : N;
  rp_shape_bps : option N; rp_queues : list QueueQos }.

Definition read_queue (port : string) (out : gmap N QueueQosProgram) (q : QueueQos) : M (gmap N QueueQosProgram) :=
  d ← read id;
  let queue_count := qos_queue_count d in
  check (negb ((rq_queue q <? 256) && (rq_queue q <? queue_count))) InvalidArgument "{}: queue {} is out of range (0..{})"
    [port; to_dec (rq_queue q); to_dec (queue_count - 1)];;
  check (127 <? rq_weight q) InvalidArgument "{} queue {index}: weight {} is out of range (1..127)"
    [port; to_dec (rq_queue q); to_dec (rq_weight q)];;
  check (rq_strict q && (0 <? rq_weight q)) InvalidArgument "{} queue {index}: strict and weight are mutually exclusive"
    [port; to_dec (rq_queue q)];;
  check (bool_decide (is_Some (rq_shape_bps q)) && negb (queue_shaper (capabilities (sai d)))) FailedPrecondition
    "per-queue shapers are not supported by this platform's SAI" [];;
  check (negb (bool_decide (rq_wred_profile q = "")) && negb (bool_decide (is_Some (wred_profiles (qos d) !! rq_wred_profile q))))
    FailedPrecondition "{} queue {index}: no such qos wred-profile {:?}" [port; to_dec (rq_queue q); rq_wred_profile q];;
  mret (<[rq_queue q := mkQueueQosProgram (rq_strict q) (if rq_weight q =? 0 then 1 else rq_weight q) (rq_shape_bps q)
    (rq_wred_profile q)]> out).

Definition set_port_qos (req : SetPortQosRequest) : M unit :=
  trust ← lift (parse_trust (rp_trust req)) InvalidArgument "{}: trust must be dscp, cos or untrusted (got {:?})"
    [rp_port req; rp_trust req];
  check (7 <? rp_default_tc req) InvalidArgument "{}: default-tc {} is out of range (0..7)"
    [rp_port req; to_dec (rp_default_tc req)];;
  queues ← each (read_queue (rp_port req)) ∅ (rp_queues req);
  let queues := btree_retain (λ _ program, negb (bool_decide (program = default_program_queue))) queues in
  targets ← physical_targets (rp_port req);
  modify (λ w, with_programs (<[rp_port req := mkPortQosProgram trust (rp_default_tc req) (rp_shape_bps req) queues]>
    (programs w)) w);;
  apply_qos_targets targets.

Definition clear_port_qos (port : string) : M unit :=
  targets ← physical_targets port;
  modify (λ w, with_programs (delete port (programs w)) w);;
  apply_qos_targets targets.

Definition ensure_wred_profile (profile : option WredProfile) : M unit :=
  profile ← lift profile InvalidArgument "wred profile is required" [];
  check (bool_decide (p_name profile = "")) InvalidArgument "wred profile name is required" [];;
  s ← wred_spec profile;
  caps ← read (λ d, capabilities (sai d));
  let buffer_kb := buffer_bytes_total caps / 1024 in
  check ((0 <? buffer_kb) && (buffer_kb <? max_threshold_kb profile)) FailedPrecondition
    "qos wred-profile {}: max-threshold {} KB exceeds this platform's {buffer_kb} KB packet buffer"
    [p_name profile; to_dec (max_threshold_kb profile)];;
  w ← read qos;
  let st := default default_profile (wred_profiles w !! p_name profile) in
  modify (with_profiles (<[p_name profile := mkWredProfileState s (w_oid st) (refs st)]> (wred_profiles w)));;
  if bool_decide (spec st = s) then mret tt
  else
    match w_oid st with
    | Some oid =>
        check (ecn s && negb (cap_ecn caps)) FailedPrecondition "ECN marking is not supported by this platform's SAI" [];;
        call (set_wred oid s)
    | None => mret tt
    end.

Definition remove_wred_profile (name : string) : M unit :=
  w ← read qos;
  match wred_profiles w !! name with
  | None => mret tt
  | Some st =>
      check (0 <? refs st) FailedPrecondition "qos wred-profile {name} is still bound by {} queue(s)" [name; to_dec (refs st)];;
      modify (with_profiles (delete name (wred_profiles w)));;
      match w_oid st with Some oid => call (remove_wred oid) | None => mret tt end
  end.

(** [set_lag_members] of service.rs, as far as QoS goes: new members are
    looked up, the members are stored and the channel's program is re-expanded
    to those that left and those that are in.  The membership calls to the
    backend, the gates, the storm levels and the ACLs are left out. *)
Definition set_lag_members (g : N) (wanted : gset string) : M unit :=
  d ← read id;
  lag ← lift (lags d !! g) FailedPrecondition "Port-Channel{group} not created" [to_dec g];
  each (λ _ name, lift (ports d !! name) NotFound "no port {name:?}" [name];; mret tt) tt (bset_iter (wanted ∖ members lag));;
  (λ d, (Ok tt, with_lags (<[g := mkLagState (group lag) (lag_sai_id lag) wanted]> (lags d)) d));;
  refresh_lag_qos g (bset_iter (members lag ∖ wanted)) (bset_iter wanted).

(** ** What is shown *)

Record QueueQosState := mkQueueQosState { s_queue : N; s_strict : bool; s_weight : N; s_shape_bps : option N; s_ecn : bool;
  s_wred_profile : string }.
Record PortQosState := mkPortQosState { s_port : string; s_trust : string; s_default_tc : N; sp_shape_bps : option N;
  s_queues : list QueueQosState; configured : bool; via_port_channel : string }.

(** Without the live counters of the queues. *)
Definition qos_port_row (d : Daemon) (name : string) : PortQosState :=
  let '(src, program) := default ("", default_program) (resolved_qos d name) in
  let ecn_of profile := match wred_profiles (qos d) !! profile with Some st => ecn (spec st) | None => false end in
  mkPortQosState name (trust_word (trust program)) (default_tc program) (shape_bps program)
    ((λ queue,
        let q := default default_program_queue (queues program !! queue) in
        mkQueueQosState queue (q_strict q) (if q_weight q =? 0 then 1 else q_weight q) (q_shape_bps q)
          (negb (bool_decide (wred_profile q = "")) && ecn_of (wred_profile q)) (wred_profile q))
      <$> seqN (qos_queue_count d))
    (negb (bool_decide (src = ""))) (if decide (src = name) then "" else src).
