(* ===== verification/QosSound.v ===== *)
(** * The QoS engine is exact

    After any sequence of requests the switch is programmed with exactly what
    the daemon was asked for, and its scheduler and WRED objects are exactly
    those in use. *)

From Stdlib Require Import NArith Lia.
From stdpp Require Import base tactics list strings option gmap sets.
From S2P Require Import Prelude Text SaiMock Refcount Qos.

Local Open Scope N_scope.

(** ** Requests that succeed *)

(** Take a successful step apart. *)
Lemma step_ok {A B} (m : M A) (f : A → M B) d b d' :
  (m ≫= f) d = (Ok b, d') → ∃ a d1, m d = (Ok a, d1) ∧ f a d1 = (Ok b, d').
Proof. unfold mbind, M_bind. destruct (m d) as [[a|e] d1]; [|done]. eauto. Qed.

Lemma call_ok {A} (c : Call A) d a d' : call c d = (Ok a, d') → ∃ b, c (sai d) = Ok (a, b) ∧ d' = with_sai b d.
Proof. unfold call. destruct (c (sai d)) as [[x b]|e]; [|done]. intros [= <- <-]. eauto. Qed.

Lemma check_ok b c msg args d u d' : check b c msg args d = (Ok u, d') → b = false ∧ d' = d.
Proof. unfold check. destruct b; [done|]. by intros [= _ <-]. Qed.

Lemma lift_ok {A} (o : option A) c msg args d a d' : lift o c msg args d = (Ok a, d') → o = Some a ∧ d' = d.
Proof. unfold lift. destruct o; [|done]. by intros [= <- <-]. Qed.

Lemma read_ok {A} (f : Daemon → A) d a d' : read f d = (Ok a, d') → a = f d ∧ d' = d.
Proof. by intros [= <- <-]. Qed.

Lemma modify_ok f d u d' : modify f d = (Ok u, d') → d' = with_qos (f (qos d)) d.
Proof. by intros [= _ <-]. Qed.

Lemma ret_ok {A} (a : A) d a' d' : (mret a : M A) d = (Ok a', d') → a' = a ∧ d' = d.
Proof. by intros [= <- <-]. Qed.

(** ** What a successful call did *)

Lemma result_bind_ok {E A B} (m : result E A) (f : A → result E B) b :
  (m ≫= f) = Ok b → ∃ a, m = Ok a ∧ f a = Ok b.
Proof. destruct m; [|done]. eauto. Qed.

Ltac effect :=
  intros H;
  repeat match type of H with (_ ≫= _) = Ok _ => apply result_bind_ok in H as (? & _ & H) end;
  repeat (case_match; try done); simplify_eq; eauto.

Lemma create_scheduler_ok s b o b' :
  create_scheduler s b = Ok (o, b') →
  o = MOCK_SCHEDULER_OID_BASE + (next_oid b + 1) ∧ b' = with_schedulers (<[o := s]> (schedulers b)) (with_next (next_oid b + 1) b).
Proof. unfold create_scheduler, alloc. effect. Qed.

Lemma remove_scheduler_ok o b u b' : remove_scheduler o b = Ok (u, b') → b' = with_schedulers (delete o (schedulers b)) b.
Proof. unfold remove_scheduler. effect. Qed.

(** [insert] or [remove]. *)
Definition put {K V} `{Countable K} (k : K) (v : option V) (m : gmap K V) : gmap K V :=
  match v with Some v => <[k := v]> m | None => delete k m end.

Lemma bind_queue_scheduler_ok i q o b u b' :
  bind_queue_scheduler i q o b = Ok (u, b') → b' = with_queue_schedulers (put (i, q) o (queue_schedulers b)) b.
Proof. unfold bind_queue_scheduler. effect. Qed.

Lemma create_wred_ok s b o b' :
  create_wred s b = Ok (o, b') →
  o = MOCK_WRED_OID_BASE + (next_oid b + 1) ∧ b' = with_wreds (<[o := s]> (wreds b)) (with_next (next_oid b + 1) b).
Proof. unfold create_wred, alloc. effect. Qed.

Lemma remove_wred_ok o b u b' : remove_wred o b = Ok (u, b') → b' = with_wreds (delete o (wreds b)) b.
Proof. unfold remove_wred. effect. Qed.

Lemma set_wred_ok o s b u b' : set_wred o s b = Ok (u, b') → b' = with_wreds (<[o := s]> (wreds b)) b.
Proof. unfold set_wred. effect. Qed.

Lemma bind_queue_wred_ok i q o b u b' :
  bind_queue_wred i q o b = Ok (u, b') → b' = with_queue_wreds (put (i, q) o (queue_wreds b)) b.
Proof. unfold bind_queue_wred. effect. Qed.

Lemma set_port_qos_map_binding_ok i k o b u b' :
  set_port_qos_map_binding i k o b = Ok (u, b') → b' = with_port_qos_maps (put (i, k) o (port_qos_maps b)) b.
Proof. unfold set_port_qos_map_binding. effect. Qed.

Lemma set_port_default_tc_ok i tc b u b' :
  set_port_default_tc i tc b = Ok (u, b') → b' = with_port_default_tc (<[i := tc]> (port_default_tc b)) b.
Proof. unfold set_port_default_tc. effect. Qed.

Lemma set_port_shaper_ok i r b u b' :
  set_port_shaper i r b = Ok (u, b') → b' = with_port_shapers (put i r (port_shapers b)) b.
Proof. unfold set_port_shaper. effect. Qed.

Lemma create_qos_map_ok k l b o b' :
  create_qos_map k l b = Ok (o, b') →
  o = MOCK_QOS_MAP_OID_BASE + (next_oid b + 1) ∧ b' = with_qos_maps (<[o := (k, l)]> (qos_maps b)) (with_next (next_oid b + 1) b).
Proof. unfold create_qos_map, alloc. effect. Qed.

Lemma set_qos_map_ok o l b u b' :
  set_qos_map o l b = Ok (u, b') →
  ∃ k l', qos_maps b !! o = Some (k, l') ∧ b' = with_qos_maps (<[o := (k, l)]> (qos_maps b)) b.
Proof. unfold set_qos_map. effect. Qed.

Lemma remove_qos_map_ok o b u b' :
  remove_qos_map o b = Ok (u, b') → b' = with_qos_maps (delete o (qos_maps b)) b.
Proof. unfold remove_qos_map. effect. Qed.

(** One step of a handler after the other. *)
Ltac steps :=
  repeat match goal with
  | H : (_ ≫= _) _ = (Ok _, _) |- _ => apply step_ok in H as (? & ? & ? & H)
  | H : call _ _ = (Ok _, _) |- _ => apply call_ok in H as (? & ? & ->)
  | H : check _ _ _ _ _ = (Ok _, _) |- _ => apply check_ok in H as [? ->]
  | H : lift _ _ _ _ _ = (Ok _, _) |- _ => apply lift_ok in H as [? ->]
  | H : read _ _ = (Ok _, _) |- _ => apply read_ok in H as [-> ->]
  | H : modify _ _ = (Ok _, _) |- _ => apply modify_ok in H as ->
  | H : mret _ _ = (Ok _, _) |- _ => apply ret_ok in H as [-> ->]
  | H : create_scheduler _ _ = Ok _ |- _ => apply create_scheduler_ok in H as [-> ->]
  | H : remove_scheduler _ _ = Ok _ |- _ => apply remove_scheduler_ok in H as ->
  | H : bind_queue_scheduler _ _ _ _ = Ok _ |- _ => apply bind_queue_scheduler_ok in H as ->
  | H : create_wred _ _ = Ok _ |- _ => apply create_wred_ok in H as [-> ->]
  | H : remove_wred _ _ = Ok _ |- _ => apply remove_wred_ok in H as ->
  | H : set_wred _ _ _ = Ok _ |- _ => apply set_wred_ok in H as ->
  | H : bind_queue_wred _ _ _ _ = Ok _ |- _ => apply bind_queue_wred_ok in H as ->
  | H : set_port_qos_map_binding _ _ _ _ = Ok _ |- _ => apply set_port_qos_map_binding_ok in H as ->
  | H : set_port_default_tc _ _ _ = Ok _ |- _ => apply set_port_default_tc_ok in H as ->
  | H : set_port_shaper _ _ _ = Ok _ |- _ => apply set_port_shaper_ok in H as ->
  | H : create_qos_map _ _ _ = Ok _ |- _ => apply create_qos_map_ok in H as [-> ->]
  | H : remove_qos_map _ _ = Ok _ |- _ => apply remove_qos_map_ok in H as ->
  end.

(** ** The tables at a port *)

Definition app (d : Daemon) (p : string) : AppliedPortQos := default default_applied (applied (qos d) !! p).

(** What is programmed while port [p] is at [c]. *)
Definition upd (A : string → AppliedPortQos) (p : string) (c : AppliedPortQos) : string → AppliedPortQos :=
  λ p', if decide (p' = p) then c else A p'.

Lemma upd_eq A p c : upd A p c p = c.
Proof. unfold upd. by rewrite decide_True. Qed.

Lemma upd_ne A p c p' : p' ≠ p → upd A p c p' = A p'.
Proof. intros. unfold upd. by rewrite decide_False. Qed.

(** The platform's tables. *)
Record platform_ok (d : Daemon) : Prop := {
  po_inj : ∀ p p' e e', ports d !! p = Some e → ports d !! p' = Some e' → sai_id e = sai_id e' → p = p';
  po_name : ∀ p e, ports d !! p = Some e → lag_group_of p = None;
  po_group : ∀ g l, lags d !! g = Some l → group l = g ∧ 1 ≤ g ≤ 64;
  po_members : ∀ g l p, lags d !! g = Some l → p ∈ members l → is_Some (ports d !! p) }.

(** ** Schedulers *)

Definition sched_next (b : MockBackend) : N := MOCK_SCHEDULER_OID_BASE + next_oid b.

Definition sched_inv (d : Daemon) (A : string → AppliedPortQos) (pend : option SchedulerSpec) : Prop :=
  ∃ hold,
    pool_inv (w_schedulers (qos d)) (dom (schedulers (sai d))) (queue_schedulers (sai d)) hold pend
    ∧ (∀ p e q, ports d !! p = Some e → hold !! (sai_id e, q) = fst <$> a_queue_schedulers (A p) !! q)
    ∧ (∀ s o n, w_schedulers (qos d) !! s = Some (o, n) → schedulers (sai d) !! o = Some s ∧ s ≠ default_queue)
    ∧ (∀ o, o ∈ dom (schedulers (sai d)) → o ≤ sched_next (sai d)).

(** What the scheduler code changes, and nothing else. *)
Definition sched_move (d d' : Daemon) : Prop :=
  ∃ ws objs binds n, next_oid (sai d) ≤ n
    ∧ d' = with_qos (with_world_schedulers ws (qos d))
             (with_sai (with_schedulers objs (with_queue_schedulers binds (with_next n (sai d)))) d).

Lemma sched_move_refl d : sched_move d d.
Proof. exists (w_schedulers (qos d)), (schedulers (sai d)), (queue_schedulers (sai d)), (next_oid (sai d)). split; [lia|]. by destruct d as [[] [] ? ? ?]. Qed.

Lemma sched_move_trans d1 d2 d3 : sched_move d1 d2 → sched_move d2 d3 → sched_move d1 d3.
Proof. intros (ws & o & b & n & Hn & ->) (ws' & o' & b' & n' & Hn' & ->). exists ws', o', b', n'. split; [cbn in Hn'; lia|done]. Qed.

Lemma acquire_scheduler_ok d A s r d' :
  sched_inv d A None → acquire_scheduler s d = (Ok r, d') →
  sched_move d d' ∧
  if is_default s then r = None ∧ sched_inv d' A None
  else ∃ o n, r = Some o ∧ w_schedulers (qos d') !! s = Some (o, n) ∧ sched_inv d' A (Some s).
Proof.
  intros (hold & Hp & Hh & Hc & Hf) H. unfold acquire_scheduler in H. destruct (is_default s) eqn:Ed.
  { steps. split; [apply sched_move_refl|]. split; [done|]. by exists hold. }
  apply bool_decide_eq_false in Ed. steps. destruct (w_schedulers (qos d) !! s) as [[o n]|] eqn:Es.
  - steps. split.
    { eexists _, (schedulers (sai d)), (queue_schedulers (sai d)), (next_oid (sai d)). split; [lia|].
      by destruct d as [? [] ? ? ?]. }
    exists o, (n + 1). split_and!; [done|cbn; by rewrite lookup_insert_eq|]. exists hold. split_and!; [|done| |done].
    + by apply (pool_acquire _ _ _ _ _ Hp).
    + intros s' o' n'. cbn. destruct (decide (s' = s)) as [->|]; [rewrite lookup_insert_eq|by rewrite lookup_insert_ne by done; apply Hc].
      intros [= <- _]. by eapply Hc.
  - steps. cbn in H. rewrite Es in H. steps. split.
    { eexists _, _, (queue_schedulers (sai d)), (next_oid (sai d) + 1). split; [lia|]. by destruct d as [? [] ? ? ?]. }
    set (o := MOCK_SCHEDULER_OID_BASE + (next_oid (sai d) + 1)).
    assert (o ∉ dom (schedulers (sai d))) as Hfresh by (intros Hin%Hf; unfold sched_next, o in Hin; lia).
    exists o, 1. split_and!; [done|cbn; by rewrite lookup_insert_eq|]. exists hold. cbn. split_and!; [|done| |].
    + rewrite dom_insert_L. by apply (pool_create _ _ _ _ _ Hp).
    + intros s' o' n'. destruct (decide (s' = s)) as [->|].
      * rewrite lookup_insert_eq. intros [= <- _]. by rewrite lookup_insert_eq.
      * rewrite lookup_insert_ne by done. intros E. destruct (Hc _ _ _ E) as [Ho ?]. split; [|done].
        rewrite lookup_insert_ne; [done|]. intros Heq. apply Hfresh. rewrite Heq. by apply elem_of_dom_2 in Ho.
    + rewrite dom_insert_L. intros o' [->%elem_of_singleton|Hin%Hf]%elem_of_union; unfold sched_next, o in *; cbn; lia.
Qed.

Lemma release_scheduler_ok d A s u d' :
  s ≠ default_queue → sched_inv d A (Some s) → release_scheduler s d = (Ok u, d') →
  sched_move d d' ∧ sched_inv d' A None.
Proof.
  intros Hs (hold & Hp & Hh & Hc & Hf) H. unfold release_scheduler in H.
  assert (is_default s = false) as Ed by (by apply bool_decide_eq_false). rewrite Ed in H. steps.
  destruct (pi_pend _ _ _ _ _ Hp _ eq_refl) as [[o n] Es]. rewrite Es in H. destruct (N.ltb_spec 1 n) as [Hn|Hn].
  - steps. split.
    { eexists _, (schedulers (sai d)), (queue_schedulers (sai d)), (next_oid (sai d)). split; [lia|]. by destruct d as [? [] ? ? ?]. }
    exists hold. cbn. split_and!; [by apply (pool_release_some _ _ _ _ _ Hp)|done| |done].
    intros s' o' n'. destruct (decide (s' = s)) as [->|]; [rewrite lookup_insert_eq|by rewrite lookup_insert_ne by done; apply Hc].
    intros [= <- _]. by eapply Hc.
  - steps. split.
    { eexists _, _, (queue_schedulers (sai d)), (next_oid (sai d)). split; [lia|]. by destruct d as [? [] ? ? ?]. }
    destruct (pool_release_last _ _ _ _ _ Hp s o n eq_refl Es Hn) as [_ Hp']. exists hold. cbn. split_and!; [by rewrite dom_delete_L|done| |].
    + intros s' o' n' [Hne E]%lookup_delete_Some. destruct (Hc _ _ _ E) as [Ho ?]. split; [|done].
      rewrite lookup_delete_ne; [done|]. intros ->. apply Hne. by eapply (pi_inj _ _ _ _ _ Hp).
    + intros o'. rewrite dom_delete_L. intros [Hin _]%elem_of_difference. by apply Hf.
Qed.

(** The record with other schedulers, and with other WRED profiles. *)
Definition with_scheds m (c : AppliedPortQos) : AppliedPortQos :=
  mkAppliedPortQos (source c) (a_trust c) (a_default_tc c) (a_shape_bps c) m (a_queue_wreds c) (bound_maps c).
Definition with_queue_profiles m (c : AppliedPortQos) : AppliedPortQos :=
  mkAppliedPortQos (source c) (a_trust c) (a_default_tc c) (a_shape_bps c) (a_queue_schedulers c) m (bound_maps c).

(** The scheduler a queue is given: none at the platform's default. *)
Definition given (s : SchedulerSpec) : option SchedulerSpec := if is_default s then None else Some s.

Lemma lookup_put {K V} `{Countable K} (k : K) (v : option V) (m : gmap K V) k' :
  put k v m !! k' = if decide (k' = k) then v else m !! k'.
Proof. unfold put. destruct v; case_decide; subst; by rewrite ?lookup_insert_eq, ?lookup_insert_ne, ?lookup_delete_eq, ?lookup_delete_ne. Qed.

Lemma sched_inv_ext d A A' pend :
  (∀ p e, ports d !! p = Some e → a_queue_schedulers (A' p) = a_queue_schedulers (A p)) → sched_inv d A pend → sched_inv d A' pend.
Proof. intros HA (hold & Hp & Hh & H). exists hold. split_and!; try apply H; [done|]. intros p e q Hpe. rewrite (HA p e Hpe). by apply Hh. Qed.

Lemma hold_put {K V : Type} (d : Daemon) (hold : gmap (N * N) K) (field : AppliedPortQos → gmap N V) (f : V → K) A p e q v c :
  platform_ok d → ports d !! p = Some e →
  (∀ p e q, ports d !! p = Some e → hold !! (sai_id e, q) = f <$> field (A p) !! q) →
  field c = put q v (field (A p)) →
  ∀ p' e' q', ports d !! p' = Some e' → put (sai_id e, q) (f <$> v) hold !! (sai_id e', q') = f <$> field (upd A p c p') !! q'.
Proof.
  intros Hpl He Hh Hc p' e' q' He'. rewrite lookup_put. destruct (decide (p' = p)) as [->|Hne].
  - rewrite upd_eq, Hc, lookup_put. assert (e' = e) as -> by congruence. repeat case_decide; simplify_eq; try done. by apply Hh.
  - rewrite upd_ne by done. rewrite decide_False; [by apply Hh|]. intros [= E _]. apply Hne. by eapply (po_inj d Hpl).
Qed.

Lemma apply_scheduler_ok d A p e q want c c' d' :
  platform_ok d → ports d !! p = Some e → sched_inv d A None → a_queue_schedulers c = a_queue_schedulers (A p) →
  apply_scheduler (sai_id e) q want c d = (Ok c', d') →
  sched_move d d' ∧ sched_inv d' (upd A p c') None
  ∧ ∃ v, c' = with_scheds (put q v (a_queue_schedulers c)) c ∧ fst <$> v = given want.
Proof.
  intros Hpl He Hinv Hc H. unfold apply_scheduler in H. case_bool_decide as Hsame.
  - apply ret_ok in H as [-> ->]. split; [apply sched_move_refl|]. split.
    { eapply sched_inv_ext; [|exact Hinv]. intros p' e' _. unfold upd. case_decide; by subst. }
    exists (a_queue_schedulers c !! q). split; [|].
    + destruct c as [? ? ? ? qs ? ?]. unfold with_scheds. cbn. f_equal. apply map_eq. intros q'. rewrite lookup_put. by case_decide; subst.
    + destruct Hinv as (hold & Hp & Hh & Hs & _). rewrite Hsame. unfold given.
      assert (hold !! (sai_id e, q) = Some want) as Hw by (rewrite (Hh p e q He), <-Hc; done).
      destruct (pi_hold _ _ _ _ _ Hp _ _ Hw) as [[o n] Ho]. destruct (Hs _ _ _ Ho) as [_ Hd].
      unfold is_default. by rewrite bool_decide_false.
  - apply step_ok in H as (new & d1 & Ha & H). apply (acquire_scheduler_ok d A) in Ha as [Hm1 Ha]; [|done].
    apply step_ok in H as (u1 & d2 & Hb & H). apply step_ok in H as (u2 & d3 & Hr & H).
    apply ret_ok in H as [-> ->]. steps.
    assert (ports d1 = ports d) as Hports by (by destruct Hm1 as (? & ? & ? & ? & _ & ->)).
    assert (fst <$> ((want,.) <$> new) = given want) as Hv.
    { unfold given. destruct (is_default want); [by destruct Ha as [-> _]|by destruct Ha as (o & n & -> & _)]. }
    set (qs := match new with Some oid => <[q := (want, oid)]> (a_queue_schedulers c) | None => delete q (a_queue_schedulers c) end) in *.
    assert (qs = put q ((want,.) <$> new) (a_queue_schedulers c)) as Eqs by (by destruct new).
    set (d2 := with_sai _ d1) in *. set (c' := mkAppliedPortQos _ _ _ _ qs _ _).
    assert (sched_move d1 d2) as Hm2.
    { exists (w_schedulers (qos d1)), (schedulers (sai d1)), (put (sai_id e, q) new (queue_schedulers (sai d1))), (next_oid (sai d1)). split; [lia|]. by destruct d1 as [[] [] ? ? ?]. }
    assert (sched_inv d2 (upd A p c') (fst <$> a_queue_schedulers c !! q)) as Hi2.
    { assert (∃ pend hold, pool_inv (w_schedulers (qos d1)) (dom (schedulers (sai d1))) (queue_schedulers (sai d1)) hold pend
        ∧ pool_inv (w_schedulers (qos d1)) (dom (schedulers (sai d1))) (put (sai_id e, q) new (queue_schedulers (sai d1)))
            (put (sai_id e, q) (given want) hold) (hold !! (sai_id e, q))
        ∧ sched_inv d1 A pend ∧ (∀ p e q, ports d1 !! p = Some e → hold !! (sai_id e, q) = fst <$> a_queue_schedulers (A p) !! q))
        as (pend & hold & Hp & Hp2 & (hold' & Hp' & _ & Hs & Hf) & Hh).
      { unfold given in *. destruct (is_default want).
        - destruct Ha as [-> (hold & Hp & Hh & Hs & Hf)]. exists None, hold. split_and!; [done|by apply (pool_unbind _ _ _ _ _ Hp)|by exists hold|done].
        - destruct Ha as (o & n & -> & Ho & (hold & Hp & Hh & Hs & Hf)). exists (Some want), hold.
          split_and!; [done|by eapply (pool_bind _ _ _ _ _ Hp)|by exists hold|done]. }
      exists (put (sai_id e, q) (given want) hold). split_and!; [|..].
      - rewrite Hc, <-(Hh p e q) by (by rewrite Hports). exact Hp2.
      - rewrite <-Hv. eapply (hold_put d1 hold a_queue_schedulers fst); [|by rewrite Hports|done|cbn; by rewrite Eqs, Hc].
        destruct Hm1 as (? & ? & ? & ? & _ & ->). by destruct Hpl; split.
      - exact Hs.
      - exact Hf. }
    assert (sched_move d2 d3 ∧ sched_inv d3 (upd A p c') None) as [Hm3 Hi3].
    { destruct (a_queue_schedulers c !! q) as [[s o]|] eqn:Eq; cbn in Hi2.
      - eapply release_scheduler_ok; [|exact Hi2|exact Hr]. destruct Hi2 as (hold & Hp & _ & Hs & _).
        destruct (pi_pend _ _ _ _ _ Hp _ eq_refl) as [[o' n'] Ho]. by destruct (Hs _ _ _ Ho).
      - steps. split; [apply sched_move_refl|done]. }
    split_and!; [exact (sched_move_trans _ _ _ Hm1 (sched_move_trans _ _ _ Hm2 Hm3))|done|].
    exists ((want,.) <$> new). split; [|done]. unfold c', with_scheds. by rewrite Eqs.
Qed.

(** ** WRED profiles *)

Definition wpool (m : gmap string WredProfileState) : gmap string (N * N) :=
  omap (λ st, (λ o, (o, refs st)) <$> w_oid st) m.

Lemma wpool_lookup m x o n :
  wpool m !! x = Some (o, n) ↔ ∃ s, m !! x = Some (mkWredProfileState s (Some o) n).
Proof.
  unfold wpool. rewrite lookup_omap_Some. split.
  - intros ([s oid r] & E & Hx). cbn in E. destruct oid; naive_solver.
  - intros [s Hx]. by exists (mkWredProfileState s (Some o) n).
Qed.

Lemma wpool_insert m x st :
  wpool (<[x := st]> m) = match w_oid st with Some o => <[x := (o, refs st)]> (wpool m) | None => delete x (wpool m) end.
Proof.
  unfold wpool. destruct st as [s [o|] r]; cbn.
  - by rewrite (omap_insert_Some _ _ _ _ (o, r)).
  - by rewrite omap_insert_None.
Qed.

Lemma wpool_delete m x : wpool (delete x m) = delete x (wpool m).
Proof. apply omap_delete. Qed.

Definition profile_sound (b : MockBackend) (st : WredProfileState) : Prop :=
  match w_oid st with Some o => wreds b !! o = Some (spec st) | None => refs st = 0 end.

Definition wred_next (b : MockBackend) : N := MOCK_WRED_OID_BASE + next_oid b.

Definition wred_inv (d : Daemon) (A : string → AppliedPortQos) (pend : option string) : Prop :=
  ∃ hold,
    pool_inv (wpool (wred_profiles (qos d))) (dom (wreds (sai d))) (queue_wreds (sai d)) hold pend
    ∧ (∀ p e q, ports d !! p = Some e → hold !! (sai_id e, q) = id <$> a_queue_wreds (A p) !! q)
    ∧ (∀ x st, wred_profiles (qos d) !! x = Some st → profile_sound (sai d) st ∧ x ≠ "")
    ∧ (∀ o, o ∈ dom (wreds (sai d)) → o ≤ wred_next (sai d)).

(** What the WRED code changes: not what a profile says. *)
Definition wred_move (d d' : Daemon) : Prop :=
  ∃ ps objs binds n, next_oid (sai d) ≤ n ∧ (∀ x, spec <$> ps !! x = spec <$> wred_profiles (qos d) !! x)
    ∧ d' = with_qos (with_profiles ps (qos d)) (with_sai (with_wreds objs (with_queue_wreds binds (with_next n (sai d)))) d).

Lemma wred_move_refl d : wred_move d d.
Proof. exists (wred_profiles (qos d)), (wreds (sai d)), (queue_wreds (sai d)), (next_oid (sai d)). split_and!; [lia|done|]. by destruct d as [[] [] ? ? ?]. Qed.

Lemma wred_move_trans d1 d2 d3 : wred_move d1 d2 → wred_move d2 d3 → wred_move d1 d3.
Proof.
  intros (ps & o & b & n & Hn & Hs & ->) (ps' & o' & b' & n' & Hn' & Hs' & ->). exists ps', o', b', n'.
  split_and!; [cbn in Hn'; lia| |done]. intros x. by rewrite (Hs' x), <-(Hs x).
Qed.

Lemma spec_insert (m : gmap string WredProfileState) x st s o r :
  m !! x = Some st → s = spec st → ∀ y, spec <$> <[x := mkWredProfileState s o r]> m !! y = spec <$> m !! y.
Proof.
  intros Hx -> y. destruct (decide (y = x)) as [->|]; [by rewrite lookup_insert_eq, Hx|by rewrite lookup_insert_ne].
Qed.

Lemma acquire_wred_ok d A x o d' :
  wred_inv d A None → acquire_wred x d = (Ok o, d') →
  wred_move d d' ∧ ∃ n, wpool (wred_profiles (qos d')) !! x = Some (o, n) ∧ wred_inv d' A (Some x).
Proof.
  intros (hold & Hp & Hh & Hc & Hf) H. unfold acquire_wred in H.
  apply step_ok in H as (w & d0 & Hr & H). apply read_ok in Hr as [-> ->].
  apply step_ok in H as ([s oid r] & d0 & Hl & H). apply lift_ok in Hl as [Hx ->]. cbn [w_oid spec refs] in H. destruct (Hc _ _ Hx) as [Hsound Hne].
  destruct oid as [o'|].
  - steps. unfold take_ref. rewrite Hx. cbn [spec w_oid refs]. split.
    { eexists _, (wreds (sai d)), (queue_wreds (sai d)), (next_oid (sai d)).
      split_and!; [lia|by apply (spec_insert _ _ _ s (Some o') (r + 1) Hx)|]. by destruct d as [? [] ? ? ?]. }
    assert (wpool (wred_profiles (qos d)) !! x = Some (o', r)) as Hw by (apply wpool_lookup; eauto).
    exists (r + 1). split; [cbn; rewrite wpool_insert; apply lookup_insert_eq|]. exists hold. cbn. split_and!; [|done| |done].
    + rewrite wpool_insert. by apply (pool_acquire _ _ _ _ _ Hp).
    + intros y st. destruct (decide (y = x)) as [->|]; [rewrite lookup_insert_eq|by rewrite lookup_insert_ne by done; apply Hc].
      by intros [= <-].
  - steps. cbn in *. simplify_eq. cbn in H. steps. split.
    { eexists _, _, (queue_wreds (sai d)), (next_oid (sai d) + 1). cbn [spec refs].
      split_and!; [lia|by apply (spec_insert _ _ _ s (Some (MOCK_WRED_OID_BASE + (next_oid (sai d) + 1))) (0 + 1) Hx)|]. by destruct d as [? [] ? ? ?]. }
    set (o := MOCK_WRED_OID_BASE + (next_oid (sai d) + 1)).
    assert (o ∉ dom (wreds (sai d))) as Hfresh by (intros Hin%Hf; unfold wred_next, o in Hin; lia).
    exists 1. cbn. split; [rewrite wpool_insert; apply lookup_insert_eq|]. exists hold. cbn. split_and!; [|done| |].
    + rewrite dom_insert_L, wpool_insert. apply (pool_create _ _ _ _ _ Hp); [done| |done].
      destruct (wpool _ !! x) as [[o' n']|] eqn:E; [|done]. apply wpool_lookup in E as [s' E]. congruence.
    + intros y st. destruct (decide (y = x)) as [->|].
      * rewrite lookup_insert_eq. intros [= <-]. split; [|done]. unfold profile_sound. cbn. by rewrite lookup_insert_eq.
      * rewrite lookup_insert_ne by done. intros E. destruct (Hc _ _ E) as [Hst ?]. split; [|done].
        unfold profile_sound in *. cbn. destruct (w_oid st); [|done].
        rewrite lookup_insert_ne; [done|]. intros Heq. apply Hfresh. rewrite Heq. by apply elem_of_dom_2 in Hst.
    + rewrite dom_insert_L. intros o' [->%elem_of_singleton|Hin%Hf]%elem_of_union; unfold wred_next, o in *; cbn; lia.
Qed.

Lemma release_wred_ok d A x u d' :
  wred_inv d A (Some x) → release_wred x d = (Ok u, d') → wred_move d d' ∧ wred_inv d' A None.
Proof.
  intros (hold & Hp & Hh & Hc & Hf) H. unfold release_wred in H. steps.
  destruct (pi_pend _ _ _ _ _ Hp _ eq_refl) as [[o n] Hw]. pose proof Hw as [s Hx]%wpool_lookup. rewrite Hx in H.
  destruct (Hc _ _ Hx) as [Hsound Hne]. cbn [refs spec w_oid] in H. destruct (N.ltb_spec 1 n) as [Hn|Hn].
  - steps. split.
    { eexists _, (wreds (sai d)), (queue_wreds (sai d)), (next_oid (sai d)).
      split_and!; [lia|by apply (spec_insert _ _ _ s (Some o) (n - 1) Hx)|]. by destruct d as [? [] ? ? ?]. }
    exists hold. cbn. split_and!; [|done| |done].
    + rewrite wpool_insert. by apply (pool_release_some _ _ _ _ _ Hp).
    + intros y st. destruct (decide (y = x)) as [->|]; [rewrite lookup_insert_eq|by rewrite lookup_insert_ne by done; apply Hc].
      by intros [= <-].
  - steps. split.
    { eexists _, _, (queue_wreds (sai d)), (next_oid (sai d)).
      split_and!; [lia|by apply (spec_insert _ _ _ s None 0 Hx)|]. by destruct d as [? [] ? ? ?]. }
    destruct (pool_release_last _ _ _ _ _ Hp x o n eq_refl Hw Hn) as [_ Hp']. exists hold. cbn. split_and!; [|done| |].
    + by rewrite dom_delete_L, wpool_insert.
    + intros y st. destruct (decide (y = x)) as [->|]; [rewrite lookup_insert_eq; by intros [= <-]|].
      rewrite lookup_insert_ne by done. intros E. destruct (Hc _ _ E) as [Hst ?]. split; [|done].
      unfold profile_sound in *. cbn. destruct (w_oid st) as [o'|] eqn:Eo; [|done].
      rewrite lookup_delete_ne; [done|]. intros ->. destruct st as [s' ? r']. cbn in Eo. subst.
      assert (wpool (wred_profiles (qos d)) !! y = Some (o', r')) as Hy by (apply wpool_lookup; eauto).
      pose proof (pi_inj _ _ _ _ _ Hp _ _ _ _ _ Hw Hy). congruence.
    + intros o'. rewrite dom_delete_L. intros [Hin _]%elem_of_difference. by apply Hf.
Qed.

(** The profile a queue names: none for the empty name. *)
Definition named (x : string) : option string := if decide (x = "") then None else Some x.

Lemma wred_inv_ext d A A' pend :
  (∀ p e, ports d !! p = Some e → a_queue_wreds (A' p) = a_queue_wreds (A p)) → wred_inv d A pend → wred_inv d A' pend.
Proof. intros HA (hold & Hp & Hh & H). exists hold. split_and!; try apply H; [done|]. intros p e q Hpe. rewrite (HA p e Hpe). by apply Hh. Qed.

Lemma apply_wred_ok d A p e q want c c' d' :
  platform_ok d → ports d !! p = Some e → wred_inv d A None → a_queue_wreds c = a_queue_wreds (A p) →
  apply_wred (sai_id e) q want c d = (Ok c', d') →
  wred_move d d' ∧ wred_inv d' (upd A p c') None
  ∧ c' = with_queue_profiles (put q (named want) (a_queue_wreds c)) c.
Proof.
  intros Hpl He Hinv Hc H. unfold apply_wred in H. case_bool_decide as Hsame.
  - apply ret_ok in H as [-> ->]. split; [apply wred_move_refl|]. split.
    { eapply wred_inv_ext; [|exact Hinv]. intros p' e' _. unfold upd. case_decide; by subst. }
    assert (a_queue_wreds c !! q = named want) as Hq.
    { unfold named. destruct Hinv as (hold & Hp & Hh & Hs & _). destruct (a_queue_wreds c !! q) as [x|] eqn:Eq; cbn in Hsame; subst want.
      - rewrite decide_False; [done|]. assert (hold !! (sai_id e, q) = Some x) as Hw by (rewrite (Hh p e q He), <-Hc, Eq; done).
        destruct (pi_hold _ _ _ _ _ Hp _ _ Hw) as [[o n] [s Ho]%wpool_lookup]. by apply (Hs _ _ Ho).
      - by rewrite decide_True. }
    destruct c as [? ? ? ? ? ws ?]. unfold with_queue_profiles. cbn in *. f_equal. apply map_eq. intros q'. rewrite lookup_put. by case_decide; subst.
  - apply step_ok in H as (new & d1 & Ha & H).
    assert (wred_move d d1 ∧ if decide (want = "") then new = None ∧ wred_inv d1 A None
      else ∃ o n, new = Some o ∧ wpool (wred_profiles (qos d1)) !! want = Some (o, n) ∧ wred_inv d1 A (Some want)) as [Hm1 Ha'].
    { destruct (decide (want = "")); [apply ret_ok in Ha as [-> ->]; split; [apply wred_move_refl|done]|].
      apply step_ok in Ha as (o & d2 & Ha & Hr). apply ret_ok in Hr as [-> ->].
      destruct (acquire_wred_ok _ _ _ _ _ Hinv Ha) as [? (n' & ? & ?)]. split; [done|]. by exists o, n'. }
    clear Ha. rename Ha' into Ha. apply step_ok in H as (u1 & d2 & Hb & H). apply step_ok in H as (u2 & d3 & Hr & H).
    apply ret_ok in H as [-> ->]. steps.
    assert (ports d1 = ports d) as Hports by (by destruct Hm1 as (? & ? & ? & ? & _ & _ & ->)).
    set (ws := if decide (want = "") then delete q (a_queue_wreds c) else <[q := want]> (a_queue_wreds c)) in *.
    assert (ws = put q (named want) (a_queue_wreds c)) as Ews by (unfold ws, named; by case_decide).
    set (d2 := with_sai _ d1) in *. set (c' := mkAppliedPortQos _ _ _ _ _ ws _).
    assert (wred_move d1 d2) as Hm2.
    { exists (wred_profiles (qos d1)), (wreds (sai d1)), (put (sai_id e, q) new (queue_wreds (sai d1))), (next_oid (sai d1)).
      split_and!; [lia|done|]. by destruct d1 as [[] [] ? ? ?]. }
    assert (wred_inv d2 (upd A p c') (a_queue_wreds c !! q)) as Hi2.
    { assert (∃ pend hold, pool_inv (wpool (wred_profiles (qos d1))) (dom (wreds (sai d1))) (queue_wreds (sai d1)) hold pend
        ∧ pool_inv (wpool (wred_profiles (qos d1))) (dom (wreds (sai d1))) (put (sai_id e, q) new (queue_wreds (sai d1)))
            (put (sai_id e, q) (named want) hold) (hold !! (sai_id e, q))
        ∧ wred_inv d1 A pend ∧ (∀ p e q, ports d1 !! p = Some e → hold !! (sai_id e, q) = id <$> a_queue_wreds (A p) !! q))
        as (pend & hold & Hp & Hp2 & (hold' & Hp' & _ & Hs & Hf) & Hh).
      { unfold named in *. destruct (decide (want = "")).
        - destruct Ha as [-> (hold & Hp & Hh & Hs & Hf)]. exists None, hold. split_and!; [done|by apply (pool_unbind _ _ _ _ _ Hp)|by exists hold|done].
        - destruct Ha as (o & n' & -> & Ho & (hold & Hp & Hh & Hs & Hf)). exists (Some want), hold.
          split_and!; [done|by eapply (pool_bind _ _ _ _ _ Hp)|by exists hold|done]. }
      exists (put (sai_id e, q) (named want) hold). split_and!; [|..].
      - rewrite Hc, <-(option_fmap_id (a_queue_wreds (A p) !! q)), <-(Hh p e q) by (by rewrite Hports). exact Hp2.
      - rewrite <-(option_fmap_id (named want)).
        eapply (hold_put d1 hold a_queue_wreds id); [|by rewrite Hports|done|cbn; by rewrite Ews, Hc].
        destruct Hm1 as (? & ? & ? & ? & _ & _ & ->). by destruct Hpl; split.
      - exact Hs.
      - exact Hf. }
    assert (wred_move d2 d3 ∧ wred_inv d3 (upd A p c') None) as [Hm3 Hi3].
    { destruct (a_queue_wreds c !! q) as [x|] eqn:Eq; cbn in Hi2.
      - eapply release_wred_ok; [exact Hi2|exact Hr].
      - steps. split; [apply wred_move_refl|done]. }
    split_and!; [exact (wred_move_trans _ _ _ Hm1 (wred_move_trans _ _ _ Hm2 Hm3))|done|].
    unfold c', with_queue_profiles. by rewrite Ews.
Qed.

(** ** Map bindings, classification and shapers *)

(** [rem] are the objects of emptied tables, with their kinds, still to be
    removed. *)
Definition bound_inv (d : Daemon) (A : string → AppliedPortQos) (rem : list (QosMapType * N)) : Prop :=
  (∀ p e k, ports d !! p = Some e → k ∈ bound_maps (A p) ↔ is_Some (port_qos_maps (sai d) !! (sai_id e, k)))
  ∧ (∀ i k o, port_qos_maps (sai d) !! (i, k) = Some o →
       (∃ p e, ports d !! p = Some e ∧ sai_id e = i)
       ∧ (map_objects (qos d) !! k = Some o ∨ map_objects (qos d) !! k = None ∧ (k, o) ∈ rem)).

Definition tc_inv (d : Daemon) (A : string → AppliedPortQos) : Prop :=
  ∀ p e, ports d !! p = Some e → default 0 (port_default_tc (sai d) !! sai_id e) = a_default_tc (A p).

Definition shaper_inv (d : Daemon) (A : string → AppliedPortQos) : Prop :=
  ∀ p e, ports d !! p = Some e → port_shapers (sai d) !! sai_id e = a_shape_bps (A p).

Definition with_bound (m : gset QosMapType) (c : AppliedPortQos) : AppliedPortQos :=
  mkAppliedPortQos (source c) (a_trust c) (a_default_tc c) (a_shape_bps c) (a_queue_schedulers c) (a_queue_wreds c) m.

(** What else a step of the reconciliation leaves as it is. *)
Record keeps (d d' : Daemon) : Prop := {
  k_ports : ports d' = ports d;
  k_lags : lags d' = lags d;
  k_queues : uc_queues d' = uc_queues d;
  k_maps : maps (qos d') = maps (qos d);
  k_objects : map_objects (qos d') = map_objects (qos d);
  k_programs : programs (qos d') = programs (qos d);
  k_specs : ∀ x, spec <$> wred_profiles (qos d') !! x = spec <$> wred_profiles (qos d) !! x;
  k_qos_maps : qos_maps (sai d') = qos_maps (sai d);
  k_next : next_oid (sai d) ≤ next_oid (sai d') }.

Lemma keeps_refl d : keeps d d.
Proof. split; try done; lia. Qed.

Lemma keeps_trans d1 d2 d3 : keeps d1 d2 → keeps d2 d3 → keeps d1 d3.
Proof.
  intros [] []; split; first [congruence | intros x; congruence | lia].
Qed.

Lemma sched_move_keeps d d' : sched_move d d' → keeps d d'.
Proof. intros (? & ? & ? & ? & ? & ->). by split. Qed.

Lemma wred_move_keeps d d' : wred_move d d' → keeps d d'.
Proof. intros (? & ? & ? & ? & ? & ? & ->). by split. Qed.

Lemma platform_keeps d d' : keeps d d' → platform_ok d → platform_ok d'.
Proof. intros [Ep El _ _ _ _ _ _ _] []. split; rewrite ?Ep, ?El; done. Qed.

(** ** Everything that is programmed *)

Record qos_inv (d : Daemon) (A : string → AppliedPortQos) (rem : list (QosMapType * N)) : Prop := {
  qi_sched : sched_inv d A None;
  qi_wred : wred_inv d A None;
  qi_bound : bound_inv d A rem;
  qi_tc : tc_inv d A;
  qi_shaper : shaper_inv d A }.

(** The parts that a step on one field of a port leaves alone. *)
Lemma bound_inv_ext d A A' rem :
  (∀ p e, ports d !! p = Some e → bound_maps (A' p) = bound_maps (A p)) → bound_inv d A rem → bound_inv d A' rem.
Proof. intros HA [H1 H2]. split; [|done]. intros p e k He. rewrite (HA p e He). by apply H1. Qed.

Lemma tc_inv_ext d A A' :
  (∀ p e, ports d !! p = Some e → a_default_tc (A' p) = a_default_tc (A p)) → tc_inv d A → tc_inv d A'.
Proof. intros HA H p e He. rewrite (HA p e He). by apply H. Qed.

Lemma shaper_inv_ext d A A' :
  (∀ p e, ports d !! p = Some e → a_shape_bps (A' p) = a_shape_bps (A p)) → shaper_inv d A → shaper_inv d A'.
Proof. intros HA H p e He. rewrite (HA p e He). by apply H. Qed.

Lemma sched_inv_fresh d d' A pend :
  w_schedulers (qos d') = w_schedulers (qos d) → schedulers (sai d') = schedulers (sai d) →
  queue_schedulers (sai d') = queue_schedulers (sai d) → ports d' = ports d → next_oid (sai d) ≤ next_oid (sai d') →
  sched_inv d A pend → sched_inv d' A pend.
Proof.
  intros E1 E2 E3 E4 Hn (hold & Hp & Hh & Hc & Hf). exists hold. rewrite E1, E2, E3, E4. split_and!; try done.
  intros o Ho%Hf. unfold sched_next in *. lia.
Qed.

Lemma wred_inv_fresh d d' A pend :
  wred_profiles (qos d') = wred_profiles (qos d) → wreds (sai d') = wreds (sai d) →
  queue_wreds (sai d') = queue_wreds (sai d) → ports d' = ports d → next_oid (sai d) ≤ next_oid (sai d') →
  wred_inv d A pend → wred_inv d' A pend.
Proof.
  intros E1 E2 E3 E4 Hn (hold & Hp & Hh & Hc & Hf). exists hold. rewrite E1, E2, E3, E4. split_and!; try done.
  - intros x st Hx. destruct (Hc x st Hx) as [Hs ?]. split; [|done]. unfold profile_sound in *. by rewrite E2.
  - intros o Ho%Hf. unfold wred_next in *. lia.
Qed.

(** An update of one field of the port under reconciliation leaves the
    invariants of the others. *)
Ltac same_field ext H :=
  eapply ext; [|exact H]; intros ? ? _; unfold upd;
  match goal with |- context [decide ?P] => destruct (decide P) end; [by subst|done].

Lemma inv_same d A rem p c : qos_inv d A rem → c = A p → qos_inv d (upd A p c) rem.
Proof.
  intros [Hs Hw Hb Ht Hsh] Hc. split; [same_field sched_inv_ext Hs|same_field wred_inv_ext Hw|same_field bound_inv_ext Hb
    |same_field tc_inv_ext Ht|same_field shaper_inv_ext Hsh].
Qed.

Lemma bool_decide_same (P Q : Prop) `{Decision P, Decision Q} : bool_decide P = bool_decide Q → P ↔ Q.
Proof. intros E. repeat case_bool_decide; naive_solver. Qed.

Lemma apply_map_ok d A rem p e wanted c k c' d' :
  platform_ok d → ports d !! p = Some e → qos_inv d A rem → c = A p →
  (k ∈ wanted → is_Some (map_objects (qos d) !! k)) →
  apply_map (sai_id e) wanted (map_objects (qos d)) c k d = (Ok c', d') →
  keeps d d' ∧ applied (qos d') = applied (qos d) ∧ qos_inv d' (upd A p c') rem
  ∧ ∃ B, c' = with_bound B c ∧ (k ∈ B ↔ k ∈ wanted) ∧ ∀ k', k' ≠ k → k' ∈ B ↔ k' ∈ bound_maps c.
Proof.
  intros Hpl He Hinv Hc Hk H. unfold apply_map in H. case_bool_decide as Hsame.
  - steps. split_and!; [apply keeps_refl|done|by apply inv_same|].
    exists (bound_maps c). split_and!; [by destruct c|by symmetry; apply (bool_decide_same _ _ Hsame)|done].
  - set (want := bool_decide (k ∈ wanted)) in *.
    assert (want = true ↔ k ∈ wanted) as Hwant by apply bool_decide_eq_true. clearbody want.
    assert (want = true → is_Some (map_objects (qos d) !! k)) as Hsome by (intros; by apply Hk, Hwant).
    destruct (want && bool_decide (_ = None)) eqn:Eskip.
    { apply andb_true_iff in Eskip as [-> E%bool_decide_eq_true]. destruct Hsome; [done|congruence]. }
    set (o := if want then map_objects (qos d) !! k else None) in *.
    assert (∀ B, B = (if want then {[k]} ∪ bound_maps c else bound_maps c ∖ {[k]}) →
      (k ∈ B ↔ k ∈ wanted) ∧ (k ∈ B ↔ is_Some o) ∧ ∀ k', k' ≠ k → k' ∈ B ↔ k' ∈ bound_maps c) as HB.
    { intros B ->. unfold o. rewrite <-Hwant. destruct want.
      - specialize (Hsome eq_refl). assert (k ∈ {[k]} ∪ bound_maps c) by (by apply elem_of_union_l, elem_of_singleton_2).
        split_and!; [done|done|]. intros k' Hne. rewrite elem_of_union, elem_of_singleton. tauto.
      - assert (k ∉ bound_maps c ∖ {[k]}) by (rewrite elem_of_difference, elem_of_singleton; tauto).
        split_and!; [split; done|split; [done|by intros [? ?]]|]. intros k' Hne. rewrite elem_of_difference, elem_of_singleton. tauto. }
    apply step_ok in H as (u & d1 & Hb & H). steps. specialize (HB _ eq_refl) as (HB1 & HB2 & HB3).
    set (B := if want then {[k]} ∪ bound_maps c else bound_maps c ∖ {[k]}) in *. split_and!; [by split; try done; cbn; lia|done| |by exists B].
    destruct Hinv as [Hs Hw [Hb1 Hb2] Ht Hsh]. fold (with_bound B c). split.
    + same_field sched_inv_ext Hs.
    + same_field wred_inv_ext Hw.
    + split; cbn.
      * intros p' e' k' He'. rewrite lookup_put. destruct (decide (p' = p)) as [->|Hne].
        { assert (e' = e) as -> by congruence. rewrite upd_eq. cbn.
          destruct (decide ((sai_id e, k') = (sai_id e, k))) as [Ek|Ek]; [by injection Ek as ->|].
          rewrite HB3 by naive_solver. subst c. by apply Hb1. }
        rewrite upd_ne by done. rewrite decide_False; [by apply Hb1|]. intros [= E _]. apply Hne. by eapply (po_inj d Hpl).
      * intros i k' o'. rewrite lookup_put.
        destruct (decide ((i, k') = (sai_id e, k))) as [Ek|Ek]; [|apply Hb2]. injection Ek as -> ->. intros Ho.
        split; [by exists p, e|]. left. unfold o in Ho. by destruct want.
    + same_field tc_inv_ext Ht.
    + same_field shaper_inv_ext Hsh.
Qed.

Lemma apply_tc_ok d A rem p e tc c c' d' :
  platform_ok d → ports d !! p = Some e → qos_inv d A rem → c = A p →
  apply_tc (sai_id e) tc c d = (Ok c', d') →
  keeps d d' ∧ applied (qos d') = applied (qos d) ∧ qos_inv d' (upd A p c') rem
  ∧ c' = mkAppliedPortQos (source c) (a_trust c) tc (a_shape_bps c) (a_queue_schedulers c) (a_queue_wreds c) (bound_maps c).
Proof.
  intros Hpl He Hinv Hc H. unfold apply_tc in H. case_bool_decide as Hsame.
  - steps. split_and!; [apply keeps_refl|done|by apply inv_same|subst; by destruct (A p)].
  - apply step_ok in H as (u & d1 & Hb & H). steps. split_and!; [by split; try done; cbn; lia|done| |done].
    destruct Hinv as [Hs Hw Hb Ht Hsh]. split.
    + same_field sched_inv_ext Hs.
    + same_field wred_inv_ext Hw.
    + same_field bound_inv_ext Hb.
    + intros p' e' He'. cbn in *. destruct (decide (p' = p)) as [->|Hne].
      { assert (e' = e) as -> by congruence. by rewrite upd_eq, lookup_insert_eq. }
      rewrite upd_ne, lookup_insert_ne by (done || intros E; apply Hne; by eapply (po_inj d Hpl)). by apply Ht.
    + same_field shaper_inv_ext Hsh.
Qed.

Lemma apply_shaper_ok d A rem p e bps c c' d' :
  platform_ok d → ports d !! p = Some e → qos_inv d A rem → c = A p →
  apply_shaper (sai_id e) bps c d = (Ok c', d') →
  keeps d d' ∧ applied (qos d') = applied (qos d) ∧ qos_inv d' (upd A p c') rem
  ∧ c' = mkAppliedPortQos (source c) (a_trust c) (a_default_tc c) bps (a_queue_schedulers c) (a_queue_wreds c) (bound_maps c).
Proof.
  intros Hpl He Hinv Hc H. unfold apply_shaper in H. case_bool_decide as Hsame.
  - steps. split_and!; [apply keeps_refl|done|by apply inv_same|subst; by destruct (A p)].
  - apply step_ok in H as (u & d1 & Hb & H). steps. split_and!; [by split; try done; cbn; lia|done| |done].
    destruct Hinv as [Hs Hw Hb Ht Hsh]. split.
    + same_field sched_inv_ext Hs.
    + same_field wred_inv_ext Hw.
    + same_field bound_inv_ext Hb.
    + same_field tc_inv_ext Ht.
    + intros p' e' He'. cbn in *. rewrite lookup_put. destruct (decide (p' = p)) as [->|Hne].
      { assert (e' = e) as -> by congruence. by rewrite upd_eq, decide_True. }
      rewrite upd_ne, decide_False by (done || intros E; apply Hne; by eapply (po_inj d Hpl)). by apply Hsh.
Qed.

Lemma qos_inv_pw d A A' rem : (∀ p, A' p = A p) → qos_inv d A rem → qos_inv d A' rem.
Proof.
  intros HA [Hs Hw Hb Ht Hsh]. split.
  - eapply sched_inv_ext; [|exact Hs]. intros. by rewrite HA.
  - eapply wred_inv_ext; [|exact Hw]. intros. by rewrite HA.
  - eapply bound_inv_ext; [|exact Hb]. intros. by rewrite HA.
  - eapply tc_inv_ext; [|exact Ht]. intros. by rewrite HA.
  - eapply shaper_inv_ext; [|exact Hsh]. intros. by rewrite HA.
Qed.

Lemma upd_upd A p c c' p' : upd (upd A p c) p c' p' = upd A p c' p'.
Proof. unfold upd. by destruct (decide (p' = p)). Qed.

Lemma apply_scheduler_inv d A rem p e q want c c' d' :
  platform_ok d → ports d !! p = Some e → qos_inv d A rem → c = A p →
  apply_scheduler (sai_id e) q want c d = (Ok c', d') →
  keeps d d' ∧ applied (qos d') = applied (qos d) ∧ qos_inv d' (upd A p c') rem
  ∧ ∃ v, c' = with_scheds (put q v (a_queue_schedulers c)) c ∧ fst <$> v = given want.
Proof.
  intros Hpl He Hinv Hc H. destruct Hinv as [Hs Hw Hb Ht Hsh].
  destruct (apply_scheduler_ok d A p e q want c c' d') as (Hm & Hs' & v & Ec & Hv); [done..|by subst|done|].
  split_and!; [by apply sched_move_keeps|by destruct Hm as (? & ? & ? & ? & ? & ->)| |by exists v].
  destruct Hm as (ws & objs & binds & n & Hn & ->). split; [done|..].
  - apply (wred_inv_fresh d); try done. rewrite Ec. same_field wred_inv_ext Hw.
  - rewrite Ec. same_field bound_inv_ext Hb.
  - rewrite Ec. same_field tc_inv_ext Ht.
  - rewrite Ec. same_field shaper_inv_ext Hsh.
Qed.

Lemma apply_wred_inv d A rem p e q want c c' d' :
  platform_ok d → ports d !! p = Some e → qos_inv d A rem → c = A p →
  apply_wred (sai_id e) q want c d = (Ok c', d') →
  keeps d d' ∧ applied (qos d') = applied (qos d) ∧ qos_inv d' (upd A p c') rem
  ∧ c' = with_queue_profiles (put q (named want) (a_queue_wreds c)) c.
Proof.
  intros Hpl He Hinv Hc H. destruct Hinv as [Hs Hw Hb Ht Hsh].
  destruct (apply_wred_ok d A p e q want c c' d') as (Hm & Hw' & Ec); [done..|by subst|done|].
  split_and!; [by apply wred_move_keeps|by destruct Hm as (? & ? & ? & ? & ? & ? & ->)| |done].
  destruct Hm as (ws & objs & binds & n & Hn & _ & ->). split; [|done|..].
  - apply (sched_inv_fresh d); try done. rewrite Ec. same_field sched_inv_ext Hs.
  - rewrite Ec. same_field bound_inv_ext Hb.
  - rewrite Ec. same_field tc_inv_ext Ht.
  - rewrite Ec. same_field shaper_inv_ext Hsh.
Qed.

(** ** Reconciling a port *)

Definition queue_program (prog : PortQosProgram) (q : N) : QueueQosProgram := default default_program_queue (queues prog !! q).

Definition queue_settled (c : AppliedPortQos) (prog : PortQosProgram) (q : N) : Prop :=
  fst <$> a_queue_schedulers c !! q = given (scheduler (queue_program prog q))
  ∧ a_queue_wreds c !! q = named (wred_profile (queue_program prog q)).

(** The same but for queues. *)
Definition same_port (c c' : AppliedPortQos) : Prop :=
  a_trust c' = a_trust c ∧ a_default_tc c' = a_default_tc c ∧ a_shape_bps c' = a_shape_bps c ∧ bound_maps c' = bound_maps c.

Lemma apply_queue_ok d A rem p e prog c q c' d' :
  platform_ok d → ports d !! p = Some e → qos_inv d A rem → c = A p →
  apply_queue (sai_id e) prog c q d = (Ok c', d') →
  keeps d d' ∧ applied (qos d') = applied (qos d) ∧ qos_inv d' (upd A p c') rem
  ∧ same_port c c' ∧ queue_settled c' prog q ∧ ∀ q', q' ≠ q → queue_settled c prog q' → queue_settled c' prog q'.
Proof.
  intros Hpl He Hinv Hc H. unfold apply_queue in H. apply step_ok in H as (c1 & d1 & H1 & H2).
  destruct (apply_scheduler_inv d A rem p e q _ c c1 d1 Hpl He Hinv Hc H1) as (Hk1 & Ha1 & Hi1 & v & Ec1 & Hv).
  destruct (apply_wred_inv d1 (upd A p c1) rem p e q (wred_profile (queue_program prog q)) c1 c' d') as (Hk2 & Ha2 & Hi2 & Ec2);
    [by eapply platform_keeps|by rewrite (k_ports _ _ Hk1)|done|by rewrite upd_eq|done|].
  split_and!; [by eapply keeps_trans|congruence|eapply qos_inv_pw; [|exact Hi2]; intros; by rewrite upd_upd| | |].
  - subst. by destruct (A p).
  - subst. split; cbn; rewrite lookup_put, decide_True by done; [exact Hv|done].
  - intros q' Hne [Hq1 Hq2]. subst. split; cbn in *; by rewrite lookup_put, decide_False.
Qed.

Lemma apply_queues_ok qs d A rem p e prog c c' d' :
  platform_ok d → ports d !! p = Some e → qos_inv d A rem → c = A p →
  each (apply_queue (sai_id e) prog) c qs d = (Ok c', d') →
  keeps d d' ∧ applied (qos d') = applied (qos d) ∧ qos_inv d' (upd A p c') rem
  ∧ same_port c c' ∧ (∀ q, q ∈ qs → queue_settled c' prog q) ∧ ∀ q, queue_settled c prog q → queue_settled c' prog q.
Proof.
  revert d A c. induction qs as [|q qs IH]; intros d A c Hpl He Hinv Hc H.
  - cbn in H. steps. split_and!; [apply keeps_refl|done|by apply inv_same|done|by intros q ?%elem_of_nil|done].
  - cbn [each] in H. apply step_ok in H as (c1 & d1 & H1 & H2).
    destruct (apply_queue_ok d A rem p e prog c q c1 d1 Hpl He Hinv Hc H1) as (Hk1 & Ha1 & Hi1 & Hs1 & Hq1 & Hr1).
    destruct (IH d1 (upd A p c1) c1) as (Hk2 & Ha2 & Hi2 & Hs2 & Hq2 & Hr2);
      [by eapply platform_keeps|by rewrite (k_ports _ _ Hk1)|done|by rewrite upd_eq|done|].
    split_and!; [by eapply keeps_trans|congruence|eapply qos_inv_pw; [|exact Hi2]; intros; by rewrite upd_upd| | |].
    + unfold same_port in *. intuition congruence.
    + intros q' [->|Hin]%elem_of_cons; [by apply Hr2|by apply Hq2].
    + intros q' Hq. apply Hr2. destruct (decide (q' = q)) as [->|]; [done|by apply Hr1].
Qed.

Lemma desired_maps_objects w t k : k ∈ desired_maps w t → is_Some (map_objects w !! k).
Proof.
  unfold desired_maps. rewrite elem_of_list_to_set, list_elem_of_filter. intros [E _]. by apply bool_decide_eq_true in E.
Qed.

Lemma apply_maps_ok ks d A rem p e wanted c c' d' :
  platform_ok d → ports d !! p = Some e → qos_inv d A rem → c = A p →
  (∀ k, k ∈ wanted → is_Some (map_objects (qos d) !! k)) →
  each (apply_map (sai_id e) wanted (map_objects (qos d))) c ks d = (Ok c', d') →
  keeps d d' ∧ applied (qos d') = applied (qos d) ∧ qos_inv d' (upd A p c') rem
  ∧ ∃ B, c' = with_bound B c ∧ (∀ k, k ∈ ks → k ∈ B ↔ k ∈ wanted) ∧ ∀ k, k ∉ ks → k ∈ B ↔ k ∈ bound_maps c.
Proof.
  revert d A c. induction ks as [|k ks IH]; intros d A c Hpl He Hinv Hc Hw H.
  - cbn in H. steps. split_and!; [apply keeps_refl|done|by apply inv_same|]. exists (bound_maps c).
    split_and!; [by destruct c|by intros k ?%elem_of_nil|done].
  - cbn [each] in H. apply step_ok in H as (c1 & d1 & H1 & H2).
    destruct (apply_map_ok d A rem p e wanted c k c1 d1 Hpl He Hinv Hc (Hw k) H1) as (Hk1 & Ha1 & Hi1 & B1 & Ec1 & Hb1 & Hr1).
    rewrite <-(k_objects _ _ Hk1) in H2.
    destruct (IH d1 (upd A p c1) c1) as (Hk2 & Ha2 & Hi2 & B & Ec & Hb & Hr);
      [by eapply platform_keeps|by rewrite (k_ports _ _ Hk1)|done|by rewrite upd_eq|by rewrite (k_objects _ _ Hk1)|done|].
    split_and!; [by eapply keeps_trans|congruence|eapply qos_inv_pw; [|exact Hi2]; intros; by rewrite upd_upd|].
    exists B. split_and!; [by subst|..].
    + intros k' Hin. destruct (decide (k' ∈ ks)) as [|Hnk]; [by apply Hb|]. apply elem_of_cons in Hin as [->|]; [|done].
      rewrite (Hr k Hnk). by subst.
    + intros k' [Hne Hnk]%not_elem_of_cons. rewrite (Hr k' Hnk). subst. cbn. by apply Hr1.
Qed.

(** What a port has when it is at its program. *)
Record settled (d : Daemon) (p : string) (c : AppliedPortQos) : Prop := {
  st_maps : bound_maps c = desired_maps (qos d) (trust (default ("", default_program) (resolved_qos d p)).2);
  st_tc : a_default_tc c = default_tc (default ("", default_program) (resolved_qos d p)).2;
  st_shaper : a_shape_bps c = shape_bps (default ("", default_program) (resolved_qos d p)).2;
  st_queues : ∀ q, q < qos_queue_count d → queue_settled c (default ("", default_program) (resolved_qos d p)).2 q }.

Lemma resolved_keeps d d' p : keeps d d' → resolved_qos d' p = resolved_qos d p.
Proof. intros [Ep El _ _ _ Epr _ _ _]. unfold resolved_qos. by rewrite El, Epr. Qed.

Lemma settled_keeps d d' p c : keeps d d' → settled d p c → settled d' p c.
Proof.
  intros Hk [H1 H2 H3 H4]. split; rewrite (resolved_keeps _ _ _ Hk); try done.
  - unfold desired_maps. by rewrite (k_objects _ _ Hk).
  - unfold qos_queue_count. by rewrite (k_queues _ _ Hk).
Qed.

Lemma elem_of_seqN q n : q ∈ seqN n ↔ q < n.
Proof.
  unfold seqN. rewrite list_elem_of_fmap. split.
  - intros (i & -> & Hi%elem_of_seq). lia.
  - intros Hq. exists (N.to_nat q). split; [lia|]. apply elem_of_seq. lia.
Qed.

(** The same hardware, whatever the program's name and trust word. *)
Definition same_hw (c c' : AppliedPortQos) : Prop :=
  a_default_tc c' = a_default_tc c ∧ a_shape_bps c' = a_shape_bps c ∧ a_queue_schedulers c' = a_queue_schedulers c
  ∧ a_queue_wreds c' = a_queue_wreds c ∧ bound_maps c' = bound_maps c.

Lemma qos_inv_hw d A A' rem : (∀ p, same_hw (A p) (A' p)) → qos_inv d A rem → qos_inv d A' rem.
Proof.
  intros HA [Hs Hw Hb Ht Hsh]. split.
  - eapply sched_inv_ext; [|exact Hs]. intros. apply HA.
  - eapply wred_inv_ext; [|exact Hw]. intros. apply HA.
  - eapply bound_inv_ext; [|exact Hb]. intros. apply HA.
  - eapply tc_inv_ext; [|exact Ht]. intros. apply HA.
  - eapply shaper_inv_ext; [|exact Hsh]. intros. apply HA.
Qed.

Lemma same_hw_upd A p c c' : c = A p → same_hw c c' → ∀ p', same_hw (A p') (upd A p c' p').
Proof. intros -> Hc p'. unfold upd. destruct (decide (p' = p)) as [->|]; [done|]. by repeat split. Qed.

Lemma is_default_hw c : is_default_applied c = true → same_hw c default_applied.
Proof.
  unfold is_default_applied. rewrite !andb_true_iff, !bool_decide_eq_true, N.eqb_eq. intros (((((? & E1) & E2) & E3) & E4) & E5).
  repeat split; cbn; congruence.
Qed.

(** The record is stored, or dropped when it says nothing. *)
Definition store_applied (p : string) (c : AppliedPortQos) (w : QosWorld) : QosWorld :=
  with_applied (if is_default_applied c then delete p (applied w) else <[p := c]> (applied w)) w.

Lemma app_store d p c p' :
  let d' := with_qos (store_applied p c (qos d)) d in
  same_hw (upd (app d) p c p') (app d' p') ∧ (p' ≠ p → app d' p' = app d p').
Proof.
  cbn. unfold app, store_applied, upd. cbn. destruct (is_default_applied c) eqn:Ed.
  - apply is_default_hw in Ed. destruct (decide (p' = p)) as [->|]; [by rewrite lookup_delete_eq|rewrite lookup_delete_ne by done].
    by repeat split.
  - destruct (decide (p' = p)) as [->|]; [rewrite lookup_insert_eq|rewrite lookup_insert_ne by done]; by repeat split.
Qed.

Lemma settled_hw d p c c' : same_hw c c' → settled d p c → settled d p c'.
Proof.
  intros (E1 & E2 & E3 & E4 & E5) [H1 H2 H3 H4]. split; [congruence..|]. intros q Hq. destruct (H4 q Hq). split; congruence.
Qed.

Lemma apply_port_qos_ok d rem p e u d' :
  platform_ok d → ports d !! p = Some e → qos_inv d (app d) rem → apply_port_qos p d = (Ok u, d') →
  keeps d d' ∧ qos_inv d' (app d') rem ∧ settled d' p (app d' p) ∧ ∀ p', p' ≠ p → app d' p' = app d p'.
Proof.
  intros Hpl He Hinv H. unfold apply_port_qos in H. apply step_ok in H as (d0 & d1 & Hr & H). apply read_ok in Hr as [-> ->].
  cbn [id] in H. destruct (default ("", default_program) (resolved_qos d p)) as [src prog] eqn:Ep.
  apply step_ok in H as (i & d1 & Hi & H).
  assert (i = sai_id e ∧ d1 = d) as [-> ->].
  { unfold port_like_sai_id in Hi. apply step_ok in Hi as (d2 & d3 & Hr & Hi). apply read_ok in Hr as [-> ->].
    cbn [id] in Hi. rewrite (po_name d Hpl p e He) in Hi. steps. split; congruence. }
  apply step_ok in H as (c1 & d1 & H1 & H). apply step_ok in H as (c2 & d2 & H2 & H).
  apply step_ok in H as (c4 & d4 & H4 & H). apply step_ok in H as (c5 & d5 & H5 & H). apply modify_ok in H as ->.
  fold (app d p) in H1. set (c3 := mkAppliedPortQos src _ _ _ _ _ _) in H4.
  destruct (apply_maps_ok MAP_TYPES d (app d) rem p e (desired_maps (qos d) (trust prog)) (app d p) c1 d1)
    as (Hk1 & Ha1 & Hi1 & B & Ec1 & HB & _); [done..|apply desired_maps_objects|done|].
  assert (platform_ok d1 ∧ ports d1 !! p = Some e) as [Hpl1 He1] by (by rewrite (k_ports _ _ Hk1); split; [eapply platform_keeps|]).
  destruct (apply_tc_ok d1 (upd (app d) p c1) rem p e (default_tc prog) c1 c2 d2) as (Hk2 & Ha2 & Hi2 & Ec2);
    [done..|by rewrite upd_eq|done|].
  assert (keeps d d2) as Hk12 by (by eapply keeps_trans).
  assert (platform_ok d2 ∧ ports d2 !! p = Some e) as [Hpl2 He2] by (by rewrite (k_ports _ _ Hk12); split; [eapply platform_keeps|]).
  assert (qos_inv d2 (upd (upd (upd (app d) p c1) p c2) p c3) rem) as Hi3.
  { eapply qos_inv_hw; [|exact Hi2]. apply (same_hw_upd _ _ c2); [by rewrite upd_eq|]. by repeat split. }
  destruct (apply_shaper_ok d2 (upd (upd (upd (app d) p c1) p c2) p c3) rem p e (shape_bps prog) c3 c4 d4) as (Hk4 & Ha4 & Hi4 & Ec4);
    [done..|by rewrite upd_eq|done|].
  assert (keeps d d4) as Hk14 by (by eapply keeps_trans).
  assert (platform_ok d4 ∧ ports d4 !! p = Some e) as [Hpl4 He4] by (by rewrite (k_ports _ _ Hk14); split; [eapply platform_keeps|]).
  destruct (apply_queues_ok (seqN (qos_queue_count d)) d4 (upd (upd (upd (upd (app d) p c1) p c2) p c3) p c4) rem p e prog c4 c5 d5)
    as (Hk5 & Ha5 & Hi5 & Hs5 & Hq5 & _); [done..|by rewrite upd_eq|done|].
  assert (keeps d d5) as Hk15 by (by eapply keeps_trans).
  assert (app d5 = app d) as Happ by (unfold app; by rewrite Ha5, Ha4, Ha2, Ha1).
  fold (store_applied p c5 (qos d5)). set (d' := with_qos (store_applied p c5 (qos d5)) d5).
  assert (keeps d5 d') as Hk5' by (by split; try done; cbn; lia).
  assert (keeps d d') as Hk' by (by eapply keeps_trans).
  split_and!; [done| | |].
  - assert (qos_inv d5 (app d') rem) as [Hs Hw Hb Ht Hsh]; [|by split].
    eapply qos_inv_hw; [|exact Hi5]. intros p'. rewrite !upd_upd, <-Happ. apply (proj1 (app_store d5 p c5 p')).
  - apply (settled_hw d' p c5); [pose proof (proj1 (app_store d5 p c5 p)) as Hh; by rewrite upd_eq in Hh|].
    apply (settled_keeps d); [done|]. destruct Hs5 as (E1 & E2 & E3 & E4). split; rewrite Ep; cbn.
    + rewrite E4, Ec4. cbn. rewrite Ec2, Ec1. cbn. apply set_eq. intros k. apply HB. destruct k; set_solver.
    + by rewrite E2, Ec4; cbn; rewrite Ec2.
    + by rewrite E3, Ec4.
    + intros q Hq. apply Hq5. by apply elem_of_seqN.
  - intros p' Hne. rewrite <-Happ. by apply (proj2 (app_store d5 p c5 p')).
Qed.

Lemma apply_qos_targets_ok ts d rem u d' :
  platform_ok d → (∀ p, p ∈ ts → is_Some (ports d !! p)) → qos_inv d (app d) rem → apply_qos_targets ts d = (Ok u, d') →
  keeps d d' ∧ qos_inv d' (app d') rem ∧ (∀ p, p ∈ ts → settled d' p (app d' p))
  ∧ ∀ p, settled d p (app d p) → settled d' p (app d' p).
Proof.
  unfold apply_qos_targets. generalize tt. revert d. induction ts as [|t ts IH]; intros d x Hpl Hts Hinv H.
  - cbn in H. steps. split_and!; [apply keeps_refl|done|by intros p ?%elem_of_nil|done].
  - cbn [each] in H. apply step_ok in H as (y & d1 & H1 & H2). destruct (Hts t) as [e He]; [by left|].
    destruct (apply_port_qos_ok d rem t e y d1 Hpl He Hinv H1) as (Hk1 & Hi1 & Hs1 & Hr1).
    destruct (IH d1 y) as (Hk2 & Hi2 & Hs2 & Hr2); [by eapply platform_keeps| |done|done|].
    { intros p Hp. rewrite (k_ports _ _ Hk1). apply Hts. by right. }
    split_and!; [by eapply keeps_trans|done| |].
    + intros p [->|Hp]%elem_of_cons; [by apply Hr2|by apply Hs2].
    + intros p Hp. apply Hr2. destruct (decide (p = t)) as [->|Hne]; [done|]. rewrite Hr1 by done. by apply (settled_keeps d).
Qed.

(** ** Contents of the map objects *)

Record content (d : Daemon) (T : QosMapType → gmap N N) (rem : list (QosMapType * N)) : Prop := {
  ct_obj : ∀ k o, map_objects (qos d) !! k = Some o → qos_maps (sai d) !! o = Some (k, btree_iter (T k)) ∧ T k ≠ ∅;
  ct_none : ∀ k, map_objects (qos d) !! k = None → T k = ∅;
  ct_live : ∀ o, is_Some (qos_maps (sai d) !! o) → (∃ k, map_objects (qos d) !! k = Some o) ∨ o ∈ rem.*2;
  ct_rem : ∀ k o, o ∈ rem.*2 → map_objects (qos d) !! k ≠ Some o;
  ct_fresh : ∀ o, is_Some (qos_maps (sai d) !! o) ∨ o ∈ rem.*2 → o ≤ MOCK_QOS_MAP_OID_BASE + next_oid (sai d) }.

Lemma content_keeps d d' T rem : keeps d d' → content d T rem → content d' T rem.
Proof.
  intros Hk []. split; rewrite ?(k_objects _ _ Hk), ?(k_qos_maps _ _ Hk); try done.
  intros o Ho. pose proof (k_next _ _ Hk). specialize (ct_fresh0 o Ho). lia.
Qed.

Record sound (d : Daemon) : Prop := {
  so_platform : platform_ok d;
  so_inv : qos_inv d (app d) [];
  so_content : content d (table (maps (qos d))) [];
  so_settled : ∀ p e, ports d !! p = Some e → settled d p (app d p) }.

(** A change of programs, profiles or channels, then the ports it concerns. *)
Lemma reconcile d ts u d' :
  platform_ok d → qos_inv d (app d) [] → content d (table (maps (qos d))) [] →
  (∀ p, p ∈ ts → is_Some (ports d !! p)) → (∀ p e, ports d !! p = Some e → p ∉ ts → settled d p (app d p)) →
  apply_qos_targets ts d = (Ok u, d') → sound d'.
Proof.
  intros Hpl Hinv Hct Hts Hset H. destruct (apply_qos_targets_ok ts d [] u d' Hpl Hts Hinv H) as (Hk & Hi & Hs & Hr). split.
  - by eapply platform_keeps.
  - done.
  - rewrite (k_maps _ _ Hk). by eapply content_keeps.
  - intros p e. rewrite (k_ports _ _ Hk). intros He. destruct (decide (p ∈ ts)); [by apply Hs|]. apply Hr. by eapply Hset.
Qed.

(** ** Which ports a name concerns *)

Lemma lag_group_of_channel g : 1 ≤ g ≤ 64 → lag_group_of (channel_name g) = Some g.
Proof.
  intros Hg. assert (Forall (λ g, lag_group_of (channel_name g) = Some g) (N.of_nat <$> seq 1 64)) as H
    by (apply (bool_decide_unpack _); vm_compute; exact I).
  rewrite Forall_forall in H. apply H. apply list_elem_of_fmap. exists (N.to_nat g). split; [lia|]. apply elem_of_seq. lia.
Qed.

Lemma first_some_ext {A B} (f g : A → option B) (l : list A) : (∀ a, a ∈ l → f a = g a) → first_some f l = first_some g l.
Proof.
  induction l as [|a l IH]; intros H; [done|]. cbn. rewrite (H a) by left. destruct (g a); [done|]. apply IH. intros. apply H. by right.
Qed.

Lemma elem_of_lag_values d l : platform_ok d → l ∈ btree_values (lags d) → lags d !! group l = Some l ∧ 1 ≤ group l ≤ 64.
Proof.
  intros Hpl ([g l'] & -> & Hin)%list_elem_of_fmap. apply elem_of_btree_iter in Hin. cbn.
  destruct (po_group d Hpl _ _ Hin) as [-> ?]. done.
Qed.

Lemma physical_targets_ok name d ts d' :
  platform_ok d → physical_targets name d = (Ok ts, d') →
  d' = d ∧ (∀ p, p ∈ ts → is_Some (ports d !! p))
  ∧ ∀ p e x, ports d !! p = Some e → p ∉ ts →
      resolved_qos (with_qos (with_programs (put name x (programs (qos d))) (qos d)) d) p = resolved_qos d p.
Proof.
  intros Hpl H. unfold physical_targets in H. apply step_ok in H as (d0 & d1 & Hr & H). apply read_ok in Hr as [-> ->].
  cbn [id] in H. destruct (lag_group_of name) as [g|] eqn:Eg.
  - apply step_ok in H as (lag & d2 & Hl & H). apply lift_ok in Hl as [Hl ->]. steps. split_and!; [done| |].
    + intros p Hp%elem_of_bset_iter. by eapply (po_members d Hpl).
    + intros p e x He Hp. unfold resolved_qos. cbn. rewrite lookup_put.
      rewrite decide_False by (intros ->; rewrite (po_name d Hpl _ _ He) in Eg; done).
      destruct (programs (qos d) !! p); [done|]. apply first_some_ext. intros l Hin.
      destruct (elem_of_lag_values d l Hpl Hin) as [Hlg Hb]. destruct (decide (p ∈ members l)) as [Hm|]; [|done].
      rewrite lookup_put, decide_False; [done|]. intros E. rewrite <-E, lag_group_of_channel in Eg by done. injection Eg as <-.
      apply Hp. rewrite elem_of_bset_iter. congruence.
  - apply step_ok in H as (v & d2 & Hck & H). apply check_ok in Hck as [Hck ->]. steps.
    apply negb_false_iff, bool_decide_eq_true in Hck. split_and!; [done| |].
    + intros p ->%list_elem_of_singleton. done.
    + intros p e x He Hp. unfold resolved_qos. cbn. rewrite lookup_put, decide_False by set_solver.
      destruct (programs (qos d) !! p); [done|]. apply first_some_ext. intros l Hin.
      destruct (elem_of_lag_values d l Hpl Hin) as [Hlg Hb]. destruct (decide (p ∈ members l)); [|done].
      rewrite lookup_put, decide_False; [done|]. intros E. by rewrite <-E, lag_group_of_channel in Eg.
Qed.

(** A change of the program of one name. *)
Lemma program_change name x ts d u d' :
  sound d → physical_targets name d = (Ok ts, d) →
  apply_qos_targets ts (with_qos (with_programs (put name x (programs (qos d))) (qos d)) d) = (Ok u, d') → sound d'.
Proof.
  intros [Hpl Hinv Hct Hset] Hts H. destruct (physical_targets_ok name d ts d Hpl Hts) as (_ & Hin & Hres).
  eapply reconcile; [..|exact H].
  - by destruct Hpl; split.
  - by destruct Hinv; split.
  - by destruct Hct; split.
  - done.
  - intros p e He Hp. cbn in He. destruct (Hset p e He) as [H1 H2 H3 H4]. split; rewrite (Hres p e x He Hp); done.
Qed.
