(* ===== verification/QosExact.v ===== *)
(** * The QoS requests, one by one, and what the switch then does

    Each request handler keeps [sound] when it succeeds; the two theorems are
    what that means for the switch, and what a request that fails half way
    leaves behind. *)

From Stdlib Require Import NArith Lia.
From stdpp Require Import base tactics list strings option gmap sets.
From S2P Require Import Prelude Text SaiMock Refcount Qos QosSound.

Local Open Scope N_scope.

(** The fields of a state after an update. *)
Ltac fields := cbn [qos sai ports lags uc_queues with_qos with_sai with_lags with_profiles with_wreds maps map_objects wred_profiles
  programs applied w_schedulers wreds queue_wreds].

(** ** Requests about ports *)

Lemma each_pure {A B} (f : B → A → M B) (l : list A) b d b' d' :
  (∀ b a d b' d', f b a d = (Ok b', d') → d' = d) → each f b l d = (Ok b', d') → d' = d.
Proof.
  intros Hf. revert b d. induction l as [|a l IH]; intros b d H; cbn in H; [by steps|].
  apply step_ok in H as (b1 & d1 & H1 & H2). apply Hf in H1 as ->. by eapply IH.
Qed.

Lemma read_queue_pure port out q d out' d' : read_queue port out q d = (Ok out', d') → d' = d.
Proof. unfold read_queue. intros H. by steps. Qed.

Lemma set_port_qos_sound req d u d' : sound d → set_port_qos req d = (Ok u, d') → sound d'.
Proof.
  intros Hs H. unfold set_port_qos in H. apply step_ok in H as (t & d1 & Ht & H). apply lift_ok in Ht as [_ ->].
  apply step_ok in H as (v & d1 & Hc & H). apply check_ok in Hc as [_ ->].
  apply step_ok in H as (qs & d1 & Hq & H). apply each_pure in Hq as ->; [|apply read_queue_pure].
  apply step_ok in H as (ts & d1 & Hts & H). pose proof (physical_targets_ok _ _ _ _ (so_platform d Hs) Hts) as [-> _].
  apply step_ok in H as (w & d1 & Hm & H). apply modify_ok in Hm as ->.
  eapply (program_change (rp_port req) (Some _)); [exact Hs|exact Hts|exact H].
Qed.

Lemma clear_port_qos_sound port d u d' : sound d → clear_port_qos port d = (Ok u, d') → sound d'.
Proof.
  intros Hs H. unfold clear_port_qos in H.
  apply step_ok in H as (ts & d1 & Hts & H). pose proof (physical_targets_ok _ _ _ _ (so_platform d Hs) Hts) as [-> _].
  apply step_ok in H as (w & d1 & Hm & H). apply modify_ok in Hm as ->.
  eapply (program_change port None); [exact Hs|exact Hts|exact H].
Qed.

(** ** Requests about profiles *)

(** A profile's new text, once the hardware agrees. *)
Lemma profile_stored d x st s objs :
  sound d → x ≠ "" → default default_profile (wred_profiles (qos d) !! x) = st →
  (match w_oid st with
   | Some o => objs !! o = Some s ∧ is_Some (wreds (sai d) !! o) ∧ ∀ o', o' ≠ o → objs !! o' = wreds (sai d) !! o'
   | None => objs = wreds (sai d)
   end) →
  sound (with_qos (with_profiles (<[x := mkWredProfileState s (w_oid st) (refs st)]> (wred_profiles (qos d))) (qos d))
           (with_sai (with_wreds objs (sai d)) d)).
Proof.
  intros [Hpl [Hs (hold & Hp & Hh & Hc & Hf) Hb Ht Hsh] Hct Hset] Hx Hst Hobjs.
  assert (wpool (<[x := mkWredProfileState s (w_oid st) (refs st)]> (wred_profiles (qos d))) = wpool (wred_profiles (qos d))) as Ewp.
  { apply map_eq. intros y. unfold wpool. rewrite !lookup_omap. destruct (decide (y = x)) as [->|]; [|by rewrite lookup_insert_ne].
    rewrite lookup_insert_eq. cbn. destruct (wred_profiles (qos d) !! x) as [st'|]; cbn in *; by subst. }
  assert (dom objs = dom (wreds (sai d))) as Edom.
  { destruct (w_oid st) as [o|]; [|by subst]. destruct Hobjs as (Ho & Hl & Hne). apply set_eq. intros o'. rewrite !elem_of_dom.
    destruct (decide (o' = o)) as [->|]; [rewrite Ho; split; eauto|by rewrite Hne]. }
  split; [by destruct Hpl; split| |by destruct Hct; split|].
  - split; [done| |done|done|done]. exists hold. fields. rewrite Ewp, Edom. split_and!; [done|done| |].
    + intros y sty. destruct (decide (y = x)) as [->|Hne].
      * rewrite lookup_insert_eq. intros [= <-]. split; [|done]. unfold profile_sound. cbn.
        destruct (w_oid st) as [o|] eqn:Eo; [by destruct Hobjs|]. destruct (wred_profiles (qos d) !! x) as [st'|] eqn:Ex; cbn in Hst.
        { subst st'. destruct (Hc _ _ Ex) as [Hps _]. unfold profile_sound in Hps. by rewrite Eo in Hps. }
        by subst.
      * rewrite lookup_insert_ne by done. intros Hy. destruct (Hc _ _ Hy) as [Hps ?]. split; [|done]. unfold profile_sound in *. cbn.
        destruct (w_oid sty) as [o'|] eqn:Eo'; [|done]. destruct (w_oid st) as [o|] eqn:Eo; [|by subst].
        destruct Hobjs as (_ & _ & Hoo). rewrite Hoo; [done|]. intros ->. apply Hne.
        destruct (wred_profiles (qos d) !! x) as [st'|] eqn:Ex; cbn in Hst; [|by subst]. subst st'.
        destruct st as [s1 ? r1], sty as [s2 ? r2]. cbn in *. subst.
        eapply (pi_inj _ _ _ _ _ Hp y x o); apply wpool_lookup; eauto.
    + exact Hf.
  - intros p e He. destruct (Hset p e He) as [H1 H2 H3 H4]. by split.
Qed.

Lemma kb_bytes_pure n w k d r d' : kb_bytes n w k d = (Ok r, d') → d' = d.
Proof. unfold kb_bytes. destruct (k * 1024 <? 2 ^ 32); [by intros [= _ <-]|done]. Qed.

Lemma wred_spec_pure p d s d' : wred_spec p d = (Ok s, d') → d' = d.
Proof.
  unfold wred_spec. intros H. steps.
  repeat match goal with H : kb_bytes _ _ _ _ = _ |- _ => apply kb_bytes_pure in H as -> end. done.
Qed.

Lemma ensure_wred_profile_sound profile d u d' : sound d → ensure_wred_profile profile d = (Ok u, d') → sound d'.
Proof.
  intros Hs H. unfold ensure_wred_profile in H. apply step_ok in H as (p & d1 & Hp & H). apply lift_ok in Hp as [_ ->].
  apply step_ok in H as (v1 & d1 & Hn & H). apply check_ok in Hn as [Hn%bool_decide_eq_false ->].
  apply step_ok in H as (s & d1 & Hsp & H). apply wred_spec_pure in Hsp as ->.
  apply step_ok in H as (caps & d1 & Hr & H). apply read_ok in Hr as [-> ->].
  apply step_ok in H as (v2 & d1 & Hb & H). apply check_ok in Hb as [_ ->].
  apply step_ok in H as (w & d1 & Hr & H). apply read_ok in Hr as [-> ->].
  set (st := default default_profile (wred_profiles (qos d) !! p_name p)) in *.
  apply step_ok in H as (v3 & d1 & Hm & H). apply modify_ok in Hm as ->.
  pose proof (λ objs, profile_stored d (p_name p) st s objs Hs Hn eq_refl) as Hstored.
  assert (∀ o, w_oid st = Some o → wreds (sai d) !! o = Some (spec st)) as Hlive.
  { intros o Ho. destruct Hs as [_ [_ (hold & _ & _ & Hc & _) _ _ _] _ _]. unfold st in *.
    destruct (wred_profiles (qos d) !! p_name p) as [st'|] eqn:E; [|done]. destruct (Hc _ _ E) as [Hps _].
    cbn in *. unfold profile_sound in Hps. by rewrite Ho in Hps. }
  case_bool_decide as Esame.
  - apply ret_ok in H as [_ ->]. specialize (Hstored (wreds (sai d))).
    destruct d as [q [] ? ? ?]. apply Hstored. destruct (w_oid st) as [o|]; [|done]. rewrite (Hlive o eq_refl), Esame. split_and!; [done|by eauto|done].
  - destruct (w_oid st) as [o|] eqn:Eo.
    + steps. apply (Hstored (<[o := s]> (wreds (sai d)))). cbn. rewrite lookup_insert_eq, (Hlive o eq_refl).
      split_and!; [done|by eauto|]. intros. by rewrite lookup_insert_ne.
    + apply ret_ok in H as [_ ->]. specialize (Hstored (wreds (sai d)) eq_refl). by destruct d as [q [] ? ? ?].
Qed.

Lemma remove_wred_profile_sound x d u d' : sound d → remove_wred_profile x d = (Ok u, d') → sound d'.
Proof.
  intros Hs H. unfold remove_wred_profile in H. apply step_ok in H as (w & d1 & Hr & H). apply read_ok in Hr as [-> ->].
  destruct (wred_profiles (qos d) !! x) as [st|] eqn:Ex; [|by steps].
  apply step_ok in H as (v & d1 & Hc & H). apply check_ok in Hc as [Hrefs%N.ltb_ge ->].
  apply step_ok in H as (v' & d1 & Hm & H). apply modify_ok in Hm as ->.
  destruct Hs as [Hpl [Hs (hold & Hp & Hh & Hc & Hf) Hb Ht Hsh] Hct Hset].
  assert (w_oid st = None) as Eo.
  { destruct st as [s [o|] r]; [|done]. assert (wpool (wred_profiles (qos d)) !! x = Some (o, r)) as Hw by (apply wpool_lookup; eauto).
    destruct (pi_refs _ _ _ _ _ Hp _ _ _ Hw) as [_ Hpos]. cbn in Hrefs. lia. }
  rewrite Eo in H. apply ret_ok in H as [_ ->]. split; [by destruct Hpl; split| |by destruct Hct; split|].
  - split; [done| |done|done|done]. exists hold. fields. rewrite wpool_delete, delete_id.
    + split_and!; [done|done| |done]. intros y sty [_ Hy]%lookup_delete_Some. by apply Hc.
    + destruct (wpool _ !! x) as [[o r]|] eqn:E; [|done]. apply wpool_lookup in E as [s E]. rewrite Ex in E. naive_solver.
  - intros p e He. destruct (Hset p e He) as [H1 H2 H3 H4]. by split.
Qed.

(** ** Channel membership *)

Lemma btree_values_insert (m : gmap N LagState) g l l' :
  m !! g = Some l → btree_values (<[g := l']> m) = (λ kv, if decide (kv.1 = g) then l' else kv.2) <$> btree_iter m.
Proof.
  intros Hg. assert (<[g := l']> m = map_imap (λ k v, Some (if decide (k = g) then l' else v)) m) as ->.
  { apply map_eq. intros k. rewrite map_lookup_imap. destruct (decide (k = g)) as [->|Hne].
    - rewrite lookup_insert_eq, Hg. done.
    - rewrite lookup_insert_ne by done. by destruct (m !! k). }
  unfold btree_values. rewrite btree_iter_imap, <-list_fmap_compose. done.
Qed.

Lemma first_some_fmap {A B C} (f : B → option C) (g : A → B) (l : list A) : first_some f (g <$> l) = first_some (f ∘ g) l.
Proof. induction l as [|a l IH]; [done|]. cbn. by rewrite IH. Qed.

(** New members of a channel concern those that leave and those that stay or
    come, and nobody when the channel has no program. *)
Lemma resolved_members d g lag wanted p :
  platform_ok d → lags d !! g = Some lag →
  programs (qos d) !! channel_name g = None ∨ ((p ∉ members lag) ∧ (p ∉ wanted)) →
  resolved_qos (with_lags (<[g := mkLagState (group lag) (lag_sai_id lag) wanted]> (lags d)) d) p = resolved_qos d p.
Proof.
  intros Hpl Hl Hp. unfold resolved_qos. cbn. destruct (programs (qos d) !! p); [done|].
  rewrite (btree_values_insert _ _ _ _ Hl). unfold btree_values. rewrite !first_some_fmap.
  apply first_some_ext. intros [g' l] Hin. cbn. apply elem_of_btree_iter in Hin.
  destruct (decide (g' = g)) as [->|]; [|done]. cbn. assert (l = lag) as -> by congruence.
  destruct (po_group d Hpl _ _ Hl) as [Hgr _]. rewrite Hgr in *. destruct Hp as [Hp|[Hp1 Hp2]].
  - rewrite Hp. by destruct (decide (p ∈ wanted)), (decide (p ∈ members lag)).
  - by rewrite !decide_False.
Qed.

Lemma set_lag_members_sound g wanted d u d' : sound d → set_lag_members g wanted d = (Ok u, d') → sound d'.
Proof.
  intros Hs H. unfold set_lag_members in H. apply step_ok in H as (d0 & d1 & Hr & H). apply read_ok in Hr as [-> ->]. cbn [id] in H.
  apply step_ok in H as (lag & d1 & Hl & H). apply lift_ok in Hl as [Hl ->].
  apply step_ok in H as (v & d1 & Hnew & H).
  assert (d1 = d ∧ ∀ p, p ∈ wanted ∖ members lag → is_Some (ports d !! p)) as [-> Hports].
  { revert Hnew. setoid_rewrite <-elem_of_bset_iter. generalize (bset_iter (wanted ∖ members lag)) as l. generalize tt as x.
    induction l as [|p l IH] in v |- *; cbn; intros Hn; [steps; split; [done|by intros ? ?%elem_of_nil]|].
    apply step_ok in Hn as (y & d2 & Hp & Hn). apply step_ok in Hp as (z & d3 & Hp & Hz). apply lift_ok in Hp as [Hp ->].
    apply ret_ok in Hz as [-> ->]. destruct (IH _ Hn) as [-> Hin]. split; [done|]. intros p' [->|]%elem_of_cons; eauto. }
  clear Hnew. apply step_ok in H as (v' & d1 & Hst & H). injection Hst as _ <-.
  set (d1 := with_lags _ d) in *. destruct Hs as [Hpl Hinv Hct Hset].
  assert (platform_ok d1) as Hpl1.
  { destruct Hpl as [H1 H2 H3 H4]. split; [done|done|..]; cbn.
    - intros g' l. destruct (decide (g' = g)) as [->|]; [rewrite lookup_insert_eq|rewrite lookup_insert_ne by done; apply H3].
      intros [= <-]. cbn. by apply (H3 g lag).
    - intros g' l p. destruct (decide (g' = g)) as [->|]; [rewrite lookup_insert_eq|rewrite lookup_insert_ne by done; apply H4].
      intros [= <-] Hp. cbn in Hp. destruct (decide (p ∈ members lag)); [by eapply H4|]. apply Hports. by apply elem_of_difference. }
  assert (qos_inv d1 (app d1) []) as Hinv1 by (by destruct Hinv; split).
  assert (content d1 (table (maps (qos d1))) []) as Hct1 by (by destruct Hct; split).
  assert (∀ p e, ports d1 !! p = Some e → resolved_qos d1 p = resolved_qos d p → settled d1 p (app d1 p)) as Hkeep.
  { intros p e He Er. destruct (Hset p e He) as [H1 H2 H3 H4]. split; rewrite Er; done. }
  unfold refresh_lag_qos in H. apply step_ok in H as (w & d2 & Hr & H). apply read_ok in Hr as [-> ->].
  destruct (bool_decide (is_Some (programs (qos d1) !! channel_name g))) eqn:Epr; cbn [negb] in H.
  - eapply reconcile; [exact Hpl1|exact Hinv1|exact Hct1| |  |exact H].
    + intros p [Hp|Hp]%elem_of_app; apply elem_of_bset_iter in Hp.
      * apply elem_of_difference in Hp as [Hp _]. by eapply (po_members d Hpl g lag).
      * destruct (decide (p ∈ members lag)); [by eapply (po_members d Hpl g lag)|]. apply Hports. by apply elem_of_difference.
    + intros p e He [Hp1 Hp2]%not_elem_of_app. apply (Hkeep p e He). apply resolved_members; [done|done|].
      rewrite elem_of_bset_iter in Hp1, Hp2. right. split; [|done]. intros Hm. apply Hp1. by apply elem_of_difference.
  - apply bool_decide_eq_false in Epr. apply ret_ok in H as [_ ->]. split; [done..|]. intros p e He.
    apply (Hkeep p e He). apply resolved_members; [done|done|]. left. by apply eq_None_not_Some.
Qed.

(** ** The global maps *)

(** What settling an object leaves as it is. *)
Record map_keeps (k : QosMapType) (d d' : Daemon) : Prop := {
  mk_ports : ports d' = ports d;
  mk_lags : lags d' = lags d;
  mk_queues : uc_queues d' = uc_queues d;
  mk_maps : maps (qos d') = maps (qos d);
  mk_other : ∀ k', k' ≠ k → map_objects (qos d') !! k' = map_objects (qos d) !! k';
  mk_programs : programs (qos d') = programs (qos d);
  mk_applied : applied (qos d') = applied (qos d) }.

Lemma settle_map_ok current wanted objects rem k d removals d' :
  ∀ (T0 : QosMapType → gmap N N), T0 k = table current k →
  content d T0 rem → qos_inv d (app d) rem → objects !! k = map_objects (qos d) !! k → k ∉ rem.*1 →
  settle_map current wanted objects rem.*2 k d = (Ok removals, d') →
  ∃ rem', removals = rem'.*2 ∧ (∀ k', k' ∈ rem'.*1 → k' = k ∨ k' ∈ rem.*1) ∧ map_keeps k d d'
    ∧ content d' (λ k', if decide (k' = k) then table wanted k else T0 k') rem' ∧ qos_inv d' (app d') rem'.
Proof.
  intros T0 HT Hct Hinv Ho Hk H. unfold settle_map in H.
  destruct Hct as [Hobj Hnone Hlive Hrem Hfresh]. destruct (objects !! k) as [o|] eqn:Eo; symmetry in Ho.
  - destruct (Hobj _ _ Ho) as [Hqo Hne]. case_bool_decide as Ew.
    + (* emptied *)
      steps. exists (rem ++ [(k, o)]). split_and!.
      * by rewrite fmap_app.
      * intros k'. rewrite fmap_app, elem_of_app. intros [?|?%list_elem_of_singleton]; auto.
      * split; try done. intros k' Hk'. cbn. by rewrite lookup_delete_ne.
      * split; cbn.
        -- intros k' o' [Hne' Hk']%lookup_delete_Some. rewrite decide_False by done. by apply Hobj.
        -- intros k' [->|Hk']%lookup_delete_None; [by rewrite decide_True|]. case_decide; [by subst|]. by apply Hnone.
        -- intros o' Ho'. rewrite fmap_app, elem_of_app. destruct (Hlive o' Ho') as [[k' Hk']|?]; [|by auto].
           destruct (decide (k' = k)) as [->|]; [right; right; apply list_elem_of_singleton; cbn; congruence|]. left. exists k'. by rewrite lookup_delete_ne.
        -- intros k' o'. rewrite fmap_app, elem_of_app. intros Hin [Hne' Hk']%lookup_delete_Some. destruct Hin as [Hin|Hin%list_elem_of_singleton].
           ++ by apply (Hrem k' o' Hin).
           ++ cbn in Hin. subst o'. destruct (Hobj _ _ Hk') as [E _]. congruence.
        -- intros o'. rewrite fmap_app, elem_of_app. intros [?|[?|Hin%list_elem_of_singleton]]; apply Hfresh; [by auto|by auto|].
           left. cbn in Hin. subst o'. by eauto.
      * destruct Hinv as [Hs Hw [Hb1 Hb2] Ht Hsh]. split; try done. split; [done|]. intros i k' o' Hb. destruct (Hb2 i k' o' Hb) as [Hp Hm].
        split; [done|]. cbn. destruct (decide (k' = k)) as [->|Hne'].
        -- right. rewrite lookup_delete_eq. split; [done|]. apply elem_of_app. right. apply list_elem_of_singleton.
           destruct Hm as [Hm|[Hm _]]; congruence.
        -- rewrite lookup_delete_ne by done. destruct Hm as [Hm|[Hm Hin]]; [by left|right]. split; [done|]. apply elem_of_app. by left.
    + case_bool_decide as Ec.
      * (* the table did not change *)
        steps. exists rem. split_and!; [done|by auto|by split| |done]. split; try done.
        -- intros k' o' Hk'. case_decide as Ek; [|by apply Hobj]. subst k'. rewrite <-Ec, <-HT. by apply Hobj.
        -- intros k' Hk'. case_decide as Ek; [|by apply Hnone]. subst k'. congruence.
      * (* rewritten in place *)
        apply step_ok in H as (v & d1 & Hc & H). apply ret_ok in H as [-> ->]. apply call_ok in Hc as (b & Hc & ->).
        apply set_qos_map_ok in Hc as (k1 & l1 & E1 & ->). rewrite Hqo in E1. injection E1 as <- <-.
        exists rem. split_and!; [done|by auto|by split| |].
        -- split; cbn; try done.
           ++ intros k' o' Hk'. case_decide as Ek; [subst k'; assert (o' = o) as -> by congruence; by rewrite lookup_insert_eq|].
              rewrite lookup_insert_ne; [by apply Hobj|]. intros ->. destruct (Hobj _ _ Hk') as [E _]. congruence.
           ++ intros k' Hk'. case_decide as Ek; [subst k'; congruence|by apply Hnone].
           ++ intros o'. rewrite lookup_insert_is_Some. intros [<-|[_ ?]]; [left; by exists k|by apply Hlive].
           ++ intros o'. rewrite lookup_insert_is_Some. intros [[<-|[_ ?]]|?]; apply Hfresh; eauto.
        -- by destruct Hinv; split.
  - case_bool_decide as Ew.
    + steps. exists rem. split_and!; [done|by auto|by split| |done]. split; try done.
      * intros k' o' Hk'. case_decide as Ek; [subst k'; congruence|by apply Hobj].
      * intros k' Hk'. case_decide as Ek; [by subst k'|by apply Hnone].
    + (* created *)
      steps. set (o := MOCK_QOS_MAP_OID_BASE + (next_oid (sai d) + 1)).
      assert (∀ o', is_Some (qos_maps (sai d) !! o') ∨ o' ∈ rem.*2 → o' ≠ o) as Hno.
      { intros o' Ho' ->. pose proof (Hfresh o Ho'). unfold o in *. lia. }
      exists rem. split_and!; [done|by auto| | |].
      * split; try done. intros k' Hk'. cbn. by rewrite lookup_insert_ne.
      * split; cbn.
        -- intros k' o'. destruct (decide (k' = k)) as [->|Hne].
           ++ rewrite lookup_insert_eq. intros [= <-]. by rewrite lookup_insert_eq.
           ++ rewrite lookup_insert_ne by done. intros Hk'. destruct (Hobj _ _ Hk') as [E ?].
              rewrite lookup_insert_ne; [done|]. intros E'. apply (Hno o'); [left; by eauto|done].
        -- intros k' [Hk' Hne]%lookup_insert_None. rewrite decide_False by done. by apply Hnone.
        -- intros o'. rewrite lookup_insert_is_Some. intros [<-|[_ Ho']]; [left; exists k; by rewrite lookup_insert_eq|].
           destruct (Hlive o' Ho') as [[k' Hk']|]; [left; exists k'|by right]. rewrite lookup_insert_ne; [done|]. intros <-. congruence.
        -- intros k' o' Hin [[-> <-]|[_ Hk']]%lookup_insert_Some; [by apply (Hno o); [right|]|by apply (Hrem k' o')].
        -- intros o'. rewrite lookup_insert_is_Some. unfold o. intros [[<-|[_ ?]]|?]; [lia|..]; (etransitivity; [apply Hfresh; by eauto|lia]).
      * destruct Hinv as [Hs Hw [Hb1 Hb2] Ht Hsh]. split; try done.
        -- apply (sched_inv_fresh d); try done. cbn. lia.
        -- apply (wred_inv_fresh d); try done. cbn. lia.
        -- split; [done|]. intros i k' o' Hb. destruct (Hb2 i k' o' Hb) as [Hp Hm]. split; [done|]. cbn.
           destruct (decide (k' = k)) as [->|]; [|by rewrite lookup_insert_ne].
           exfalso. destruct Hm as [Hm|[_ Hin]]; [congruence|]. apply Hk. apply list_elem_of_fmap. by exists (k, o').
Qed.

Lemma content_ext d T T' rem : (∀ k, T' k = T k) → content d T rem → content d T' rem.
Proof. intros HT []. split; intros; rewrite ?HT; auto. Qed.

Lemma settle_maps_ok current wanted objects ks rem d removals d' T0 :
  NoDup ks → (∀ k, k ∈ ks → T0 k = table current k ∧ objects !! k = map_objects (qos d) !! k ∧ k ∉ rem.*1) →
  content d T0 rem → qos_inv d (app d) rem →
  each (settle_map current wanted objects) rem.*2 ks d = (Ok removals, d') →
  ∃ rem', removals = rem'.*2
    ∧ (ports d' = ports d ∧ lags d' = lags d ∧ uc_queues d' = uc_queues d ∧ programs (qos d') = programs (qos d)
       ∧ applied (qos d') = applied (qos d))
    ∧ content d' (λ k, if decide (k ∈ ks) then table wanted k else T0 k) rem' ∧ qos_inv d' (app d') rem'.
Proof.
  revert rem d T0. induction ks as [|k ks IH]; intros rem d T0 Hnd Hks Hct Hinv H.
  - cbn in H. steps. exists rem. split_and!; try done.
  - cbn [each] in H. apply step_ok in H as (r1 & d1 & H1 & H). apply NoDup_cons in Hnd as [Hnk Hnd].
    destruct (Hks k) as (HT & Ho & Hkr); [by left|].
    destruct (settle_map_ok _ _ _ _ _ _ _ _ T0 HT Hct Hinv Ho Hkr H1) as (rem1 & -> & Hrem1 & Hmk & Hct1 & Hinv1).
    destruct (IH rem1 d1 (λ k', if decide (k' = k) then table wanted k else T0 k')) as (rem' & -> & Hfr & Hct' & Hinv'); [done| |done|done|done|].
    { intros k' Hk'. assert (k' ≠ k) as Hne by (by intros ->). destruct (Hks k') as (HT' & Ho' & Hkr'); [by right|].
      rewrite decide_False, (mk_other _ _ _ Hmk) by done. split_and!; [done|done|]. intros [->|?]%Hrem1; done. }
    exists rem'. split; [done|]. split; [|split; [|done]].
    + destruct Hmk, Hfr as (? & ? & ? & ? & ?). split_and!; congruence.
    + eapply content_ext; [|exact Hct']. intros k'. cbn beta.
      destruct (decide (k' ∈ ks)) as [Hi|Hi]; [by rewrite decide_True by (by right)|].
      destruct (decide (k' = k)) as [->|Hn]; [by rewrite decide_True by left|].
      by rewrite decide_False by (intros [?|?]%elem_of_cons; done).
Qed.

Lemma map_entries_pure tbl a b l d m d' : map_entries tbl a b l d = (Ok m, d') → d' = d.
Proof. apply each_pure. intros out e d1 out' d1' H. unfold map_entry in H. by steps. Qed.

Lemma elem_of_ports_ordered d p : p ∈ qos_ports_ordered d ↔ is_Some (ports d !! p).
Proof.
  unfold qos_ports_ordered. rewrite sort_by_key_perm, <-list_fmap_compose, list_elem_of_fmap. split.
  - intros ([p' e] & -> & Hin). apply elem_of_map_to_list in Hin. by eauto.
  - intros [e He]. exists (p, e). split; [done|]. by apply elem_of_map_to_list.
Qed.

(** Once every port is at its program no binding is to an object that is to
    go. *)
Lemma settled_no_removed d rem :
  qos_inv d (app d) rem → (∀ p e, ports d !! p = Some e → settled d p (app d p)) → qos_inv d (app d) [].
Proof.
  intros [Hs Hw [Hb1 Hb2] Ht Hsh] Hset. split; try done. split; [done|]. intros i k o Hb.
  destruct (Hb2 i k o Hb) as [(p & e & He & Hi) Hm]. split; [by eauto|]. left. destruct Hm as [|[Hm _]]; [done|].
  assert (k ∈ bound_maps (app d p)) as Hk by (apply (Hb1 p e k He); rewrite Hi; by eauto).
  rewrite (st_maps _ _ _ (Hset p e He)) in Hk. apply desired_maps_objects in Hk as [? ?]. congruence.
Qed.

Lemma content_drop_rem d T rem :
  content d T rem → (∀ o, o ∈ rem.*2 → qos_maps (sai d) !! o = None) → content d T [].
Proof.
  intros [H1 H2 H3 H4 H5] Hr. split; try done.
  - intros o Ho. destruct (H3 o Ho) as [?|Hin]; [by left|]. apply Hr in Hin. destruct Ho. congruence.
  - intros k o Hin. by apply elem_of_nil in Hin.
  - intros o [Ho|Hin]; [by apply H5; left|by apply elem_of_nil in Hin].
Qed.

Lemma remove_maps_ok (l : list N) d u d' :
  each (λ _ oid, call (remove_qos_map oid)) tt l d = (Ok u, d') →
  d' = with_sai (with_qos_maps (foldr delete (qos_maps (sai d)) (reverse l)) (sai d)) d.
Proof.
  generalize tt. revert d. induction l as [|o l IH]; intros d x H; cbn in H.
  - steps. by destruct d as [? [] ? ? ?].
  - apply step_ok in H as (y & d1 & H1 & H). apply IH in H as ->. steps. rewrite reverse_cons, foldr_app. done.
Qed.

Lemma lookup_foldr_delete (m : gmap N (QosMapType * list (N * N))) l o :
  foldr delete m l !! o = if decide (o ∈ l) then None else m !! o.
Proof.
  induction l as [|x l IH]; cbn [foldr]; [done|]. destruct (decide (o = x)) as [->|Hne].
  - rewrite lookup_delete_eq, decide_True by left. done.
  - rewrite lookup_delete_ne, IH by done. destruct (decide (o ∈ l)), (decide (o ∈ x :: l)); set_solver.
Qed.

Lemma set_qos_maps_sound req d u d' : sound d → set_qos_maps req d = (Ok u, d') → sound d'.
Proof.
  intros Hsd H. unfold set_qos_maps in H.
  apply step_ok in H as (m1 & d1 & H1 & H). apply map_entries_pure in H1 as ->.
  apply step_ok in H as (m2 & d1 & H1 & H). apply map_entries_pure in H1 as ->.
  apply step_ok in H as (m3 & d1 & H1 & H). apply map_entries_pure in H1 as ->.
  apply step_ok in H as (m4 & d1 & H1 & H). apply map_entries_pure in H1 as ->.
  set (wanted := mkQosMaps m1 m2 m3 m4) in *.
  apply step_ok in H as (w & d1 & Hr & H). apply read_ok in Hr as [-> ->].
  destruct (decide (maps (qos d) = wanted)) as [|Hne]; [by steps|].
  apply step_ok in H as (v & d1 & H1 & H). apply each_pure in H1 as ->.
  2:{ intros b a d0 b' d0' Hq. destruct (decide (table wanted a = ∅)); [by steps|]. unfold require_qos_maps in Hq. by steps. }
  apply step_ok in H as (removals & d1 & Hsm & H). destruct Hsd as [Hpl Hinv Hct _].
  destruct (settle_maps_ok (maps (qos d)) wanted (map_objects (qos d)) MAP_TYPES [] d removals d1 (table (maps (qos d))))
    as (rem & -> & (Ep & El & Eu & Epr & Ea) & Hct1 & Hinv1); [by apply (bool_decide_unpack _)| |done|done|done|].
  { intros k _. split_and!; [done|done|apply not_elem_of_nil]. }
  apply step_ok in H as (v1 & d2 & Hm & H). apply modify_ok in Hm as ->.
  apply step_ok in H as (ports & d2 & Hr & H). apply read_ok in Hr as [-> ->].
  set (d2 := with_qos (with_maps wanted (qos d1)) d1) in *.
  apply step_ok in H as (v2 & d3 & Ht & H).
  assert (platform_ok d2) as Hpl2 by (destruct Hpl; split; cbn; rewrite ?Ep, ?El; done).
  assert (content d2 (table wanted) rem) as Hct2.
  { assert (content d1 (table wanted) rem) as Hc; [|by destruct Hc; split]. eapply content_ext; [|exact Hct1].
    intros k. cbn beta. destruct (decide (k ∈ MAP_TYPES)) as [|Hn]; [done|]. destruct Hn. destruct k; set_solver. }
  assert (qos_inv d2 (app d2) rem) as Hinv2 by (by destruct Hinv1; split).
  destruct (apply_qos_targets_ok (qos_ports_ordered d2) d2 rem v2 d3 Hpl2) as (Hk & Hi3 & Hs3 & _);
    [intros p; by rewrite elem_of_ports_ordered|done|done|].
  assert (∀ p e, Qos.ports d3 !! p = Some e → settled d3 p (app d3 p)) as Hset3.
  { intros p e. rewrite (k_ports _ _ Hk). intros He. apply Hs3, elem_of_ports_ordered. by eauto. }
  pose proof (settled_no_removed d3 rem Hi3 Hset3) as Hinv3. apply (content_keeps _ _ _ _ Hk) in Hct2.
  apply remove_maps_ok in H as ->. set (d4 := with_sai _ d3).
  split.
  - apply (platform_keeps _ _ Hk) in Hpl2. by destruct Hpl2; split.
  - by destruct Hinv3; split.
  - assert (maps (qos d4) = wanted) as -> by (cbn; by rewrite (k_maps _ _ Hk)).
    assert (content d4 (table wanted) rem) as Hc.
    { destruct Hct2 as [C1 C2 C3 C4 C5]. split; [|done|..|done|]; unfold d4; cbn.
      - intros k o Ho. rewrite lookup_foldr_delete, decide_False; [by apply C1|].
        rewrite elem_of_reverse. intros Hin. by apply (C4 k o Hin).
      - intros o. rewrite lookup_foldr_delete. destruct (decide (o ∈ reverse rem.*2)); [by intros [? ?]|]. apply C3.
      - intros o. rewrite lookup_foldr_delete. intros [Ho|Ho]; apply C5; [|by right]. left.
        destruct (decide (o ∈ reverse rem.*2)); [by destruct Ho|done]. }
    apply (content_drop_rem d4 _ rem Hc). intros o Hin. cbn. rewrite lookup_foldr_delete, decide_True; [done|].
    by apply elem_of_reverse.
  - intros p e He. destruct (Hset3 p e He) as [S1 S2 S3 S4]. by split.
Qed.

(** ** Requests in sequence *)

Inductive Request :=
| SetQosMaps (req : SetQosMapsRequest)
| SetPortQos (req : SetPortQosRequest)
| ClearPortQos (port : string)
| EnsureWredProfile (profile : option WredProfile)
| RemoveWredProfile (name : string)
| SetLagMembers (group : N) (members : gset string).

Definition handle (r : Request) : M unit :=
  match r with
  | SetQosMaps req => set_qos_maps req
  | SetPortQos req => set_port_qos req
  | ClearPortQos port => clear_port_qos port
  | EnsureWredProfile profile => ensure_wred_profile profile
  | RemoveWredProfile name => remove_wred_profile name
  | SetLagMembers group members => set_lag_members group members
  end.

(** The daemon at start: no QoS objects and no bindings. *)
Record boots (d : Daemon) : Prop := {
  bo_platform : platform_ok d;
  bo_world : qos d = empty_world;
  bo_maps : qos_maps (sai d) = ∅ ∧ port_qos_maps (sai d) = ∅;
  bo_ports : port_default_tc (sai d) = ∅ ∧ port_shapers (sai d) = ∅;
  bo_schedulers : schedulers (sai d) = ∅ ∧ queue_schedulers (sai d) = ∅;
  bo_wreds : wreds (sai d) = ∅ ∧ queue_wreds (sai d) = ∅ }.

(** States reached by requests that succeed or are turned down without
    effect. *)
Inductive reached : Daemon → Prop :=
| reached_boot d : boots d → reached d
| reached_ok d r d' : reached d → handle r d = (Ok tt, d') → reached d'
| reached_refused d r e : reached d → handle r d = (Err e, d) → reached d.

Lemma boots_sound d : boots d → sound d.
Proof.
  intros [Hpl Hw [Hm1 Hm2] [Hp1 Hp2] [Hs1 Hs2] [Hr1 Hr2]].
  assert (∀ p, app d p = default_applied) as Happ by (intros p; unfold app; by rewrite Hw).
  split; [done| | |].
  - split.
    + exists ∅. rewrite Hw, Hs1, Hs2, dom_empty_L. split_and!; [apply pool_inv_empty| |done|by intros o ?%elem_of_empty].
      intros p e q _. by rewrite Happ.
    + exists ∅. rewrite Hw, Hr1, Hr2, dom_empty_L.
      assert (wpool (wred_profiles empty_world) = ∅) as -> by apply omap_empty.
      split_and!; [apply pool_inv_empty| |done|by intros o ?%elem_of_empty].
      intros p e q _. by rewrite Happ.
    + split; rewrite Hm2; [|done]. intros p e k _. rewrite Happ. split; [by intros ?%elem_of_empty|by intros [? ?]].
    + intros p e _. by rewrite Hp1, Happ.
    + intros p e _. by rewrite Hp2, Happ.
  - split; rewrite ?Hw, ?Hm1.
    + done.
    + intros k _. by destruct k.
    + by intros o [? ?].
    + intros k o Hin. by apply elem_of_nil in Hin.
    + intros o [[? ?]|Hin]; [done|by apply elem_of_nil in Hin].
  - intros p e _. assert (default ("", default_program) (resolved_qos d p) = ("", default_program)) as E.
    { unfold resolved_qos. rewrite Hw. cbn. induction (btree_values (lags d)) as [|l ls IH]; [done|]. cbn.
      by destruct (decide (p ∈ members l)). }
    split; rewrite Happ, E; try done. unfold desired_maps. rewrite Hw. cbn. done.
Qed.

Lemma handle_sound r d u d' : sound d → handle r d = (Ok u, d') → sound d'.
Proof.
  destruct r; cbn; [apply set_qos_maps_sound|apply set_port_qos_sound|apply clear_port_qos_sound|apply ensure_wred_profile_sound
    |apply remove_wred_profile_sound|apply set_lag_members_sound].
Qed.

Lemma reached_sound d : reached d → sound d.
Proof. induction 1; [by apply boots_sound|by eapply handle_sound|done]. Qed.

(** ** What the switch does *)

Definition asic_map (b : MockBackend) (i : N) (k : QosMapType) : option (list (N * N)) :=
  o ← port_qos_maps b !! (i, k); snd <$> qos_maps b !! o.
Definition asic_tc (b : MockBackend) (i : N) : N := default 0 (port_default_tc b !! i).
Definition asic_shaper (b : MockBackend) (i : N) : option N := port_shapers b !! i.
Definition asic_scheduler (b : MockBackend) (i q : N) : SchedulerSpec :=
  default default_queue (o ← queue_schedulers b !! (i, q); schedulers b !! o).
Definition asic_wred (b : MockBackend) (i q : N) : option WredSpec := o ← queue_wreds b !! (i, q); wreds b !! o.

(** What the daemon was asked for: the port's own program or its channel's,
    with the global tables and the profiles. *)
Definition asked (d : Daemon) (p : string) : PortQosProgram := (default ("", default_program) (resolved_qos d p)).2.

Definition asked_map (d : Daemon) (p : string) (k : QosMapType) : option (list (N * N)) :=
  if decide ((trust_map (trust (asked d p)) = Some k ∨ ingress k = false) ∧ table (maps (qos d)) k ≠ ∅)
  then Some (btree_iter (table (maps (qos d)) k)) else None.

Definition asked_wred (d : Daemon) (p : string) (q : N) : option WredSpec :=
  x ← named (wred_profile (queue_program (asked d p) q)); spec <$> wred_profiles (qos d) !! x.

(** Objects in use and objects alive. *)
Definition no_leaks (b : MockBackend) : Prop :=
  (∀ o, is_Some (schedulers b !! o) ↔ ∃ x, queue_schedulers b !! x = Some o)
  ∧ (∀ o, is_Some (wreds b !! o) ↔ ∃ x, queue_wreds b !! x = Some o)
  ∧ (∀ x o, port_qos_maps b !! x = Some o → is_Some (qos_maps b !! o)).

Lemma pool_in_use {K} `{Countable K} (pool : gmap K (N * N)) (live : gset N) (binds : gmap (N * N) N)
    (hold : gmap (N * N) K) (o : N) :
  pool_inv pool live binds hold None → o ∈ live ↔ ∃ x, binds !! x = Some o.
Proof.
  intros Hp. rewrite (pi_live _ _ _ _ _ Hp). split.
  - intros (k & n & E). destruct (pi_refs _ _ _ _ _ Hp _ _ _ E) as [En Hn]. unfold one in En.
    rewrite bool_decide_false in En by done. apply bindings_pos. lia.
  - intros [x Hx]. apply (pi_bound _ _ _ _ _ Hp) in Hx as (k & n & _ & E). eauto.
Qed.

Lemma sound_no_leaks d : sound d → no_leaks (sai d).
Proof.
  intros [_ [(hs & Hs & _) (hw & Hw & _) [_ Hb] _ _] Hct _]. split_and!.
  - intros o. rewrite <-elem_of_dom. by eapply pool_in_use.
  - intros o. rewrite <-elem_of_dom. by eapply pool_in_use.
  - intros [i k] o Hx. destruct (Hb i k o Hx) as [_ [Hm|[_ Hm]]]; [|by apply elem_of_nil in Hm].
    destruct (ct_obj _ _ _ Hct _ _ Hm) as [E _]. eauto.
Qed.

Lemma elem_of_desired_maps w t k :
  k ∈ desired_maps w t ↔ (trust_map t = Some k ∨ ingress k = false) ∧ is_Some (map_objects w !! k).
Proof.
  unfold desired_maps. rewrite elem_of_list_to_set, list_elem_of_filter, bool_decide_eq_true, elem_of_app.
  assert (k ∈ option_list (trust_map t) ↔ trust_map t = Some k) as ->.
  { destruct (trust_map t) as [k'|]; cbn; [rewrite list_elem_of_singleton; naive_solver|]. split; [by intros ?%elem_of_nil|done]. }
  assert (k ∈ [TcToDscp; TcToDot1p] ↔ ingress k = false) as ->; [|tauto].
  destruct k; cbn; set_solver.
Qed.

Lemma sound_map d p e k : sound d → ports d !! p = Some e → asic_map (sai d) (sai_id e) k = asked_map d p k.
Proof.
  intros [_ Hinv Hct Hset] He. destruct (qi_bound _ _ _ Hinv) as [Hb1 Hb2]. unfold asic_map, asked_map.
  specialize (Hb1 p e k He). rewrite (st_maps _ _ _ (Hset p e He)), elem_of_desired_maps in Hb1. fold (asked d p) in Hb1.
  assert (is_Some (map_objects (qos d) !! k) ↔ table (maps (qos d)) k ≠ ∅) as Hmo.
  { destruct (map_objects (qos d) !! k) as [o|] eqn:E.
    - split; [intros _|by eauto]. apply (ct_obj _ _ _ Hct k o E).
    - split; [by intros [? ?]|]. intros Hn. destruct Hn. by apply (ct_none _ _ _ Hct). }
  rewrite Hmo in Hb1. case_decide as Hd.
  - apply Hb1 in Hd as [o Ho]. rewrite Ho. cbn. destruct (Hb2 _ _ _ Ho) as [_ [Hm|[_ Hm]]]; [|by apply elem_of_nil in Hm].
    destruct (ct_obj _ _ _ Hct k o Hm) as [-> _]. done.
  - destruct (port_qos_maps (sai d) !! (sai_id e, k)) as [o|] eqn:E; [|done]. destruct Hd. apply Hb1. eauto.
Qed.

Lemma sound_scheduler d p e q :
  sound d → ports d !! p = Some e → q < qos_queue_count d →
  asic_scheduler (sai d) (sai_id e) q = scheduler (queue_program (asked d p) q).
Proof.
  intros [_ Hinv _ Hset] He Hq. destruct (qi_sched _ _ _ Hinv) as (hold & Hp & Hh & Hc & _).
  destruct (st_queues _ _ _ (Hset p e He) q Hq) as [Hs _]. fold (asked d p) in Hs. specialize (Hh p e q He). rewrite Hs in Hh.
  unfold asic_scheduler, given, is_default in *. case_bool_decide as Ed.
  - destruct (queue_schedulers (sai d) !! (sai_id e, q)) as [o|] eqn:E; [|done].
    apply (pi_bound _ _ _ _ _ Hp) in E as (k & n & E & _). congruence.
  - destruct (pi_hold _ _ _ _ _ Hp _ _ Hh) as [[o n] Ho].
    assert (queue_schedulers (sai d) !! (sai_id e, q) = Some o) as -> by (apply (pi_bound _ _ _ _ _ Hp); eauto).
    cbn. destruct (Hc _ _ _ Ho) as [-> _]. done.
Qed.

Lemma sound_wred d p e q :
  sound d → ports d !! p = Some e → q < qos_queue_count d → asic_wred (sai d) (sai_id e) q = asked_wred d p q.
Proof.
  intros [_ Hinv _ Hset] He Hq. destruct (qi_wred _ _ _ Hinv) as (hold & Hp & Hh & Hc & _).
  destruct (st_queues _ _ _ (Hset p e He) q Hq) as [_ Hs]. fold (asked d p) in Hs. specialize (Hh p e q He). rewrite Hs in Hh.
  unfold asic_wred, asked_wred. destruct (named (wred_profile (queue_program (asked d p) q))) as [x|]; cbn in Hh.
  - destruct (pi_hold _ _ _ _ _ Hp _ _ Hh) as [[o n] Ho].
    assert (queue_wreds (sai d) !! (sai_id e, q) = Some o) as -> by (apply (pi_bound _ _ _ _ _ Hp); eauto).
    apply wpool_lookup in Ho as [s Hx]. cbn. rewrite Hx. by destruct (Hc _ _ Hx) as [-> _].
  - destruct (queue_wreds (sai d) !! (sai_id e, q)) as [o|] eqn:E; [|done].
    apply (pi_bound _ _ _ _ _ Hp) in E as (k & n & E & _). congruence.
Qed.


(** ** A small switch *)

Definition small_switch (caps : SaiCapabilities) : Daemon :=
  mkDaemon empty_world (mkMockBackend true {[1; 2; 100]} 0 caps ∅ ∅ ∅ ∅ ∅ ∅ ∅ ∅)
    {[ "Ethernet1" := mkPortState 1 1; "Ethernet2" := mkPortState 2 2 ]} {[ 5 := mkLagState 5 100 ∅ ]} 8.

Lemma small_switch_boots caps : boots (small_switch caps).
Proof.
  split; [|done..]. split; cbn.
  - intros p p' e e' H1 H2. rewrite !lookup_insert_Some, !lookup_singleton_Some in *. naive_solver.
  - intros p e. rewrite lookup_insert_Some, lookup_singleton_Some. intros [[<- _]|[_ [<- _]]]; reflexivity.
  - intros g l. rewrite lookup_singleton_Some. intros [<- <-]. cbn. lia.
  - intros g l p. rewrite lookup_singleton_Some. intros [<- <-] Hp. by apply elem_of_empty in Hp.
Qed.

Fixpoint run (rs : list Request) (d : Daemon) : Daemon :=
  match rs with [] => d | r :: rs => run rs (handle r d).2 end.

Fixpoint all_ok (rs : list Request) (d : Daemon) : bool :=
  match rs with [] => true | r :: rs => match (handle r d).1 with Ok _ => all_ok rs (handle r d).2 | Err _ => false end end.

Lemma reached_run rs d : reached d → all_ok rs d = true → reached (run rs d).
Proof.
  revert d. induction rs as [|r rs IH]; intros d Hd H; [done|]. cbn in *. destruct (handle r d) as [[[]|e] d'] eqn:E; [|done].
  cbn in *. apply IH; [|done]. by eapply reached_ok.
Qed.

Definition queue_weight (q w : N) : QueueQos := mkQueueQos q false w None "".

Definition weigh (port : string) (q w : N) : Request := SetPortQos (mkSetPortQosRequest port "dscp" 0 None [queue_weight q w]).

Definition sample_requests : list Request :=
  [SetQosMaps (mkSetQosMapsRequest [(46, 5)] [] [(5, 46)] []);
   EnsureWredProfile (Some (mkWredProfile "GREEN" 64 128 10 true));
   SetPortQos (mkSetPortQosRequest "Port-Channel5" "dscp" 2 (Some 1000000) [mkQueueQos 3 false 10 None "GREEN"]);
   SetLagMembers 5 {[ "Ethernet2" ]};
   weigh "Ethernet1" 3 10;
   SetQosMaps (mkSetQosMapsRequest [(46, 5); (34, 4)] [] [] [])].


(** ** A request that fails half way *)

Definition no_wred : SaiCapabilities := mkSaiCapabilities true true false false true (4 * 1024 * 1024).

Definition half : Request :=
  SetPortQos (mkSetPortQosRequest "Ethernet1" "dscp" 0 None [queue_weight 0 10; mkQueueQos 1 false 0 None "GREEN"]).

