(* ===== verification/IntentTypes.v ===== *)
(** * Configuration intents: the data (hemlock-mgmtd/src/intents.rs)

    The typed families extracted from a configuration tree, their defaults
    and the errors of the extraction.  A struct is a record whose fields carry
    a prefix; [set_f] replaces field [f].  The text of a message is its format
    string and the arguments it is filled with; the messages of the address
    library are the constructors of [NetError]. *)

From Stdlib Require Import Ascii NArith Lia.
From stdpp Require Import base tactics list strings option gmap.
From S2P Require Import Prelude Text ConfigTree Net LinkMode Role.

Local Open Scope N_scope.

(** A message: [format!(fmt, args)], or one of the address library's. *)
Inductive Reason :=
| Msg (fmt : string) (args : list string)
| NetMsg (prefix : string) (args : list string) (e : NetError).

(** [for x in l] with an early return of an error. *)
Fixpoint foldM {E A B} (f : A → B → result E A) (a : A) (l : list B) : result E A :=
  match l with
  | [] => Ok a
  | x :: l => a ← f a x; foldM f a l
  end.

Definition ok_or {E A} (o : option A) (e : E) : result E A :=
  match o with Some a => Ok a | None => Err e end.

Definition map_err {E F A} (f : E → F) (r : result E A) : result F A :=
  match r with Ok a => Ok a | Err e => Err (f e) end.

(** [if c then return Err(e)] *)
Definition guard {E} (c : bool) (e : E) : result E unit := if c then Err e else Ok tt.

(** [a == b] on texts *)
Definition says (a b : string) : bool := bool_decide (a = b).

(** ** Enumerations *)

Inductive SwitchportMode := Access | Trunk | Dot1qTunnel.
Inductive LacpMode := Active | Passive | On.
Inductive LagFallback := FallbackStatic | FallbackIndividual.
Inductive StpMode := Mstp | Rstp | StpNone.
Inductive StormKind := Broadcast | Multicast | UnknownUnicast.
Inductive FdbTarget := FdbPort (p : string) | FdbDrop.
Inductive MirrorDirection := Rx | Tx | Both.
Inductive AclFamily := Ipv4 | Ipv6 | Mac.
Inductive ArpValidate := SrcMac | DstMac | ValidateIp.
Inductive QosTrust := Untrusted | TrustDscp | TrustCos.

Definition lacp_mode_word (m : LacpMode) : string :=
  match m with Active => "active" | Passive => "passive" | On => "on" end.

Definition storm_word (k : StormKind) : string :=
  match k with Broadcast => "broadcast" | Multicast => "multicast" | UnknownUnicast => "unknown-unicast" end.

Definition acl_family_word (f : AclFamily) : string :=
  match f with Ipv4 => "ipv4" | Ipv6 => "ipv6" | Mac => "mac" end.

Definition arp_validate_word (v : ArpValidate) : string :=
  match v with SrcMac => "src-mac" | DstMac => "dst-mac" | ValidateIp => "ip" end.

Definition qos_trust_word (t : QosTrust) : string :=
  match t with Untrusted => "untrusted" | TrustDscp => "dscp" | TrustCos => "cos" end.

#[export] Instance SwitchportMode_eq_dec : EqDecision SwitchportMode.
Proof. solve_decision. Defined.
#[export] Instance LacpMode_eq_dec : EqDecision LacpMode.
Proof. solve_decision. Defined.
#[export] Instance LagFallback_eq_dec : EqDecision LagFallback.
Proof. solve_decision. Defined.
#[export] Instance StpMode_eq_dec : EqDecision StpMode.
Proof. solve_decision. Defined.
#[export] Instance StormKind_eq_dec : EqDecision StormKind.
Proof. solve_decision. Defined.
#[export] Instance FdbTarget_eq_dec : EqDecision FdbTarget.
Proof. solve_decision. Defined.
#[export] Instance MirrorDirection_eq_dec : EqDecision MirrorDirection.
Proof. solve_decision. Defined.
#[export] Instance AclFamily_eq_dec : EqDecision AclFamily.
Proof. solve_decision. Defined.
#[export] Instance ArpValidate_eq_dec : EqDecision ArpValidate.
Proof. solve_decision. Defined.
#[export] Instance QosTrust_eq_dec : EqDecision QosTrust.
Proof. solve_decision. Defined.

(** The declaration order, which is the derived [Ord]. *)
Definition storm_rank (k : StormKind) : N := match k with Broadcast => 0 | Multicast => 1 | UnknownUnicast => 2 end.
Definition validate_rank (v : ArpValidate) : N := match v with SrcMac => 0 | DstMac => 1 | ValidateIp => 2 end.

#[export] Instance StormKind_countable : Countable StormKind.
Proof.
  apply (inj_countable' storm_rank (λ n, match n with 0 => Broadcast | 1 => Multicast | _ => UnknownUnicast end)).
  by intros [].
Defined.

#[export] Instance ArpValidate_countable : Countable ArpValidate.
Proof.
  apply (inj_countable' validate_rank (λ n, match n with 0 => SrcMac | 1 => DstMac | _ => ValidateIp end)).
  by intros [].
Defined.

(** ** Families *)

(** One static ARP/ND entry. *)
Record ArpStatic := mkArpStatic { as_interface : string; as_mac : string }.

Record OspfInterfaceIntent := mkOspfInterfaceIntent { oi_cost : option N; oi_hello_interval : option N;
  oi_dead_interval : option N; oi_priority : option N }.

Record OspfIntent := mkOspfIntent { ospf_router_id : option string; ospf_areas : gmap string (gset string);
  ospf_passive_interfaces : gset string; ospf_redistribute : gset string; ospf_maximum_paths : N;
  ospf_interfaces : gmap string OspfInterfaceIntent }.

Record BgpNeighborIntent := mkBgpNeighborIntent { bn_remote_as : option N; bn_description : option string;
  bn_shutdown : bool; bn_ebgp_multihop : option N; bn_next_hop_self : bool }.

Record BgpIntent := mkBgpIntent { bgp_as_number : N; bgp_router_id : option string;
  bgp_neighbors : gmap string BgpNeighborIntent; bgp_networks : gset string; bgp_redistribute : gset string;
  bgp_maximum_paths : N }.

Record VrrpIntent := mkVrrpIntent { vr_addresses : gset string; vr_priority : N; vr_advertisement_interval : N;
  vr_preempt : bool }.

(** Empty next hops exactly for a null route. *)
Record StaticRoute := mkStaticRoute { sr_next_hops : gset string; sr_drop : bool; sr_distance : N }.

Record SviIntent := mkSviIntent { svi_address : option string; svi_mtu : option N }.

Record VlanIntent := mkVlanIntent { vl_description : option string; vl_suspended : bool }.

Record SwitchportIntent := mkSwitchportIntent { sp_mode : SwitchportMode; sp_access_vlan : option N;
  sp_trunk_vlans : list N; sp_native_vlan : option N }.

Record ChannelGroup := mkChannelGroup { cg_group : N; cg_mode : LacpMode }.

Record PortLacpIntent := mkPortLacpIntent { pl_rate_fast : bool; pl_port_priority : option N }.

Record LacpGlobalIntent := mkLacpGlobalIntent { lg_system_priority : option N }.

Record StpIntent := mkStpIntent { stp_mode : StpMode; stp_priority : option N; stp_hello_time : option N;
  stp_max_age : option N; stp_forward_time : option N; stp_mst_name : option string;
  stp_mst_revision : option N; stp_instances : gmap N (list N) }.

Record PortStpIntent := mkPortStpIntent { ps_portfast : bool; ps_bpduguard : bool; ps_cost : option N;
  ps_port_priority : option N }.

Record SnoopVlanIntent := mkSnoopVlanIntent { sv_disabled : bool; sv_fast_leave : bool; sv_querier : bool;
  sv_querier_address : option string; sv_mrouters : list string }.

Record SnoopingIntent := mkSnoopingIntent { sn_disabled : bool; sn_robustness : option N;
  sn_vlans : gmap N SnoopVlanIntent }.

Record LldpIntent := mkLldpIntent { ll_disabled : bool; ll_tx_interval : option N;
  ll_hold_multiplier : option N }.

Record NtpIntent := mkNtpIntent { ntp_servers : list string }.

Record SflowCollector := mkSflowCollector { sc_address : string; sc_port : option N }.

Record SflowIntent := mkSflowIntent { sf_collectors : list SflowCollector; sf_sample_rate : option N;
  sf_polling_interval : option N }.

Record DhcpPoolIntent := mkDhcpPoolIntent { dp_network : option string; dp_range : option (N * N);
  dp_default_gateway : option N; dp_dns_servers : list N; dp_lease_time : option N;
  dp_domain_name : option string; dp_reservations : gmap string N }.

Record SnmpUser := mkSnmpUser { su_auth_password : string; su_priv_password : string }.

Record SnmpCommunityIntent := mkSnmpCommunityIntent { sm_name : string; sm_source : option string }.

Record SnmpIntent := mkSnmpIntent { snmp_enabled : bool; snmp_location : option string;
  snmp_contact : option string; snmp_communities : list SnmpCommunityIntent;
  snmp_users : gmap string SnmpUser }.

Record MacTableIntent := mkMacTableIntent { mt_aging_time : option N;
  mt_statics : gmap (string * N) FdbTarget }.

Record MirrorIntent := mkMirrorIntent { mi_sources : gmap string MirrorDirection;
  mi_destination : option string }.

Record AclPolice := mkAclPolice { po_rate : N; po_burst : N; po_pps : bool }.

Record AclRule := mkAclRule { ar_permit : bool; ar_protocol : option N; ar_source : option string;
  ar_destination : option string; ar_source_port : option (N * N); ar_destination_port : option (N * N);
  ar_dscp : option N; ar_log : bool; ar_police : option AclPolice; ar_source_mac : option (string * string);
  ar_destination_mac : option (string * string); ar_ethertype : option N }.

Record AclIntent := mkAclIntent { acl_family : AclFamily; acl_rules : gmap N AclRule }.

Record AccessGroups := mkAccessGroups { ag_ingress : option string; ag_egress : option string }.

Record CoppClassIntent := mkCoppClassIntent { cc_rate : option N; cc_burst : option N }.

Record RadiusServer := mkRadiusServer { rs_ip : string; rs_key : option string; rs_port : N; rs_timeout : N;
  rs_retransmit : N }.

Record Dot1xIntent := mkDot1xIntent { dx_radius_servers : list RadiusServer; dx_reauth_interval : N }.

Record StaticBinding := mkStaticBinding { sb_address : string; sb_interface : string }.

Record SnoopSecIntent := mkSnoopSecIntent { ss_dhcp_vlans : gset N; ss_arp_vlans : gset N;
  ss_validate : gset ArpValidate; ss_static_bindings : gmap (string * N) StaticBinding }.

Record PortSecurityIntent := mkPortSecurityIntent { psec_maximum : N; psec_shutdown : bool }.

Record QosMapsIntent := mkQosMapsIntent { qm_dscp_to_tc : gmap N N; qm_cos_to_tc : gmap N N;
  qm_tc_to_dscp : gmap N N; qm_tc_to_cos : gmap N N }.

Record WredProfileIntent := mkWredProfileIntent { wp_min_threshold : option N; wp_max_threshold : option N;
  wp_drop_probability : N; wp_ecn : bool }.

Record QueueQosIntent := mkQueueQosIntent { qq_strict : bool; qq_weight : option N; qq_shape : option N;
  qq_wred_profile : option string }.

Record PortQosIntent := mkPortQosIntent { pq_trust : QosTrust; pq_default_tc : N; pq_shape : option N;
  pq_queues : gmap N QueueQosIntent }.

Record InterfaceIntent := mkInterfaceIntent { if_admin_up : option bool; if_description : option string;
  if_address : option string; if_switchport : option SwitchportIntent; if_channel_group : option ChannelGroup;
  if_lacp : option PortLacpIntent; if_spanning_tree : option PortStpIntent;
  if_storm_control : gmap StormKind string; if_access_groups : AccessGroups;
  if_port_security : option PortSecurityIntent; if_dot1x : bool; if_dhcp_snooping_trust : bool;
  if_arp_inspection_trust : bool; if_qos : option PortQosIntent; if_lldp_disabled : bool;
  if_sflow_disabled : bool; if_speed_mbps : option N; if_duplex : option Duplex; if_mtu : option N }.

Record LagIntent := mkLagIntent { lag_admin_up : option bool; lag_description : option string;
  lag_switchport : option SwitchportIntent; lag_min_links : option N; lag_fallback : option LagFallback;
  lag_fallback_timeout : option N; lag_spanning_tree : option PortStpIntent;
  lag_storm_control : gmap StormKind string; lag_access_groups : AccessGroups; lag_dhcp_snooping_trust : bool;
  lag_arp_inspection_trust : bool; lag_qos : option PortQosIntent }.

Record MgmtIntent := mkMgmtIntent { mg_admin_up : option bool; mg_address : option string; mg_mtu : option N }.

Record IdentityIntent := mkIdentityIntent { id_hostname : option string; id_timezone : option string;
  id_name_servers : list string; id_domain_name : option string; id_banner_login : option string }.

Record UserIntent := mkUserIntent { us_role : Role; us_password_hash : option string;
  us_ssh_keys : list string }.

Record LogHost := mkLogHost { lh_address : string; lh_port : N; lh_protocol : string }.

Record LoggingIntent := mkLoggingIntent { lo_hosts : list LogHost; lo_level : option string }.

Record SshIntent := mkSshIntent { ssh_enabled : bool; ssh_auth_local : bool }.

Record WebIntent := mkWebIntent { web_http : bool; web_https : bool; web_session_timeout : option N }.

(** Every intent family extracted from one configuration tree. *)
Record Intents := mkIntents { i_ports : gmap string InterfaceIntent; i_management : gmap string MgmtIntent;
  i_identity : IdentityIntent; i_login : gmap string UserIntent; i_logging : LoggingIntent; i_ssh : SshIntent;
  i_web : WebIntent; i_routes : gmap string StaticRoute; i_arp_statics : gmap string ArpStatic;
  i_router_id : option string; i_ospf : option OspfIntent; i_bgp : option BgpIntent;
  i_vrrp : gmap (string * N) VrrpIntent; i_vlans : gmap N VlanIntent; i_svis : gmap string SviIntent;
  i_lags : gmap N LagIntent; i_lacp : LacpGlobalIntent; i_stp : StpIntent; i_igmp_snooping : SnoopingIntent;
  i_mld_snooping : SnoopingIntent; i_mac_table : MacTableIntent; i_mirror : gmap N MirrorIntent;
  i_acls : gmap string AclIntent; i_copp : gmap string CoppClassIntent; i_dot1x : Dot1xIntent;
  i_snoop_sec : SnoopSecIntent; i_lldp : LldpIntent; i_ntp : NtpIntent; i_snmp : SnmpIntent;
  i_sflow : SflowIntent; i_dhcp_relay : gmap N (list N); i_dhcp_server : gmap string DhcpPoolIntent;
  i_qos_maps : QosMapsIntent; i_wred_profiles : gmap string WredProfileIntent; i_warnings : list Reason }.

(** ** Equality *)

#[export] Instance ArpStatic_eq_dec : EqDecision ArpStatic.
Proof. solve_decision. Defined.
#[export] Instance OspfInterfaceIntent_eq_dec : EqDecision OspfInterfaceIntent.
Proof. solve_decision. Defined.
#[export] Instance OspfIntent_eq_dec : EqDecision OspfIntent.
Proof. solve_decision. Defined.
#[export] Instance BgpNeighborIntent_eq_dec : EqDecision BgpNeighborIntent.
Proof. solve_decision. Defined.
#[export] Instance BgpIntent_eq_dec : EqDecision BgpIntent.
Proof. solve_decision. Defined.
#[export] Instance VrrpIntent_eq_dec : EqDecision VrrpIntent.
Proof. solve_decision. Defined.
#[export] Instance StaticRoute_eq_dec : EqDecision StaticRoute.
Proof. solve_decision. Defined.
#[export] Instance SviIntent_eq_dec : EqDecision SviIntent.
Proof. solve_decision. Defined.
#[export] Instance VlanIntent_eq_dec : EqDecision VlanIntent.
Proof. solve_decision. Defined.
#[export] Instance SwitchportIntent_eq_dec : EqDecision SwitchportIntent.
Proof. solve_decision. Defined.
#[export] Instance ChannelGroup_eq_dec : EqDecision ChannelGroup.
Proof. solve_decision. Defined.
#[export] Instance PortLacpIntent_eq_dec : EqDecision PortLacpIntent.
Proof. solve_decision. Defined.
#[export] Instance LacpGlobalIntent_eq_dec : EqDecision LacpGlobalIntent.
Proof. solve_decision. Defined.
#[export] Instance StpIntent_eq_dec : EqDecision StpIntent.
Proof. solve_decision. Defined.
#[export] Instance PortStpIntent_eq_dec : EqDecision PortStpIntent.
Proof. solve_decision. Defined.
#[export] Instance SnoopVlanIntent_eq_dec : EqDecision SnoopVlanIntent.
Proof. solve_decision. Defined.
#[export] Instance SnoopingIntent_eq_dec : EqDecision SnoopingIntent.
Proof. solve_decision. Defined.
#[export] Instance LldpIntent_eq_dec : EqDecision LldpIntent.
Proof. solve_decision. Defined.
#[export] Instance NtpIntent_eq_dec : EqDecision NtpIntent.
Proof. solve_decision. Defined.
#[export] Instance SflowCollector_eq_dec : EqDecision SflowCollector.
Proof. solve_decision. Defined.
#[export] Instance SflowIntent_eq_dec : EqDecision SflowIntent.
Proof. solve_decision. Defined.
#[export] Instance DhcpPoolIntent_eq_dec : EqDecision DhcpPoolIntent.
Proof. solve_decision. Defined.
#[export] Instance SnmpUser_eq_dec : EqDecision SnmpUser.
Proof. solve_decision. Defined.
#[export] Instance SnmpCommunityIntent_eq_dec : EqDecision SnmpCommunityIntent.
Proof. solve_decision. Defined.
#[export] Instance SnmpIntent_eq_dec : EqDecision SnmpIntent.
Proof. solve_decision. Defined.
#[export] Instance MacTableIntent_eq_dec : EqDecision MacTableIntent.
Proof. solve_decision. Defined.
#[export] Instance MirrorIntent_eq_dec : EqDecision MirrorIntent.
Proof. solve_decision. Defined.
#[export] Instance AclPolice_eq_dec : EqDecision AclPolice.
Proof. solve_decision. Defined.
#[export] Instance AclRule_eq_dec : EqDecision AclRule.
Proof. solve_decision. Defined.
#[export] Instance AclIntent_eq_dec : EqDecision AclIntent.
Proof. solve_decision. Defined.
#[export] Instance AccessGroups_eq_dec : EqDecision AccessGroups.
Proof. solve_decision. Defined.
#[export] Instance CoppClassIntent_eq_dec : EqDecision CoppClassIntent.
Proof. solve_decision. Defined.
#[export] Instance RadiusServer_eq_dec : EqDecision RadiusServer.
Proof. solve_decision. Defined.
#[export] Instance Dot1xIntent_eq_dec : EqDecision Dot1xIntent.
Proof. solve_decision. Defined.
#[export] Instance StaticBinding_eq_dec : EqDecision StaticBinding.
Proof. solve_decision. Defined.
#[export] Instance SnoopSecIntent_eq_dec : EqDecision SnoopSecIntent.
Proof. solve_decision. Defined.
#[export] Instance PortSecurityIntent_eq_dec : EqDecision PortSecurityIntent.
Proof. solve_decision. Defined.
#[export] Instance QosMapsIntent_eq_dec : EqDecision QosMapsIntent.
Proof. solve_decision. Defined.
#[export] Instance WredProfileIntent_eq_dec : EqDecision WredProfileIntent.
Proof. solve_decision. Defined.
#[export] Instance QueueQosIntent_eq_dec : EqDecision QueueQosIntent.
Proof. solve_decision. Defined.
#[export] Instance PortQosIntent_eq_dec : EqDecision PortQosIntent.
Proof. solve_decision. Defined.
#[export] Instance InterfaceIntent_eq_dec : EqDecision InterfaceIntent.
Proof. solve_decision. Defined.
#[export] Instance LagIntent_eq_dec : EqDecision LagIntent.
Proof. solve_decision. Defined.
#[export] Instance MgmtIntent_eq_dec : EqDecision MgmtIntent.
Proof. solve_decision. Defined.
#[export] Instance IdentityIntent_eq_dec : EqDecision IdentityIntent.
Proof. solve_decision. Defined.
#[export] Instance UserIntent_eq_dec : EqDecision UserIntent.
Proof. solve_decision. Defined.
#[export] Instance LogHost_eq_dec : EqDecision LogHost.
Proof. solve_decision. Defined.
#[export] Instance LoggingIntent_eq_dec : EqDecision LoggingIntent.
Proof. solve_decision. Defined.
#[export] Instance SshIntent_eq_dec : EqDecision SshIntent.
Proof. solve_decision. Defined.
#[export] Instance WebIntent_eq_dec : EqDecision WebIntent.
Proof. solve_decision. Defined.

(** ** Errors *)

Inductive IntentError :=
| BadInterfaceBlock (r : Reason)
| BadAdminState (name value : string)
| Duplicate (name : string)
| IBadAddress (name : string) (r : Reason)
| BadLinkParam (name : string) (r : Reason)
| BadSwitchport (name : string) (r : Reason)
| AddressSwitchportConflict (name : string)
| BadVlanBlock (r : Reason)
| BadVlan (id : string) (r : Reason)
| BadSystem (r : Reason)
| UnknownTimezone (tz : string)
| BadLogin (r : Reason)
| BadLoginUser (name : string) (r : Reason)
| BadLogging (r : Reason)
| BadWeb (r : Reason)
| BadSsh (r : Reason)
| BadRouting (r : Reason)
| BadRoute (prefix : string) (r : Reason)
| BadArp (ip : string) (r : Reason)
| BadOspf (r : Reason)
| BadBgp (r : Reason)
| BadVrrp (interface group : string) (r : Reason)
| BadLag (name : string) (r : Reason)
| BadChannelGroup (name : string) (r : Reason)
| MemberConfigConflict (member : string) (group : N)
| AddressChannelGroupConflict (name : string)
| BadStp (r : Reason)
| BadPortStp (name : string) (r : Reason)
| BadStormControl (name : string) (r : Reason)
| BadSnooping (family : string) (r : Reason)
| BadMacTable (r : Reason)
| BadMirrorBlock (r : Reason)
| BadMirror (session : N) (r : Reason)
| BadProtocols (r : Reason)
| BadSwitching (r : Reason)
| BadSecurity (r : Reason)
| BadAcl (name : string) (r : Reason)
| BadAclRule (name rule : string) (r : Reason)
| BadAccessGroup (name : string) (r : Reason)
| AccessGroupOnMember (member : string) (group : N)
| BadCopp (r : Reason)
| BadDot1x (r : Reason)
| BadPortSecurity (name : string) (r : Reason)
| BadDhcpSnooping (r : Reason)
| BadArpInspection (r : Reason)
| BadServices (r : Reason)
| BadLldp (r : Reason)
| BadNtp (r : Reason)
| BadSnmp (r : Reason)
| BadSflow (r : Reason)
| BadDhcpRelay (name : string) (r : Reason)
| BadDhcpServer (r : Reason)
| BadDhcpPool (name : string) (r : Reason)
| PortServiceOnNonPort (name feature : string)
| BadQos (r : Reason)
| BadQosMap (table : string) (r : Reason)
| BadWredProfile (name : string) (r : Reason)
| BadPortQos (name : string) (r : Reason)
| BadQueueQos (name queue : string) (r : Reason)
| StrictQueueOrder.

(** ** Defaults *)

Definition default_ospf : OspfIntent := mkOspfIntent None ∅ ∅ ∅ 4 ∅.
Definition default_ospf_interface : OspfInterfaceIntent := mkOspfInterfaceIntent None None None None.
Definition default_bgp_neighbor : BgpNeighborIntent := mkBgpNeighborIntent None None false None false.
Definition default_vrrp : VrrpIntent := mkVrrpIntent ∅ 100 1 true.
Definition default_static_route : StaticRoute := mkStaticRoute ∅ false 1.
Definition default_vlan : VlanIntent := mkVlanIntent None false.
Definition default_switchport : SwitchportIntent := mkSwitchportIntent Access None [] None.
Definition default_lacp_global : LacpGlobalIntent := mkLacpGlobalIntent None.
Definition default_stp : StpIntent := mkStpIntent Mstp None None None None None None ∅.
Definition default_snooping : SnoopingIntent := mkSnoopingIntent false None ∅.
Definition default_lldp : LldpIntent := mkLldpIntent false None None.
Definition default_ntp : NtpIntent := mkNtpIntent [].
Definition default_sflow : SflowIntent := mkSflowIntent [] None None.
Definition default_pool : DhcpPoolIntent := mkDhcpPoolIntent None None None [] None None ∅.
Definition default_snmp : SnmpIntent := mkSnmpIntent false None None [] ∅.
Definition default_mac_table : MacTableIntent := mkMacTableIntent None ∅.
Definition default_mirror : MirrorIntent := mkMirrorIntent ∅ None.
Definition default_rule : AclRule :=
  mkAclRule false None None None None None None false None None None None.
Definition default_groups : AccessGroups := mkAccessGroups None None.
Definition default_copp : CoppClassIntent := mkCoppClassIntent None None.
Definition default_radius : RadiusServer := mkRadiusServer "" None 1812 5 3.
Definition default_dot1x : Dot1xIntent := mkDot1xIntent [] 0.
Definition default_snoop_sec : SnoopSecIntent := mkSnoopSecIntent ∅ ∅ ∅ ∅.
Definition default_port_security : PortSecurityIntent := mkPortSecurityIntent 1 false.
Definition default_qos_maps : QosMapsIntent := mkQosMapsIntent ∅ ∅ ∅ ∅.
Definition default_wred : WredProfileIntent := mkWredProfileIntent None None 0 false.
Definition default_queue : QueueQosIntent := mkQueueQosIntent false None None None.
Definition default_port_qos : PortQosIntent := mkPortQosIntent Untrusted 0 None ∅.
Definition default_identity : IdentityIntent := mkIdentityIntent None None [] None None.
Definition default_user : UserIntent := mkUserIntent default_role None [].
Definition default_logging : LoggingIntent := mkLoggingIntent [] None.
Definition default_ssh : SshIntent := mkSshIntent false false.
Definition default_web : WebIntent := mkWebIntent false false None.

Definition default_intents : Intents :=
  mkIntents ∅ ∅ default_identity ∅ default_logging default_ssh default_web ∅ ∅ None None None ∅ ∅ ∅ ∅
    default_lacp_global default_stp default_snooping default_snooping default_mac_table ∅ ∅ ∅
    default_dot1x default_snoop_sec default_lldp default_ntp default_snmp default_sflow ∅ ∅
    default_qos_maps ∅ [].

(** ** Field updates *)

Definition set_oi_cost v (x : OspfInterfaceIntent) : OspfInterfaceIntent := mkOspfInterfaceIntent v
  (oi_hello_interval x) (oi_dead_interval x) (oi_priority x).
Definition set_oi_hello_interval v (x : OspfInterfaceIntent) : OspfInterfaceIntent := mkOspfInterfaceIntent
  (oi_cost x) v (oi_dead_interval x) (oi_priority x).
Definition set_oi_dead_interval v (x : OspfInterfaceIntent) : OspfInterfaceIntent := mkOspfInterfaceIntent
  (oi_cost x) (oi_hello_interval x) v (oi_priority x).
Definition set_oi_priority v (x : OspfInterfaceIntent) : OspfInterfaceIntent := mkOspfInterfaceIntent
  (oi_cost x) (oi_hello_interval x) (oi_dead_interval x) v.
Definition set_ospf_router_id v (x : OspfIntent) : OspfIntent := mkOspfIntent v (ospf_areas x)
  (ospf_passive_interfaces x) (ospf_redistribute x) (ospf_maximum_paths x) (ospf_interfaces x).
Definition set_ospf_areas v (x : OspfIntent) : OspfIntent := mkOspfIntent (ospf_router_id x) v
  (ospf_passive_interfaces x) (ospf_redistribute x) (ospf_maximum_paths x) (ospf_interfaces x).
Definition set_ospf_passive_interfaces v (x : OspfIntent) : OspfIntent := mkOspfIntent (ospf_router_id x)
  (ospf_areas x) v (ospf_redistribute x) (ospf_maximum_paths x) (ospf_interfaces x).
Definition set_ospf_redistribute v (x : OspfIntent) : OspfIntent := mkOspfIntent (ospf_router_id x)
  (ospf_areas x) (ospf_passive_interfaces x) v (ospf_maximum_paths x) (ospf_interfaces x).
Definition set_ospf_maximum_paths v (x : OspfIntent) : OspfIntent := mkOspfIntent (ospf_router_id x)
  (ospf_areas x) (ospf_passive_interfaces x) (ospf_redistribute x) v (ospf_interfaces x).
Definition set_ospf_interfaces v (x : OspfIntent) : OspfIntent := mkOspfIntent (ospf_router_id x) (ospf_areas x)
  (ospf_passive_interfaces x) (ospf_redistribute x) (ospf_maximum_paths x) v.
Definition set_bn_remote_as v (x : BgpNeighborIntent) : BgpNeighborIntent := mkBgpNeighborIntent v
  (bn_description x) (bn_shutdown x) (bn_ebgp_multihop x) (bn_next_hop_self x).
Definition set_bn_description v (x : BgpNeighborIntent) : BgpNeighborIntent := mkBgpNeighborIntent
  (bn_remote_as x) v (bn_shutdown x) (bn_ebgp_multihop x) (bn_next_hop_self x).
Definition set_bn_shutdown v (x : BgpNeighborIntent) : BgpNeighborIntent := mkBgpNeighborIntent (bn_remote_as x)
  (bn_description x) v (bn_ebgp_multihop x) (bn_next_hop_self x).
Definition set_bn_ebgp_multihop v (x : BgpNeighborIntent) : BgpNeighborIntent := mkBgpNeighborIntent
  (bn_remote_as x) (bn_description x) (bn_shutdown x) v (bn_next_hop_self x).
Definition set_bn_next_hop_self v (x : BgpNeighborIntent) : BgpNeighborIntent := mkBgpNeighborIntent
  (bn_remote_as x) (bn_description x) (bn_shutdown x) (bn_ebgp_multihop x) v.
Definition set_bgp_as_number v (x : BgpIntent) : BgpIntent := mkBgpIntent v (bgp_router_id x) (bgp_neighbors x)
  (bgp_networks x) (bgp_redistribute x) (bgp_maximum_paths x).
Definition set_bgp_router_id v (x : BgpIntent) : BgpIntent := mkBgpIntent (bgp_as_number x) v (bgp_neighbors x)
  (bgp_networks x) (bgp_redistribute x) (bgp_maximum_paths x).
Definition set_bgp_neighbors v (x : BgpIntent) : BgpIntent := mkBgpIntent (bgp_as_number x) (bgp_router_id x) v
  (bgp_networks x) (bgp_redistribute x) (bgp_maximum_paths x).
Definition set_bgp_networks v (x : BgpIntent) : BgpIntent := mkBgpIntent (bgp_as_number x) (bgp_router_id x)
  (bgp_neighbors x) v (bgp_redistribute x) (bgp_maximum_paths x).
Definition set_bgp_redistribute v (x : BgpIntent) : BgpIntent := mkBgpIntent (bgp_as_number x) (bgp_router_id x)
  (bgp_neighbors x) (bgp_networks x) v (bgp_maximum_paths x).
Definition set_bgp_maximum_paths v (x : BgpIntent) : BgpIntent := mkBgpIntent (bgp_as_number x)
  (bgp_router_id x) (bgp_neighbors x) (bgp_networks x) (bgp_redistribute x) v.
Definition set_vr_addresses v (x : VrrpIntent) : VrrpIntent := mkVrrpIntent v (vr_priority x)
  (vr_advertisement_interval x) (vr_preempt x).
Definition set_vr_priority v (x : VrrpIntent) : VrrpIntent := mkVrrpIntent (vr_addresses x) v
  (vr_advertisement_interval x) (vr_preempt x).
Definition set_vr_advertisement_interval v (x : VrrpIntent) : VrrpIntent := mkVrrpIntent (vr_addresses x)
  (vr_priority x) v (vr_preempt x).
Definition set_vr_preempt v (x : VrrpIntent) : VrrpIntent := mkVrrpIntent (vr_addresses x) (vr_priority x)
  (vr_advertisement_interval x) v.
Definition set_sr_next_hops v (x : StaticRoute) : StaticRoute := mkStaticRoute v (sr_drop x) (sr_distance x).
Definition set_sr_drop v (x : StaticRoute) : StaticRoute := mkStaticRoute (sr_next_hops x) v (sr_distance x).
Definition set_sr_distance v (x : StaticRoute) : StaticRoute := mkStaticRoute (sr_next_hops x) (sr_drop x) v.
Definition set_sf_collectors v (x : SflowIntent) : SflowIntent := mkSflowIntent v (sf_sample_rate x)
  (sf_polling_interval x).
Definition set_sf_sample_rate v (x : SflowIntent) : SflowIntent := mkSflowIntent (sf_collectors x) v
  (sf_polling_interval x).
Definition set_sf_polling_interval v (x : SflowIntent) : SflowIntent := mkSflowIntent (sf_collectors x)
  (sf_sample_rate x) v.
Definition set_dp_network v (x : DhcpPoolIntent) : DhcpPoolIntent := mkDhcpPoolIntent v (dp_range x)
  (dp_default_gateway x) (dp_dns_servers x) (dp_lease_time x) (dp_domain_name x) (dp_reservations x).
Definition set_dp_range v (x : DhcpPoolIntent) : DhcpPoolIntent := mkDhcpPoolIntent (dp_network x) v
  (dp_default_gateway x) (dp_dns_servers x) (dp_lease_time x) (dp_domain_name x) (dp_reservations x).
Definition set_dp_default_gateway v (x : DhcpPoolIntent) : DhcpPoolIntent := mkDhcpPoolIntent (dp_network x)
  (dp_range x) v (dp_dns_servers x) (dp_lease_time x) (dp_domain_name x) (dp_reservations x).
Definition set_dp_dns_servers v (x : DhcpPoolIntent) : DhcpPoolIntent := mkDhcpPoolIntent (dp_network x)
  (dp_range x) (dp_default_gateway x) v (dp_lease_time x) (dp_domain_name x) (dp_reservations x).
Definition set_dp_lease_time v (x : DhcpPoolIntent) : DhcpPoolIntent := mkDhcpPoolIntent (dp_network x)
  (dp_range x) (dp_default_gateway x) (dp_dns_servers x) v (dp_domain_name x) (dp_reservations x).
Definition set_dp_domain_name v (x : DhcpPoolIntent) : DhcpPoolIntent := mkDhcpPoolIntent (dp_network x)
  (dp_range x) (dp_default_gateway x) (dp_dns_servers x) (dp_lease_time x) v (dp_reservations x).
Definition set_dp_reservations v (x : DhcpPoolIntent) : DhcpPoolIntent := mkDhcpPoolIntent (dp_network x)
  (dp_range x) (dp_default_gateway x) (dp_dns_servers x) (dp_lease_time x) (dp_domain_name x) v.
Definition set_snmp_enabled v (x : SnmpIntent) : SnmpIntent := mkSnmpIntent v (snmp_location x) (snmp_contact x)
  (snmp_communities x) (snmp_users x).
Definition set_snmp_location v (x : SnmpIntent) : SnmpIntent := mkSnmpIntent (snmp_enabled x) v (snmp_contact x)
  (snmp_communities x) (snmp_users x).
Definition set_snmp_contact v (x : SnmpIntent) : SnmpIntent := mkSnmpIntent (snmp_enabled x) (snmp_location x) v
  (snmp_communities x) (snmp_users x).
Definition set_snmp_communities v (x : SnmpIntent) : SnmpIntent := mkSnmpIntent (snmp_enabled x)
  (snmp_location x) (snmp_contact x) v (snmp_users x).
Definition set_snmp_users v (x : SnmpIntent) : SnmpIntent := mkSnmpIntent (snmp_enabled x) (snmp_location x)
  (snmp_contact x) (snmp_communities x) v.
Definition set_mt_aging_time v (x : MacTableIntent) : MacTableIntent := mkMacTableIntent v (mt_statics x).
Definition set_mt_statics v (x : MacTableIntent) : MacTableIntent := mkMacTableIntent (mt_aging_time x) v.
Definition set_mi_sources v (x : MirrorIntent) : MirrorIntent := mkMirrorIntent v (mi_destination x).
Definition set_mi_destination v (x : MirrorIntent) : MirrorIntent := mkMirrorIntent (mi_sources x) v.
Definition set_ar_permit v (x : AclRule) : AclRule := mkAclRule v (ar_protocol x) (ar_source x)
  (ar_destination x) (ar_source_port x) (ar_destination_port x) (ar_dscp x) (ar_log x) (ar_police x)
  (ar_source_mac x) (ar_destination_mac x) (ar_ethertype x).
Definition set_ar_protocol v (x : AclRule) : AclRule := mkAclRule (ar_permit x) v (ar_source x)
  (ar_destination x) (ar_source_port x) (ar_destination_port x) (ar_dscp x) (ar_log x) (ar_police x)
  (ar_source_mac x) (ar_destination_mac x) (ar_ethertype x).
Definition set_ar_source v (x : AclRule) : AclRule := mkAclRule (ar_permit x) (ar_protocol x) v
  (ar_destination x) (ar_source_port x) (ar_destination_port x) (ar_dscp x) (ar_log x) (ar_police x)
  (ar_source_mac x) (ar_destination_mac x) (ar_ethertype x).
Definition set_ar_destination v (x : AclRule) : AclRule := mkAclRule (ar_permit x) (ar_protocol x) (ar_source x)
  v (ar_source_port x) (ar_destination_port x) (ar_dscp x) (ar_log x) (ar_police x) (ar_source_mac x)
  (ar_destination_mac x) (ar_ethertype x).
Definition set_ar_source_port v (x : AclRule) : AclRule := mkAclRule (ar_permit x) (ar_protocol x) (ar_source x)
  (ar_destination x) v (ar_destination_port x) (ar_dscp x) (ar_log x) (ar_police x) (ar_source_mac x)
  (ar_destination_mac x) (ar_ethertype x).
Definition set_ar_destination_port v (x : AclRule) : AclRule := mkAclRule (ar_permit x) (ar_protocol x)
  (ar_source x) (ar_destination x) (ar_source_port x) v (ar_dscp x) (ar_log x) (ar_police x) (ar_source_mac x)
  (ar_destination_mac x) (ar_ethertype x).
Definition set_ar_dscp v (x : AclRule) : AclRule := mkAclRule (ar_permit x) (ar_protocol x) (ar_source x)
  (ar_destination x) (ar_source_port x) (ar_destination_port x) v (ar_log x) (ar_police x) (ar_source_mac x)
  (ar_destination_mac x) (ar_ethertype x).
Definition set_ar_log v (x : AclRule) : AclRule := mkAclRule (ar_permit x) (ar_protocol x) (ar_source x)
  (ar_destination x) (ar_source_port x) (ar_destination_port x) (ar_dscp x) v (ar_police x) (ar_source_mac x)
  (ar_destination_mac x) (ar_ethertype x).
Definition set_ar_police v (x : AclRule) : AclRule := mkAclRule (ar_permit x) (ar_protocol x) (ar_source x)
  (ar_destination x) (ar_source_port x) (ar_destination_port x) (ar_dscp x) (ar_log x) v (ar_source_mac x)
  (ar_destination_mac x) (ar_ethertype x).
Definition set_ar_source_mac v (x : AclRule) : AclRule := mkAclRule (ar_permit x) (ar_protocol x) (ar_source x)
  (ar_destination x) (ar_source_port x) (ar_destination_port x) (ar_dscp x) (ar_log x) (ar_police x) v
  (ar_destination_mac x) (ar_ethertype x).
Definition set_ar_destination_mac v (x : AclRule) : AclRule := mkAclRule (ar_permit x) (ar_protocol x)
  (ar_source x) (ar_destination x) (ar_source_port x) (ar_destination_port x) (ar_dscp x) (ar_log x)
  (ar_police x) (ar_source_mac x) v (ar_ethertype x).
Definition set_ar_ethertype v (x : AclRule) : AclRule := mkAclRule (ar_permit x) (ar_protocol x) (ar_source x)
  (ar_destination x) (ar_source_port x) (ar_destination_port x) (ar_dscp x) (ar_log x) (ar_police x)
  (ar_source_mac x) (ar_destination_mac x) v.
Definition set_ag_ingress v (x : AccessGroups) : AccessGroups := mkAccessGroups v (ag_egress x).
Definition set_ag_egress v (x : AccessGroups) : AccessGroups := mkAccessGroups (ag_ingress x) v.
Definition set_cc_rate v (x : CoppClassIntent) : CoppClassIntent := mkCoppClassIntent v (cc_burst x).
Definition set_cc_burst v (x : CoppClassIntent) : CoppClassIntent := mkCoppClassIntent (cc_rate x) v.
Definition set_rs_ip v (x : RadiusServer) : RadiusServer := mkRadiusServer v (rs_key x) (rs_port x)
  (rs_timeout x) (rs_retransmit x).
Definition set_rs_key v (x : RadiusServer) : RadiusServer := mkRadiusServer (rs_ip x) v (rs_port x)
  (rs_timeout x) (rs_retransmit x).
Definition set_rs_port v (x : RadiusServer) : RadiusServer := mkRadiusServer (rs_ip x) (rs_key x) v
  (rs_timeout x) (rs_retransmit x).
Definition set_rs_timeout v (x : RadiusServer) : RadiusServer := mkRadiusServer (rs_ip x) (rs_key x) (rs_port x)
  v (rs_retransmit x).
Definition set_rs_retransmit v (x : RadiusServer) : RadiusServer := mkRadiusServer (rs_ip x) (rs_key x)
  (rs_port x) (rs_timeout x) v.
Definition set_dx_radius_servers v (x : Dot1xIntent) : Dot1xIntent := mkDot1xIntent v (dx_reauth_interval x).
Definition set_dx_reauth_interval v (x : Dot1xIntent) : Dot1xIntent := mkDot1xIntent (dx_radius_servers x) v.
Definition set_ss_dhcp_vlans v (x : SnoopSecIntent) : SnoopSecIntent := mkSnoopSecIntent v (ss_arp_vlans x)
  (ss_validate x) (ss_static_bindings x).
Definition set_ss_arp_vlans v (x : SnoopSecIntent) : SnoopSecIntent := mkSnoopSecIntent (ss_dhcp_vlans x) v
  (ss_validate x) (ss_static_bindings x).
Definition set_ss_validate v (x : SnoopSecIntent) : SnoopSecIntent := mkSnoopSecIntent (ss_dhcp_vlans x)
  (ss_arp_vlans x) v (ss_static_bindings x).
Definition set_ss_static_bindings v (x : SnoopSecIntent) : SnoopSecIntent := mkSnoopSecIntent (ss_dhcp_vlans x)
  (ss_arp_vlans x) (ss_validate x) v.
Definition set_psec_maximum v (x : PortSecurityIntent) : PortSecurityIntent := mkPortSecurityIntent v
  (psec_shutdown x).
Definition set_psec_shutdown v (x : PortSecurityIntent) : PortSecurityIntent := mkPortSecurityIntent
  (psec_maximum x) v.
Definition set_qm_dscp_to_tc v (x : QosMapsIntent) : QosMapsIntent := mkQosMapsIntent v (qm_cos_to_tc x)
  (qm_tc_to_dscp x) (qm_tc_to_cos x).
Definition set_qm_cos_to_tc v (x : QosMapsIntent) : QosMapsIntent := mkQosMapsIntent (qm_dscp_to_tc x) v
  (qm_tc_to_dscp x) (qm_tc_to_cos x).
Definition set_qm_tc_to_dscp v (x : QosMapsIntent) : QosMapsIntent := mkQosMapsIntent (qm_dscp_to_tc x)
  (qm_cos_to_tc x) v (qm_tc_to_cos x).
Definition set_qm_tc_to_cos v (x : QosMapsIntent) : QosMapsIntent := mkQosMapsIntent (qm_dscp_to_tc x)
  (qm_cos_to_tc x) (qm_tc_to_dscp x) v.
Definition set_wp_min_threshold v (x : WredProfileIntent) : WredProfileIntent := mkWredProfileIntent v
  (wp_max_threshold x) (wp_drop_probability x) (wp_ecn x).
Definition set_wp_max_threshold v (x : WredProfileIntent) : WredProfileIntent := mkWredProfileIntent
  (wp_min_threshold x) v (wp_drop_probability x) (wp_ecn x).
Definition set_wp_drop_probability v (x : WredProfileIntent) : WredProfileIntent := mkWredProfileIntent
  (wp_min_threshold x) (wp_max_threshold x) v (wp_ecn x).
Definition set_wp_ecn v (x : WredProfileIntent) : WredProfileIntent := mkWredProfileIntent (wp_min_threshold x)
  (wp_max_threshold x) (wp_drop_probability x) v.
Definition set_qq_strict v (x : QueueQosIntent) : QueueQosIntent := mkQueueQosIntent v (qq_weight x)
  (qq_shape x) (qq_wred_profile x).
Definition set_qq_weight v (x : QueueQosIntent) : QueueQosIntent := mkQueueQosIntent (qq_strict x) v
  (qq_shape x) (qq_wred_profile x).
Definition set_qq_shape v (x : QueueQosIntent) : QueueQosIntent := mkQueueQosIntent (qq_strict x) (qq_weight x)
  v (qq_wred_profile x).
Definition set_qq_wred_profile v (x : QueueQosIntent) : QueueQosIntent := mkQueueQosIntent (qq_strict x)
  (qq_weight x) (qq_shape x) v.
Definition set_pq_trust v (x : PortQosIntent) : PortQosIntent := mkPortQosIntent v (pq_default_tc x)
  (pq_shape x) (pq_queues x).
Definition set_pq_default_tc v (x : PortQosIntent) : PortQosIntent := mkPortQosIntent (pq_trust x) v
  (pq_shape x) (pq_queues x).
Definition set_pq_shape v (x : PortQosIntent) : PortQosIntent := mkPortQosIntent (pq_trust x) (pq_default_tc x)
  v (pq_queues x).
Definition set_pq_queues v (x : PortQosIntent) : PortQosIntent := mkPortQosIntent (pq_trust x) (pq_default_tc x)
  (pq_shape x) v.
Definition set_id_hostname v (x : IdentityIntent) : IdentityIntent := mkIdentityIntent v (id_timezone x)
  (id_name_servers x) (id_domain_name x) (id_banner_login x).
Definition set_id_timezone v (x : IdentityIntent) : IdentityIntent := mkIdentityIntent (id_hostname x) v
  (id_name_servers x) (id_domain_name x) (id_banner_login x).
Definition set_id_name_servers v (x : IdentityIntent) : IdentityIntent := mkIdentityIntent (id_hostname x)
  (id_timezone x) v (id_domain_name x) (id_banner_login x).
Definition set_id_domain_name v (x : IdentityIntent) : IdentityIntent := mkIdentityIntent (id_hostname x)
  (id_timezone x) (id_name_servers x) v (id_banner_login x).
Definition set_id_banner_login v (x : IdentityIntent) : IdentityIntent := mkIdentityIntent (id_hostname x)
  (id_timezone x) (id_name_servers x) (id_domain_name x) v.
Definition set_us_role v (x : UserIntent) : UserIntent := mkUserIntent v (us_password_hash x) (us_ssh_keys x).
Definition set_us_password_hash v (x : UserIntent) : UserIntent := mkUserIntent (us_role x) v (us_ssh_keys x).
Definition set_us_ssh_keys v (x : UserIntent) : UserIntent := mkUserIntent (us_role x) (us_password_hash x) v.
Definition set_lo_hosts v (x : LoggingIntent) : LoggingIntent := mkLoggingIntent v (lo_level x).
Definition set_lo_level v (x : LoggingIntent) : LoggingIntent := mkLoggingIntent (lo_hosts x) v.
Definition set_web_session_timeout v (x : WebIntent) : WebIntent := mkWebIntent (web_http x) (web_https x) v.
Definition set_i_ports v (x : Intents) : Intents := mkIntents v (i_management x) (i_identity x) (i_login x)
  (i_logging x) (i_ssh x) (i_web x) (i_routes x) (i_arp_statics x) (i_router_id x) (i_ospf x) (i_bgp x)
  (i_vrrp x) (i_vlans x) (i_svis x) (i_lags x) (i_lacp x) (i_stp x) (i_igmp_snooping x) (i_mld_snooping x)
  (i_mac_table x) (i_mirror x) (i_acls x) (i_copp x) (i_dot1x x) (i_snoop_sec x) (i_lldp x) (i_ntp x) (i_snmp x)
  (i_sflow x) (i_dhcp_relay x) (i_dhcp_server x) (i_qos_maps x) (i_wred_profiles x) (i_warnings x).
Definition set_i_management v (x : Intents) : Intents := mkIntents (i_ports x) v (i_identity x) (i_login x)
  (i_logging x) (i_ssh x) (i_web x) (i_routes x) (i_arp_statics x) (i_router_id x) (i_ospf x) (i_bgp x)
  (i_vrrp x) (i_vlans x) (i_svis x) (i_lags x) (i_lacp x) (i_stp x) (i_igmp_snooping x) (i_mld_snooping x)
  (i_mac_table x) (i_mirror x) (i_acls x) (i_copp x) (i_dot1x x) (i_snoop_sec x) (i_lldp x) (i_ntp x) (i_snmp x)
  (i_sflow x) (i_dhcp_relay x) (i_dhcp_server x) (i_qos_maps x) (i_wred_profiles x) (i_warnings x).
Definition set_i_identity v (x : Intents) : Intents := mkIntents (i_ports x) (i_management x) v (i_login x)
  (i_logging x) (i_ssh x) (i_web x) (i_routes x) (i_arp_statics x) (i_router_id x) (i_ospf x) (i_bgp x)
  (i_vrrp x) (i_vlans x) (i_svis x) (i_lags x) (i_lacp x) (i_stp x) (i_igmp_snooping x) (i_mld_snooping x)
  (i_mac_table x) (i_mirror x) (i_acls x) (i_copp x) (i_dot1x x) (i_snoop_sec x) (i_lldp x) (i_ntp x) (i_snmp x)
  (i_sflow x) (i_dhcp_relay x) (i_dhcp_server x) (i_qos_maps x) (i_wred_profiles x) (i_warnings x).
Definition set_i_login v (x : Intents) : Intents := mkIntents (i_ports x) (i_management x) (i_identity x) v
  (i_logging x) (i_ssh x) (i_web x) (i_routes x) (i_arp_statics x) (i_router_id x) (i_ospf x) (i_bgp x)
  (i_vrrp x) (i_vlans x) (i_svis x) (i_lags x) (i_lacp x) (i_stp x) (i_igmp_snooping x) (i_mld_snooping x)
  (i_mac_table x) (i_mirror x) (i_acls x) (i_copp x) (i_dot1x x) (i_snoop_sec x) (i_lldp x) (i_ntp x) (i_snmp x)
  (i_sflow x) (i_dhcp_relay x) (i_dhcp_server x) (i_qos_maps x) (i_wred_profiles x) (i_warnings x).
Definition set_i_logging v (x : Intents) : Intents := mkIntents (i_ports x) (i_management x) (i_identity x)
  (i_login x) v (i_ssh x) (i_web x) (i_routes x) (i_arp_statics x) (i_router_id x) (i_ospf x) (i_bgp x)
  (i_vrrp x) (i_vlans x) (i_svis x) (i_lags x) (i_lacp x) (i_stp x) (i_igmp_snooping x) (i_mld_snooping x)
  (i_mac_table x) (i_mirror x) (i_acls x) (i_copp x) (i_dot1x x) (i_snoop_sec x) (i_lldp x) (i_ntp x) (i_snmp x)
  (i_sflow x) (i_dhcp_relay x) (i_dhcp_server x) (i_qos_maps x) (i_wred_profiles x) (i_warnings x).
Definition set_i_ssh v (x : Intents) : Intents := mkIntents (i_ports x) (i_management x) (i_identity x)
  (i_login x) (i_logging x) v (i_web x) (i_routes x) (i_arp_statics x) (i_router_id x) (i_ospf x) (i_bgp x)
  (i_vrrp x) (i_vlans x) (i_svis x) (i_lags x) (i_lacp x) (i_stp x) (i_igmp_snooping x) (i_mld_snooping x)
  (i_mac_table x) (i_mirror x) (i_acls x) (i_copp x) (i_dot1x x) (i_snoop_sec x) (i_lldp x) (i_ntp x) (i_snmp x)
  (i_sflow x) (i_dhcp_relay x) (i_dhcp_server x) (i_qos_maps x) (i_wred_profiles x) (i_warnings x).
Definition set_i_web v (x : Intents) : Intents := mkIntents (i_ports x) (i_management x) (i_identity x)
  (i_login x) (i_logging x) (i_ssh x) v (i_routes x) (i_arp_statics x) (i_router_id x) (i_ospf x) (i_bgp x)
  (i_vrrp x) (i_vlans x) (i_svis x) (i_lags x) (i_lacp x) (i_stp x) (i_igmp_snooping x) (i_mld_snooping x)
  (i_mac_table x) (i_mirror x) (i_acls x) (i_copp x) (i_dot1x x) (i_snoop_sec x) (i_lldp x) (i_ntp x) (i_snmp x)
  (i_sflow x) (i_dhcp_relay x) (i_dhcp_server x) (i_qos_maps x) (i_wred_profiles x) (i_warnings x).
Definition set_i_routes v (x : Intents) : Intents := mkIntents (i_ports x) (i_management x) (i_identity x)
  (i_login x) (i_logging x) (i_ssh x) (i_web x) v (i_arp_statics x) (i_router_id x) (i_ospf x) (i_bgp x)
  (i_vrrp x) (i_vlans x) (i_svis x) (i_lags x) (i_lacp x) (i_stp x) (i_igmp_snooping x) (i_mld_snooping x)
  (i_mac_table x) (i_mirror x) (i_acls x) (i_copp x) (i_dot1x x) (i_snoop_sec x) (i_lldp x) (i_ntp x) (i_snmp x)
  (i_sflow x) (i_dhcp_relay x) (i_dhcp_server x) (i_qos_maps x) (i_wred_profiles x) (i_warnings x).
Definition set_i_arp_statics v (x : Intents) : Intents := mkIntents (i_ports x) (i_management x) (i_identity x)
  (i_login x) (i_logging x) (i_ssh x) (i_web x) (i_routes x) v (i_router_id x) (i_ospf x) (i_bgp x) (i_vrrp x)
  (i_vlans x) (i_svis x) (i_lags x) (i_lacp x) (i_stp x) (i_igmp_snooping x) (i_mld_snooping x) (i_mac_table x)
  (i_mirror x) (i_acls x) (i_copp x) (i_dot1x x) (i_snoop_sec x) (i_lldp x) (i_ntp x) (i_snmp x) (i_sflow x)
  (i_dhcp_relay x) (i_dhcp_server x) (i_qos_maps x) (i_wred_profiles x) (i_warnings x).
Definition set_i_router_id v (x : Intents) : Intents := mkIntents (i_ports x) (i_management x) (i_identity x)
  (i_login x) (i_logging x) (i_ssh x) (i_web x) (i_routes x) (i_arp_statics x) v (i_ospf x) (i_bgp x) (i_vrrp x)
  (i_vlans x) (i_svis x) (i_lags x) (i_lacp x) (i_stp x) (i_igmp_snooping x) (i_mld_snooping x) (i_mac_table x)
  (i_mirror x) (i_acls x) (i_copp x) (i_dot1x x) (i_snoop_sec x) (i_lldp x) (i_ntp x) (i_snmp x) (i_sflow x)
  (i_dhcp_relay x) (i_dhcp_server x) (i_qos_maps x) (i_wred_profiles x) (i_warnings x).
Definition set_i_ospf v (x : Intents) : Intents := mkIntents (i_ports x) (i_management x) (i_identity x)
  (i_login x) (i_logging x) (i_ssh x) (i_web x) (i_routes x) (i_arp_statics x) (i_router_id x) v (i_bgp x)
  (i_vrrp x) (i_vlans x) (i_svis x) (i_lags x) (i_lacp x) (i_stp x) (i_igmp_snooping x) (i_mld_snooping x)
  (i_mac_table x) (i_mirror x) (i_acls x) (i_copp x) (i_dot1x x) (i_snoop_sec x) (i_lldp x) (i_ntp x) (i_snmp x)
  (i_sflow x) (i_dhcp_relay x) (i_dhcp_server x) (i_qos_maps x) (i_wred_profiles x) (i_warnings x).
Definition set_i_bgp v (x : Intents) : Intents := mkIntents (i_ports x) (i_management x) (i_identity x)
  (i_login x) (i_logging x) (i_ssh x) (i_web x) (i_routes x) (i_arp_statics x) (i_router_id x) (i_ospf x) v
  (i_vrrp x) (i_vlans x) (i_svis x) (i_lags x) (i_lacp x) (i_stp x) (i_igmp_snooping x) (i_mld_snooping x)
  (i_mac_table x) (i_mirror x) (i_acls x) (i_copp x) (i_dot1x x) (i_snoop_sec x) (i_lldp x) (i_ntp x) (i_snmp x)
  (i_sflow x) (i_dhcp_relay x) (i_dhcp_server x) (i_qos_maps x) (i_wred_profiles x) (i_warnings x).
Definition set_i_vrrp v (x : Intents) : Intents := mkIntents (i_ports x) (i_management x) (i_identity x)
  (i_login x) (i_logging x) (i_ssh x) (i_web x) (i_routes x) (i_arp_statics x) (i_router_id x) (i_ospf x)
  (i_bgp x) v (i_vlans x) (i_svis x) (i_lags x) (i_lacp x) (i_stp x) (i_igmp_snooping x) (i_mld_snooping x)
  (i_mac_table x) (i_mirror x) (i_acls x) (i_copp x) (i_dot1x x) (i_snoop_sec x) (i_lldp x) (i_ntp x) (i_snmp x)
  (i_sflow x) (i_dhcp_relay x) (i_dhcp_server x) (i_qos_maps x) (i_wred_profiles x) (i_warnings x).
Definition set_i_vlans v (x : Intents) : Intents := mkIntents (i_ports x) (i_management x) (i_identity x)
  (i_login x) (i_logging x) (i_ssh x) (i_web x) (i_routes x) (i_arp_statics x) (i_router_id x) (i_ospf x)
  (i_bgp x) (i_vrrp x) v (i_svis x) (i_lags x) (i_lacp x) (i_stp x) (i_igmp_snooping x) (i_mld_snooping x)
  (i_mac_table x) (i_mirror x) (i_acls x) (i_copp x) (i_dot1x x) (i_snoop_sec x) (i_lldp x) (i_ntp x) (i_snmp x)
  (i_sflow x) (i_dhcp_relay x) (i_dhcp_server x) (i_qos_maps x) (i_wred_profiles x) (i_warnings x).
Definition set_i_svis v (x : Intents) : Intents := mkIntents (i_ports x) (i_management x) (i_identity x)
  (i_login x) (i_logging x) (i_ssh x) (i_web x) (i_routes x) (i_arp_statics x) (i_router_id x) (i_ospf x)
  (i_bgp x) (i_vrrp x) (i_vlans x) v (i_lags x) (i_lacp x) (i_stp x) (i_igmp_snooping x) (i_mld_snooping x)
  (i_mac_table x) (i_mirror x) (i_acls x) (i_copp x) (i_dot1x x) (i_snoop_sec x) (i_lldp x) (i_ntp x) (i_snmp x)
  (i_sflow x) (i_dhcp_relay x) (i_dhcp_server x) (i_qos_maps x) (i_wred_profiles x) (i_warnings x).
Definition set_i_lags v (x : Intents) : Intents := mkIntents (i_ports x) (i_management x) (i_identity x)
  (i_login x) (i_logging x) (i_ssh x) (i_web x) (i_routes x) (i_arp_statics x) (i_router_id x) (i_ospf x)
  (i_bgp x) (i_vrrp x) (i_vlans x) (i_svis x) v (i_lacp x) (i_stp x) (i_igmp_snooping x) (i_mld_snooping x)
  (i_mac_table x) (i_mirror x) (i_acls x) (i_copp x) (i_dot1x x) (i_snoop_sec x) (i_lldp x) (i_ntp x) (i_snmp x)
  (i_sflow x) (i_dhcp_relay x) (i_dhcp_server x) (i_qos_maps x) (i_wred_profiles x) (i_warnings x).
Definition set_i_lacp v (x : Intents) : Intents := mkIntents (i_ports x) (i_management x) (i_identity x)
  (i_login x) (i_logging x) (i_ssh x) (i_web x) (i_routes x) (i_arp_statics x) (i_router_id x) (i_ospf x)
  (i_bgp x) (i_vrrp x) (i_vlans x) (i_svis x) (i_lags x) v (i_stp x) (i_igmp_snooping x) (i_mld_snooping x)
  (i_mac_table x) (i_mirror x) (i_acls x) (i_copp x) (i_dot1x x) (i_snoop_sec x) (i_lldp x) (i_ntp x) (i_snmp x)
  (i_sflow x) (i_dhcp_relay x) (i_dhcp_server x) (i_qos_maps x) (i_wred_profiles x) (i_warnings x).
Definition set_i_stp v (x : Intents) : Intents := mkIntents (i_ports x) (i_management x) (i_identity x)
  (i_login x) (i_logging x) (i_ssh x) (i_web x) (i_routes x) (i_arp_statics x) (i_router_id x) (i_ospf x)
  (i_bgp x) (i_vrrp x) (i_vlans x) (i_svis x) (i_lags x) (i_lacp x) v (i_igmp_snooping x) (i_mld_snooping x)
  (i_mac_table x) (i_mirror x) (i_acls x) (i_copp x) (i_dot1x x) (i_snoop_sec x) (i_lldp x) (i_ntp x) (i_snmp x)
  (i_sflow x) (i_dhcp_relay x) (i_dhcp_server x) (i_qos_maps x) (i_wred_profiles x) (i_warnings x).
Definition set_i_igmp_snooping v (x : Intents) : Intents := mkIntents (i_ports x) (i_management x)
  (i_identity x) (i_login x) (i_logging x) (i_ssh x) (i_web x) (i_routes x) (i_arp_statics x) (i_router_id x)
  (i_ospf x) (i_bgp x) (i_vrrp x) (i_vlans x) (i_svis x) (i_lags x) (i_lacp x) (i_stp x) v (i_mld_snooping x)
  (i_mac_table x) (i_mirror x) (i_acls x) (i_copp x) (i_dot1x x) (i_snoop_sec x) (i_lldp x) (i_ntp x) (i_snmp x)
  (i_sflow x) (i_dhcp_relay x) (i_dhcp_server x) (i_qos_maps x) (i_wred_profiles x) (i_warnings x).
Definition set_i_mld_snooping v (x : Intents) : Intents := mkIntents (i_ports x) (i_management x) (i_identity x)
  (i_login x) (i_logging x) (i_ssh x) (i_web x) (i_routes x) (i_arp_statics x) (i_router_id x) (i_ospf x)
  (i_bgp x) (i_vrrp x) (i_vlans x) (i_svis x) (i_lags x) (i_lacp x) (i_stp x) (i_igmp_snooping x) v
  (i_mac_table x) (i_mirror x) (i_acls x) (i_copp x) (i_dot1x x) (i_snoop_sec x) (i_lldp x) (i_ntp x) (i_snmp x)
  (i_sflow x) (i_dhcp_relay x) (i_dhcp_server x) (i_qos_maps x) (i_wred_profiles x) (i_warnings x).
Definition set_i_mac_table v (x : Intents) : Intents := mkIntents (i_ports x) (i_management x) (i_identity x)
  (i_login x) (i_logging x) (i_ssh x) (i_web x) (i_routes x) (i_arp_statics x) (i_router_id x) (i_ospf x)
  (i_bgp x) (i_vrrp x) (i_vlans x) (i_svis x) (i_lags x) (i_lacp x) (i_stp x) (i_igmp_snooping x)
  (i_mld_snooping x) v (i_mirror x) (i_acls x) (i_copp x) (i_dot1x x) (i_snoop_sec x) (i_lldp x) (i_ntp x)
  (i_snmp x) (i_sflow x) (i_dhcp_relay x) (i_dhcp_server x) (i_qos_maps x) (i_wred_profiles x) (i_warnings x).
Definition set_i_mirror v (x : Intents) : Intents := mkIntents (i_ports x) (i_management x) (i_identity x)
  (i_login x) (i_logging x) (i_ssh x) (i_web x) (i_routes x) (i_arp_statics x) (i_router_id x) (i_ospf x)
  (i_bgp x) (i_vrrp x) (i_vlans x) (i_svis x) (i_lags x) (i_lacp x) (i_stp x) (i_igmp_snooping x)
  (i_mld_snooping x) (i_mac_table x) v (i_acls x) (i_copp x) (i_dot1x x) (i_snoop_sec x) (i_lldp x) (i_ntp x)
  (i_snmp x) (i_sflow x) (i_dhcp_relay x) (i_dhcp_server x) (i_qos_maps x) (i_wred_profiles x) (i_warnings x).
Definition set_i_acls v (x : Intents) : Intents := mkIntents (i_ports x) (i_management x) (i_identity x)
  (i_login x) (i_logging x) (i_ssh x) (i_web x) (i_routes x) (i_arp_statics x) (i_router_id x) (i_ospf x)
  (i_bgp x) (i_vrrp x) (i_vlans x) (i_svis x) (i_lags x) (i_lacp x) (i_stp x) (i_igmp_snooping x)
  (i_mld_snooping x) (i_mac_table x) (i_mirror x) v (i_copp x) (i_dot1x x) (i_snoop_sec x) (i_lldp x) (i_ntp x)
  (i_snmp x) (i_sflow x) (i_dhcp_relay x) (i_dhcp_server x) (i_qos_maps x) (i_wred_profiles x) (i_warnings x).
Definition set_i_copp v (x : Intents) : Intents := mkIntents (i_ports x) (i_management x) (i_identity x)
  (i_login x) (i_logging x) (i_ssh x) (i_web x) (i_routes x) (i_arp_statics x) (i_router_id x) (i_ospf x)
  (i_bgp x) (i_vrrp x) (i_vlans x) (i_svis x) (i_lags x) (i_lacp x) (i_stp x) (i_igmp_snooping x)
  (i_mld_snooping x) (i_mac_table x) (i_mirror x) (i_acls x) v (i_dot1x x) (i_snoop_sec x) (i_lldp x) (i_ntp x)
  (i_snmp x) (i_sflow x) (i_dhcp_relay x) (i_dhcp_server x) (i_qos_maps x) (i_wred_profiles x) (i_warnings x).
Definition set_i_dot1x v (x : Intents) : Intents := mkIntents (i_ports x) (i_management x) (i_identity x)
  (i_login x) (i_logging x) (i_ssh x) (i_web x) (i_routes x) (i_arp_statics x) (i_router_id x) (i_ospf x)
  (i_bgp x) (i_vrrp x) (i_vlans x) (i_svis x) (i_lags x) (i_lacp x) (i_stp x) (i_igmp_snooping x)
  (i_mld_snooping x) (i_mac_table x) (i_mirror x) (i_acls x) (i_copp x) v (i_snoop_sec x) (i_lldp x) (i_ntp x)
  (i_snmp x) (i_sflow x) (i_dhcp_relay x) (i_dhcp_server x) (i_qos_maps x) (i_wred_profiles x) (i_warnings x).
Definition set_i_snoop_sec v (x : Intents) : Intents := mkIntents (i_ports x) (i_management x) (i_identity x)
  (i_login x) (i_logging x) (i_ssh x) (i_web x) (i_routes x) (i_arp_statics x) (i_router_id x) (i_ospf x)
  (i_bgp x) (i_vrrp x) (i_vlans x) (i_svis x) (i_lags x) (i_lacp x) (i_stp x) (i_igmp_snooping x)
  (i_mld_snooping x) (i_mac_table x) (i_mirror x) (i_acls x) (i_copp x) (i_dot1x x) v (i_lldp x) (i_ntp x)
  (i_snmp x) (i_sflow x) (i_dhcp_relay x) (i_dhcp_server x) (i_qos_maps x) (i_wred_profiles x) (i_warnings x).
Definition set_i_lldp v (x : Intents) : Intents := mkIntents (i_ports x) (i_management x) (i_identity x)
  (i_login x) (i_logging x) (i_ssh x) (i_web x) (i_routes x) (i_arp_statics x) (i_router_id x) (i_ospf x)
  (i_bgp x) (i_vrrp x) (i_vlans x) (i_svis x) (i_lags x) (i_lacp x) (i_stp x) (i_igmp_snooping x)
  (i_mld_snooping x) (i_mac_table x) (i_mirror x) (i_acls x) (i_copp x) (i_dot1x x) (i_snoop_sec x) v (i_ntp x)
  (i_snmp x) (i_sflow x) (i_dhcp_relay x) (i_dhcp_server x) (i_qos_maps x) (i_wred_profiles x) (i_warnings x).
Definition set_i_ntp v (x : Intents) : Intents := mkIntents (i_ports x) (i_management x) (i_identity x)
  (i_login x) (i_logging x) (i_ssh x) (i_web x) (i_routes x) (i_arp_statics x) (i_router_id x) (i_ospf x)
  (i_bgp x) (i_vrrp x) (i_vlans x) (i_svis x) (i_lags x) (i_lacp x) (i_stp x) (i_igmp_snooping x)
  (i_mld_snooping x) (i_mac_table x) (i_mirror x) (i_acls x) (i_copp x) (i_dot1x x) (i_snoop_sec x) (i_lldp x) v
  (i_snmp x) (i_sflow x) (i_dhcp_relay x) (i_dhcp_server x) (i_qos_maps x) (i_wred_profiles x) (i_warnings x).
Definition set_i_snmp v (x : Intents) : Intents := mkIntents (i_ports x) (i_management x) (i_identity x)
  (i_login x) (i_logging x) (i_ssh x) (i_web x) (i_routes x) (i_arp_statics x) (i_router_id x) (i_ospf x)
  (i_bgp x) (i_vrrp x) (i_vlans x) (i_svis x) (i_lags x) (i_lacp x) (i_stp x) (i_igmp_snooping x)
  (i_mld_snooping x) (i_mac_table x) (i_mirror x) (i_acls x) (i_copp x) (i_dot1x x) (i_snoop_sec x) (i_lldp x)
  (i_ntp x) v (i_sflow x) (i_dhcp_relay x) (i_dhcp_server x) (i_qos_maps x) (i_wred_profiles x) (i_warnings x).
Definition set_i_sflow v (x : Intents) : Intents := mkIntents (i_ports x) (i_management x) (i_identity x)
  (i_login x) (i_logging x) (i_ssh x) (i_web x) (i_routes x) (i_arp_statics x) (i_router_id x) (i_ospf x)
  (i_bgp x) (i_vrrp x) (i_vlans x) (i_svis x) (i_lags x) (i_lacp x) (i_stp x) (i_igmp_snooping x)
  (i_mld_snooping x) (i_mac_table x) (i_mirror x) (i_acls x) (i_copp x) (i_dot1x x) (i_snoop_sec x) (i_lldp x)
  (i_ntp x) (i_snmp x) v (i_dhcp_relay x) (i_dhcp_server x) (i_qos_maps x) (i_wred_profiles x) (i_warnings x).
Definition set_i_dhcp_relay v (x : Intents) : Intents := mkIntents (i_ports x) (i_management x) (i_identity x)
  (i_login x) (i_logging x) (i_ssh x) (i_web x) (i_routes x) (i_arp_statics x) (i_router_id x) (i_ospf x)
  (i_bgp x) (i_vrrp x) (i_vlans x) (i_svis x) (i_lags x) (i_lacp x) (i_stp x) (i_igmp_snooping x)
  (i_mld_snooping x) (i_mac_table x) (i_mirror x) (i_acls x) (i_copp x) (i_dot1x x) (i_snoop_sec x) (i_lldp x)
  (i_ntp x) (i_snmp x) (i_sflow x) v (i_dhcp_server x) (i_qos_maps x) (i_wred_profiles x) (i_warnings x).
Definition set_i_dhcp_server v (x : Intents) : Intents := mkIntents (i_ports x) (i_management x) (i_identity x)
  (i_login x) (i_logging x) (i_ssh x) (i_web x) (i_routes x) (i_arp_statics x) (i_router_id x) (i_ospf x)
  (i_bgp x) (i_vrrp x) (i_vlans x) (i_svis x) (i_lags x) (i_lacp x) (i_stp x) (i_igmp_snooping x)
  (i_mld_snooping x) (i_mac_table x) (i_mirror x) (i_acls x) (i_copp x) (i_dot1x x) (i_snoop_sec x) (i_lldp x)
  (i_ntp x) (i_snmp x) (i_sflow x) (i_dhcp_relay x) v (i_qos_maps x) (i_wred_profiles x) (i_warnings x).
Definition set_i_qos_maps v (x : Intents) : Intents := mkIntents (i_ports x) (i_management x) (i_identity x)
  (i_login x) (i_logging x) (i_ssh x) (i_web x) (i_routes x) (i_arp_statics x) (i_router_id x) (i_ospf x)
  (i_bgp x) (i_vrrp x) (i_vlans x) (i_svis x) (i_lags x) (i_lacp x) (i_stp x) (i_igmp_snooping x)
  (i_mld_snooping x) (i_mac_table x) (i_mirror x) (i_acls x) (i_copp x) (i_dot1x x) (i_snoop_sec x) (i_lldp x)
  (i_ntp x) (i_snmp x) (i_sflow x) (i_dhcp_relay x) (i_dhcp_server x) v (i_wred_profiles x) (i_warnings x).
Definition set_i_wred_profiles v (x : Intents) : Intents := mkIntents (i_ports x) (i_management x)
  (i_identity x) (i_login x) (i_logging x) (i_ssh x) (i_web x) (i_routes x) (i_arp_statics x) (i_router_id x)
  (i_ospf x) (i_bgp x) (i_vrrp x) (i_vlans x) (i_svis x) (i_lags x) (i_lacp x) (i_stp x) (i_igmp_snooping x)
  (i_mld_snooping x) (i_mac_table x) (i_mirror x) (i_acls x) (i_copp x) (i_dot1x x) (i_snoop_sec x) (i_lldp x)
  (i_ntp x) (i_snmp x) (i_sflow x) (i_dhcp_relay x) (i_dhcp_server x) (i_qos_maps x) v (i_warnings x).
Definition set_i_warnings v (x : Intents) : Intents := mkIntents (i_ports x) (i_management x) (i_identity x)
  (i_login x) (i_logging x) (i_ssh x) (i_web x) (i_routes x) (i_arp_statics x) (i_router_id x) (i_ospf x)
  (i_bgp x) (i_vrrp x) (i_vlans x) (i_svis x) (i_lags x) (i_lacp x) (i_stp x) (i_igmp_snooping x)
  (i_mld_snooping x) (i_mac_table x) (i_mirror x) (i_acls x) (i_copp x) (i_dot1x x) (i_snoop_sec x) (i_lldp x)
  (i_ntp x) (i_snmp x) (i_sflow x) (i_dhcp_relay x) (i_dhcp_server x) (i_qos_maps x) (i_wred_profiles x) v.


(** ** Reasoning about fallible readers *)

Lemma bind_ok {E A B} (m : result E A) (f : A → result E B) b :
  (m ≫= f) = Ok b ↔ ∃ a, m = Ok a ∧ f a = Ok b.
Proof. destruct m; cbn; naive_solver. Qed.

Lemma guard_ok {E} c (e : E) x : guard c e = Ok x ↔ c = false.
Proof. destruct c, x; cbn; naive_solver. Qed.

Lemma ok_or_ok {E A} (o : option A) (e : E) a : ok_or o e = Ok a ↔ o = Some a.
Proof. destruct o; cbn; naive_solver. Qed.

Lemma map_err_ok {E F A} (f : E → F) (r : result E A) a : map_err f r = Ok a ↔ r = Ok a.
Proof. destruct r; cbn; naive_solver. Qed.

(** A loop that returns keeps an invariant of what it has read so far. *)
Lemma foldM_inv {E A B} (P : list B → A → Prop) (f : A → B → result E A) a l a' :
  P [] a → (∀ done x b b', P done b → x ∈ l → f b x = Ok b' → P (done ++ [x]) b') →
  foldM f a l = Ok a' → P l a'.
Proof.
  intros H0 Hstep. assert (∀ todo done b, P done b → (∀ x, x ∈ todo → x ∈ l) →
    foldM f b todo = Ok a' → P (done ++ todo) a') as Hgen.
  { induction todo as [|x todo IH]; intros don b Hb Hin; cbn.
    - intros [= <-]. by rewrite app_nil_r.
    - intros (b' & Hf & Hrest)%bind_ok. replace (don ++ x :: todo) with ((don ++ [x]) ++ todo)
        by (by rewrite <-app_assoc).
      apply (IH _ b'); [|by intros y Hy; apply Hin; right|done].
      apply Hstep with b; [done|apply Hin; left|done]. }
  intros H. apply (Hgen l [] a); auto.
Qed.

(** A loop that keeps a field. *)
Lemma foldM_frame {E A B C} (g : A → C) (f : A → B → result E A) a l a' :
  (∀ b x b', f b x = Ok b' → g b' = g b) → foldM f a l = Ok a' → g a' = g a.
Proof. intros Hf. apply (foldM_inv (λ _ b, g b = g a)); [done|]. intros don x b b' <- _ H. by eapply Hf. Qed.

(** A loop of checks. *)
Lemma foldM_checks {E B} (f : B → result E unit) l x :
  foldM (λ _ b, f b) tt l = Ok x → ∀ b, b ∈ l → f b = Ok tt.
Proof.
  apply (foldM_inv (λ don _, ∀ b, b ∈ don → f b = Ok tt)).
  - by intros b ?%elem_of_nil.
  - intros don y [] [] IH _ Hy b [Hb|Hb]%elem_of_app; [auto|]. apply list_elem_of_singleton in Hb. by subst.
Qed.

(** Splits the accepting runs of a reader into its cases. *)
Ltac accept :=
  repeat match goal with
  | H : (_ ≫= _) = Ok _ |- _ => apply bind_ok in H as (? & ? & H)
  | H : guard _ _ = Ok _ |- _ => apply guard_ok in H
  | H : ok_or _ _ = Ok _ |- _ => apply ok_or_ok in H
  | H : map_err _ _ = Ok _ |- _ => apply map_err_ok in H
  | H : Ok _ = Ok _ |- _ => injection H as <- || injection H as -> || (injection H; intros; subst)
  | H : Err _ = Ok _ |- _ => discriminate H
  | H : context [match ?x with _ => _ end] |- _ =>
      match type of H with _ = Ok _ => destruct x eqn:? end
  end.
