(* ===== verification/IntentPorts.v ===== *)
(** * Configuration intents: interface settings (hemlock-mgmtd/src/intents.rs)

    The readers of the leaves and blocks an interface carries.  Each takes
    the interface's children and its name, as in the source; a [match] on
    (name, values) is read off the number of values first. *)

From Stdlib Require Import Ascii NArith.
From stdpp Require Import base tactics list strings option gmap sorting.
From S2P Require Import Prelude Text ConfigTree Net LinkMode Role IntentTypes.

Local Open Scope N_scope.

Definition net {A} (bad : Reason → IntentError) (r : result NetError A) : result IntentError A :=
  map_err (λ e, bad (NetMsg "" [] e)) r.

Definition unrecognized_block (i : Item) : Reason := Msg "unrecognized block {:?}" [item_name i].
Definition unrecognized_statement (name : string) : Reason := Msg "unrecognized statement {:?}" [name].

(** [str::parse::<Ipv4Addr>()] and [Ipv6Addr]. *)
Definition parse_v4 (s : string) : option N :=
  match read_ipv4 s with Some (n, "") => Some n | _ => None end.

Definition parse_v6 (s : string) : option N :=
  match read_ipv6 s with Some (n, "") => Some n | _ => None end.

(** [starts_with] of a literal. *)
Definition starts_with (p s : string) : bool := bool_decide (is_Some (strip_prefix_str p s)).

(** ** Numbers *)

Definition parse_int (w : N) (text : string) (lo hi : N) (what : string) : result Reason N :=
  ok_or (n ← parse_uint w text; if (lo <=? n) && (n <=? hi) then Some n else None)
    (Msg "bad {} {:?}" [what; text]).

Definition parse_vlan_id (text : string) : result Reason N :=
  ok_or (n ← parse_uint 16 text; if (1 <=? n) && (n <=? 4094) then Some n else None)
    (Msg "bad VLAN id {:?} (1..4094)" [text]).

(** A leaf whose value is a bounded integer, when it is there. *)
Definition int_leaf (w : N) (its : list Item) (leaf : string) (lo hi : N) (what : string)
    (bad : Reason → IntentError) : result IntentError (option N) :=
  match leaf_value its leaf with
  | Some value => n ← map_err bad (parse_int w value lo hi what); Ok (Some n)
  | None => Ok None
  end.

(** ** Link settings *)

Definition mtu (children : list Item) (ifname : string) : result IntentError (option N) :=
  match leaf_value children "mtu" with
  | None => Ok None
  | Some value =>
      bytes ← ok_or (parse_uint 32 value)
        (BadLinkParam ifname (Msg "bad MTU {:?} ({}..{})" [value; to_dec MIN_MTU; to_dec MAX_MTU]));
      if valid_mtu bytes then Ok (Some bytes)
      else Err (BadLinkParam ifname (Msg "bad MTU {} ({}..{})"
             [to_dec bytes; to_dec MIN_MTU; to_dec MAX_MTU]))
  end.

Definition speed (children : list Item) (ifname : string) : result IntentError (option N) :=
  match leaf_value children "speed" with
  | None => Ok None
  | Some value =>
      if is_auto value then Ok None
      else
        mbps ← ok_or (parse_speed value)
          (BadLinkParam ifname (Msg "bad speed {:?} (auto, or a rate in Mb/s such as 1000)" [value]));
        Ok (Some mbps)
  end.

Definition duplex (children : list Item) (ifname : string) : result IntentError (option Duplex) :=
  match leaf_value children "duplex" with
  | None => Ok None
  | Some value =>
      if is_auto value then Ok None
      else
        d ← ok_or (parse_duplex value)
          (BadLinkParam ifname (Msg "bad duplex {:?} (auto, full or half)" [value]));
        Ok (Some d)
  end.

Definition no_link_pinning (children : list Item) (ifname what : string) : result IntentError unit :=
  foldM (λ _ leaf,
    guard (has_leaf children leaf)
      (BadLinkParam ifname (Msg "{} is not supported on {}" [leaf; what]))) tt ["speed"; "duplex"].

(** ** Services of a port *)

Definition port_service_disable (children : list Item) (ifname feature : string) : result IntentError bool :=
  match leaf_values children feature with
  | None => Ok false
  | Some [word] => if says word "disable" then Ok true
                   else Err ((if says feature "sflow" then BadSflow else BadLldp)
                               (Msg "{}: expected `{} disable`" [ifname; feature]))
  | Some _ => Err ((if says feature "sflow" then BadSflow else BadLldp)
                     (Msg "{}: expected `{} disable`" [ifname; feature]))
  end.

Definition port_lldp (children : list Item) (ifname : string) : result IntentError bool :=
  port_service_disable children ifname "lldp".

Definition no_port_services (children : list Item) (ifname : string) : result IntentError unit :=
  foldM (λ _ feature, guard (has_leaf children feature) (PortServiceOnNonPort ifname feature)) tt
    ["lldp"; "sflow"].

Definition MAX_DHCP_RELAY_SERVERS : nat := 4.

(** Append unless it is there. *)
Definition push_new {A} `{EqDecision A} (x : A) (l : list A) : list A :=
  if decide (x ∈ l) then l else l ++ [x].

Definition dhcp_relay_servers (children : list Item) (ifname : string) : result IntentError (list N) :=
  let bad := BadDhcpRelay ifname in
  servers ← foldM (λ servers i,
    match i with
    | Leaf name values =>
        if says name "dhcp-relay" then
          match values with
          | [keyword; address] =>
              if says keyword "server" then
                server ← ok_or (parse_v4 address) (bad (Msg "bad server address {:?}" [address]));
                Ok (push_new server servers)
              else Err (bad (Msg "expected `server`, got {:?}" [keyword]))
          | _ => Err (bad (Msg "expected `dhcp-relay server <ipv4>`" []))
          end
        else Ok servers
    | Block _ _ _ => Ok servers
    end) [] children;
  if (MAX_DHCP_RELAY_SERVERS <? length servers)%nat then
    Err (bad (Msg "at most {} servers ({} configured)" ["4"; to_dec (N.of_nat (length servers))]))
  else Ok servers.

Definition no_dhcp_relay (children : list Item) (ifname : string) : result IntentError unit :=
  guard (has_leaf children "dhcp-relay") (BadDhcpRelay ifname (Msg "dhcp-relay is an SVI setting" [])).

Definition admin_state (children : list Item) (name : string) : result IntentError (option bool) :=
  let shutdown := has_leaf children "shutdown" in
  let no_shutdown := has_phrase children "no" "shutdown" || has_leaf children "no-shutdown" in
  if shutdown && no_shutdown then
    Err (BadInterfaceBlock (Msg "{}: both shutdown and no-shutdown" [name]))
  else if shutdown then Ok (Some false)
  else if no_shutdown then Ok (Some true)
  else
    match leaf_value children "admin-state" with
    | Some other =>
        if says other "enabled" then Ok (Some true)
        else if says other "disabled" then Ok (Some false)
        else Err (BadAdminState name other)
    | None => Ok None
    end.

(** ** Switchport *)

(** [sort_unstable] and [dedup]: ascending, each once. *)
Definition sorted_dedup (l : list N) : list N := sorted_elements (list_to_set l).

Definition vlan_leaf (sp : list Item) (bad : Reason → IntentError) (first second legacy : string) :
    result IntentError (option N) :=
  let value := match (vs ← phrase_values sp first second; head vs) with
               | Some v => Some v
               | None => leaf_value sp legacy
               end in
  match value with
  | Some value => id ← map_err bad (parse_vlan_id value); Ok (Some id)
  | None => Ok None
  end.

Definition switchport (children : list Item) (name : string) : result IntentError (option SwitchportIntent) :=
  match head (blocks_named children "switchport") with
  | None => Ok None
  | Some (_, sp) =>
      let bad := BadSwitchport name in
      mode ← match leaf_value sp "mode" with
             | Some other =>
                 if says other "trunk" then Ok Trunk
                 else if says other "dot1q-tunnel" then Ok Dot1qTunnel
                 else if says other "access" then Ok Access
                 else Err (bad (Msg "mode must be `access`, `trunk` or `dot1q-tunnel`, got {:?}" [other]))
             | None => Ok Access
             end;
      guard (bool_decide (mode = Dot1qTunnel)
             && (bool_decide (is_Some (phrase_values sp "trunk" "vlans"))
                 || bool_decide (is_Some (phrase_values sp "native" "vlan"))
                 || bool_decide (is_Some (leaf_values sp "trunk-vlans"))
                 || bool_decide (is_Some (leaf_value sp "native-vlan"))))
        (bad (Msg "dot1q-tunnel mode excludes trunk configuration" []));;
      trunk_vlans ←
        match match phrase_values sp "trunk" "vlans" with
              | Some vs => Some vs
              | None => leaf_values sp "trunk-vlans"
              end with
        | Some values =>
            ids ← foldM (λ acc part, id ← map_err bad (parse_vlan_id part); Ok (acc ++ [id])) []
                    (values ≫= λ value, filter (λ p, p ≠ "") (split ","%char value));
            Ok (sorted_dedup ids)
        | None => Ok []
        end;
      access_vlan ← vlan_leaf sp bad "access" "vlan" "access-vlan";
      native_vlan ← vlan_leaf sp bad "native" "vlan" "native-vlan";
      Ok (Some (mkSwitchportIntent mode access_vlan trunk_vlans native_vlan))
  end.

(** ** Link aggregation *)

Definition channel_group (children : list Item) (name : string) : result IntentError (option ChannelGroup) :=
  match leaf_values children "channel-group" with
  | None => Ok None
  | Some values =>
      let bad := BadChannelGroup name in
      match values with
      | [group; keyword; mode] =>
          if says keyword "mode" then
            group ← ok_or (n ← parse_uint 16 group; if (1 <=? n) && (n <=? 64) then Some n else None)
                      (bad (Msg "bad channel-group number {:?} (1..64)" [group]));
            mode ← (if says mode "active" then Ok Active
                    else if says mode "passive" then Ok Passive
                    else if says mode "on" then Ok On
                    else Err (bad (Msg "mode must be `active`, `passive` or `on`, got {:?}" [mode])));
            Ok (Some (mkChannelGroup group mode))
          else Err (bad (Msg "expected `mode`, got {:?}" [keyword]))
      | _ => Err (bad (Msg "expected `channel-group <1-64> mode <mode>`" []))
      end
  end.

(** [format!("lacp: {reason}")] *)
Definition within (prefix : string) (args : list string) (r : Reason) : Reason :=
  match r with
  | Msg fmt args' => Msg (prefix +:+ fmt) (args ++ args')
  | NetMsg p args' e => NetMsg (prefix +:+ p) (args ++ args') e
  end.

Definition port_lacp (children : list Item) (name : string) : result IntentError (option PortLacpIntent) :=
  match head (blocks_named children "lacp") with
  | None => Ok None
  | Some (_, lacp) =>
      let bad := λ r, BadChannelGroup name (within "lacp: " [] r) in
      foldM (λ _ keyword, guard (bool_decide (is_Some (leaf_values lacp keyword)))
        (bad (Msg "{} belongs on the Port-Channel" [keyword]))) tt ["fallback"; "fallback-timeout"];;
      rate_fast ← match leaf_value lacp "rate" with
                  | Some other =>
                      if says other "fast" then Ok true
                      else if says other "normal" then Ok false
                      else Err (bad (Msg "rate must be `normal` or `fast`, got {:?}" [other]))
                  | None => Ok false
                  end;
      port_priority ← int_leaf 16 lacp "port-priority" 0 65535 "port-priority" bad;
      Ok (Some (mkPortLacpIntent rate_fast port_priority))
  end.

Definition lag_min_links_of (children : list Item) (name : string) : result IntentError (option N) :=
  int_leaf 8 children "min-links" 0 8 "min-links" (BadLag name).

Definition lag_fallback_of (children : list Item) (name : string) : result IntentError (option LagFallback) :=
  match head (blocks_named children "lacp") with
  | None => Ok None
  | Some (_, lacp) =>
      let bad := λ r, BadLag name (within "lacp: " [] r) in
      foldM (λ _ keyword, guard (bool_decide (is_Some (leaf_values lacp keyword)))
        (bad (Msg "{} belongs on the member ports" [keyword]))) tt ["rate"; "port-priority"];;
      match leaf_value lacp "fallback" with
      | Some other =>
          if says other "static" then Ok (Some FallbackStatic)
          else if says other "individual" then Ok (Some FallbackIndividual)
          else Err (bad (Msg "fallback must be `static` or `individual`, got {:?}" [other]))
      | None => Ok None
      end
  end.

Definition lag_fallback_timeout_of (children : list Item) (name : string) : result IntentError (option N) :=
  match head (blocks_named children "lacp") with
  | None => Ok None
  | Some (_, lacp) =>
      int_leaf 16 lacp "fallback-timeout" 1 900 "fallback-timeout" (λ r, BadLag name (within "lacp: " [] r))
  end.

(** ** Spanning tree, storm control *)

Definition port_stp (children : list Item) (name : string) : result IntentError (option PortStpIntent) :=
  match head (blocks_named children "spanning-tree") with
  | None => Ok None
  | Some (_, stp) =>
      let bad := BadPortStp name in
      cost ← int_leaf 32 stp "cost" 1 200000000 "cost" bad;
      port_priority ← match leaf_value stp "port-priority" with
        | Some value =>
            priority ← map_err bad (parse_int 8 value 0 240 "port-priority");
            if priority mod 16 =? 0 then Ok (Some priority)
            else Err (bad (Msg "port-priority {} is not a multiple of 16" [to_dec priority]))
        | None => Ok None
        end;
      Ok (Some (mkPortStpIntent (has_leaf stp "portfast") (has_leaf stp "bpduguard") cost port_priority))
  end.

Definition storm_control (children : list Item) (name : string) :
    result IntentError (gmap StormKind string) :=
  match head (blocks_named children "storm-control") with
  | None => Ok ∅
  | Some (_, sc) =>
      let bad := BadStormControl name in
      foldM (λ out i,
        match i with
        | Block _ _ _ => Err (bad (unrecognized_block i))
        | Leaf kind values =>
            kind ← (if says kind "broadcast" then Ok Broadcast
                    else if says kind "multicast" then Ok Multicast
                    else if says kind "unknown-unicast" then Ok UnknownUnicast
                    else Err (bad (Msg "unrecognized traffic class {:?}" [kind])));
            match values with
            | [keyword; level] =>
                if says keyword "level" then
                  level ← net bad (parse_storm_level level);
                  if decide (is_Some (out !! kind)) then
                    Err (bad (Msg "duplicate {} level" [storm_word kind]))
                  else Ok (<[kind := level]> out)
                else Err (bad (Msg "{}: expected `level`" [storm_word kind]))
            | _ => Err (bad (Msg "{}: expected `level <pct>`" [storm_word kind]))
            end
        end) ∅ sc
  end.

(** ** Security *)

Definition access_groups (children : list Item) (ifname : string) : result IntentError AccessGroups :=
  let bad := BadAccessGroup ifname in
  foldM (λ groups i,
    match i with
    | Block _ _ _ => Ok groups
    | Leaf name values =>
        if says name "access-group" then
          match values with
          | [acl; direction] =>
              if says direction "in" then
                match ag_ingress groups with
                | Some _ => Err (bad (Msg "duplicate {} binding" [direction]))
                | None => Ok (set_ag_ingress (Some acl) groups)
                end
              else if says direction "out" then
                match ag_egress groups with
                | Some _ => Err (bad (Msg "duplicate {} binding" [direction]))
                | None => Ok (set_ag_egress (Some acl) groups)
                end
              else Err (bad (Msg "direction must be `in` or `out`, got {:?}" [direction]))
          | _ => Err (bad (Msg "expected `access-group <name> <in|out>`" []))
          end
        else Ok groups
    end) default_groups children.

Definition groups_empty (g : AccessGroups) : bool :=
  bool_decide (ag_ingress g = None) && bool_decide (ag_egress g = None).

Definition port_security (children : list Item) (ifname : string) :
    result IntentError (option PortSecurityIntent) :=
  match head (blocks_named children "port-security") with
  | None => Ok None
  | Some (_, body) =>
      let bad := BadPortSecurity ifname in
      intent ← foldM (λ intent i,
        match i with
        | Block _ _ _ => Err (bad (unrecognized_block i))
        | Leaf name [value] =>
            if says name "maximum" then
              n ← map_err bad (parse_int 32 value 1 1024 "maximum");
              Ok (set_psec_maximum n intent)
            else if says name "violation" then
              if says value "protect" then Ok (set_psec_shutdown false intent)
              else if says value "shutdown" then Ok (set_psec_shutdown true intent)
              else Err (bad (Msg "violation must be `protect` or `shutdown`, got {:?}" [value]))
            else Err (bad (unrecognized_statement name))
        | Leaf name _ => Err (bad (unrecognized_statement name))
        end) default_port_security body;
      Ok (Some intent)
  end.

(** ** Quality of service *)

Definition queue_qos (children : list Item) (bad : Reason → IntentError) :
    result IntentError QueueQosIntent :=
  queue ← foldM (λ queue i,
    match i with
    | Block _ _ _ => Err (bad (unrecognized_block i))
    | Leaf name [value] =>
        if says name "priority" then
          if says value "strict" then Ok (set_qq_strict true queue)
          else Err (bad (Msg "bad priority {:?} (strict)" [value]))
        else if says name "weight" then
          n ← map_err bad (parse_int 8 value 1 127 "weight");
          Ok (set_qq_weight (Some n) queue)
        else if says name "wred-profile" then Ok (set_qq_wred_profile (Some value) queue)
        else Err (bad (unrecognized_statement name))
    | Leaf name [keyword; rate] =>
        if says name "shape" && says keyword "rate" then
          n ← net bad (parse_shape_rate rate);
          Ok (set_qq_shape (Some n) queue)
        else Err (bad (unrecognized_statement name))
    | Leaf name _ => Err (bad (unrecognized_statement name))
    end) default_queue children;
  guard (qq_strict queue && bool_decide (is_Some (qq_weight queue)))
    (bad (Msg "strict and weight are mutually exclusive" []));;
  Ok queue.

Definition port_qos_item (ifname : string) (qos : PortQosIntent) (i : Item) :
    result IntentError PortQosIntent :=
  let bad := BadPortQos ifname in
  match i with
  | Leaf name [word] =>
      if says name "trust" then
        if says word "untrusted" then Ok (set_pq_trust Untrusted qos)
        else if says word "dscp" then Ok (set_pq_trust TrustDscp qos)
        else if says word "cos" then Ok (set_pq_trust TrustCos qos)
        else Err (bad (Msg "bad trust {:?} (dscp|cos|untrusted)" [word]))
      else if says name "default-tc" then
        n ← map_err bad (parse_int 8 word 0 7 "default-tc");
        Ok (set_pq_default_tc n qos)
      else Err (bad (unrecognized_statement name))
  | Leaf name [keyword; rate] =>
      if says name "shape" && says keyword "rate" then
        n ← net bad (parse_shape_rate rate);
        Ok (set_pq_shape (Some n) qos)
      else Err (bad (unrecognized_statement name))
  | Leaf name _ => Err (bad (unrecognized_statement name))
  | Block name keys children =>
      if says name "queue" then
        match keys with
        | [index_text] =>
            let queue_bad := BadQueueQos ifname index_text in
            index ← map_err queue_bad (parse_int 8 index_text 0 7 "queue");
            queue ← queue_qos children queue_bad;
            if decide (is_Some (pq_queues qos !! index)) then
              Err (queue_bad (Msg "duplicate queue block" []))
            else Ok (set_pq_queues (<[index := queue]> (pq_queues qos)) qos)
        | _ => Err (bad (Msg "queue block needs exactly one index key" []))
        end
      else Err (bad (Msg "unrecognized block {:?}" [name]))
  end.

(** A queue left at the defaults carries no configuration. *)
Definition port_qos (children : list Item) (ifname : string) : result IntentError (option PortQosIntent) :=
  match blocks_named children "qos" with
  | [] => Ok None
  | (keys, body) :: more =>
      guard (negb (bool_decide (more = [])) || negb (bool_decide (keys = [])))
        (BadPortQos ifname (Msg "duplicate qos block" []));;
      qos ← foldM (port_qos_item ifname) default_port_qos body;
      Ok (Some (set_pq_queues (btree_retain (λ _ q, negb (bool_decide (q = default_queue))) (pq_queues qos)) qos))
  end.

(** ** VRRP *)

Definition vrrp_item (bad : Reason → IntentError) (vrrp : VrrpIntent) (i : Item) :
    result IntentError VrrpIntent :=
  match i with
  | Block _ _ _ => Err (bad (unrecognized_block i))
  | Leaf name [value] =>
      if says name "address" then
        vip ← ok_or (parse_v4 value) (bad (Msg "bad address {:?} (IPv4)" [value]));
        Ok (set_vr_addresses ({[ show_v4 vip ]} ∪ vr_addresses vrrp) vrrp)
      else if says name "priority" then
        n ← map_err bad (parse_int 8 value 1 254 "priority");
        Ok (set_vr_priority n vrrp)
      else if says name "advertisement-interval" then
        n ← map_err bad (parse_int 8 value 1 40 "advertisement-interval");
        Ok (set_vr_advertisement_interval n vrrp)
      else Err (bad (unrecognized_statement name))
  | Leaf name [] =>
      if says name "no-preempt" then Ok (set_vr_preempt false vrrp)
      else Err (bad (unrecognized_statement name))
  | Leaf name _ => Err (bad (unrecognized_statement name))
  end.

Definition vrrp_groups (children : list Item) (ifname : string) :
    result IntentError (list (N * VrrpIntent)) :=
  foldM (λ groups (b : list string * list Item),
    match b.1 with
    | [group_text] =>
        let bad := BadVrrp ifname group_text in
        group ← map_err bad (parse_int 8 group_text 1 255 "group");
        vrrp ← foldM (vrrp_item bad) default_vrrp b.2;
        Ok (groups ++ [(group, vrrp)])
    | _ => Err (BadVrrp ifname "?" (Msg "expected `vrrp <1-255>`" []))
    end) [] (blocks_named children "vrrp").
