(* ===== verification/IntentSecurity.v ===== *)
(** * Configuration intents: security and QoS (hemlock-mgmtd/src/intents.rs)

    The [security] block (access lists, control-plane policing, 802.1X, DHCP
    snooping, ARP inspection) and the [qos] block. *)

From Stdlib Require Import Ascii NArith.
From stdpp Require Import base tactics list strings option gmap.
From S2P Require Import Prelude Text ConfigTree Net IntentTypes IntentPorts.

Local Open Scope N_scope.

(** ** Names: a letter, then letters, digits, [_] or [-], at most 32 *)

Definition is_ascii_lowercase (c : ascii) : bool := ascii_between "a"%char "z"%char c.

Definition is_ascii_alphabetic (c : ascii) : bool :=
  is_ascii_lowercase c || ascii_between "A"%char "Z"%char c.

Definition name_char (c : ascii) : bool :=
  is_ascii_alphanumeric c || bool_decide (c = "_"%char) || bool_decide (c = "-"%char).

Definition valid_acl_name (name : string) : bool :=
  match name with
  | "" => false
  | String c rest => is_ascii_alphabetic c && (String.length name <=? 32)%nat && string_all name_char rest
  end.

Definition valid_wred_name (name : string) : bool :=
  match name with
  | "" => false
  | String c rest => is_ascii_alphabetic c && (String.length name <=? 32)%nat && string_all name_char rest
  end.

(** ** Access lists *)

Definition acl_protocol (bad : Reason → IntentError) (value : string) : result IntentError N :=
  if says value "tcp" then Ok 6
  else if says value "udp" then Ok 17
  else if says value "icmp" then Ok 1
  else ok_or (parse_uint 8 value) (bad (Msg "bad protocol {:?} (tcp|udp|icmp|0-255)" [value])).

(** [None] is [any]. *)
Definition acl_prefix (bad : Reason → IntentError) (family : AclFamily) (value : string) :
    result IntentError (option string) :=
  if says value "any" then Ok None
  else
    canonical ← net bad (require_canonical_prefix value);
    let v6 := contains_str ":" canonical in
    if eqb v6 (bool_decide (family = Ipv6)) then Ok (Some canonical)
    else Err (bad (Msg "{} does not match the ACL family ({})" [canonical; acl_family_word family])).

(** [ends_with(['k', 'm', 'g'])] of the lower-cased burst *)
Definition burst_scaled (burst : string) : bool :=
  match strip_suffix (λ c, bool_decide (c = "k"%char) || bool_decide (c = "m"%char) || bool_decide (c = "g"%char))
          (to_ascii_lowercase burst) with
  | Some _ => true
  | None => false
  end.

Definition acl_police (bad : Reason → IntentError) (rate burst : string) : result IntentError AclPolice :=
  '(rate_value, pps) ← net bad (parse_police_rate rate);
  '(burst_value, burst_pkts) ← net bad (parse_police_burst burst);
  guard (pps && burst_scaled burst) (bad (Msg "a pps rate takes its burst in packets" []));;
  guard (negb pps && burst_pkts) (bad (Msg "a bps rate takes its burst in bytes" []));;
  Ok (mkAclPolice rate_value burst_value pps).

Definition acl_mac (bad : Reason → IntentError) (value : string) : result IntentError (string * string) :=
  match split_once "/"%char value with
  | Some (mac, mask) =>
      mac ← net bad (parse_mac mac);
      mask ← net bad (parse_mac_mask mask);
      Ok (mac, mask)
  | None => mac ← net bad (parse_mac value); Ok (mac, "ff:ff:ff:ff:ff:ff")
  end.

(** [u16::from_str_radix(h, 16)]: an optional [+], then hex digits. *)
Definition parse_hex16 (h : string) : option N :=
  let digits := match h with
                | String "+" rest => rest
                | _ => h
                end in
  if decide (digits = "") then None
  else if string_all is_ascii_hexdigit digits then
    let n := hex_number digits 0 in if n <? 65536 then Some n else None
  else None.

Definition acl_ethertype (bad : Reason → IntentError) (value : string) : result IntentError N :=
  if says value "ipv4" then Ok 2048
  else if says value "ipv6" then Ok 34525
  else if says value "arp" then Ok 2054
  else ok_or (h ← strip_prefix_str "0x" value; parse_hex16 h)
         (bad (Msg "bad ethertype {:?} (0x0000-0xffff|ipv4|ipv6|arp)" [value])).

Definition acl_leaf (family : AclFamily) (bad : Reason → IntentError) (st : AclRule * option bool)
    (name : string) (values : list string) : result IntentError (AclRule * option bool) :=
  let '(rule, action) := st in
  let ip_family := bool_decide (family = Ipv4) || bool_decide (family = Ipv6) in
  let mac_family := bool_decide (family = Mac) in
  let unknown := Err (bad (Msg "unrecognized statement {:?} for an {} rule" [name; acl_family_word family])) in
  match values with
  | [] =>
      if says name "permit" || says name "deny" then
        match action with
        | Some _ => Err (bad (Msg "both permit and deny" []))
        | None => Ok (rule, Some (says name "permit"))
        end
      else if says name "log" && ip_family then Ok (set_ar_log true rule, action)
      else unknown
  | [value] =>
      if says name "protocol" && ip_family then
        n ← acl_protocol bad value; Ok (set_ar_protocol (Some n) rule, action)
      else if says name "source" && ip_family then
        p ← acl_prefix bad family value; Ok (set_ar_source p rule, action)
      else if says name "destination" && ip_family then
        p ← acl_prefix bad family value; Ok (set_ar_destination p rule, action)
      else if says name "source-port" && ip_family then
        r ← net bad (parse_port_match value); Ok (set_ar_source_port (Some r) rule, action)
      else if says name "destination-port" && ip_family then
        r ← net bad (parse_port_match value); Ok (set_ar_destination_port (Some r) rule, action)
      else if says name "dscp" && ip_family then
        n ← map_err bad (parse_int 8 value 0 63 "dscp"); Ok (set_ar_dscp (Some n) rule, action)
      else if says name "source-mac" && mac_family then
        m ← acl_mac bad value; Ok (set_ar_source_mac (Some m) rule, action)
      else if says name "destination-mac" && mac_family then
        m ← acl_mac bad value; Ok (set_ar_destination_mac (Some m) rule, action)
      else if says name "ethertype" && mac_family then
        n ← acl_ethertype bad value; Ok (set_ar_ethertype (Some n) rule, action)
      else unknown
  | [kw_rate; rate; kw_burst; burst] =>
      if says name "police" && ip_family && says kw_rate "rate" && says kw_burst "burst" then
        p ← acl_police bad rate burst; Ok (set_ar_police (Some p) rule, action)
      else unknown
  | _ => unknown
  end.

Definition acl_rule (family : AclFamily) (children : list Item) (bad : Reason → IntentError) :
    result IntentError AclRule :=
  '(rule, action) ← foldM (λ st i,
     match i with
     | Block _ _ _ => Err (bad (unrecognized_block i))
     | Leaf name values => acl_leaf family bad st name values
     end) (default_rule, None) children;
  match action with
  | None => Err (bad (Msg "needs `permit` or `deny`" []))
  | Some permit =>
      let rule := set_ar_permit permit rule in
      guard ((bool_decide (is_Some (ar_source_port rule)) || bool_decide (is_Some (ar_destination_port rule)))
             && negb (bool_decide (ar_protocol rule = Some 6) || bool_decide (ar_protocol rule = Some 17)))
        (bad (Msg "source-port/destination-port require protocol tcp or udp" []));;
      Ok rule
  end.

(** Rule numbers are written without a leading zero. *)
Definition rule_number (text : string) : option N :=
  n ← parse_uint 32 text;
  if (1 <=? n) && negb (starts_with "0" text) then Some n else None.

Definition acl_rules_of (acl : string) (family : AclFamily) (its : list Item) :
    result IntentError (gmap N AclRule) :=
  foldM (λ rules i,
    match i with
    | Leaf name _ => Err (BadAcl acl (unrecognized_statement name))
    | Block name keys children =>
        if says name "rule" then
          match keys with
          | [number_text] =>
              let bad := BadAclRule acl number_text in
              number ← ok_or (rule_number number_text)
                         (bad (Msg "bad rule number {:?} (1..4294967295)" [number_text]));
              rule ← acl_rule family children bad;
              if decide (is_Some (rules !! number)) then Err (bad (Msg "duplicate rule number" []))
              else Ok (<[number := rule]> rules)
          | _ => Err (BadAcl acl (Msg "rule block needs exactly one number key" []))
          end
        else Err (BadAcl acl (Msg "unrecognized block {:?}" [name]))
    end) ∅ its.

Definition acls (its : list Item) (s : Intents) : result IntentError Intents :=
  foldM (λ s i,
    match i with
    | Leaf name _ => Err (BadSecurity (Msg "acl: unrecognized statement {:?}" [name]))
    | Block family_word keys children =>
        family ← (if says family_word "ipv4" then Ok Ipv4
                  else if says family_word "ipv6" then Ok Ipv6
                  else if says family_word "mac" then Ok Mac
                  else Err (BadSecurity (Msg "acl: unrecognized family {:?}" [family_word])));
        match keys with
        | [name] =>
            guard (negb (valid_acl_name name))
              (BadAcl name (Msg "bad name (letter first, then letters/digits/_/-, max 32)" []));;
            rules ← acl_rules_of name family children;
            if decide (is_Some (i_acls s !! name)) then
              Err (BadAcl name (Msg "duplicate ACL name (names are shared across families)" []))
            else Ok (set_i_acls (<[name := mkAclIntent family rules]> (i_acls s)) s)
        | _ => Err (BadSecurity (Msg "acl {} block needs exactly one name key" [family_word]))
        end
    end) s its.

(** ** Control-plane policing *)

Definition COPP_CLASS_NAMES : list string :=
  ["bpdu"; "lacp"; "eapol"; "igmp"; "mld"; "arp"; "dhcp"; "ospf"; "bgp"; "vrrp"; "ip2me"; "acl-log"; "default"].

Definition copp_leaf (class : string) (intent : CoppClassIntent) (i : Item) :
    result IntentError CoppClassIntent :=
  let bad := λ r, BadCopp (within "class {}: " [class] r) in
  match i with
  | Block _ _ _ => Err (bad (unrecognized_block i))
  | Leaf name [value] =>
      if says name "rate" then
        n ← map_err bad (parse_int 32 value 1 10000000 "rate"); Ok (set_cc_rate (Some n) intent)
      else if says name "burst" then
        n ← map_err bad (parse_int 32 value 1 1000000 "burst"); Ok (set_cc_burst (Some n) intent)
      else Err (bad (unrecognized_statement name))
  | Leaf name _ => Err (bad (unrecognized_statement name))
  end.

Definition copp (its : list Item) (s : Intents) : result IntentError Intents :=
  foldM (λ s i,
    match i with
    | Leaf name _ => Err (BadCopp (unrecognized_statement name))
    | Block name keys children =>
        if says name "class" then
          match keys with
          | [class] =>
              guard (negb (bool_decide (class ∈ COPP_CLASS_NAMES)))
                (BadCopp (Msg "unknown class {:?}" [class]));;
              intent ← foldM (copp_leaf class) default_copp children;
              if decide (is_Some (i_copp s !! class)) then Err (BadCopp (Msg "duplicate class {:?}" [class]))
              else Ok (set_i_copp (<[class := intent]> (i_copp s)) s)
          | _ => Err (BadCopp (Msg "class block needs a name key" []))
          end
        else Err (BadCopp (Msg "unrecognized block {:?}" [name]))
    end) s its.

(** ** 802.1X *)

Definition radius_leaf (ip : string) (server : RadiusServer) (i : Item) : result IntentError RadiusServer :=
  let bad := λ r, BadDot1x (within "radius-server {}: " [ip] r) in
  match i with
  | Block _ _ _ => Err (bad (unrecognized_block i))
  | Leaf name [value] =>
      if says name "key" then Ok (set_rs_key (Some value) server)
      else if says name "port" then
        n ← map_err bad (parse_int 16 value 1 65535 "port"); Ok (set_rs_port n server)
      else if says name "timeout" then
        n ← map_err bad (parse_int 8 value 1 60 "timeout"); Ok (set_rs_timeout n server)
      else if says name "retransmit" then
        n ← map_err bad (parse_int 8 value 0 10 "retransmit"); Ok (set_rs_retransmit n server)
      else Err (bad (unrecognized_statement name))
  | Leaf name _ => Err (bad (unrecognized_statement name))
  end.

Definition dot1x_item (intent : Dot1xIntent) (i : Item) : result IntentError Dot1xIntent :=
  let bad := BadDot1x in
  match i with
  | Block name keys children =>
      if says name "radius-server" then
        match keys with
        | [text] =>
            addr ← ok_or (parse_ip text) (bad (Msg "bad radius-server address {:?}" [text]));
            let ip := show_ip addr in
            server ← foldM (radius_leaf ip) (set_rs_ip ip default_radius) children;
            if decide (rs_ip server ∈ rs_ip <$> dx_radius_servers intent) then
              Err (bad (Msg "duplicate radius-server {}" [ip]))
            else Ok (set_dx_radius_servers (dx_radius_servers intent ++ [server]) intent)
        | _ => Err (bad (Msg "radius-server block needs an address key" []))
        end
      else Err (bad (unrecognized_statement name))
  | Leaf name values =>
      if says name "reauth-interval" then
        match values with
        | [value] =>
            secs ← map_err bad (parse_int 32 value 0 86400 "reauth-interval");
            if negb (secs =? 0) && (secs <? 60) then
              Err (bad (Msg "bad reauth-interval {} (0|60-86400)" [to_dec secs]))
            else Ok (set_dx_reauth_interval secs intent)
        | _ => Err (bad (Msg "reauth-interval takes one value" []))
        end
      else Err (bad (unrecognized_statement name))
  end.

Definition dot1x (its : list Item) : result IntentError Dot1xIntent := foldM dot1x_item default_dot1x its.

(** ** DHCP snooping and ARP inspection *)

Definition dhcp_snooping_item (s : SnoopSecIntent) (i : Item) : result IntentError SnoopSecIntent :=
  let bad := BadDhcpSnooping in
  match i with
  | Block _ _ _ => Err (bad (unrecognized_block i))
  | Leaf name [id] =>
      if says name "vlan" then
        id ← map_err bad (parse_vlan_id id);
        Ok (set_ss_dhcp_vlans ({[ id ]} ∪ ss_dhcp_vlans s) s)
      else Err (bad (unrecognized_statement name))
  | Leaf name [mac; kw_vlan; vlan; kw_address; address; kw_interface; interface] =>
      if says name "binding" && says kw_vlan "vlan" && says kw_address "address"
         && says kw_interface "interface" then
        mac ← net bad (parse_unicast_mac mac);
        vlan ← map_err bad (parse_vlan_id vlan);
        ip ← ok_or (parse_v4 address) (bad (Msg "bad binding address {:?} (IPv4)" [address]));
        if decide (is_Some (ss_static_bindings s !! (mac, vlan))) then
          Err (bad (Msg "duplicate binding {} vlan {}" [mac; to_dec vlan]))
        else Ok (set_ss_static_bindings
                   (<[(mac, vlan) := mkStaticBinding (show_v4 ip) interface]> (ss_static_bindings s)) s)
      else Err (bad (unrecognized_statement name))
  | Leaf name _ => Err (bad (unrecognized_statement name))
  end.

Definition dhcp_snooping (its : list Item) (s : Intents) : result IntentError Intents :=
  ss ← foldM dhcp_snooping_item (i_snoop_sec s) its; Ok (set_i_snoop_sec ss s).

Definition arp_inspection_item (s : SnoopSecIntent) (i : Item) : result IntentError SnoopSecIntent :=
  let bad := BadArpInspection in
  match i with
  | Block _ _ _ => Err (bad (unrecognized_block i))
  | Leaf name [value] =>
      if says name "vlan" then
        id ← map_err bad (parse_vlan_id value);
        Ok (set_ss_arp_vlans ({[ id ]} ∪ ss_arp_vlans s) s)
      else if says name "validate" then
        check ← (if says value "src-mac" then Ok SrcMac
                 else if says value "dst-mac" then Ok DstMac
                 else if says value "ip" then Ok ValidateIp
                 else Err (bad (Msg "bad validate {:?} (src-mac|dst-mac|ip)" [value])));
        Ok (set_ss_validate ({[ check ]} ∪ ss_validate s) s)
      else Err (bad (unrecognized_statement name))
  | Leaf name _ => Err (bad (unrecognized_statement name))
  end.

Definition arp_inspection (its : list Item) (s : Intents) : result IntentError Intents :=
  ss ← foldM arp_inspection_item (i_snoop_sec s) its; Ok (set_i_snoop_sec ss s).

Definition security (t : ConfigTree) (s : Intents) : result IntentError Intents :=
  match block t "security" with
  | None => Ok s
  | Some (_, its) =>
      foldM (λ s i,
        match i with
        | Leaf name _ => Err (BadSecurity (unrecognized_statement name))
        | Block name keys children =>
            guard (negb (bool_decide (keys = []))) (BadSecurity (Msg "unrecognized block {:?}" [name]));;
            if says name "acl" then acls children s
            else if says name "copp" then copp children s
            else if says name "dot1x" then d ← dot1x children; Ok (set_i_dot1x d s)
            else if says name "dhcp-snooping" then dhcp_snooping children s
            else if says name "arp-inspection" then arp_inspection children s
            else Err (BadSecurity (Msg "unrecognized block {:?}" [name]))
        end) s its
  end.

(** ** QoS *)

Definition wred_leaf (bad : Reason → IntentError) (profile : WredProfileIntent) (i : Item) :
    result IntentError WredProfileIntent :=
  match i with
  | Block _ _ _ => Err (bad (unrecognized_block i))
  | Leaf name [value] =>
      if says name "min-threshold" then
        n ← map_err bad (parse_int 32 value 1 4096 "min-threshold"); Ok (set_wp_min_threshold (Some n) profile)
      else if says name "max-threshold" then
        n ← map_err bad (parse_int 32 value 1 4096 "max-threshold"); Ok (set_wp_max_threshold (Some n) profile)
      else if says name "drop-probability" then
        n ← map_err bad (parse_int 32 value 1 100 "drop-probability"); Ok (set_wp_drop_probability n profile)
      else Err (bad (unrecognized_statement name))
  | Leaf name [] =>
      if says name "ecn" then Ok (set_wp_ecn true profile) else Err (bad (unrecognized_statement name))
  | Leaf name _ => Err (bad (unrecognized_statement name))
  end.

Definition wred_profile (name : string) (children : list Item) : result IntentError WredProfileIntent :=
  let bad := BadWredProfile name in
  guard (negb (valid_wred_name name))
    (bad (Msg "bad name (letter first, then letters/digits/_/-, max 32)" []));;
  foldM (wred_leaf bad) (set_wp_drop_probability 10 default_wred) children.

(** The four tables: words and bounds of key and value, and the slot. *)
Record QosTable := mkQosTable {
  qt_key : string; qt_key_max : N; qt_value : string; qt_value_max : N;
  qt_get : QosMapsIntent → gmap N N; qt_set : gmap N N → QosMapsIntent → QosMapsIntent }.

Definition qos_table (name : string) : option QosTable :=
  if says name "dscp-to-tc" then Some (mkQosTable "dscp" 63 "tc" 7 qm_dscp_to_tc set_qm_dscp_to_tc)
  else if says name "cos-to-tc" then Some (mkQosTable "cos" 7 "tc" 7 qm_cos_to_tc set_qm_cos_to_tc)
  else if says name "tc-to-dscp" then Some (mkQosTable "tc" 7 "dscp" 63 qm_tc_to_dscp set_qm_tc_to_dscp)
  else if says name "tc-to-cos" then Some (mkQosTable "tc" 7 "cos" 7 qm_tc_to_cos set_qm_tc_to_cos)
  else None.

Definition qos_entry (t : QosTable) (bad : Reason → IntentError) (table : gmap N N) (i : Item) :
    result IntentError (gmap N N) :=
  match i with
  | Block _ _ _ => Err (bad (unrecognized_block i))
  | Leaf leaf [key; keyword; value] =>
      guard (negb (says leaf (qt_key t)) || negb (says keyword (qt_value t)))
        (bad (Msg "expected `{} <value> {} <value>`" [qt_key t; qt_value t]));;
      key ← map_err bad (parse_int 8 key 0 (qt_key_max t) (qt_key t));
      value ← map_err bad (parse_int 8 value 0 (qt_value_max t) (qt_value t));
      if decide (is_Some (table !! key)) then Err (bad (Msg "duplicate {} {}" [qt_key t; to_dec key]))
      else Ok (<[key := value]> table)
  | Leaf _ _ => Err (bad (Msg "expected `{} <value> {} <value>`" [qt_key t; qt_value t]))
  end.

Definition qos_maps (its : list Item) (s : QosMapsIntent) : result IntentError QosMapsIntent :=
  foldM (λ s i,
    match i with
    | Leaf name _ => Err (BadQos (Msg "map: unrecognized statement {:?}" [name]))
    | Block name keys children =>
        guard (negb (bool_decide (keys = []))) (BadQos (Msg "map: unrecognized block {:?}" [name]));;
        t ← ok_or (qos_table name) (BadQos (Msg "map: unrecognized table {:?}" [name]));
        table ← foldM (qos_entry t (BadQosMap name)) ∅ children;
        guard (negb (bool_decide (qt_get t s = ∅))) (BadQos (Msg "duplicate map block {:?}" [name]));;
        Ok (qt_set t table s)
    end) s its.

Definition qos (t : ConfigTree) (s : Intents) : result IntentError Intents :=
  match block t "qos" with
  | None => Ok s
  | Some (_, its) =>
      foldM (λ s i,
        match i with
        | Leaf name _ => Err (BadQos (unrecognized_statement name))
        | Block name keys children =>
            if says name "map" && bool_decide (keys = []) then
              m ← qos_maps children (i_qos_maps s); Ok (set_i_qos_maps m s)
            else if says name "wred-profile" then
              match keys with
              | [profile] =>
                  intent ← wred_profile profile children;
                  if decide (is_Some (i_wred_profiles s !! profile)) then
                    Err (BadWredProfile profile (Msg "duplicate profile" []))
                  else Ok (set_i_wred_profiles (<[profile := intent]> (i_wred_profiles s)) s)
              | _ => Err (BadQos (Msg "wred-profile block needs exactly one name key" []))
              end
            else Err (BadQos (Msg "unrecognized block {:?}" [name]))
        end) s its
  end.
