(* ===== verification/IntentSystem.v ===== *)
(** * Configuration intents: system and VLANs (hemlock-mgmtd/src/intents.rs)

    The [system] block: identity, login users, remote logging, SSH and the
    web console; the [vlans] block; with the checks of time-zone names
    (hemlock-common/src/tz.rs) and password hashes (passwd.rs).  The
    installed time-zone database is an argument, absent on some hosts. *)

From Stdlib Require Import Ascii NArith.
From stdpp Require Import base tactics list strings option gmap.
From S2P Require Import Prelude Text ConfigTree Net Role IntentTypes IntentPorts IntentSecurity.

Local Open Scope N_scope.

(** ** Names *)

Definition starts_with_char (c : ascii) (s : string) : bool :=
  match s with String d _ => bool_decide (d = c) | "" => false end.

Definition ends_with_char (c : ascii) (s : string) : bool :=
  match strip_suffix (λ d, bool_decide (d = c)) s with Some _ => true | None => false end.

(** [s.strip_suffix('.').unwrap_or(s)] *)
Definition drop_dot (s : string) : string :=
  default s (strip_suffix (λ d, bool_decide (d = "."%char)) s).

Definition valid_hostname_label (label : string) : bool :=
  negb (says label "") && (String.length label <=? 63)%nat
  && negb (starts_with_char "-"%char label) && negb (ends_with_char "-"%char label)
  && string_all (λ c, is_ascii_alphanumeric c || bool_decide (c = "-"%char)) label.

Definition valid_domain_name (name : string) : bool :=
  let name := drop_dot name in
  negb (says name "") && (String.length name <=? 253)%nat
  && forallb valid_hostname_label (split "."%char name).

Definition valid_user_name (name : string) : bool :=
  match name with
  | "" => false
  | String first rest =>
      (String.length name <=? 32)%nat
      && (is_ascii_lowercase first || bool_decide (first = "_"%char))
      && string_all (λ c, is_ascii_lowercase c || is_ascii_digit c || bool_decide (c = "_"%char)
                          || bool_decide (c = "-"%char)) rest
  end.

Definition RESERVED_USERS : list string :=
  ["root"; "daemon"; "bin"; "sys"; "sync"; "games"; "man"; "lp"; "mail"; "news"; "uucp"; "proxy"; "www-data";
   "backup"; "list"; "irc"; "nobody"; "systemd-network"; "systemd-resolve"; "sshd"; "messagebus"; "frr"; "snmp";
   "dnsmasq"; "hemlock"].

Definition SSH_KEY_TYPES : list string :=
  ["ssh-ed25519"; "ssh-rsa"; "ecdsa-sha2-nistp256"; "ecdsa-sha2-nistp384"; "ecdsa-sha2-nistp521";
   "sk-ssh-ed25519@openssh.com"; "sk-ecdsa-sha2-nistp256@openssh.com"; "rsa-sha2-256"; "rsa-sha2-512"].

(** [split_whitespace]'s first two fields. *)
Definition word_and_rest (s : string) : option (string * string) :=
  let s := skip_while is_whitespace s in
  match take_while (λ c, negb (is_whitespace c)) s with
  | "" => None
  | w => Some (w, skip_while (λ c, negb (is_whitespace c)) s)
  end.

Definition base64_char (c : ascii) : bool :=
  is_ascii_alphanumeric c || bool_decide (c = "+"%char) || bool_decide (c = "/"%char) || bool_decide (c = "="%char).

Definition valid_ssh_key (key : string) : bool :=
  match word_and_rest key with
  | None => false
  | Some (kind, rest) =>
      if negb (bool_decide (kind ∈ SSH_KEY_TYPES)) then false
      else match word_and_rest rest with
           | None => false
           | Some (body, _) => (16 <=? String.length body)%nat && string_all base64_char body
           end
  end.

Definition LOG_LEVELS : list (string * string) :=
  [("emergencies", "emerg"); ("alerts", "alert"); ("critical", "crit"); ("errors", "err");
   ("warnings", "warning"); ("notifications", "notice"); ("informational", "info"); ("debugging", "debug")].

Definition log_level_severity (level : string) : option string :=
  find_map (λ l : string * string, if says l.1 level then Some l.2 else None) LOG_LEVELS.

Definition valid_tz_name (tz : string) : bool :=
  negb (says tz "" || (64 <? String.length tz)%nat || starts_with_char "/"%char tz || ends_with_char "/"%char tz)
  && forallb (λ part, negb (says part "") && negb (says part ".") && negb (says part "..") && string_all (λ c, is_ascii_alphanumeric c
        || bool_decide (c = "_"%char) || bool_decide (c = "+"%char) || bool_decide (c = "-"%char)) part)
       (split "/"%char tz).

(** [db]: the zone files of the installed database, when there is one. *)
Definition tz_exists (db : option (gset string)) (tz : string) : bool :=
  valid_tz_name tz && match db with None => true | Some zones => bool_decide (tz ∈ zones) end.

Definition valid_hash (hash : string) : bool :=
  if negb (string_all (λ c, negb (is_whitespace c)) hash) then false
  else
    match split "$"%char hash with
    | first :: scheme :: rest =>
        says first ""
        && bool_decide (scheme ∈ ["6"; "5"; "y"; "7"; "2b"; "2y"])
        && (2 <=? length rest)%nat && forallb (λ part, negb (says part "")) rest
    | _ => false
    end.

(** ** Login *)

Definition MAX_SSH_KEYS : nat := 8.

Definition user_leaf (account : string) (intent : UserIntent) (i : Item) : result IntentError UserIntent :=
  let bad := BadLoginUser account in
  match i with
  | Block _ _ _ => Err (bad (unrecognized_block i))
  | Leaf name values =>
      if bool_decide (name ∈ ["aaa"; "radius"; "tacacs"; "tacacs+"]) then
        Err (bad (Msg "RADIUS/TACACS+ login authentication is not supported" []))
      else if says name "role" then
        match values with
        | [role] =>
            r ← ok_or (parse_role role) (bad (Msg "bad role {:?} (admin or operator)" [role]));
            Ok (set_us_role r intent)
        | _ => Err (bad (Msg "expected `role <admin|operator>`" []))
        end
      else if says name "password-hash" then
        match values with
        | [hash] =>
            if valid_hash hash then Ok (set_us_password_hash (Some hash) intent)
            else Err (bad (Msg "password-hash is not a crypt string" []))
        | _ => Err (bad (Msg "expected `password-hash <crypt>`" []))
        end
      else if says name "password" then
        Err (bad (Msg "plaintext passwords are never stored; use `set ... password <plain>`, which hashes at the prompt" []))
      else if says name "ssh-key" then
        match values with
        | [key] =>
            if valid_ssh_key key then Ok (set_us_ssh_keys (push_new key (us_ssh_keys intent)) intent)
            else Err (bad (Msg "ssh-key must be `<type> <base64> [comment]` with a known key type" []))
        | _ => Err (bad (Msg "expected `ssh-key <key>`" []))
        end
      else Err (bad (unrecognized_statement name))
  end.

Definition user (account : string) (its : list Item) : result IntentError UserIntent :=
  let bad := BadLoginUser account in
  intent ← foldM (user_leaf account) default_user its;
  guard (MAX_SSH_KEYS <? length (us_ssh_keys intent))%nat
    (bad (Msg "at most {} ssh-keys ({} configured)" ["8"; to_dec (N.of_nat (length (us_ssh_keys intent)))]));;
  guard (bool_decide (us_password_hash intent = None) && bool_decide (us_ssh_keys intent = []))
    (bad (Msg "needs a password or at least one ssh-key" []));;
  Ok intent.

Definition login_block (users : gmap string UserIntent) (i : Item) : result IntentError (gmap string UserIntent) :=
  match i with
  | Leaf name _ => Err (BadLogin (unrecognized_statement name))
  | Block name keys children =>
      if says name "user" then
        match keys with
        | [account] =>
            guard (negb (valid_user_name account)) (BadLoginUser account
              (Msg "bad name (a-z, 0-9, _ and -, starting with a letter or _, max 32)" []));;
            guard (bool_decide (account ∈ RESERVED_USERS))
              (BadLoginUser account (Msg "reserved account name" []));;
            u ← user account children;
            if decide (is_Some (users !! account)) then
              Err (BadLoginUser account (Msg "duplicate user block" []))
            else Ok (<[account := u]> users)
        | _ => Err (BadLogin (Msg "expected `user <name> { ... }`" []))
        end
      else Err (BadLogin (Msg "unrecognized block {:?}" [name]))
  end.

Definition can_administer (u : UserIntent) : bool :=
  is_admin (us_role u) && bool_decide (is_Some (us_password_hash u)).

(** The lockout guard: someone must be left who can administer. *)
Definition login (its : list Item) : result IntentError (gmap string UserIntent) :=
  users ← foldM login_block ∅ its;
  guard (negb (existsb can_administer (btree_values users)))
    (BadLogin (Msg "at least one admin user with a password is required" []));;
  Ok users.

(** ** Logging *)

Definition MAX_LOG_HOSTS : nat := 4.
Definition DEFAULT_LOG_PORT : N := 514.
Definition DEFAULT_LOG_PROTOCOL : string := "udp".

(** Keyword and value pairs, in any order. *)
Fixpoint host_settings (host : LogHost) (rest : list string) : result IntentError LogHost :=
  let bad := BadLogging in
  match rest with
  | [] => Ok host
  | [keyword] => Err (bad (Msg "host {}: {} takes a value" [lh_address host; keyword]))
  | keyword :: value :: rest =>
      if says keyword "port" then
        n ← map_err bad (parse_int 16 value 1 65535 "port");
        host_settings (mkLogHost (lh_address host) n (lh_protocol host)) rest
      else if says keyword "protocol" then
        if says value "udp" || says value "tcp" then
          host_settings (mkLogHost (lh_address host) (lh_port host) value) rest
        else Err (bad (Msg "bad protocol {:?} (udp or tcp)" [value]))
      else if says keyword "tls" then Err (bad (Msg "syslog over TLS is not supported" []))
      else Err (bad (Msg "unrecognized host setting {:?}" [keyword]))
  end.

Definition logging_leaf (intent : LoggingIntent) (i : Item) : result IntentError LoggingIntent :=
  let bad := BadLogging in
  match i with
  | Block _ _ _ => Err (bad (unrecognized_block i))
  | Leaf name values =>
      if says name "host" then
        match values with
        | [] => Err (bad (Msg "expected `host <ip> [port <n>] [protocol <udp|tcp>]`" []))
        | text :: rest =>
            address ← ok_or (parse_ip text) (bad (Msg "bad host {:?}" [text]));
            host ← host_settings (mkLogHost (show_ip address) DEFAULT_LOG_PORT DEFAULT_LOG_PROTOCOL) rest;
            if decide (lh_address host ∈ lh_address <$> lo_hosts intent) then
              Err (bad (Msg "duplicate host {}" [lh_address host]))
            else Ok (set_lo_hosts (lo_hosts intent ++ [host]) intent)
        end
      else if says name "level" then
        match values with
        | [level] =>
            match log_level_severity level with
            | Some _ => Ok (set_lo_level (Some level) intent)
            | None => Err (bad (Msg "bad level {:?} (one of: {})" [level; join ", " LOG_LEVELS.*1]))
            end
        | _ => Err (bad (Msg "expected `level <keyword>`" []))
        end
      else Err (bad (unrecognized_statement name))
  end.

Definition logging (its : list Item) : result IntentError LoggingIntent :=
  intent ← foldM logging_leaf default_logging its;
  guard (MAX_LOG_HOSTS <? length (lo_hosts intent))%nat
    (BadLogging (Msg "at most {} hosts ({} configured)" ["4"; to_dec (N.of_nat (length (lo_hosts intent)))]));;
  Ok intent.

(** ** Web console and SSH *)

Definition MIN_WEB_SESSION_TIMEOUT : N := 5.
Definition MAX_WEB_SESSION_TIMEOUT : N := 1440.

Definition web_session_timeout_of (its : list Item) : result IntentError (option N) :=
  let bad := BadWeb in
  foldM (λ _ i,
    match i with
    | Block _ _ _ => Err (bad (unrecognized_block i))
    | Leaf name _ => guard (negb (says name "session-timeout")) (bad (unrecognized_statement name))
    end) tt its;;
  int_leaf 32 its "session-timeout" MIN_WEB_SESSION_TIMEOUT MAX_WEB_SESSION_TIMEOUT "session-timeout" bad.

Definition ssh (t : ConfigTree) : result IntentError SshIntent :=
  match block t "system" with
  | None => Ok default_ssh
  | Some (_, system) =>
      match head (blocks_named system "ssh") with
      | None => Ok default_ssh
      | Some (_, body) =>
          match leaf_value body "authentication" with
          | Some value =>
              if says value "local" then Ok (mkSshIntent true true)
              else Err (BadSsh (Msg "authentication must be `local`, got {:?}" [value]))
          | None => Ok (mkSshIntent true false)
          end
      end
  end.

Definition web (t : ConfigTree) : WebIntent :=
  match block t "system" with
  | None => default_web
  | Some (_, system) =>
      let on := λ name, bool_decide (is_Some (head (blocks_named system name))) in
      mkWebIntent (on "http") (on "https") None
  end.

(** ** The system block *)

Definition MAX_NAME_SERVERS : nat := 3.

Definition system_block (s : Intents) (name : string) (keys : list string) (children : list Item) :
    result IntentError Intents :=
  let bad := BadSystem in
  guard (negb (bool_decide (keys = []))) (bad (Msg "unrecognized block {:?}" [name]));;
  if says name "login" then users ← login children; Ok (set_i_login users s)
  else if says name "logging" then l ← logging children; Ok (set_i_logging l s)
  else if bool_decide (name ∈ ["aaa"; "radius"; "tacacs"; "tacacs+"]) then
    Err (bad (Msg "RADIUS/TACACS+ login authentication is not supported" []))
  else if says name "archive" then Err (bad (Msg "scheduled config archives are not supported" []))
  else if says name "boot" || says name "image" then
    Err (bad (Msg "dual-partition image selection is not supported (single image slot)" []))
  else if says name "web" then
    timeout ← web_session_timeout_of children;
    Ok (set_i_web (set_web_session_timeout timeout (i_web s)) s)
  else if says name "ssh" || says name "http" || says name "https" then Ok s
  else Err (bad (Msg "unrecognized block {:?}" [name])).

Definition identity_leaf (db : option (gset string)) (identity : IdentityIntent) (name : string)
    (values : list string) : result IntentError IdentityIntent :=
  let bad := BadSystem in
  if says name "hostname" then
    match values with
    | [name] =>
        if valid_hostname_label name then Ok (set_id_hostname (Some name) identity)
        else Err (bad (Msg "bad hostname {:?} (letters, digits and hyphens, max 63)" [name]))
    | _ => Err (bad (Msg "expected `hostname <name>`" []))
    end
  else if says name "timezone" then
    match values with
    | [tz] =>
        if tz_exists db tz then Ok (set_id_timezone (Some tz) identity) else Err (UnknownTimezone tz)
    | _ => Err (bad (Msg "expected `timezone <tz>`" []))
    end
  else if says name "name-server" then
    match values with
    | [text] =>
        address ← ok_or (parse_ip text) (bad (Msg "bad name-server {:?}" [text]));
        Ok (set_id_name_servers (push_new (show_ip address) (id_name_servers identity)) identity)
    | _ => Err (bad (Msg "expected `name-server <ip>`" []))
    end
  else if says name "domain-name" then
    match values with
    | [name] =>
        if valid_domain_name name then Ok (set_id_domain_name (Some name) identity)
        else Err (bad (Msg "bad domain-name {:?}" [name]))
    | _ => Err (bad (Msg "expected `domain-name <name>`" []))
    end
  else if says name "banner" then
    match values with
    | [kind; text] =>
        if says kind "motd" then Err (bad (Msg "only `banner login` is supported" []))
        else if says kind "login" then Ok (set_id_banner_login (Some text) identity)
        else Err (bad (Msg "unrecognized banner {:?}" [kind]))
    | _ => Err (bad (Msg "expected `banner login <text>`" []))
    end
  else Err (bad (unrecognized_statement name)).

Definition system (db : option (gset string)) (t : ConfigTree) (s : Intents) : result IntentError Intents :=
  match block t "system" with
  | None => Ok s
  | Some (_, its) =>
      '(s, identity) ← foldM (λ st i,
         match i with
         | Block name keys children => s ← system_block st.1 name keys children; Ok (s, st.2)
         | Leaf name values => identity ← identity_leaf db st.2 name values; Ok (st.1, identity)
         end) (s, default_identity) its;
      guard (MAX_NAME_SERVERS <? length (id_name_servers identity))%nat
        (BadSystem (Msg "at most {} name-servers ({} configured)"
                      ["3"; to_dec (N.of_nat (length (id_name_servers identity)))]));;
      Ok (set_i_identity identity s)
  end.

(** ** VLANs *)

Definition vlan_block (out : gmap N VlanIntent) (i : Item) : result IntentError (gmap N VlanIntent) :=
  match i with
  | Leaf name _ => Err (BadVlanBlock (unrecognized_statement name))
  | Block name [key] children =>
      guard (negb (says name "vlan")) (BadVlanBlock (Msg "unrecognized block {:?}" [name]));;
      id ← map_err (BadVlan key) (parse_vlan_id key);
      suspended ← match leaf_value children "state" with
                  | Some other =>
                      if says other "suspend" then Ok true
                      else if says other "active" then Ok false
                      else Err (BadVlan key (Msg "state must be `active` or `suspend`, got {:?}" [other]))
                  | None => Ok false
                  end;
      guard (suspended && (id =? 1)) (BadVlan key (Msg "the default VLAN cannot be suspended" []));;
      if decide (is_Some (out !! id)) then Err (BadVlan key (Msg "duplicate vlan block" []))
      else Ok (<[id := mkVlanIntent (leaf_value children "description") suspended]> out)
  | Block name _ _ => Err (BadVlanBlock (Msg "vlan block needs exactly one id key, got {:?}" [name]))
  end.

Definition vlans (t : ConfigTree) : result IntentError (gmap N VlanIntent) :=
  match block t "vlans" with
  | None => Ok ∅
  | Some (_, its) => foldM vlan_block ∅ its
  end.
