(* ===== verification/IntentRouting.v ===== *)
(** * Configuration intents: routing (hemlock-mgmtd/src/intents.rs)

    The [routing] block: static routes, static ARP entries, OSPF and BGP. *)

From Stdlib Require Import Ascii NArith.
From stdpp Require Import base tactics list strings option gmap.
From S2P Require Import Prelude Text ConfigTree Net IntentTypes IntentPorts.

Local Open Scope N_scope.

(** ** OSPF *)

Definition canonical_area (text : string) : result Reason string :=
  match parse_v4 text with
  | Some a => Ok (show_v4 a)
  | None =>
      n ← ok_or (parse_uint 32 text) (Msg "bad area {:?} (dotted or 0..4294967295)" [text]);
      Ok (show_v4 n)
  end.

Definition has_colon (s : string) : bool := contains_str ":" s.

Definition area_network (area : string) (networks : gset string) (i : Item) : result IntentError (gset string) :=
  let bad := BadOspf in
  match i with
  | Block _ _ _ => Err (bad (Msg "area {}: unrecognized block {:?}" [area; item_name i]))
  | Leaf name [prefix] =>
      if says name "network" then
        prefix ← map_err (λ e, bad (NetMsg "area {}: " [area] e)) (require_canonical_prefix prefix);
        if has_colon prefix then
          Err (bad (Msg "area {}: {} is IPv6 (OSPFv3 is not supported)" [area; prefix]))
        else Ok ({[ prefix ]} ∪ networks)
      else Err (bad (Msg "area {}: expected `network <prefix>`" [area]))
  | Leaf _ _ => Err (bad (Msg "area {}: expected `network <prefix>`" [area]))
  end.

Definition ospf_knob (interface : string) (knobs : OspfInterfaceIntent) (i : Item) :
    result IntentError OspfInterfaceIntent :=
  let bad := BadOspf in
  let knob_err := λ r, bad (within "interface {}: " [interface] r) in
  match i with
  | Block _ _ _ => Err (bad (Msg "interface {}: unrecognized block {:?}" [interface; item_name i]))
  | Leaf name [value] =>
      if says name "cost" then
        n ← map_err knob_err (parse_int 16 value 1 65535 "cost"); Ok (set_oi_cost (Some n) knobs)
      else if says name "hello-interval" then
        n ← map_err knob_err (parse_int 16 value 1 65535 "hello-interval");
        Ok (set_oi_hello_interval (Some n) knobs)
      else if says name "dead-interval" then
        n ← map_err knob_err (parse_int 16 value 1 65535 "dead-interval");
        Ok (set_oi_dead_interval (Some n) knobs)
      else if says name "priority" then
        n ← map_err knob_err (parse_int 8 value 0 255 "priority"); Ok (set_oi_priority (Some n) knobs)
      else Err (bad (Msg "interface {}: unrecognized statement {:?}" [interface; name]))
  | Leaf name _ => Err (bad (Msg "interface {}: {} takes one value" [interface; name]))
  end.

Definition ospf_item (ospf : OspfIntent) (i : Item) : result IntentError OspfIntent :=
  let bad := BadOspf in
  match i with
  | Leaf name [value] =>
      if says name "router-id" then
        id ← ok_or (parse_v4 value) (bad (Msg "bad router-id {:?}" [value]));
        Ok (set_ospf_router_id (Some (show_v4 id)) ospf)
      else if says name "passive-interface" then
        Ok (set_ospf_passive_interfaces ({[ value ]} ∪ ospf_passive_interfaces ospf) ospf)
      else if says name "redistribute" then
        if bool_decide (value ∈ ["connected"; "static"; "bgp"]) then
          Ok (set_ospf_redistribute ({[ value ]} ∪ ospf_redistribute ospf) ospf)
        else Err (bad (Msg "redistribute {:?} (connected|static|bgp)" [value]))
      else if says name "maximum-paths" then
        n ← map_err bad (parse_int 8 value 1 8 "maximum-paths"); Ok (set_ospf_maximum_paths n ospf)
      else Err (bad (unrecognized_statement name))
  | Leaf name _ => Err (bad (unrecognized_statement name))
  | Block name [key] children =>
      if says name "area" then
        area ← map_err bad (canonical_area key);
        networks ← foldM (area_network area) (default ∅ (ospf_areas ospf !! area)) children;
        Ok (set_ospf_areas (<[area := networks]> (ospf_areas ospf)) ospf)
      else if says name "interface" then
        knobs ← foldM (ospf_knob key) default_ospf_interface children;
        Ok (set_ospf_interfaces (<[key := knobs]> (ospf_interfaces ospf)) ospf)
      else Err (bad (Msg "unrecognized block {:?}" [name]))
  | Block name _ _ => Err (bad (Msg "unrecognized block {:?}" [name]))
  end.

Definition ospf_intent (children : list Item) : result IntentError OspfIntent :=
  foldM ospf_item default_ospf children.

(** ** BGP *)

Definition bgp_knob (ip : string) (neighbor : BgpNeighborIntent) (i : Item) :
    result IntentError BgpNeighborIntent :=
  let bad := BadBgp in
  let knob_err := λ r, bad (within "neighbor {}: " [ip] r) in
  let unknown := λ name, Err (bad (Msg "neighbor {}: unrecognized statement {:?}" [ip; name])) in
  match i with
  | Block _ _ _ => Err (bad (Msg "neighbor {}: unrecognized block {:?}" [ip; item_name i]))
  | Leaf name [value] =>
      if says name "remote-as" then
        n ← map_err knob_err (parse_int 32 value 1 4294967295 "remote-as");
        Ok (set_bn_remote_as (Some n) neighbor)
      else if says name "description" then Ok (set_bn_description (Some value) neighbor)
      else if says name "ebgp-multihop" then
        n ← map_err knob_err (parse_int 8 value 1 255 "ebgp-multihop");
        Ok (set_bn_ebgp_multihop (Some n) neighbor)
      else unknown name
  | Leaf name [] =>
      if says name "shutdown" then Ok (set_bn_shutdown true neighbor)
      else if says name "next-hop-self" then Ok (set_bn_next_hop_self true neighbor)
      else unknown name
  | Leaf name _ => unknown name
  end.

Definition bgp_item (bgp : BgpIntent) (i : Item) : result IntentError BgpIntent :=
  let bad := BadBgp in
  match i with
  | Leaf name [value] =>
      if says name "as" then
        n ← map_err bad (parse_int 32 value 1 4294967295 "as"); Ok (set_bgp_as_number n bgp)
      else if says name "router-id" then
        id ← ok_or (parse_v4 value) (bad (Msg "bad router-id {:?}" [value]));
        Ok (set_bgp_router_id (Some (show_v4 id)) bgp)
      else if says name "network" then
        prefix ← net bad (require_canonical_prefix value);
        if has_colon prefix then
          Err (bad (Msg "{} is IPv6 (the IPv6 address family is not supported)" [prefix]))
        else Ok (set_bgp_networks ({[ prefix ]} ∪ bgp_networks bgp) bgp)
      else if says name "redistribute" then
        if bool_decide (value ∈ ["connected"; "static"; "ospf"]) then
          Ok (set_bgp_redistribute ({[ value ]} ∪ bgp_redistribute bgp) bgp)
        else Err (bad (Msg "redistribute {:?} (connected|static|ospf)" [value]))
      else if says name "maximum-paths" then
        n ← map_err bad (parse_int 8 value 1 8 "maximum-paths"); Ok (set_bgp_maximum_paths n bgp)
      else Err (bad (unrecognized_statement name))
  | Leaf name _ => Err (bad (unrecognized_statement name))
  | Block name [address] children =>
      if says name "neighbor" then
        ip ← ok_or (parse_ip address) (bad (Msg "bad neighbor address {:?}" [address]));
        if negb (is_ipv4 ip) then
          Err (bad (Msg "neighbor {} is IPv6 (the IPv6 address family is not supported)" [show_ip ip]))
        else
          neighbor ← foldM (bgp_knob (show_ip ip)) default_bgp_neighbor children;
          Ok (set_bgp_neighbors (<[show_ip ip := neighbor]> (bgp_neighbors bgp)) bgp)
      else Err (bad (Msg "unrecognized block {:?}" [name]))
  | Block name _ _ => Err (bad (Msg "unrecognized block {:?}" [name]))
  end.

Definition bgp_intent (children : list Item) : result IntentError BgpIntent :=
  let bad := BadBgp in
  bgp ← foldM bgp_item (mkBgpIntent 0 None ∅ ∅ ∅ 4) children;
  guard (bgp_as_number bgp =? 0) (bad (Msg "as is required" []));;
  foldM (λ _ e, guard (bool_decide (bn_remote_as e.2 = None))
                  (bad (Msg "neighbor {}: remote-as is required" [e.1]))) tt (btree_iter (bgp_neighbors bgp));;
  Ok bgp.

(** ** Static routes *)

(** The routes so far, and the distances written explicitly. *)
Definition static_route (st : gmap string StaticRoute * gmap string N) (i : Item) :
    result IntentError (gmap string StaticRoute * gmap string N) :=
  let '(routes, explicit_distance) := st in
  match i with
  | Block name _ _ => Err (BadRouting (Msg "static: unrecognized block {:?}" [name]))
  | Leaf prefix values =>
      let bad := BadRoute prefix in
      canonical ← net bad (require_canonical_prefix prefix);
      let entry := default default_static_route (routes !! canonical) in
      let usage := Msg "expected `<next-hop> [distance <1-255>]` or `drop`" [] in
      match values with
      | [] => Err (bad usage)
      | next_hop :: rest =>
          if says next_hop "drop" && bool_decide (rest = []) then
            guard (negb (bool_decide (sr_next_hops entry = ∅)))
              (bad (Msg "cannot mix drop with next hops" []));;
            Ok (<[canonical := set_sr_drop true entry]> routes, explicit_distance)
          else
            net bad (validate_next_hop canonical next_hop);;
            guard (sr_drop entry) (bad (Msg "cannot mix drop with next hops" []));;
            '(entry, explicit_distance) ←
              match rest with
              | [] => Ok (entry, explicit_distance)
              | [keyword; value] =>
                  if says keyword "distance" then
                    distance ← map_err bad (parse_int 8 value 1 255 "distance");
                    match explicit_distance !! canonical with
                    | Some prior =>
                        guard (negb (prior =? distance))
                          (bad (Msg "conflicting distances ({} and {}); distance is per-prefix"
                                  [to_dec prior; to_dec distance]))
                    | None => Ok tt
                    end;;
                    Ok (set_sr_distance distance entry, <[canonical := distance]> explicit_distance)
                  else Err (bad usage)
              | _ => Err (bad usage)
              end;
            Ok (<[canonical := set_sr_next_hops ({[ next_hop ]} ∪ sr_next_hops entry) entry]> routes,
                explicit_distance)
      end
  end.

Definition static_routes (children : list Item) : result IntentError (gmap string StaticRoute) :=
  '(routes, _) ← foldM static_route (∅, ∅) children; Ok routes.

(** ** Static ARP *)

Definition arp_static (statics : gmap string ArpStatic) (i : Item) : result IntentError (gmap string ArpStatic) :=
  match i with
  | Block name _ _ => Err (BadRouting (Msg "arp: unrecognized block {:?}" [name]))
  | Leaf ip values =>
      let bad := BadArp ip in
      address ← ok_or (parse_ip ip) (bad (Msg "bad address {:?}" [ip]));
      let usage := Msg "expected `interface <name> mac <mac>`" [] in
      match values with
      | [keyword_interface; interface; keyword_mac; mac] =>
          guard (negb (says keyword_interface "interface") || negb (says keyword_mac "mac")) (bad usage);;
          mac ← net bad (parse_unicast_mac mac);
          Ok (<[show_ip address := mkArpStatic interface mac]> statics)
      | _ => Err (bad usage)
      end
  end.

Definition arp_statics (children : list Item) : result IntentError (gmap string ArpStatic) :=
  foldM arp_static ∅ children.

(** ** The routing block *)

Definition routing_item (s : Intents) (i : Item) : result IntentError Intents :=
  match i with
  | Leaf name values =>
      if says name "router-id" then
        match values with
        | [router_id] =>
            id ← ok_or (parse_v4 router_id) (BadRouting (Msg "bad router-id {:?}" [router_id]));
            Ok (set_i_router_id (Some (show_v4 id)) s)
        | _ => Err (BadRouting (Msg "router-id takes one IPv4 address" []))
        end
      else Err (BadRouting (unrecognized_statement name))
  | Block name keys children =>
      guard (negb (bool_decide (keys = []))) (BadRouting (Msg "unrecognized block {:?}" [name]));;
      if says name "static" then r ← static_routes children; Ok (set_i_routes r s)
      else if says name "arp" then a ← arp_statics children; Ok (set_i_arp_statics a s)
      else if says name "ospf" then o ← ospf_intent children; Ok (set_i_ospf (Some o) s)
      else if says name "bgp" then b ← bgp_intent children; Ok (set_i_bgp (Some b) s)
      else if bool_decide (name ∈ ["vrf"; "ospfv3"; "pim"; "policy"; "route-map"; "prefix-list"]) then
        Err (BadRouting (Msg "{} is not supported" [name]))
      else Err (BadRouting (Msg "unrecognized block {:?}" [name]))
  end.

Definition routing (t : ConfigTree) (s : Intents) : result IntentError Intents :=
  match block t "routing" with
  | None => Ok s
  | Some (_, its) => foldM routing_item s its
  end.
