(* ===== verification/IntentServices.v ===== *)
(** * Configuration intents: protocols, switching, services
    (hemlock-mgmtd/src/intents.rs)

    The [protocols] block (spanning tree, IGMP/MLD snooping, LACP), the
    [switching] block (MAC table, mirror sessions) and the [services] block
    (LLDP, NTP, SNMP, sFlow, DHCP server). *)

From Stdlib Require Import Ascii NArith Lia.
From stdpp Require Import base tactics list strings option gmap sorting.
From S2P Require Import Prelude Text ConfigTree Net IntentTypes IntentPorts IntentSecurity IntentSystem.

Local Open Scope N_scope.

(** ** Protocols *)

Definition lacp_global (its : list Item) : result IntentError LacpGlobalIntent :=
  p ← int_leaf 16 its "system-priority" 0 65535 "system-priority" (λ r, BadProtocols (within "lacp: " [] r));
  Ok (mkLacpGlobalIntent p).

(** One [instance] leaf: the instances, and the instance of every VLAN
    mapped. *)
Definition mst_item (st : gmap N (list N) * gmap N N) (i : Item) :
    result IntentError (gmap N (list N) * gmap N N) :=
  let '(instances, mapped) := st in
  let bad := BadStp in
  match i with
  | Block name _ _ => Err (bad (Msg "mst: unrecognized block {:?}" [name]))
  | Leaf name values =>
      if says name "instance" then
        match values with
        | id :: keyword :: vlan_values =>
            id ← map_err bad (parse_int 8 id 1 15 "mst instance");
            guard (negb (says keyword "vlans") || bool_decide (vlan_values = []))
              (bad (Msg "mst instance {}: expected `vlans <list>`" [to_dec id]));;
            '(mapped, vlans) ← foldM (λ (acc : gmap N N * list N) value,
               vlan ← map_err bad (parse_vlan_id value);
               match acc.1 !! vlan with
               | Some other => Err (bad (Msg "vlan {} is mapped to both mst instance {} and {}"
                                           [to_dec vlan; to_dec other; to_dec id]))
               | None => Ok (<[vlan := id]> acc.1, acc.2 ++ [vlan])
               end) (mapped, []) vlan_values;
            if decide (is_Some (instances !! id)) then
              Err (bad (Msg "duplicate mst instance {}" [to_dec id]))
            else Ok (<[id := sorted_dedup vlans]> instances, mapped)
        | _ => Err (bad (Msg "mst: expected `instance <1-15> vlans <list>`" []))
        end
      else Ok st
  end.

Definition stp (its : list Item) : result IntentError StpIntent :=
  let bad := BadStp in
  mode ← match leaf_value its "mode" with
         | Some other =>
             if says other "mstp" then Ok Mstp
             else if says other "rstp" then Ok Rstp
             else if says other "none" then Ok StpNone
             else if says other "rapid-pvst" then
               Err (bad (Msg "mode rapid-pvst is not supported (use mstp or rstp)" []))
             else Err (bad (Msg "mode must be `mstp`, `rstp` or `none`, got {:?}" [other]))
         | None => Ok Mstp
         end;
  priority ← match leaf_value its "priority" with
             | Some value =>
                 p ← map_err bad (parse_int 16 value 0 61440 "priority");
                 if p mod 4096 =? 0 then Ok (Some p)
                 else Err (bad (Msg "priority {} is not a multiple of 4096" [to_dec p]))
             | None => Ok None
             end;
  hello_time ← int_leaf 8 its "hello-time" 1 10 "hello-time" bad;
  max_age ← int_leaf 8 its "max-age" 6 40 "max-age" bad;
  forward_time ← int_leaf 8 its "forward-time" 4 30 "forward-time" bad;
  match head (blocks_named its "mst") with
  | None => Ok (mkStpIntent mode priority hello_time max_age forward_time None None ∅)
  | Some (_, mst) =>
      revision ← int_leaf 16 mst "revision" 0 65535 "mst revision" bad;
      '(instances, _) ← foldM mst_item (∅, ∅) mst;
      Ok (mkStpIntent mode priority hello_time max_age forward_time (leaf_value mst "name") revision instances)
  end.

(** [mrouters.sort(); mrouters.dedup()] *)
Definition sorted_ports (l : list string) : list string := bset_iter (list_to_set l : gset string).

Definition querier_of (family : string) (vbad : Reason → IntentError) (children : list Item) :
    result IntentError (bool * option string) :=
  match leaf_values children "querier" with
  | None => Ok (false, None)
  | Some [] => Ok (true, None)
  | Some [keyword; address] =>
      if says keyword "address" then
        guard (bool_decide (parse_v4 address = None) && says family "igmp-snooping")
          (vbad (Msg "bad querier address {:?}" [address]));;
        guard (bool_decide (parse_v6 address = None) && says family "mld-snooping")
          (vbad (Msg "bad querier address {:?}" [address]));;
        Ok (true, Some address)
      else Err (vbad (Msg "expected `querier [address <ip>]`" []))
  | Some _ => Err (vbad (Msg "expected `querier [address <ip>]`" []))
  end.

Definition mrouters_of (vbad : Reason → IntentError) (children : list Item) : result IntentError (list string) :=
  ports ← foldM (λ acc i,
    match i with
    | Block _ _ _ => Ok acc
    | Leaf name values =>
        if says name "mrouter" then
          match values with
          | [keyword; port] =>
              if says keyword "interface" then Ok (acc ++ [port])
              else Err (vbad (Msg "expected `interface`, got {:?}" [keyword]))
          | _ => Err (vbad (Msg "expected `mrouter interface <port>`" []))
          end
        else Ok acc
    end) [] children;
  Ok (sorted_ports ports).

Definition snooping_vlan (family : string) (vlans : gmap N SnoopVlanIntent) (key : string)
    (children : list Item) : result IntentError (gmap N SnoopVlanIntent) :=
  let bad := BadSnooping family in
  id ← map_err bad (parse_vlan_id key);
  let vbad := λ r, bad (within "vlan {}: " [to_dec id] r) in
  '(querier, querier_address) ← querier_of family vbad children;
  mrouters ← mrouters_of vbad children;
  if decide (is_Some (vlans !! id)) then Err (bad (Msg "duplicate vlan {}" [to_dec id]))
  else Ok (<[id := mkSnoopVlanIntent (has_leaf children "disable") (has_leaf children "fast-leave")
                    querier querier_address mrouters]> vlans).

Definition snooping_item (family : string) (vlans : gmap N SnoopVlanIntent) (i : Item) :
    result IntentError (gmap N SnoopVlanIntent) :=
  let bad := BadSnooping family in
  match i with
  | Block name keys children =>
      if says name "vlan" then
        match keys with
        | [key] => snooping_vlan family vlans key children
        | _ => Err (bad (Msg "vlan block needs exactly one id key" []))
        end
      else Ok vlans
  | Leaf name values =>
      if says name "vlan" then
        match values with
        | [key] => snooping_vlan family vlans key []
        | _ => Err (bad (Msg "expected `vlan <id>`" []))
        end
      else Ok vlans
  end.

Definition snooping (its : list Item) (family : string) : result IntentError SnoopingIntent :=
  robustness ← int_leaf 8 its "robustness" 1 3 "robustness" (BadSnooping family);
  vlans ← foldM (snooping_item family) ∅ its;
  Ok (mkSnoopingIntent (has_leaf its "disable") robustness vlans).

Definition protocols (t : ConfigTree) (s : Intents) : result IntentError Intents :=
  match block t "protocols" with
  | None => Ok s
  | Some (_, its) =>
      foldM (λ s i,
        match i with
        | Leaf name _ => Err (BadProtocols (unrecognized_statement name))
        | Block name keys children =>
            guard (negb (bool_decide (keys = []))) (BadProtocols (Msg "unrecognized block {:?}" [name]));;
            if says name "spanning-tree" then x ← stp children; Ok (set_i_stp x s)
            else if says name "igmp-snooping" then
              x ← snooping children "igmp-snooping"; Ok (set_i_igmp_snooping x s)
            else if says name "mld-snooping" then
              x ← snooping children "mld-snooping"; Ok (set_i_mld_snooping x s)
            else if says name "lacp" then x ← lacp_global children; Ok (set_i_lacp x s)
            else Err (BadProtocols (Msg "unrecognized block {:?}" [name]))
        end) s its
  end.

(** ** Switching *)

Definition mac_table_item (intent : MacTableIntent) (i : Item) : result IntentError MacTableIntent :=
  let bad := BadMacTable in
  match i with
  | Block _ _ _ => Err (bad (unrecognized_block i))
  | Leaf name values =>
      if says name "aging-time" then
        match values with
        | [value] =>
            secs ← map_err bad (parse_int 32 value 0 1000000 "aging-time");
            if negb (secs =? 0) && (secs <? 10) then
              Err (bad (Msg "bad aging-time {} (0 or 10..1000000)" [to_dec secs]))
            else Ok (set_mt_aging_time (Some secs) intent)
        | _ => Err (bad (Msg "expected `aging-time <seconds>`" []))
        end
      else if says name "static" then
        let usage := bad (Msg "expected `static <mac> vlan <id> interface <port>|drop`" []) in
        match values with
        | mac :: kw :: vlan :: rest =>
            if says kw "vlan" then
              target ← match rest with
                       | [kw; port] =>
                           if says kw "interface" then Ok (FdbPort port)
                           else Err (bad (Msg "static {}: expected `interface <port>` or `drop`" [mac]))
                       | [kw] =>
                           if says kw "drop" then Ok FdbDrop
                           else Err (bad (Msg "static {}: expected `interface <port>` or `drop`" [mac]))
                       | _ => Err (bad (Msg "static {}: expected `interface <port>` or `drop`" [mac]))
                       end;
              mac ← net bad (parse_unicast_mac mac);
              vlan ← map_err bad (parse_vlan_id vlan);
              if decide (is_Some (mt_statics intent !! (mac, vlan))) then
                Err (bad (Msg "duplicate static entry {} vlan {}" [mac; to_dec vlan]))
              else Ok (set_mt_statics (<[(mac, vlan) := target]> (mt_statics intent)) intent)
            else Err usage
        | _ => Err usage
        end
      else Err (bad (unrecognized_statement name))
  end.

Definition mac_table (its : list Item) : result IntentError MacTableIntent :=
  foldM mac_table_item default_mac_table its.

Definition mirror_leaf (session : N) (intent : MirrorIntent) (i : Item) : result IntentError MirrorIntent :=
  let bad := BadMirror session in
  match i with
  | Block _ _ _ => Err (bad (unrecognized_block i))
  | Leaf name values =>
      if says name "source" then
        '(port, direction) ←
          match values with
          | [port] => Ok (port, Both)
          | [port; dir] =>
              if says dir "rx" then Ok (port, Rx)
              else if says dir "tx" then Ok (port, Tx)
              else if says dir "both" then Ok (port, Both)
              else Err (bad (Msg "direction must be `rx`, `tx` or `both`, got {:?}" [dir]))
          | _ => Err (bad (Msg "expected `source <port> [rx|tx|both]`" []))
          end;
        if decide (is_Some (mi_sources intent !! port)) then Err (bad (Msg "duplicate source {}" [port]))
        else Ok (set_mi_sources (<[port := direction]> (mi_sources intent)) intent)
      else if says name "destination" then
        match values with
        | [port] =>
            match mi_destination intent with
            | Some _ => Err (bad (Msg "duplicate destination" []))
            | None => Ok (set_mi_destination (Some port) intent)
            end
        | _ => Err (bad (Msg "expected `destination <port>`" []))
        end
      else Err (bad (unrecognized_statement name))
  end.

Definition mirror_block (out : gmap N MirrorIntent) (i : Item) : result IntentError (gmap N MirrorIntent) :=
  match i with
  | Leaf name _ => Err (BadMirrorBlock (unrecognized_statement name))
  | Block name [key] children =>
      guard (negb (says name "session")) (BadMirrorBlock (Msg "unrecognized block {:?}" [name]));;
      session ← map_err BadMirrorBlock (parse_int 8 key 1 4 "session");
      intent ← foldM (mirror_leaf session) default_mirror children;
      if decide (is_Some (out !! session)) then
        Err (BadMirrorBlock (Msg "duplicate session {}" [to_dec session]))
      else Ok (<[session := intent]> out)
  | Block name _ _ => Err (BadMirrorBlock (Msg "session block needs exactly one id key, got {:?}" [name]))
  end.

Definition mirror (its : list Item) : result IntentError (gmap N MirrorIntent) := foldM mirror_block ∅ its.

Definition switching (t : ConfigTree) (s : Intents) : result IntentError Intents :=
  match block t "switching" with
  | None => Ok s
  | Some (_, its) =>
      foldM (λ s i,
        match i with
        | Leaf name _ => Err (BadSwitching (unrecognized_statement name))
        | Block name keys children =>
            guard (negb (bool_decide (keys = []))) (BadSwitching (Msg "unrecognized block {:?}" [name]));;
            if says name "mac-table" then x ← mac_table children; Ok (set_i_mac_table x s)
            else if says name "mirror" then x ← mirror children; Ok (set_i_mirror x s)
            else Err (BadSwitching (Msg "unrecognized block {:?}" [name]))
        end) s its
  end.

(** ** LLDP, NTP *)

Definition lldp (its : list Item) : result IntentError LldpIntent :=
  let bad := BadLldp in
  foldM (λ _ i,
    match i with
    | Block _ _ _ => Err (bad (unrecognized_block i))
    | Leaf name _ =>
        guard (negb (bool_decide (name ∈ ["disable"; "tx-interval"; "hold-multiplier"])))
          (bad (unrecognized_statement name))
    end) tt its;;
  tx_interval ← int_leaf 16 its "tx-interval" 5 300 "tx-interval" bad;
  hold_multiplier ← int_leaf 8 its "hold-multiplier" 2 10 "hold-multiplier" bad;
  Ok (mkLldpIntent (has_leaf its "disable") tx_interval hold_multiplier).

Definition MAX_NTP_SERVERS : nat := 4.

Definition valid_ntp_server (host : string) : bool :=
  if bool_decide (is_Some (parse_ip host)) then true
  else
    let host := drop_dot host in
    if says host "" || (253 <? String.length host)%nat then false
    else forallb (λ label,
      negb (says label "") && (String.length label <=? 63)%nat
      && negb (starts_with_char "-"%char label) && negb (ends_with_char "-"%char label)
      && string_all (λ c, is_ascii_alphanumeric c || bool_decide (c = "-"%char)) label) (split "."%char host).

Definition ntp_leaf (servers : list string) (i : Item) : result IntentError (list string) :=
  let bad := BadNtp in
  match i with
  | Block _ _ _ => Err (bad (unrecognized_block i))
  | Leaf name values =>
      if says name "server" then
        match values with
        | [host] =>
            if valid_ntp_server host then Ok (push_new host servers)
            else Err (bad (Msg "bad server {:?}" [host]))
        | _ => Err (bad (Msg "expected `server <host>`" []))
        end
      else if says name "listen" || says name "master" then
        Err (bad (Msg "NTP server mode is not supported" []))
      else if says name "authentication" || says name "key" then
        Err (bad (Msg "NTP authentication is not supported" []))
      else Err (bad (unrecognized_statement name))
  end.

Definition ntp (its : list Item) : result IntentError NtpIntent :=
  servers ← foldM ntp_leaf [] its;
  guard (MAX_NTP_SERVERS <? length servers)%nat
    (BadNtp (Msg "at most {} servers ({} configured)" ["4"; to_dec (N.of_nat (length servers))]));;
  Ok (mkNtpIntent servers).

(** ** SNMP *)

Definition MIN_SNMP_PASSWORD : nat := 8.

Definition valid_snmp_name (name : string) : bool :=
  match name with
  | "" => false
  | String c rest => is_ascii_alphabetic c && (String.length name <=? 32)%nat && string_all name_char rest
  end.

Definition snmp_community (intent : SnmpIntent) (values : list string) : result IntentError SnmpIntent :=
  let bad := BadSnmp in
  '(community, source) ←
    match values with
    | [community] => Ok (community, None)
    | [community; keyword; prefix] =>
        if says keyword "source" then
          prefix ← map_err (λ e, bad (NetMsg "community {}: " [community] e)) (canonical_prefix prefix);
          Ok (community, Some prefix)
        else Err (bad (Msg "expected `community <name> [source <prefix>]`" []))
    | _ => Err (bad (Msg "expected `community <name> [source <prefix>]`" []))
    end;
  guard (negb (valid_snmp_name community)) (bad (Msg "bad community name {:?}" [community]));;
  guard (bool_decide (community ∈ sm_name <$> snmp_communities intent))
    (bad (Msg "duplicate community {}" [community]));;
  Ok (set_snmp_communities (snmp_communities intent ++ [mkSnmpCommunityIntent community source]) intent).

Definition snmp_user (intent : SnmpIntent) (values : list string) : result IntentError SnmpIntent :=
  let bad := BadSnmp in
  let usage := bad (Msg "expected `user <name> auth sha <pass> priv aes <pass>`" []) in
  match values with
  | [user; auth_keyword; auth_protocol; auth_password; priv_keyword; priv_protocol; priv_password] =>
      guard (negb (valid_snmp_name user)) (bad (Msg "bad user name {:?}" [user]));;
      guard (negb (says auth_keyword "auth") || negb (says priv_keyword "priv")) usage;;
      guard (negb (says auth_protocol "sha"))
        (bad (Msg "user {}: auth protocol {:?} is not supported (sha only)" [user; auth_protocol]));;
      guard (negb (says priv_protocol "aes"))
        (bad (Msg "user {}: priv protocol {:?} is not supported (aes only)" [user; priv_protocol]));;
      foldM (λ _ password, guard (String.length password <? MIN_SNMP_PASSWORD)%nat
        (bad (Msg "user {}: passwords must be at least {} characters" [user; "8"]))) tt
        [auth_password; priv_password];;
      if decide (is_Some (snmp_users intent !! user)) then Err (bad (Msg "duplicate user {}" [user]))
      else Ok (set_snmp_users (<[user := mkSnmpUser auth_password priv_password]> (snmp_users intent)) intent)
  | _ => Err usage
  end.

Definition snmp_leaf (intent : SnmpIntent) (i : Item) : result IntentError SnmpIntent :=
  let bad := BadSnmp in
  match i with
  | Block _ _ _ => Err (bad (unrecognized_block i))
  | Leaf name values =>
      if says name "community" then snmp_community intent values
      else if says name "user" then snmp_user intent values
      else if says name "location" then
        match values with
        | [text] =>
            match snmp_location intent with
            | Some _ => Err (bad (Msg "duplicate {}" [name]))
            | None => Ok (set_snmp_location (Some text) intent)
            end
        | _ => Err (bad (Msg "expected `{} <text>`" [name]))
        end
      else if says name "contact" then
        match values with
        | [text] =>
            match snmp_contact intent with
            | Some _ => Err (bad (Msg "duplicate {}" [name]))
            | None => Ok (set_snmp_contact (Some text) intent)
            end
        | _ => Err (bad (Msg "expected `{} <text>`" [name]))
        end
      else if bool_decide (name ∈ ["trap"; "trap2sink"; "informs"; "trapsink"; "alarm"]) then
        Err (bad (Msg "SNMP traps and informs are not supported" []))
      else if says name "rwcommunity" || says name "rwuser" then
        Err (bad (Msg "SNMP write access is not supported" []))
      else Err (bad (unrecognized_statement name))
  end.

Definition snmp (its : list Item) : result IntentError SnmpIntent :=
  foldM snmp_leaf (set_snmp_enabled true default_snmp) its.

(** ** sFlow *)

Definition MIN_SFLOW_SAMPLE_RATE : N := 256.
Definition MAX_SFLOW_SAMPLE_RATE : N := 1048576.
Definition MAX_SFLOW_COLLECTORS : nat := 2.

(** [is_power_of_two] *)
Definition is_power_of_two (n : N) : bool := negb (n =? 0) && (N.land n (n - 1) =? 0).

(** The loop doubles the candidate from the least to the greatest rate:
    thirteen candidates, and never past 2^21. *)
Fixpoint nearest_go (fuel : nat) (rate candidate below above : N) : N * N :=
  match fuel with
  | O => (below, above)
  | S f =>
      if candidate <=? MAX_SFLOW_SAMPLE_RATE then
        let below := if candidate <=? rate then candidate else below in
        if rate <=? candidate then (below, candidate)
        else nearest_go f rate (candidate * 2) below above
      else (below, above)
  end.

Definition nearest_sample_rates (rate : N) : N * N :=
  nearest_go 14 rate MIN_SFLOW_SAMPLE_RATE MIN_SFLOW_SAMPLE_RATE MAX_SFLOW_SAMPLE_RATE.

Definition sflow_leaf (intent : SflowIntent) (i : Item) : result IntentError SflowIntent :=
  let bad := BadSflow in
  match i with
  | Block _ _ _ => Err (bad (unrecognized_block i))
  | Leaf name values =>
      if says name "collector" then
        '(address, port) ←
          match values with
          | [address] => Ok (address, None)
          | [address; keyword; port] =>
              if says keyword "port" then
                n ← map_err bad (parse_int 16 port 1 65535 "collector port"); Ok (address, Some n)
              else Err (bad (Msg "expected `collector <ip> [port <1-65535>]`" []))
          | _ => Err (bad (Msg "expected `collector <ip> [port <1-65535>]`" []))
          end;
        guard (bool_decide (parse_ip address = None)) (bad (Msg "bad collector address {:?}" [address]));;
        guard (bool_decide (address ∈ sc_address <$> sf_collectors intent))
          (bad (Msg "duplicate collector {}" [address]));;
        Ok (set_sf_collectors (sf_collectors intent ++ [mkSflowCollector address port]) intent)
      else if says name "sample-rate" then
        match values with
        | [value] =>
            rate ← map_err bad (parse_int 32 value MIN_SFLOW_SAMPLE_RATE MAX_SFLOW_SAMPLE_RATE "sample-rate");
            if is_power_of_two rate then Ok (set_sf_sample_rate (Some rate) intent)
            else
              let '(below, above) := nearest_sample_rates rate in
              Err (bad (Msg "sample-rate {} is not a power of two (nearest: {}, {})"
                          [to_dec rate; to_dec below; to_dec above]))
        | _ => Err (bad (Msg "expected `sample-rate <256-1048576>`" []))
        end
      else if says name "polling-interval" then
        match values with
        | [value] =>
            n ← map_err bad (parse_int 16 value 5 300 "polling-interval");
            Ok (set_sf_polling_interval (Some n) intent)
        | _ => Err (bad (Msg "expected `polling-interval <5-300>`" []))
        end
      else if says name "egress" || says name "egress-sample-rate" then
        Err (bad (Msg "sFlow egress sampling is not supported" []))
      else Err (bad (unrecognized_statement name))
  end.

Definition sflow (its : list Item) : result IntentError SflowIntent :=
  intent ← foldM sflow_leaf default_sflow its;
  guard (MAX_SFLOW_COLLECTORS <? length (sf_collectors intent))%nat
    (BadSflow (Msg "at most {} collectors ({} configured)"
                 ["2"; to_dec (N.of_nat (length (sf_collectors intent)))]));;
  Ok intent.

Definition sflow_enabled (s : SflowIntent) : bool := negb (bool_decide (sf_collectors s = [])).
Definition sflow_is_set (s : SflowIntent) : bool := negb (bool_decide (s = default_sflow)).

(** ** DHCP server *)

Definition MAX_POOL_DNS_SERVERS : nat := 3.

Definition valid_pool_name (name : string) : bool :=
  match name with
  | "" => false
  | String c rest => is_ascii_alphabetic c && (String.length name <=? 32)%nat && string_all name_char rest
  end.

(** The pool so far and whether a lease time was seen. *)
Definition pool_leaf (name : string) (st : DhcpPoolIntent * bool) (i : Item) :
    result IntentError (DhcpPoolIntent * bool) :=
  let '(pool, seen_lease) := st in
  let bad := BadDhcpPool name in
  let ipv4 := λ what text, ok_or (parse_v4 text) (bad (Msg "bad {} {:?}" [what; text])) in
  match i with
  | Block _ _ _ => Err (bad (unrecognized_block i))
  | Leaf leaf values =>
      if says leaf "network" then
        match values with
        | [prefix] =>
            canonical ← map_err (λ e, bad (NetMsg "network: " [] e)) (require_canonical_prefix prefix);
            guard (contains_str ":" canonical) (bad (Msg "DHCPv6 pools are not supported" []));;
            guard (bool_decide (is_Some (dp_network pool))) (bad (Msg "duplicate network" []));;
            Ok (set_dp_network (Some canonical) pool, seen_lease)
        | _ => Err (bad (Msg "expected `network <prefix>`" []))
        end
      else if says leaf "range" then
        match values with
        | [start; end_] =>
            start ← ipv4 "range start" start;
            end_ ← ipv4 "range end" end_;
            guard (end_ <? start) (bad (Msg "range {} - {} runs backwards" [show_v4 start; show_v4 end_]));;
            guard (bool_decide (is_Some (dp_range pool))) (bad (Msg "duplicate range" []));;
            Ok (set_dp_range (Some (start, end_)) pool, seen_lease)
        | _ => Err (bad (Msg "expected `range <start-ip> <end-ip>`" []))
        end
      else if says leaf "default-gateway" then
        match values with
        | [address] =>
            guard (bool_decide (is_Some (dp_default_gateway pool))) (bad (Msg "duplicate default-gateway" []));;
            a ← ipv4 "default-gateway" address;
            Ok (set_dp_default_gateway (Some a) pool, seen_lease)
        | _ => Err (bad (Msg "expected `default-gateway <ipv4>`" []))
        end
      else if says leaf "dns-server" then
        match values with
        | [address] =>
            server ← ipv4 "dns-server" address;
            Ok (set_dp_dns_servers (push_new server (dp_dns_servers pool)) pool, seen_lease)
        | _ => Err (bad (Msg "expected `dns-server <ipv4>`" []))
        end
      else if says leaf "lease-time" then
        match values with
        | [value] =>
            guard seen_lease (bad (Msg "duplicate lease-time" []));;
            n ← map_err bad (parse_int 32 value 300 2592000 "lease-time");
            Ok (set_dp_lease_time (Some n) pool, true)
        | _ => Err (bad (Msg "expected `lease-time <300-2592000>`" []))
        end
      else if says leaf "domain-name" then
        match values with
        | [text] =>
            guard (bool_decide (is_Some (dp_domain_name pool))) (bad (Msg "duplicate domain-name" []));;
            Ok (set_dp_domain_name (Some text) pool, seen_lease)
        | _ => Err (bad (Msg "expected `domain-name <text>`" []))
        end
      else if says leaf "reservation" then
        match values with
        | [mac; keyword; address] =>
            guard (negb (says keyword "address")) (bad (Msg "expected `address`, got {:?}" [keyword]));;
            mac ← map_err (λ e, bad (NetMsg "reservation: " [] e)) (parse_unicast_mac mac);
            address ← ipv4 "reservation address" address;
            if decide (is_Some (dp_reservations pool !! mac)) then
              Err (bad (Msg "duplicate reservation for {}" [mac]))
            else Ok (set_dp_reservations (<[mac := address]> (dp_reservations pool)) pool, seen_lease)
        | _ => Err (bad (Msg "expected `reservation <mac> address <ipv4>`" []))
        end
      else if says leaf "option-82" || says leaf "relay-agent-information" then
        Err (bad (Msg "DHCP option-82 is not supported" []))
      else Err (bad (unrecognized_statement leaf))
  end.

Definition dhcp_pool (name : string) (its : list Item) : result IntentError DhcpPoolIntent :=
  '(pool, _) ← foldM (pool_leaf name) (default_pool, false) its;
  guard (MAX_POOL_DNS_SERVERS <? length (dp_dns_servers pool))%nat
    (BadDhcpPool name (Msg "at most {} dns-servers ({} configured)"
       ["3"; to_dec (N.of_nat (length (dp_dns_servers pool)))]));;
  Ok pool.

Definition dhcp_server_block (pools : gmap string DhcpPoolIntent) (i : Item) :
    result IntentError (gmap string DhcpPoolIntent) :=
  let bad := BadDhcpServer in
  match i with
  | Leaf name _ => Err (bad (unrecognized_statement name))
  | Block name keys children =>
      if says name "pool" then
        match keys with
        | [pool_name] =>
            guard (negb (valid_pool_name pool_name)) (bad (Msg "bad pool name {:?}" [pool_name]));;
            pool ← dhcp_pool pool_name children;
            if decide (is_Some (pools !! pool_name)) then Err (bad (Msg "duplicate pool {}" [pool_name]))
            else Ok (<[pool_name := pool]> pools)
        | _ => Err (bad (Msg "pool block needs exactly one name key" []))
        end
      else Err (bad (Msg "unrecognized block {:?}" [name]))
  end.

Definition dhcp_server (its : list Item) : result IntentError (gmap string DhcpPoolIntent) :=
  foldM dhcp_server_block ∅ its.

Definition services (t : ConfigTree) (s : Intents) : result IntentError Intents :=
  match block t "services" with
  | None => Ok s
  | Some (_, its) =>
      foldM (λ s i,
        match i with
        | Leaf name _ => Err (BadServices (unrecognized_statement name))
        | Block name keys children =>
            guard (negb (bool_decide (keys = []))) (BadServices (Msg "unrecognized block {:?}" [name]));;
            if says name "lldp" then x ← lldp children; Ok (set_i_lldp x s)
            else if says name "ntp" then x ← ntp children; Ok (set_i_ntp x s)
            else if says name "snmp" then x ← snmp children; Ok (set_i_snmp x s)
            else if says name "sflow" then x ← sflow children; Ok (set_i_sflow x s)
            else if says name "dhcp-server" then x ← dhcp_server children; Ok (set_i_dhcp_server x s)
            else Err (BadServices (Msg "unrecognized block {:?}" [name]))
        end) s its
  end.

(** ** The rates a rejected sampling rate is pointed at *)

Definition accepted_rate (r : N) : Prop :=
  MIN_SFLOW_SAMPLE_RATE ≤ r ≤ MAX_SFLOW_SAMPLE_RATE ∧ is_power_of_two r = true.

Lemma is_power_of_two_spec n : is_power_of_two n = true ↔ ∃ k, n = 2 ^ k.
Proof.
  unfold is_power_of_two. rewrite andb_true_iff, negb_true_iff, N.eqb_neq, N.eqb_eq. split.
  - intros [Hn Hl]. exists (N.log2 n). destruct (N.log2_spec n) as [Hlo Hhi]; [lia|].
    destruct (N.eq_dec n (2 ^ N.log2 n)) as [|Hne]; [done|exfalso].
    assert (N.log2 (n - 1) = N.log2 n) as Hp by (apply N.log2_unique; lia).
    apply (f_equal (λ m, N.testbit m (N.log2 n))) in Hl. rewrite N.land_spec, N.bit_log2 in Hl by done.
    rewrite <-Hp, N.bit_log2, N.bits_0 in Hl by lia. done.
  - intros [k ->]. split; [apply N.pow_nonzero; lia|]. apply N.bits_inj_0. intros i. rewrite N.land_spec.
    replace (2 ^ k - 1) with (N.ones k) by (rewrite N.ones_equiv; lia).
    destruct (N.eq_dec i k) as [->|]; [by rewrite N.ones_spec_high, andb_false_r|by rewrite N.pow2_bits_false by lia].
Qed.

(** From the candidate [2 ^ k], every smaller one being below the rate. *)
Lemma nearest_go_spec fuel rate k below :
  2 ^ 8 ≤ rate ≤ 2 ^ 20 → 8 ≤ k ≤ 20 → (21 - N.to_nat k ≤ fuel)%nat →
  (8 < k → 2 ^ (k - 1) < rate ∧ below = 2 ^ (k - 1)) →
  nearest_go fuel rate (2 ^ k) below MAX_SFLOW_SAMPLE_RATE = (2 ^ N.log2 rate, 2 ^ N.log2_up rate).
Proof.
  revert k below. induction fuel as [|f IH]; intros k below Hr Hk Hf Hb; [lia|]. cbn [nearest_go].
  assert (2 ^ k ≤ MAX_SFLOW_SAMPLE_RATE) as ->%N.leb_le.
  { change MAX_SFLOW_SAMPLE_RATE with (2 ^ 20). apply N.pow_le_mono_r; lia. }
  destruct (N.leb_spec rate (2 ^ k)) as [Hle|Hgt].
  - destruct (N.eq_dec rate (2 ^ k)) as [->|Hne].
    { rewrite N.leb_refl, N.log2_pow2, N.log2_up_pow2 by lia. done. }
    destruct (N.leb_spec (2 ^ k) rate); [lia|].
    destruct (N.eq_dec k 8) as [->|]; [lia|]. destruct Hb as [Hlt ->]; [lia|].
    assert (N.log2 rate = k - 1) as ->.
    { apply N.log2_unique; [lia|]. replace (N.succ (k - 1)) with k by lia. lia. }
    assert (N.log2_up rate = k) as -> by (apply N.log2_up_unique; [lia|]; rewrite <-N.sub_1_r; lia). done.
  - destruct (N.leb_spec (2 ^ k) rate); [|lia].
    assert (k < 20) by (apply (N.pow_lt_mono_r_iff 2); lia).
    replace (2 ^ k * 2) with (2 ^ (k + 1)) by (rewrite N.pow_add_r; lia).
    apply IH; [done|lia..|]. intros _. replace (k + 1 - 1) with k by lia. done.
Qed.

(** The rates named are accepted ones around the rate, and no accepted rate
    lies between them. *)
Theorem nearest_sample_rates_tight rate :
  MIN_SFLOW_SAMPLE_RATE ≤ rate ≤ MAX_SFLOW_SAMPLE_RATE →
  let '(below, above) := nearest_sample_rates rate in
  accepted_rate below ∧ accepted_rate above ∧ below ≤ rate ≤ above
  ∧ ∀ r, accepted_rate r → r ≤ below ∨ above ≤ r.
Proof.
  intros Hr. change (2 ^ 8 ≤ rate ≤ 2 ^ 20) in Hr. unfold nearest_sample_rates.
  rewrite (nearest_go_spec 14 rate 8) by (lia || done).
  assert (0 < rate) by lia. destruct (N.log2_spec rate) as [Hlo Hhi]; [done|].
  assert (rate ≤ 2 ^ N.log2_up rate) as Hup by (by apply N.log2_log2_up_spec).
  assert (8 ≤ N.log2 rate) by (rewrite <-(N.log2_pow2 8) by lia; apply N.log2_le_mono; lia).
  assert (N.log2_up rate ≤ 20) by (rewrite <-(N.log2_up_pow2 20) by lia; apply N.log2_up_le_mono; lia).
  pose proof (N.le_log2_log2_up rate) as Hll.
  assert (∀ k, 8 ≤ k ≤ 20 → accepted_rate (2 ^ k)) as Hacc.
  { intros k Hk. split; [|apply is_power_of_two_spec; eauto].
    change (2 ^ 8 ≤ 2 ^ k ≤ 2 ^ 20). split; apply N.pow_le_mono_r; lia. }
  split_and!; [apply Hacc; lia|apply Hacc; lia|done|done|].
  intros r [_ [k ->]%is_power_of_two_spec].
  destruct (N.le_gt_cases (2 ^ k) rate) as [Hle|Hgt]; [left|right]; apply N.pow_le_mono_r; try done.
  - rewrite <-(N.log2_pow2 k) by lia. by apply N.log2_le_mono.
  - rewrite <-(N.log2_up_pow2 k) by lia. apply N.log2_up_le_mono. lia.
Qed.

Lemma nearest_sample_rates_tight_witness :
  let '(below, above) := nearest_sample_rates 1000 in
  accepted_rate below ∧ accepted_rate above ∧ below ≤ 1000 ≤ above
  ∧ ∀ r, accepted_rate r → r ≤ below ∨ above ≤ r.
Proof. apply (nearest_sample_rates_tight 1000). split; discriminate. Defined.
