(* ===== verification/IntentExtract.v ===== *)
(** * Configuration intents: extraction (hemlock-mgmtd/src/intents.rs)

    [extract] reads every family of a configuration tree and
    [finish_validation] runs the checks that need them all.  Each group of
    checks of [finish_validation] is a definition of its own, run in the
    source's order. *)

From Stdlib Require Import Ascii NArith Lia.
From stdpp Require Import base tactics list strings option gmap sorting.
From S2P Require Import Prelude Text ConfigTree Net LinkMode Role.
From S2P Require Import IntentTypes IntentPorts IntentSecurity IntentSystem IntentRouting IntentServices.

Local Open Scope N_scope.

(** ** Queries *)

Definition management_address (s : Intents) : option string :=
  find_map (λ m, cidr ← mg_address m; head (split "/"%char cidr)) (btree_values (i_management s)).

Definition management_name (s : Intents) : option string :=
  find_map (λ e : string * MgmtIntent, match mg_address e.2 with Some _ => Some e.1 | None => None end)
    (btree_iter (i_management s)).

(** [None]: no such interface; [Some None]: it carries no address. *)
Definition interface_address (s : Intents) (name : string) : option (option string) :=
  match i_ports s !! name with
  | Some p => Some (if_address p)
  | None =>
      match i_svis s !! name with
      | Some v => Some (svi_address v)
      | None => mg_address <$> i_management s !! name
      end
  end.

Definition subnet (p : DhcpPoolIntent) : option (N * N) :=
  network ← dp_network p;
  '(address, len) ← split_once "/"%char network;
  a ← parse_v4 address;
  l ← parse_uint 8 len;
  Some (a, l).

Definition in_subnet (address base len : N) : bool :=
  if len =? 0 then true
  else
    let m := wrap 32 (N.shiftl (2 ^ 32 - 1) (32 - N.min len 32)) in
    N.land address m =? N.land base m.

Definition subnets_overlap (left right : N * N) : bool :=
  in_subnet right.1 left.1 left.2 || in_subnet left.1 right.1 right.2.

Definition vlan_ifname (vlan : N) : string := "Vlan" +:+ to_dec vlan.
Definition lag_ifname (group : N) : string := "Port-Channel" +:+ to_dec group.

(** ** DHCP *)

Definition check_range (bad : Reason → IntentError) (net_text : string) (sub : N * N)
    (e : string * N) : result IntentError unit :=
  guard (negb (in_subnet e.2 sub.1 sub.2)) (bad (Msg "{} {} is outside {}" [e.1; show_v4 e.2; net_text])).

(** One pool, given the owners of the MACs reserved and the subnets served by
    the pools before it. *)
Definition check_pool (st : gmap string string * list (string * (N * N))) (e : string * DhcpPoolIntent) :
    result IntentError (gmap string string * list (string * (N * N))) :=
  let '(reserved_macs, subnets) := st in
  let '(name, pool) := e in
  let bad := BadDhcpPool name in
  let net_text := default "" (dp_network pool) in
  sub ← ok_or (subnet pool) (bad (Msg "network is required" []));
  '(start, end_) ← ok_or (dp_range pool) (bad (Msg "range is required" []));
  gateway ← ok_or (dp_default_gateway pool) (bad (Msg "default-gateway is required" []));
  foldM (λ _ e, check_range bad net_text sub e) tt [("range start", start); ("range end", end_)];;
  guard (negb (in_subnet gateway sub.1 sub.2))
    (bad (Msg "default-gateway {} is outside {}" [show_v4 gateway; net_text]));;
  reserved_macs ← foldM (λ (reserved : gmap string string) (r : string * N),
    guard (negb (in_subnet r.2 sub.1 sub.2))
      (bad (Msg "reservation {} address {} is outside {}" [r.1; show_v4 r.2; net_text]));;
    match reserved !! r.1 with
    | Some other =>
        guard (negb (says other name)) (bad (Msg "reservation {} is already reserved in pool {}" [r.1; other]))
    | None => Ok tt
    end;;
    Ok (<[r.1 := name]> reserved)) reserved_macs (btree_iter (dp_reservations pool));
  foldM (λ _ (o : string * (N * N)), guard (subnets_overlap sub o.2)
    (bad (Msg "network {} overlaps pool {}" [net_text; o.1]))) tt subnets;;
  Ok (reserved_macs, subnets ++ [(name, sub)]).

(** A VLAN that relays and its SVI's address, against every pool. *)
Definition check_relay_pools (s : Intents) (vlan : N) : result IntentError unit :=
  match svi ← i_svis s !! vlan_ifname vlan; svi_address svi with
  | None => Ok tt
  | Some text =>
      match parse_cidr text with
      | Ok (V4 address, _) =>
          foldM (λ _ (e : string * DhcpPoolIntent),
            match subnet e.2 with
            | None => Ok tt
            | Some (base, len) =>
                guard (in_subnet address base len) (BadDhcpRelay (vlan_ifname vlan)
                  (Msg "dhcp-relay and a local dhcp-server pool cannot serve the same VLAN (pool {})" [e.1]))
            end) tt (btree_iter (i_dhcp_server s))
      | _ => Ok tt
      end
  end.

Definition validate_dhcp_pools (s : Intents) : result IntentError unit :=
  foldM check_pool (∅, []) (btree_iter (i_dhcp_server s));;
  foldM (λ _ vlan, check_relay_pools s vlan) tt (btree_keys (i_dhcp_relay s)).

Definition check_relay (s : Intents) (vlan : N) : result IntentError unit :=
  guard (negb (match i_svis s !! vlan_ifname vlan with
               | Some svi => bool_decide (is_Some (svi_address svi))
               | None => false
               end))
    (BadDhcpRelay (vlan_ifname vlan) (Msg "the interface must carry an address (the relay's giaddr)" [])).

(** ** Services *)

Definition check_sflow (s : Intents) : result IntentError unit :=
  let per_port_sflow := existsb if_sflow_disabled (btree_values (i_ports s)) in
  guard (negb (sflow_enabled (i_sflow s)) && (sflow_is_set (i_sflow s) || per_port_sflow))
    (BadSflow (Msg "at least one collector is required" [])).

Definition check_snmp (s : Intents) : result IntentError unit :=
  guard (snmp_enabled (i_snmp s) && bool_decide (management_address s = None))
    (BadSnmp (Msg "the management interface must carry an address (the agent listens there only)" [])).

(** ** Routing *)

Definition check_arp_static (s : Intents) (e : string * ArpStatic) : result IntentError unit :=
  match interface_address s (as_interface e.2) with
  | Some (Some _) => Ok tt
  | Some None => Err (BadArp e.1 (Msg "{} has no address (not L3)" [as_interface e.2]))
  | None => Err (BadArp e.1 (Msg "no such L3 interface {:?}" [as_interface e.2]))
  end.

Definition check_ospf (s : Intents) : result IntentError unit :=
  match i_ospf s with
  | None => Ok tt
  | Some ospf =>
      foldM (λ _ name,
        match interface_address s name with
        | Some (Some _) => Ok tt
        | Some None => Err (BadOspf (Msg "interface {} has no address (not L3)" [name]))
        | None => Err (BadOspf (Msg "no such L3 interface {:?}" [name]))
        end) tt (btree_keys (ospf_interfaces ospf) ++ bset_iter (ospf_passive_interfaces ospf))
  end.

Definition check_vip (bad : Reason → IntentError) (interface address : string) (addr : IpAddr) (len : N)
    (vip : string) : result IntentError unit :=
  vip_addr ← ok_or (parse_ip vip) (bad (Msg "bad address {:?}" [vip]));
  guard (negb (is_ipv4 vip_addr) || negb (bool_decide (network vip_addr len = network addr len)))
    (bad (Msg "address {} is outside {}'s subnet {}" [vip; interface; address])).

Definition check_vrrp (s : Intents) (e : (string * N) * VrrpIntent) : result IntentError unit :=
  let '((interface, group), vrrp) := e in
  let bad := BadVrrp interface (to_dec group) in
  address ← match interface_address s interface with
            | Some (Some address) => Ok address
            | _ => Err (bad (Msg "the interface must carry an address" []))
            end;
  '(addr, len) ← match parse_cidr address with
                 | Ok al => Ok al
                 | Err _ => Err (bad (Msg "bad interface address {:?}" [address]))
                 end;
  guard (bool_decide (vr_addresses vrrp = ∅)) (bad (Msg "at least one address (VIP) is required" []));;
  foldM (λ _ vip, check_vip bad interface address addr len vip) tt (bset_iter (vr_addresses vrrp)).

(** ** Channel groups *)

(** The first member and mode of every group, and its size. *)
Definition check_member (st : gmap N (string * LacpMode) * gmap N N) (e : string * InterfaceIntent) :
    result IntentError (gmap N (string * LacpMode) * gmap N N) :=
  let '(group_modes, group_sizes) := st in
  let '(name, port) := e in
  match if_channel_group port with
  | None => Ok st
  | Some cg =>
      guard (bool_decide (is_Some (if_switchport port))) (MemberConfigConflict name (cg_group cg));;
      let group_sizes := <[cg_group cg := wrap 32 (default 0 (group_sizes !! cg_group cg) + 1)]> group_sizes in
      match group_modes !! cg_group cg with
      | Some (first, mode) =>
          if decide (mode = cg_mode cg) then Ok (group_modes, group_sizes)
          else Err (BadChannelGroup name (Msg "mode {} does not match {} ({}) in channel-group {}"
                 [lacp_mode_word (cg_mode cg); first; lacp_mode_word mode; to_dec (cg_group cg)]))
      | None => Ok (<[cg_group cg := (name, cg_mode cg)]> group_modes, group_sizes)
      end
  end.

Definition first_member (s : Intents) (group : N) : string :=
  default "" (find_map (λ e : string * InterfaceIntent,
    if decide (cg_group <$> if_channel_group e.2 = Some group) then Some e.1 else None) (btree_iter (i_ports s))).

Definition check_group_size (s : Intents) (e : N * N) : result IntentError unit :=
  guard (8 <? e.2) (BadChannelGroup (first_member s e.1)
    (Msg "channel-group {} has {} members (max 8)" [to_dec e.1; to_dec e.2])).

Definition check_channel_groups (s : Intents) : result IntentError Intents :=
  '(_, group_sizes) ← foldM check_member (∅, ∅) (btree_iter (i_ports s));
  foldM (λ _ e, check_group_size s e) tt (btree_iter group_sizes);;
  Ok (set_i_warnings (i_warnings s ++
        omap (λ group, if decide (is_Some (group_sizes !! group)) then None
                       else Some (Msg "Port-Channel{} has no member ports" [to_dec group]))
          (btree_keys (i_lags s))) s).

(** ** Mirror sessions *)

Definition claims_rx (d : MirrorDirection) : bool := match d with Rx | Both => true | Tx => false end.
Definition claims_tx (d : MirrorDirection) : bool := match d with Tx | Both => true | Rx => false end.

Definition claim (session : N) (port : string) (wanted : bool) (m : gmap string N) :
    result IntentError (gmap string N) :=
  if wanted then
    match m !! port with
    | Some other =>
        guard (negb (other =? session))
          (BadMirror session (Msg "{} is already a source in session {} for that direction" [port; to_dec other]))
    | None => Ok tt
    end;;
    Ok (<[port := session]> m)
  else Ok m.

Definition check_source (session : N) (st : gmap string N * gmap string N) (e : string * MirrorDirection) :
    result IntentError (gmap string N * gmap string N) :=
  rx ← claim session e.1 (claims_rx e.2) st.1;
  tx ← claim session e.1 (claims_tx e.2) st.2;
  Ok (rx, tx).

Definition check_destination (ports : gmap string InterfaceIntent) (rx tx : gmap string N)
    (warnings : list Reason) (e : N * MirrorIntent) : result IntentError (list Reason) :=
  let '(session, mirror) := e in
  let bad := BadMirror session in
  match mi_destination mirror with
  | None => Ok (warnings ++ [Msg "mirror session {} has no destination" [to_dec session]])
  | Some dest =>
      guard (bool_decide (is_Some (rx !! dest)) || bool_decide (is_Some (tx !! dest)))
        (bad (Msg "destination {} is a mirror source" [dest]));;
      match ports !! dest with
      | None => Ok warnings
      | Some port =>
          match if_channel_group port with
          | Some cg =>
              Err (bad (Msg "destination {} is a member of Port-Channel{}" [dest; to_dec (cg_group cg)]))
          | None =>
              guard (bool_decide (is_Some (if_address port)))
                (bad (Msg "destination {} carries an address" [dest]));;
              Ok warnings
          end
      end
  end.

Definition check_mirror (s : Intents) : result IntentError Intents :=
  '(rx, tx) ← foldM (λ st (e : N * MirrorIntent), foldM (check_source e.1) st (btree_iter (mi_sources e.2)))
                (∅, ∅) (btree_iter (i_mirror s));
  warnings ← foldM (check_destination (i_ports s) rx tx) (i_warnings s) (btree_iter (i_mirror s));
  Ok (set_i_warnings warnings s).

(** ** Access lists, 802.1X, port security *)

Definition port_binding (all : list (string * AccessGroups)) (e : string * InterfaceIntent) :
    result IntentError (list (string * AccessGroups)) :=
  if groups_empty (if_access_groups e.2) then Ok all
  else
    match if_channel_group e.2 with
    | Some cg => Err (AccessGroupOnMember e.1 (cg_group cg))
    | None => Ok (all ++ [(e.1, if_access_groups e.2)])
    end.

Definition lag_bindings (lags : gmap N LagIntent) : list (string * AccessGroups) :=
  omap (λ e : N * LagIntent,
    if groups_empty (lag_access_groups e.2) then None else Some (lag_ifname e.1, lag_access_groups e.2))
    (btree_iter lags).

Definition bound_acls (g : AccessGroups) : list string :=
  option_list (ag_ingress g) ++ option_list (ag_egress g).

Definition check_access_groups (s : Intents) : result IntentError unit :=
  ports ← foldM port_binding [] (btree_iter (i_ports s));
  foldM (λ _ (b : string * AccessGroups),
    foldM (λ _ acl, guard (negb (bool_decide (is_Some (i_acls s !! acl))))
      (BadAccessGroup b.1 (Msg "no such ACL {:?}" [acl]))) tt (bound_acls b.2))
    tt (ports ++ lag_bindings (i_lags s)).

Definition dot1x_ports (s : Intents) : list (string * InterfaceIntent) :=
  filter (λ e, if_dot1x e.2 = true) (btree_iter (i_ports s)).

Definition check_dot1x (s : Intents) : result IntentError unit :=
  guard (negb (bool_decide (dot1x_ports s = []))
         && negb (existsb (λ r, bool_decide (is_Some (rs_key r))) (dx_radius_servers (i_dot1x s))))
    (BadDot1x (Msg "radius-server with key is required" []));;
  foldM (λ _ (e : string * InterfaceIntent),
    match if_channel_group e.2 with
    | Some cg => Err (BadDot1x (Msg "{}: member of Port-Channel{}; dot1x runs on standalone ports"
                                  [e.1; to_dec (cg_group cg)]))
    | None => Ok tt
    end) tt (dot1x_ports s).

Definition mirror_destinations (s : Intents) : gset string :=
  list_to_set (omap mi_destination (btree_values (i_mirror s))).

Definition check_port_security (s : Intents) (e : string * InterfaceIntent) : result IntentError unit :=
  match if_port_security e.2 with
  | None => Ok tt
  | Some _ =>
      match if_channel_group e.2 with
      | Some cg => Err (BadPortSecurity e.1
          (Msg "member of Port-Channel{}; port-security and channel-group are mutually exclusive"
             [to_dec (cg_group cg)]))
      | None =>
          guard (bool_decide (e.1 ∈ mirror_destinations s))
            (BadPortSecurity e.1 (Msg "mirror destinations take no port-security" []))
      end
  end.

(** ** QoS *)

Definition port_qos_target (all : list (string * PortQosIntent)) (e : string * InterfaceIntent) :
    result IntentError (list (string * PortQosIntent)) :=
  match if_qos e.2 with
  | None => Ok all
  | Some q =>
      match if_channel_group e.2 with
      | Some cg => Err (MemberConfigConflict e.1 (cg_group cg))
      | None => Ok (all ++ [(e.1, q)])
      end
  end.

Definition lag_qos_targets (lags : gmap N LagIntent) : list (string * PortQosIntent) :=
  omap (λ e : N * LagIntent, q ← lag_qos e.2; Some (lag_ifname e.1, q)) (btree_iter lags).

Definition check_queue (name : string) (q : PortQosIntent)
    (st : gset N * gmap string (list string)) (e : N * QueueQosIntent) :
    result IntentError (gset N * gmap string (list string)) :=
  let '(strict, refs) := st in
  let '(index, queue) := e in
  let bad := BadQueueQos name (to_dec index) in
  guard (qq_strict queue && bool_decide (is_Some (qq_weight queue)))
    (bad (Msg "strict and weight are mutually exclusive" []));;
  let strict := if qq_strict queue then {[ index ]} ∪ strict else strict in
  match qq_shape queue, pq_shape q with
  | Some queue_rate, Some port_rate =>
      guard (port_rate <? queue_rate) (bad (Msg "shaper {} exceeds the port shaper {}"
        [format_shape_rate queue_rate; format_shape_rate port_rate]))
  | _, _ => Ok tt
  end;;
  Ok (strict, match qq_wred_profile queue with
              | Some profile =>
                  <[profile := default [] (refs !! profile) ++ [name +:+ " (q" +:+ to_dec index +:+ ")"]]> refs
              | None => refs
              end).

Definition QOS_QUEUE_COUNT : N := 8.

(** The queues [top + 1 - n ..= top], with the subtraction at eight bits. *)
Definition top_queues (n : nat) : gset N :=
  let top := QOS_QUEUE_COUNT - 1 in
  list_to_set (inclusive (top + 1 - wrap 8 (N.of_nat n)) top).

Definition check_qos_target (refs : gmap string (list string)) (e : string * PortQosIntent) :
    result IntentError (gmap string (list string)) :=
  '(strict, refs) ← foldM (check_queue e.1 e.2) (∅, refs) (btree_iter (pq_queues e.2));
  guard (negb (bool_decide (strict = ∅)) && negb (bool_decide (strict = top_queues (size strict))))
    StrictQueueOrder;;
  Ok refs.

Definition check_wred (refs : gmap string (list string)) (e : string * WredProfileIntent) :
    result IntentError unit :=
  let bad := BadWredProfile e.1 in
  match wp_min_threshold e.2, wp_max_threshold e.2 with
  | Some min, Some max =>
      guard (max <=? min) (bad (Msg "min-threshold {} must be below max-threshold {}" [to_dec min; to_dec max]))
  | _, _ =>
      guard (bool_decide (is_Some (refs !! e.1)))
        (bad (Msg "min-threshold and max-threshold are required when the profile is referenced" []))
  end.

Definition check_qos (s : Intents) : result IntentError unit :=
  targets ← foldM port_qos_target [] (btree_iter (i_ports s));
  refs ← foldM check_qos_target ∅ (targets ++ lag_qos_targets (i_lags s));
  foldM (λ _ (e : string * list string), guard (negb (bool_decide (is_Some (i_wred_profiles s !! e.1))))
    (BadWredProfile e.1 (Msg "not defined; referenced by {}" [join ", " e.2]))) tt (btree_iter refs);;
  foldM (λ _ e, check_wred refs e) tt (btree_iter (i_wred_profiles s)).

(** ** DHCP snooping and ARP inspection *)

Definition check_inspected (s : Intents) (vlan : N) : result IntentError unit :=
  let ss := i_snoop_sec s in
  guard (negb (bool_decide (vlan ∈ ss_dhcp_vlans ss)
               || existsb (λ k : string * N, k.2 =? vlan) (btree_keys (ss_static_bindings ss))))
    (BadArpInspection (Msg "vlan {} needs dhcp-snooping vlan {} (or a static binding) to validate against"
                         [to_dec vlan; to_dec vlan])).

Definition lag_number (name : string) : option N :=
  d ← strip_prefix_str "Port-Channel" name; parse_uint 16 d.

(** The switchport program of an L2 interface; members follow their
    Port-Channel. *)
Definition switchport_of (s : Intents) (name : string) : option (option SwitchportIntent) :=
  match i_ports s !! name with
  | Some p =>
      Some (match if_channel_group p with
            | Some cg => lag ← i_lags s !! cg_group cg; lag_switchport lag
            | None => if_switchport p
            end)
  | None => group ← lag_number name; lag ← i_lags s !! group; Some (lag_switchport lag)
  end.

Definition carries_vlan (s : Intents) (name : string) (vlan : N) : bool :=
  match switchport_of s name with
  | None => false
  | Some None => vlan =? 1
  | Some (Some sp) =>
      match sp_mode sp with
      | Access | Dot1qTunnel => default 1 (sp_access_vlan sp) =? vlan
      | Trunk => bool_decide (vlan ∈ sp_trunk_vlans sp) || (default 1 (sp_native_vlan sp) =? vlan)
      end
  end.

Definition check_binding (s : Intents) (e : (string * N) * StaticBinding) : result IntentError unit :=
  let '((mac, vlan), b) := e in
  let exists_ := bool_decide (is_Some (i_ports s !! sb_interface b))
                 || match lag_number (sb_interface b) with
                    | Some group => bool_decide (is_Some (i_lags s !! group))
                    | None => false
                    end in
  guard (negb exists_)
    (BadDhcpSnooping (Msg "binding {} vlan {}: no such interface {:?}" [mac; to_dec vlan; sb_interface b]));;
  guard (negb (carries_vlan s (sb_interface b) vlan))
    (BadDhcpSnooping (Msg "binding {} vlan {}: {} does not carry VLAN {}"
                        [mac; to_dec vlan; sb_interface b; to_dec vlan])).

Definition trust_note (s : Intents) (name feature : string) (trusted : bool) (vlans : gset N) : list Reason :=
  if trusted && negb (existsb (carries_vlan s name) (bset_iter vlans)) then
    [Msg "{}: {} trust has no effect (the interface carries no such VLAN)" [name; feature]]
  else [].

Definition trust_notes (s : Intents) : list Reason :=
  let snooped := ss_dhcp_vlans (i_snoop_sec s) in
  let inspected := ss_arp_vlans (i_snoop_sec s) in
  (btree_iter (i_ports s) ≫= λ e : string * InterfaceIntent,
     trust_note s e.1 "dhcp-snooping" (if_dhcp_snooping_trust e.2) snooped
     ++ trust_note s e.1 "arp-inspection" (if_arp_inspection_trust e.2) inspected)
  ++ (btree_iter (i_lags s) ≫= λ e : N * LagIntent,
     trust_note s (lag_ifname e.1) "dhcp-snooping" (lag_dhcp_snooping_trust e.2) snooped
     ++ trust_note s (lag_ifname e.1) "arp-inspection" (lag_arp_inspection_trust e.2) inspected).

(** ** All of them, in order *)

Definition finish_validation (s : Intents) : result IntentError Intents :=
  validate_dhcp_pools s;;
  foldM (λ _ vlan, check_relay s vlan) tt (btree_keys (i_dhcp_relay s));;
  check_sflow s;;
  check_snmp s;;
  foldM (λ _ e, check_arp_static s e) tt (btree_iter (i_arp_statics s));;
  check_ospf s;;
  foldM (λ _ e, check_vrrp s e) tt (btree_iter (i_vrrp s));;
  s ← check_channel_groups s;
  s ← check_mirror s;
  check_access_groups s;;
  check_dot1x s;;
  check_qos s;;
  foldM (λ _ e, check_port_security s e) tt (btree_iter (i_ports s));;
  foldM (λ _ vlan, check_inspected s vlan) tt (bset_iter (ss_arp_vlans (i_snoop_sec s)));;
  foldM (λ _ e, check_binding s e) tt (btree_iter (ss_static_bindings (i_snoop_sec s)));;
  Ok (set_i_warnings (i_warnings s ++ trust_notes s) s).

(** ** Interfaces *)

Inductive Kind := KPort | KManagement | KVlan | KLag.

#[export] Instance Kind_eq_dec : EqDecision Kind.
Proof. solve_decision. Defined.

(** Legacy keyed blocks, then the name of the block. *)
Definition interface_kind (name : string) (keys : list string) : result IntentError (Kind * string) :=
  match keys with
  | [key] =>
      if says name "ethernet" then Ok (KPort, key)
      else if says name "management" then Ok (KManagement, key)
      else Err (BadInterfaceBlock (Msg "unrecognized interface block {:?}" [name]))
  | _ =>
      if says name "ethernet" || says name "management" then
        Err (BadInterfaceBlock (Msg "{} block needs exactly one name key" [name]))
      else if bool_decide (keys = []) && starts_with "Management" name then Ok (KManagement, name)
      else if bool_decide (keys = []) && starts_with "Ethernet" name then Ok (KPort, name)
      else if bool_decide (keys = []) && starts_with "Vlan" name then Ok (KVlan, name)
      else if bool_decide (keys = []) && starts_with "Port-Channel" name then Ok (KLag, name)
      else Err (BadInterfaceBlock (Msg "unrecognized interface block {:?}" [name]))
  end.

Definition has_block (children : list Item) (name : string) : bool :=
  bool_decide (is_Some (head (blocks_named children name))).

Definition port_interface (s : Intents) (ifname : string) (admin_up : option bool) (address : option string)
    (children : list Item) : result IntentError Intents :=
  sp ← switchport children ifname;
  guard (bool_decide (is_Some sp) && bool_decide (is_Some address)) (AddressSwitchportConflict ifname);;
  cg ← channel_group children ifname;
  guard (bool_decide (is_Some cg) && bool_decide (is_Some address)) (AddressChannelGroupConflict ifname);;
  lacp ← port_lacp children ifname;
  stp ← port_stp children ifname;
  storm ← storm_control children ifname;
  groups ← access_groups children ifname;
  psec ← port_security children ifname;
  let dot1x := has_leaf children "dot1x" in
  qos ← port_qos children ifname;
  lldp_disabled ← port_lldp children ifname;
  sflow_disabled ← port_service_disable children ifname "sflow";
  mbps ← speed children ifname;
  dpx ← duplex children ifname;
  m ← mtu children ifname;
  no_dhcp_relay children ifname;;
  guard (dot1x && bool_decide (is_Some psec))
    (BadPortSecurity ifname (Msg "port-security and dot1x are mutually exclusive" []));;
  if decide (is_Some (i_ports s !! ifname)) then Err (Duplicate ifname)
  else Ok (set_i_ports (<[ifname :=
    mkInterfaceIntent admin_up (leaf_value children "description") address sp cg lacp stp storm groups psec dot1x
      (has_phrase children "dhcp-snooping" "trust") (has_phrase children "arp-inspection" "trust") qos
      lldp_disabled sflow_disabled mbps dpx m]> (i_ports s)) s).

Definition lag_interface (s : Intents) (ifname : string) (admin_up : option bool) (address : option string)
    (children : list Item) : result IntentError Intents :=
  group ← ok_or (n ← lag_number ifname; if (1 <=? n) && (n <=? 64) then Some n else None)
    (BadInterfaceBlock (Msg "bad port-channel name {:?} (Port-Channel1..Port-Channel64)" [ifname]));
  guard (bool_decide (is_Some address))
    (BadLag ifname (Msg "port-channels are L2 interfaces (no address)" []));;
  guard (bool_decide (is_Some (leaf_values children "channel-group")))
    (BadLag ifname (Msg "a port-channel cannot join a channel-group" []));;
  guard (has_leaf children "dot1x") (BadDot1x (Msg "{}: dot1x runs on physical ports only" [ifname]));;
  no_port_services children ifname;;
  guard (has_block children "port-security")
    (BadPortSecurity ifname (Msg "port-security runs on physical ports only" []));;
  no_link_pinning children ifname "port-channel interfaces";;
  guard (has_leaf children "mtu")
    (BadLinkParam ifname (Msg "mtu follows the member ports; set it on those" []));;
  no_dhcp_relay children ifname;;
  sp ← switchport children ifname;
  min_links ← lag_min_links_of children ifname;
  fallback ← lag_fallback_of children ifname;
  timeout ← lag_fallback_timeout_of children ifname;
  stp ← port_stp children ifname;
  storm ← storm_control children ifname;
  groups ← access_groups children ifname;
  qos ← port_qos children ifname;
  if decide (is_Some (i_lags s !! group)) then Err (Duplicate ifname)
  else Ok (set_i_lags (<[group :=
    mkLagIntent admin_up (leaf_value children "description") sp min_links fallback timeout stp storm groups
      (has_phrase children "dhcp-snooping" "trust") (has_phrase children "arp-inspection" "trust") qos]>
      (i_lags s)) s).

Definition mgmt_interface (s : Intents) (ifname : string) (admin_up : option bool) (address : option string)
    (children : list Item) : result IntentError Intents :=
  guard (has_block children "qos")
    (BadPortQos ifname (Msg "QoS is a front-panel concept (not supported on Management)" []));;
  foldM (λ _ (b : string * string), guard (has_block children b.1)
    (BadSwitchport ifname (Msg "management ports are not {}" [b.2]))) tt
    [("switchport", "switchports"); ("spanning-tree", "spanning-tree ports");
     ("storm-control", "storm-control ports"); ("lacp", "LACP ports")];;
  guard (bool_decide (is_Some (leaf_values children "channel-group")))
    (BadChannelGroup ifname (Msg "management ports cannot join a channel-group" []));;
  guard (has_block children "port-security")
    (BadPortSecurity ifname (Msg "port-security is not supported on Management" []));;
  guard (has_leaf children "dot1x") (BadDot1x (Msg "{}: dot1x is not supported on Management" [ifname]));;
  no_port_services children ifname;;
  guard (has_leaf children "access-group")
    (BadAccessGroup ifname (Msg "management ports take no ACL bindings" []));;
  no_link_pinning children ifname "management ports";;
  no_dhcp_relay children ifname;;
  m ← mtu children ifname;
  if decide (is_Some (i_management s !! ifname)) then Err (Duplicate ifname)
  else Ok (set_i_management (<[ifname := mkMgmtIntent admin_up address m]> (i_management s)) s).

Definition svi_interface (s : Intents) (ifname : string) (address : option string) (children : list Item) :
    result IntentError Intents :=
  id ← ok_or (d ← strip_prefix_str "Vlan" ifname; n ← parse_uint 16 d;
              if (1 <=? n) && (n <=? 4094) then Some n else None)
    (BadInterfaceBlock (Msg "bad VLAN interface name {:?} (Vlan1..Vlan4094)" [ifname]));
  guard (has_block children "switchport")
    (BadSwitchport ifname (Msg "VLAN interfaces are not switchports" []));;
  guard (has_block children "qos") (BadPortQos ifname
    (Msg "QoS is a front-panel concept; classification happens at the physical port" []));;
  guard (bool_decide (is_Some address) && negb (id =? 1) && negb (bool_decide (is_Some (i_vlans s !! id))))
    (BadInterfaceBlock (Msg "{}: VLAN {} is not defined (set vlans vlan {})" [ifname; to_dec id; to_dec id]));;
  no_link_pinning children ifname "VLAN interfaces";;
  no_port_services children ifname;;
  relay ← dhcp_relay_servers children ifname;
  let s := if decide (relay = []) then s else set_i_dhcp_relay (<[id := relay]> (i_dhcp_relay s)) s in
  m ← mtu children ifname;
  if decide (is_Some (i_svis s !! ifname)) then Err (Duplicate ifname)
  else Ok (set_i_svis (<[ifname := mkSviIntent address m]> (i_svis s)) s).

Definition interface_address_leaf (children : list Item) (ifname : string) : result IntentError (option string) :=
  match leaf_value children "address" with
  | Some value => net (IBadAddress ifname) (parse_cidr value);; Ok (Some value)
  | None => Ok None
  end.

Definition add_vrrp (kind : Kind) (ifname : string) (s : Intents) (g : N * VrrpIntent) : result IntentError Intents :=
  guard (bool_decide (kind = KManagement) || bool_decide (kind = KLag))
    (BadVrrp ifname (to_dec g.1) (Msg "vrrp runs on L3 ports and SVIs only" []));;
  Ok (set_i_vrrp (<[(ifname, g.1) := g.2]> (i_vrrp s)) s).

Definition interface_block (s : Intents) (i : Item) : result IntentError Intents :=
  match i with
  | Leaf _ _ => Ok s
  | Block name keys children =>
      '(kind, ifname) ← interface_kind name keys;
      admin_up ← admin_state children ifname;
      address ← interface_address_leaf children ifname;
      groups ← vrrp_groups children ifname;
      s ← foldM (add_vrrp kind ifname) s groups;
      match kind with
      | KPort => port_interface s ifname admin_up address children
      | KLag => lag_interface s ifname admin_up address children
      | KManagement => mgmt_interface s ifname admin_up address children
      | KVlan => svi_interface s ifname address children
      end
  end.

(** ** The extraction *)

Definition extract (db : option (gset string)) (t : ConfigTree) : result IntentError Intents :=
  ssh_intent ← ssh t;
  vs ← vlans t;
  let s := set_i_vlans vs (set_i_web (web t) (set_i_ssh ssh_intent default_intents)) in
  s ← system db t s;
  s ← routing t s;
  s ← protocols t s;
  s ← switching t s;
  s ← security t s;
  s ← services t s;
  s ← qos t s;
  match block t "interfaces" with
  | None => finish_validation s
  | Some (_, its) => s ← foldM interface_block s its; finish_validation s
  end.
