(* ===== verification/IntentSound.v ===== *)
(** * What an accepted configuration guarantees

    The facts that hold of the intents [extract] returns.  The appliers and
    the switch daemon rely on them without checking again. *)

From Stdlib Require Import Ascii NArith Lia.
From stdpp Require Import base tactics list strings option gmap sorting.
From S2P Require Import Prelude Text ConfigTree Net Role.
From S2P Require Import IntentTypes IntentPorts IntentSecurity IntentSystem IntentRouting IntentServices IntentExtract.

Local Open Scope N_scope.

(** ** Prefixes *)

(** [in_subnet] compares the leading [len] bits. *)
Lemma in_subnet_spec a b len :
  in_subnet a b len = true ↔ ∀ i, 32 - N.min len 32 ≤ i < 32 → N.testbit a i = N.testbit b i.
Proof.
  unfold in_subnet. destruct (N.eqb_spec len 0) as [->|Hne].
  { split; [|done]. intros _ i Hi. lia. }
  assert (wrap 32 (N.shiftl (2 ^ 32 - 1) (32 - N.min len 32)) = mask 32 (N.min len 32)) as ->.
  { unfold mask. destruct (N.eqb_spec (N.min len 32) 0); [lia|done]. }
  rewrite N.eqb_eq. split.
  - intros H i Hi. apply (f_equal (λ n, N.testbit n i)) in H. rewrite !N.land_spec, mask_spec in H by lia.
    destruct (N.leb_spec (32 - N.min len 32) i); [|lia]. destruct (N.ltb_spec i 32); [|lia].
    by rewrite !andb_true_r in H.
  - intros H. apply N.bits_inj. intros i. rewrite !N.land_spec, mask_spec by lia.
    destruct (N.leb_spec (32 - N.min len 32) i); [|by rewrite !andb_false_r].
    destruct (N.ltb_spec i 32); [|by rewrite !andb_false_r]. by rewrite H.
Qed.

(** The overlap test is exact: two prefixes overlap when some address is in
    both. *)
Lemma subnets_overlap_spec l r :
  subnets_overlap l r = true ↔ ∃ a, in_subnet a l.1 l.2 = true ∧ in_subnet a r.1 r.2 = true.
Proof.
  unfold subnets_overlap. rewrite orb_true_iff, !in_subnet_spec. split.
  - intros [H|H]; [exists r.1|exists l.1]; by rewrite !in_subnet_spec.
  - intros (a & Hl & Hr). rewrite in_subnet_spec in Hl, Hr.
    destruct (N.le_ge_cases l.2 r.2); [left|right]; intros i Hi; rewrite <-Hl, <-Hr by lia; done.
Qed.

(** ** DHCP pools *)

Record pool_ok (p : DhcpPoolIntent) (sub : N * N) : Prop := {
  pool_subnet : subnet p = Some sub;
  pool_range : ∃ start end_, dp_range p = Some (start, end_)
    ∧ in_subnet start sub.1 sub.2 = true ∧ in_subnet end_ sub.1 sub.2 = true;
  pool_gateway : ∃ gw, dp_default_gateway p = Some gw ∧ in_subnet gw sub.1 sub.2 = true;
  pool_reservations : ∀ mac a, dp_reservations p !! mac = Some a → in_subnet a sub.1 sub.2 = true;
}.

(** What the loop knows after the pools [don]. *)
Record pools_seen (don : list (string * DhcpPoolIntent))
    (st : gmap string string * list (string * (N * N))) : Prop := {
  seen_pool n p : (n, p) ∈ don → ∃ sub, pool_ok p sub ∧ (n, sub) ∈ st.2;
  seen_mac n p mac : (n, p) ∈ don → is_Some (dp_reservations p !! mac) → st.1 !! mac = Some n;
  seen_apart n1 p1 n2 p2 s1 s2 : (n1, p1) ∈ don → (n2, p2) ∈ don → n1 ≠ n2 →
    subnet p1 = Some s1 → subnet p2 = Some s2 → subnets_overlap s1 s2 = false;
  seen_once n1 p1 n2 p2 mac : (n1, p1) ∈ don → (n2, p2) ∈ don → is_Some (dp_reservations p1 !! mac) →
    is_Some (dp_reservations p2 !! mac) → n1 = n2;
}.

Lemma subnets_overlap_comm l r : subnets_overlap l r = subnets_overlap r l.
Proof. unfold subnets_overlap. apply orb_comm. Qed.

(** The reservations of one pool. *)
Lemma reservations_loop name (bad : Reason → IntentError) net_text sub (res : gmap string N) reserved reserved' :
  foldM (λ (reserved : gmap string string) (r : string * N),
    guard (negb (in_subnet r.2 sub.1 sub.2))
      (bad (Msg "reservation {} address {} is outside {}" [r.1; show_v4 r.2; net_text]));;
    match reserved !! r.1 with
    | Some other =>
        guard (negb (says other name)) (bad (Msg "reservation {} is already reserved in pool {}" [r.1; other]))
    | None => Ok tt
    end;;
    Ok (<[r.1 := name]> reserved)) reserved (btree_iter res) = Ok reserved' →
  (∀ mac a, res !! mac = Some a → in_subnet a sub.1 sub.2 = true
     ∧ reserved' !! mac = Some name ∧ ∀ other, reserved !! mac = Some other → other = name)
  ∧ ∀ mac, res !! mac = None → reserved' !! mac = reserved !! mac.
Proof.
  intros H. apply (foldM_inv (λ don (m : gmap string string),
    (∀ mac a, (mac, a) ∈ don → in_subnet a sub.1 sub.2 = true ∧ m !! mac = Some name
       ∧ ∀ other, reserved !! mac = Some other → other = name)
    ∧ ∀ mac, mac ∉ don.*1 → m !! mac = reserved !! mac)) in H as [H1 H2].
  - split; [intros mac a Ha; apply H1; by apply elem_of_btree_iter|].
    intros mac Hn. apply H2. intros Hin. apply elem_of_btree_keys in Hin as [? ?]. congruence.
  - split; [by intros ? ? ?%elem_of_nil|done].
  - intros don [mac a] m m' [IH1 IH2] _ Hstep. cbn in Hstep.
    apply bind_ok in Hstep as ([] & Hin%guard_ok%negb_false_iff & Hstep).
    apply bind_ok in Hstep as ([] & Hown & [= <-]).
    assert (∀ other, m !! mac = Some other → other = name) as Ho.
    { intros other Ho. rewrite Ho in Hown. apply guard_ok, negb_false_iff, bool_decide_eq_true in Hown. done. }
    split.
    + intros mac' a' [Hd|Heq%list_elem_of_singleton]%elem_of_app.
      * destruct (IH1 _ _ Hd) as (? & Hm & ?). split_and!; [done| |done].
        destruct (decide (mac = mac')) as [->|]; [by rewrite lookup_insert_eq|by rewrite lookup_insert_ne].
      * injection Heq as -> ->. split_and!; [done|by rewrite lookup_insert_eq|].
        intros other Hr. destruct (decide (mac ∈ don.*1)) as [Hd|Hd]; [|apply Ho; by rewrite IH2].
        apply list_elem_of_fmap in Hd as ([? a''] & -> & Hd). by eapply IH1.
    + intros mac' Hn. rewrite fmap_app in Hn. cbn in Hn. apply not_elem_of_app in Hn as [Hn Hne].
      rewrite lookup_insert_ne by set_solver. by apply IH2.
Qed.

Lemma check_pool_ok don st n p st' :
  pools_seen don st → check_pool st (n, p) = Ok st' → pools_seen (don ++ [(n, p)]) st'.
Proof.
  destruct st as [reserved subnets]. intros Hseen H. unfold check_pool in H.
  apply bind_ok in H as (sub & Hsub%ok_or_ok & H).
  apply bind_ok in H as ([start end_] & Hr%ok_or_ok & H).
  apply bind_ok in H as (gw & Hgw%ok_or_ok & H).
  apply bind_ok in H as ([] & Hrange & H).
  apply bind_ok in H as ([] & Hgwin%guard_ok%negb_false_iff & H).
  apply bind_ok in H as (reserved' & Hres & H).
  apply bind_ok in H as ([] & Hover & [= <-]).
  pose proof (foldM_checks _ _ _ Hrange) as Hr'. pose proof (foldM_checks _ _ _ Hover) as Ho.
  apply reservations_loop in Hres as [Hin Hout].
  assert (pool_ok p sub) as Hok.
  { split; [done| |by exists gw|intros mac a Ha; by apply (Hin mac)].
    exists start, end_. split; [done|]. unfold check_range in Hr'.
    split; apply negb_false_iff, (guard_ok _ (BadDhcpPool n (Msg "" [])) tt).
    - specialize (Hr' ("range start", start) ltac:(set_solver)). cbn in Hr'. by apply guard_ok in Hr' as ->.
    - specialize (Hr' ("range end", end_) ltac:(set_solver)). cbn in Hr'. by apply guard_ok in Hr' as ->. }
  destruct Hseen as [S1 S2 S3 S4].
  assert (∀ n1 p1 s1, (n1, p1) ∈ don → subnet p1 = Some s1 → subnets_overlap sub s1 = false) as Hap.
  { intros n1 p1 s1 H1 Hs1. destruct (S1 _ _ H1) as (s1' & [Hs1' _ _ _] & Hl). simplify_eq.
    specialize (Ho _ Hl). by apply guard_ok in Ho. }
  assert (∀ n1 p1 mac, (n1, p1) ∈ don → is_Some (dp_reservations p1 !! mac) →
    is_Some (dp_reservations p !! mac) → n1 = n) as Hown.
  { intros n1 p1 mac H1 Hm1 [a Ha]. destruct (Hin _ _ Ha) as (_ & _ & Hp). apply Hp. by eapply S2. }
  split; cbn [fst snd].
  - intros n1 p1 [H1|[= -> ->]%list_elem_of_singleton]%elem_of_app; [|exists sub; set_solver].
    destruct (S1 _ _ H1) as (s1 & ? & ?). exists s1. set_solver.
  - intros n1 p1 mac [H1|[= -> ->]%list_elem_of_singleton]%elem_of_app Hm.
    + destruct (dp_reservations p !! mac) as [a|] eqn:Ha.
      * rewrite (Hown n1 p1 mac) by eauto. by apply (Hin mac a).
      * rewrite Hout by done. by eapply S2.
    + destruct Hm as [a Ha]. by apply (Hin mac a).
  - intros n1 p1 n2 p2 s1 s2 [H1|[= -> ->]%list_elem_of_singleton]%elem_of_app
      [H2|[= -> ->]%list_elem_of_singleton]%elem_of_app Hne E1 E2; simplify_eq.
    + by apply (S3 n1 p1 n2 p2).
    + rewrite subnets_overlap_comm. by apply (Hap n1 p1).
    + by apply (Hap n2 p2).
  - intros n1 p1 n2 p2 mac [H1|[= -> ->]%list_elem_of_singleton]%elem_of_app
      [H2|[= -> ->]%list_elem_of_singleton]%elem_of_app M1 M2; [by apply (S4 n1 p1 n2 p2 mac)|by apply (Hown n1 p1 mac)| |done].
    symmetry. by apply (Hown n2 p2 mac).
Qed.

(** Every pool is complete and inside its network, no address is served by
    two pools and no client is reserved in two. *)
Record pools_ok (pools : gmap string DhcpPoolIntent) : Prop := {
  pools_complete n p : pools !! n = Some p → ∃ sub, pool_ok p sub;
  pools_apart n1 p1 n2 p2 s1 s2 a : pools !! n1 = Some p1 → pools !! n2 = Some p2 → n1 ≠ n2 →
    subnet p1 = Some s1 → subnet p2 = Some s2 →
    ¬ (in_subnet a s1.1 s1.2 = true ∧ in_subnet a s2.1 s2.2 = true);
  pools_once n1 p1 n2 p2 mac : pools !! n1 = Some p1 → pools !! n2 = Some p2 →
    is_Some (dp_reservations p1 !! mac) → is_Some (dp_reservations p2 !! mac) → n1 = n2;
}.

(** A VLAN that relays has an addressed SVI, outside every pool. *)
Definition relays_ok (s : Intents) : Prop :=
  ∀ vlan, is_Some (i_dhcp_relay s !! vlan) →
    ∃ svi text, i_svis s !! vlan_ifname vlan = Some svi ∧ svi_address svi = Some text
    ∧ ∀ address len n p sub, parse_cidr text = Ok (V4 address, len) → i_dhcp_server s !! n = Some p →
        subnet p = Some sub → in_subnet address sub.1 sub.2 = false.

Lemma validate_dhcp_pools_ok s :
  validate_dhcp_pools s = Ok tt → pools_ok (i_dhcp_server s)
  ∧ ∀ vlan, is_Some (i_dhcp_relay s !! vlan) → check_relay_pools s vlan = Ok tt.
Proof.
  intros (st & Hp & Hr)%bind_ok. split.
  - apply (foldM_inv pools_seen) in Hp as [S1 S2 S3 S4].
    + split.
      * intros n p Hn. destruct (S1 n p) as (sub & ? & _); [by apply elem_of_btree_iter|eauto].
      * intros n1 p1 n2 p2 s1 s2 a H1 H2 Hne E1 E2 Ha.
        assert (subnets_overlap s1 s2 = false) as Hno.
        { apply (S3 n1 p1 n2 p2); [by apply elem_of_btree_iter|by apply elem_of_btree_iter|done..]. }
        rewrite (proj2 (subnets_overlap_spec s1 s2)) in Hno; [done|by exists a].
      * intros n1 p1 n2 p2 mac H1 H2. apply S4; by apply elem_of_btree_iter.
    + split; by intros * ?%elem_of_nil.
    + intros don [n p] b b' Hb _. by apply check_pool_ok.
  - intros vlan Hv. apply (foldM_checks _ _ _ Hr). by apply elem_of_btree_keys.
Qed.

Lemma relays_ok_intro s :
  (∀ vlan, is_Some (i_dhcp_relay s !! vlan) → check_relay_pools s vlan = Ok tt ∧ check_relay s vlan = Ok tt) →
  relays_ok s.
Proof.
  intros H vlan Hv. destruct (H vlan Hv) as [Hp Hr]. apply guard_ok, negb_false_iff in Hr.
  destruct (i_svis s !! vlan_ifname vlan) as [svi|] eqn:Es; [|done].
  apply bool_decide_eq_true in Hr as [text Ht]. exists svi, text. split_and!; [done..|].
  intros address len n p sub Hc Hn Hs. unfold check_relay_pools in Hp. rewrite Es in Hp. cbn in Hp.
  rewrite Ht, Hc in Hp. pose proof (foldM_checks _ _ _ Hp (n, p)) as Hg. cbn in Hg.
  rewrite Hs in Hg. destruct sub as [b l]. eapply guard_ok, Hg. by apply elem_of_btree_iter.
Qed.

(** ** Channel groups *)

Definition member_of (p : InterfaceIntent) (g : N) : Prop := cg_group <$> if_channel_group p = Some g.

#[local] Instance member_of_dec p g : Decision (member_of p g).
Proof. unfold member_of. apply _. Defined.

Definition members (l : list (string * InterfaceIntent)) (g : N) : list (string * InterfaceIntent) :=
  filter (λ e, member_of e.2 g) l.

Record groups_seen (don : list (string * InterfaceIntent)) (st : gmap N (string * LacpMode) * gmap N N) : Prop := {
  seen_mode n p cg : (n, p) ∈ don → if_channel_group p = Some cg →
    if_switchport p = None ∧ ∃ first, st.1 !! cg_group cg = Some (first, cg_mode cg);
  seen_size g : st.2 !! g = (if decide (members don g = []) then None
                             else Some (wrap 32 (N.of_nat (length (members don g)))));
}.

Lemma wrap_succ w n : wrap w (wrap w n + 1) = wrap w (n + 1).
Proof. unfold wrap. apply N.Div0.add_mod_idemp_l. Qed.

Lemma member_of_none p g : if_channel_group p = None → ¬ member_of p g.
Proof. unfold member_of. by intros ->. Qed.

Lemma member_of_some p cg g : if_channel_group p = Some cg → member_of p g ↔ cg_group cg = g.
Proof. unfold member_of. intros ->. cbn. split; congruence. Qed.

Lemma members_snoc don e g :
  members (don ++ [e]) g = members don g ++ if decide (member_of e.2 g) then [e] else [].
Proof. unfold members. rewrite filter_app. done. Qed.

Lemma check_member_ok don st n p st' :
  groups_seen don st → check_member st (n, p) = Ok st' → groups_seen (don ++ [(n, p)]) st'.
Proof.
  destruct st as [modes sizes]. intros [S1 S2]. unfold check_member. cbn [fst snd] in *.
  destruct (if_channel_group p) as [cg|] eqn:Ecg.
  2: { intros [= <-]. split.
    - intros n' p' cg' [Hd|[= -> ->]%list_elem_of_singleton]%elem_of_app Hc; [by eapply S1|congruence].
    - intros g. rewrite members_snoc, (decide_False (P:=member_of _ _)) by (by apply member_of_none).
      by rewrite app_nil_r, S2. }
  intros ([] & Hsp%guard_ok%bool_decide_eq_false & H)%bind_ok. apply eq_None_not_Some in Hsp.
  set (sizes' := <[cg_group cg := _]> sizes) in H.
  assert (∀ g, sizes' !! g = if decide (members (don ++ [(n, p)]) g = []) then None
    else Some (wrap 32 (N.of_nat (length (members (don ++ [(n, p)]) g))))) as Hsz.
  { intros g. rewrite members_snoc.
    pose proof (member_of_some p cg g Ecg) as Hmem.
    unfold sizes'. destruct (decide (cg_group cg = g)) as [Heq|Hne].
    - rewrite Heq, lookup_insert_eq, (decide_True (P:=member_of _ _) _ _ (proj2 Hmem Heq)).
      rewrite decide_False by (intros [_ ?]%app_eq_nil; done).
      rewrite length_app, S2. cbn [length]. f_equal. case_decide as Hd.
      + by rewrite Hd.
      + unfold default, from_option, id. rewrite wrap_succ. f_equal. lia.
    - rewrite lookup_insert_ne by done. rewrite (decide_False (P:=member_of _ _)) by tauto.
      by rewrite app_nil_r, S2. }
  assert (∃ modes', st' = (modes', sizes') ∧ (∃ first, modes' !! cg_group cg = Some (first, cg_mode cg))
    ∧ ∀ g v, modes !! g = Some v → modes' !! g = Some v) as (modes' & -> & Hcg & Hkeep).
  { destruct (modes !! cg_group cg) as [[first mode]|] eqn:Em.
    - case_decide; [|done]. injection H as <-. subst mode. eauto 10.
    - injection H as <-. eexists. split_and!; [done|exists n; by rewrite lookup_insert_eq|].
      intros g v Hg. rewrite lookup_insert_ne; [done|congruence]. }
  split; [|done]. intros n' p' cg' [Hd|[= -> ->]%list_elem_of_singleton]%elem_of_app Hc.
  - destruct (S1 _ _ _ Hd Hc) as (? & first & Hf). split; [done|]. exists first. by apply Hkeep.
  - simplify_eq. done.
Qed.

(** Members of a group run one mode, are at most eight and carry no
    switchport of their own. *)
Record lags_ok (s : Intents) : Prop := {
  lag_plain n p : i_ports s !! n = Some p → is_Some (if_channel_group p) → if_switchport p = None;
  lag_mode n1 p1 n2 p2 cg1 cg2 : i_ports s !! n1 = Some p1 → i_ports s !! n2 = Some p2 →
    if_channel_group p1 = Some cg1 → if_channel_group p2 = Some cg2 → cg_group cg1 = cg_group cg2 →
    cg_mode cg1 = cg_mode cg2;
  lag_size g : (length (members (btree_iter (i_ports s)) g) ≤ 8)%nat;
}.

Lemma check_channel_groups_ok s s' :
  fits 32 (N.of_nat (size (i_ports s))) → check_channel_groups s = Ok s' →
  lags_ok s ∧ ∃ w, s' = set_i_warnings w s.
Proof.
  intros Hfit ([modes sizes] & Hm & H)%bind_ok. cbn in H. apply bind_ok in H as ([] & Hs & [= <-]).
  split; [|by eexists].
  apply (foldM_inv groups_seen) in Hm as [S1 S2].
  2: { split; [by intros * ?%elem_of_nil|done]. }
  2: { intros don [n p] b b' Hb _. by apply check_member_ok. }
  split.
  - intros n p Hp [cg Hcg]. eapply S1; [by apply elem_of_btree_iter|done].
  - intros n1 p1 n2 p2 cg1 cg2 H1 H2 C1 C2 Hg.
    destruct (S1 n1 p1 cg1) as (_ & f1 & E1); [by apply elem_of_btree_iter|done|].
    destruct (S1 n2 p2 cg2) as (_ & f2 & E2); [by apply elem_of_btree_iter|done|].
    cbn in *. congruence.
  - intros g. specialize (S2 g). cbn in S2. case_decide as Hd; [rewrite Hd; cbn; lia|].
    assert (length (members (btree_iter (i_ports s)) g) ≤ size (i_ports s))%nat as Hle.
    { unfold members. etransitivity; [apply length_filter|]. by rewrite btree_iter_permutation, length_map_to_list. }
    rewrite wrap_id in S2 by (unfold fits in *; lia).
    pose proof (foldM_checks _ _ _ Hs (g, _) (proj2 (elem_of_btree_iter _ _ _) S2)) as Hg.
    apply guard_ok, N.ltb_ge in Hg. cbn in Hg. lia.
Qed.

(** ** Loops *)

(** A loop over loops is a loop over the pairs. *)
Lemma foldM_nested {E A B C} (f : B → A → C → result E A) (g : B → list C) l a :
  foldM (λ a b, foldM (f b) a (g b)) a l
  = foldM (λ a (p : B * C), f p.1 a p.2) a (l ≫= λ b, (b,.) <$> g b).
Proof.
  revert a. induction l as [|b l IH]; intros a; [done|]. cbn.
  assert (∀ cs a, (foldM (f b) a cs ≫= λ a', foldM (λ a b, foldM (f b) a (g b)) a' l)
    = foldM (λ a (p : B * C), f p.1 a p.2) a (((b,.) <$> cs) ++ (l ≫= λ b, (b,.) <$> g b))) as Hin.
  { clear a. induction cs as [|c cs IHc]; intros a; cbn; [apply IH|].
    destruct (f b a c); cbn; [apply IHc|done]. }
  apply Hin.
Qed.

(** A loop that appends what each element contributes. *)
Lemma foldM_collect {E A B} (f : list A → B → result E (list A)) (Q : B → list A → Prop) l a a' :
  (∀ acc x acc', f acc x = Ok acc' → ∃ ys, acc' = acc ++ ys ∧ Q x ys) →
  foldM f a l = Ok a' → ∀ x, x ∈ l → ∃ ys, Q x ys ∧ ys ⊆ a'.
Proof.
  intros Hf. apply (foldM_inv (λ don acc, ∀ x, x ∈ don → ∃ ys, Q x ys ∧ ys ⊆ acc)).
  - by intros x ?%elem_of_nil.
  - intros don x b b' IH _ (ys & -> & HQ)%Hf y [Hy|Hy]%elem_of_app.
    + destruct (IH y Hy) as (zs & ? & ?). exists zs. set_solver.
    + apply list_elem_of_singleton in Hy as ->. exists ys. set_solver.
Qed.

(** ** Mirror sessions *)

Record mirrors_ok (s : Intents) : Prop := {
  mirror_once s1 m1 s2 m2 port d1 d2 :
    i_mirror s !! s1 = Some m1 → i_mirror s !! s2 = Some m2 →
    mi_sources m1 !! port = Some d1 → mi_sources m2 !! port = Some d2 →
    claims_rx d1 && claims_rx d2 || claims_tx d1 && claims_tx d2 = true → s1 = s2;
  mirror_sink s1 m1 dest s2 m2 : i_mirror s !! s1 = Some m1 → mi_destination m1 = Some dest →
    i_mirror s !! s2 = Some m2 → mi_sources m2 !! dest = None;
  mirror_plain s1 m1 dest p : i_mirror s !! s1 = Some m1 → mi_destination m1 = Some dest →
    i_ports s !! dest = Some p → if_channel_group p = None ∧ if_address p = None;
}.

(** Which session watches each port, per direction. *)
Definition sources_seen (don : list ((N * MirrorIntent) * (string * MirrorDirection)))
    (st : gmap string N * gmap string N) : Prop :=
  ∀ e port d, (e, (port, d)) ∈ don →
    (claims_rx d = true → st.1 !! port = Some e.1) ∧ (claims_tx d = true → st.2 !! port = Some e.1).

Lemma claim_ok session port wanted m m' :
  claim session port wanted m = Ok m' →
  (wanted = true → m' !! port = Some session) ∧ ∀ q other, m !! q = Some other → m' !! q = Some other.
Proof.
  unfold claim. destruct wanted; [|by intros [= <-]]. intros ([] & Hg & [= <-])%bind_ok.
  split; [by rewrite lookup_insert_eq|]. intros q other Hq.
  destruct (decide (port = q)) as [->|]; [|by rewrite lookup_insert_ne].
  rewrite Hq in Hg. apply guard_ok, negb_false_iff, N.eqb_eq in Hg as ->. by rewrite lookup_insert_eq.
Qed.

Lemma check_source_ok don e x st st' :
  sources_seen don st → check_source e.1 st x = Ok st' → sources_seen (don ++ [(e, x)]) st'.
Proof.
  destruct x as [port d]. intros IH. unfold check_source. cbn.
  intros (rx & Hrx & (tx & Htx & [= <-])%bind_ok)%bind_ok.
  apply claim_ok in Hrx as [R1 R2], Htx as [T1 T2].
  intros e' port' d' [Hd|[= -> -> ->]%list_elem_of_singleton]%elem_of_app; [|done].
  destruct (IH _ _ _ Hd) as [Ha Hb]. cbn. split; auto.
Qed.

Lemma elem_of_sources s session m port d :
  i_mirror s !! session = Some m → mi_sources m !! port = Some d →
  ((session, m), (port, d)) ∈ (btree_iter (i_mirror s) ≫= λ e, (e,.) <$> btree_iter (mi_sources e.2)).
Proof.
  intros Hm Hd. apply list_elem_of_bind. exists (session, m). split; [|by apply elem_of_btree_iter].
  apply list_elem_of_fmap. exists (port, d). split; [done|]. by apply elem_of_btree_iter.
Qed.

(** A destination that is no source, no member and not routed. *)
Definition sink_ok (ports : gmap string InterfaceIntent) (rx tx : gmap string N) (m : MirrorIntent) : Prop :=
  ∀ dest, mi_destination m = Some dest → rx !! dest = None ∧ tx !! dest = None
    ∧ ∀ p, ports !! dest = Some p → if_channel_group p = None ∧ if_address p = None.

Definition sinks_seen ports rx tx (don : list (N * MirrorIntent)) (_ : list Reason) : Prop :=
  ∀ session m, (session, m) ∈ don → sink_ok ports rx tx m.

Lemma check_destination_ok ports rx tx w session m w' :
  check_destination ports rx tx w (session, m) = Ok w' → sink_ok ports rx tx m.
Proof.
  cbn. intros H dest Hd. rewrite Hd in H. apply bind_ok in H as ([] & Hg & H).
  apply guard_ok, orb_false_iff in Hg as [Hr%bool_decide_eq_false Ht%bool_decide_eq_false].
  apply eq_None_not_Some in Hr, Ht. split_and!; [done..|]. intros p Hp. rewrite Hp in H.
  destruct (if_channel_group p); [done|]. split; [done|].
  apply bind_ok in H as ([] & Ha%guard_ok%bool_decide_eq_false & _). by apply eq_None_not_Some.
Qed.

Lemma check_mirror_ok s s' : check_mirror s = Ok s' → mirrors_ok s ∧ ∃ w, s' = set_i_warnings w s.
Proof.
  intros ([rx tx] & Hs & (w & Hd & [= <-])%bind_ok)%bind_ok. split; [|by eexists].
  rewrite (foldM_nested (λ (e : N * MirrorIntent) a x, check_source e.1 a x)
    (λ e : N * MirrorIntent, btree_iter (mi_sources e.2))) in Hs.
  apply (foldM_inv sources_seen) in Hs;
    [|by intros ? ? ? ?%elem_of_nil|intros don [e x] b b' Hb _; by apply check_source_ok].
  apply (foldM_inv (sinks_seen (i_ports s) rx tx)) in Hd.
  2: by intros ? ? ?%elem_of_nil.
  2: { intros don [session' m'] b b' IH _ Hb session m [He|[= -> ->]%list_elem_of_singleton]%elem_of_app;
         [by eapply IH|by eapply check_destination_ok]. }
  assert (∀ session m, i_mirror s !! session = Some m → sink_ok (i_ports s) rx tx m) as Hdest.
  { intros session m Hm. apply (Hd session). by apply elem_of_btree_iter. }
  split.
  - intros s1 m1 s2 m2 port d1 d2 H1 H2 D1 D2 Hc.
    destruct (Hs _ _ _ (elem_of_sources s s1 m1 port d1 H1 D1)) as [R1 T1].
    destruct (Hs _ _ _ (elem_of_sources s s2 m2 port d2 H2 D2)) as [R2 T2].
    cbn in R1, T1, R2, T2. apply orb_true_iff in Hc as [[C1 C2]%andb_true_iff|[C1 C2]%andb_true_iff].
    + specialize (R1 C1). specialize (R2 C2). congruence.
    + specialize (T1 C1). specialize (T2 C2). congruence.
  - intros s1 m1 dest s2 m2 H1 D1 H2. destruct (Hdest _ _ H1 _ D1) as (Hr & Ht & _).
    destruct (mi_sources m2 !! dest) as [d|] eqn:Ed; [|done].
    destruct (Hs _ _ _ (elem_of_sources s s2 m2 dest d H2 Ed)) as [R T]. cbn in R, T.
    destruct d; cbn in R, T; [specialize (R eq_refl)|specialize (T eq_refl)|specialize (R eq_refl)]; congruence.
  - intros s1 m1 dest p H1 D1. by apply (Hdest s1 m1).
Qed.

(** ** Access lists *)

Definition groups_bound (acls : gmap string AclIntent) (g : AccessGroups) : Prop :=
  ∀ acl, ag_ingress g = Some acl ∨ ag_egress g = Some acl → is_Some (acls !! acl).

Record access_ok (s : Intents) : Prop := {
  access_port n p : i_ports s !! n = Some p →
    groups_bound (i_acls s) (if_access_groups p)
    ∧ (is_Some (if_channel_group p) → groups_empty (if_access_groups p) = true);
  access_lag g l : i_lags s !! g = Some l → groups_bound (i_acls s) (lag_access_groups l);
}.

Lemma groups_empty_bound acls g : groups_empty g = true → groups_bound acls g.
Proof. unfold groups_empty. rewrite andb_true_iff, !bool_decide_eq_true. intros [] acl [?|?]; congruence. Qed.

Lemma port_bindings_ok l ports :
  foldM port_binding [] l = Ok ports → ∀ e, e ∈ l → ∃ ys,
    (groups_empty (if_access_groups e.2) = false →
     if_channel_group e.2 = None ∧ ys = [(e.1, if_access_groups e.2)]) ∧ ys ⊆ ports.
Proof.
  apply (foldM_collect port_binding (λ e ys, groups_empty (if_access_groups e.2) = false →
     if_channel_group e.2 = None ∧ ys = [(e.1, if_access_groups e.2)])).
  intros acc [n p] acc'. unfold port_binding. cbn. destruct (groups_empty _).
  - intros [= <-]. exists []. by rewrite app_nil_r.
  - destruct (if_channel_group p); [done|]. intros [= <-]. by eexists.
Qed.

Lemma check_access_groups_ok s : check_access_groups s = Ok tt → access_ok s.
Proof.
  intros (ports & Hp & Hc)%bind_ok.
  pose proof (foldM_checks (λ b : string * AccessGroups, _) _ _ Hc) as Hall. clear Hc.
  assert (∀ n g, (n, g) ∈ ports ++ lag_bindings (i_lags s) → groups_bound (i_acls s) g) as Hb.
  { intros n g Hin acl Hacl. specialize (Hall _ Hin).
    pose proof (foldM_checks (λ acl, _) _ _ Hall acl) as Hg. cbn in Hg.
    apply (bool_decide_unpack (is_Some _)), Is_true_true, negb_false_iff. eapply guard_ok, Hg.
    unfold bound_acls. rewrite elem_of_app. destruct Hacl as [->| ->]; set_solver. }
  pose proof (port_bindings_ok _ _ Hp) as Hcol.
  split.
  - intros n p Hn. destruct (Hcol (n, p)) as (ys & HQ & Hsub); [by apply elem_of_btree_iter|]. cbn in HQ.
    destruct (groups_empty (if_access_groups p)) eqn:He; [by auto using groups_empty_bound|].
    destruct (HQ eq_refl) as [Hcg ->]. split; [|rewrite Hcg; by intros []].
    apply (Hb n). set_solver.
  - intros g l Hl. destruct (groups_empty (lag_access_groups l)) eqn:He; [by apply groups_empty_bound|].
    apply (Hb (lag_ifname g)). apply elem_of_app. right. unfold lag_bindings. apply list_elem_of_omap.
    exists (g, l). cbn. rewrite He. split; [by apply elem_of_btree_iter|done].
Qed.

(** ** 802.1X and port security *)

Record dot1x_ok (s : Intents) : Prop := {
  dot1x_server n p : i_ports s !! n = Some p → if_dot1x p = true →
    ∃ r, r ∈ dx_radius_servers (i_dot1x s) ∧ is_Some (rs_key r);
  dot1x_alone n p : i_ports s !! n = Some p → if_dot1x p = true → if_channel_group p = None;
}.

Lemma elem_of_dot1x_ports s n p : i_ports s !! n = Some p → if_dot1x p = true → (n, p) ∈ dot1x_ports s.
Proof. intros. apply list_elem_of_filter. split; [done|]. by apply elem_of_btree_iter. Qed.

Lemma check_dot1x_ok s : check_dot1x s = Ok tt → dot1x_ok s.
Proof.
  intros ([] & Hg%guard_ok & Hc)%bind_ok. split.
  - intros n p Hn Hx. apply andb_false_iff in Hg as [Hg|Hg]; apply negb_false_iff in Hg.
    + apply bool_decide_eq_true in Hg. pose proof (elem_of_dot1x_ports s n p Hn Hx) as Hin.
      rewrite Hg in Hin. by apply elem_of_nil in Hin.
    + apply existsb_exists in Hg as (r & Hr%list_elem_of_In & Hk%bool_decide_eq_true). by exists r.
  - intros n p Hn Hx. pose proof (foldM_checks (λ e : string * InterfaceIntent, _) _ _ Hc (n, p)) as Hp.
    cbn in Hp. destruct (if_channel_group p); [|done].
    discriminate Hp. by apply elem_of_dot1x_ports.
Qed.

Definition secure_ok (s : Intents) : Prop :=
  ∀ n p, i_ports s !! n = Some p → is_Some (if_port_security p) →
    if_channel_group p = None ∧ ∀ session m, i_mirror s !! session = Some m → mi_destination m ≠ Some n.

Lemma elem_of_mirror_destinations s n session m :
  i_mirror s !! session = Some m → mi_destination m = Some n → n ∈ mirror_destinations s.
Proof.
  intros Hm Hd. apply elem_of_list_to_set, list_elem_of_omap. exists m. split; [|done].
  apply list_elem_of_fmap. exists (session, m). split; [done|]. by apply elem_of_btree_iter.
Qed.

Lemma check_port_security_ok s :
  foldM (λ _ e, check_port_security s e) tt (btree_iter (i_ports s)) = Ok tt → secure_ok s.
Proof.
  intros H n p Hn [v Hv]. pose proof (foldM_checks _ _ _ H (n, p)) as Hc. unfold check_port_security in Hc.
  cbn in Hc. rewrite Hv in Hc. specialize (Hc (proj2 (elem_of_btree_iter _ _ _) Hn)).
  destruct (if_channel_group p); [done|]. apply guard_ok, bool_decide_eq_false in Hc. split; [done|].
  intros session m Hm Hd. apply Hc. by eapply elem_of_mirror_destinations.
Qed.

(** ** QoS *)

(** The queues of a port: strict queues are the top ones and take no weight, a
    queue shapes below its port, and its WRED profile is usable. *)
Record queues_ok (profiles : gmap string WredProfileIntent) (q : PortQosIntent) : Prop := {
  queue_exclusive i c : pq_queues q !! i = Some c → qq_strict c = true → qq_weight c = None;
  queue_strict_top i c j : pq_queues q !! i = Some c → qq_strict c = true → i ≤ j < QOS_QUEUE_COUNT →
    ∃ c', pq_queues q !! j = Some c' ∧ qq_strict c' = true;
  queue_shape i c qr pr : pq_queues q !! i = Some c → qq_shape c = Some qr → pq_shape q = Some pr → qr ≤ pr;
  queue_wred i c name : pq_queues q !! i = Some c → qq_wred_profile c = Some name →
    ∃ w lo hi, profiles !! name = Some w ∧ wp_min_threshold w = Some lo ∧ wp_max_threshold w = Some hi ∧ lo < hi;
}.

Record queues_seen (q : PortQosIntent) (refs0 : gmap string (list string)) (don : list (N * QueueQosIntent))
    (st : gset N * gmap string (list string)) : Prop := {
  seen_strict i : i ∈ st.1 ↔ ∃ c, (i, c) ∈ don ∧ qq_strict c = true;
  seen_exclusive i c : (i, c) ∈ don → qq_strict c = true → qq_weight c = None;
  seen_shape i c qr pr : (i, c) ∈ don → qq_shape c = Some qr → pq_shape q = Some pr → qr ≤ pr;
  seen_wred i c name : (i, c) ∈ don → qq_wred_profile c = Some name → is_Some (st.2 !! name);
  seen_refs name : is_Some (refs0 !! name) → is_Some (st.2 !! name);
}.

Lemma check_queue_ok name q refs0 don st e st' :
  queues_seen q refs0 don st → check_queue name q st e = Ok st' → queues_seen q refs0 (don ++ [e]) st'.
Proof.
  destruct st as [strict refs], e as [index queue]. intros [S1 S2 S3 S4 S5]. cbn in S1, S4, S5. unfold check_queue.
  intros ([] & Hex%guard_ok & ([] & Hsh & [= <-])%bind_ok)%bind_ok.
  assert (qq_strict queue = true → qq_weight queue = None) as Hw.
  { intros Hs. rewrite Hs in Hex. apply bool_decide_eq_false in Hex. by apply eq_None_not_Some. }
  assert (∀ qr pr, qq_shape queue = Some qr → pq_shape q = Some pr → qr ≤ pr) as Hle.
  { intros qr pr Eq Ep. rewrite Eq, Ep in Hsh. by apply guard_ok, N.ltb_ge in Hsh. }
  match goal with |- queues_seen _ _ _ (_, ?r) => set (refs' := r) end.
  assert (∀ n, is_Some (refs !! n) → is_Some (refs' !! n)) as Hgrow.
  { intros n Hn. unfold refs'. destruct (qq_wred_profile queue) as [profile|]; [|done].
    destruct (decide (profile = n)) as [->|]; [rewrite lookup_insert_eq; eauto|by rewrite lookup_insert_ne]. }
  split; cbn [fst snd].
  - intros i. destruct (qq_strict queue) eqn:Hs.
    + rewrite elem_of_union, elem_of_singleton, S1. split.
      * intros [->|(c & ? & ?)]; [exists queue|exists c]; set_solver.
      * intros (c & [Hc|[= -> ->]%list_elem_of_singleton]%elem_of_app & ?); eauto.
    + rewrite S1. split; intros (c & Hc & Hsc); exists c; [set_solver|].
      apply elem_of_app in Hc as [?|[= -> ->]%list_elem_of_singleton]; [done|congruence].
  - intros i c [Hc|[= -> ->]%list_elem_of_singleton]%elem_of_app; [by eapply S2|done].
  - intros i c qr pr [Hc|[= -> ->]%list_elem_of_singleton]%elem_of_app; [by eapply S3|by apply Hle].
  - intros i c n [Hc|[= -> ->]%list_elem_of_singleton]%elem_of_app Hn; [by eapply Hgrow, S4|].
    unfold refs'. rewrite Hn, lookup_insert_eq. eauto.
  - intros n Hn. by apply Hgrow, S5.
Qed.

Lemma elem_of_inclusive low high i : i ∈ inclusive low high ↔ low ≤ i ≤ high.
Proof.
  unfold inclusive. rewrite list_elem_of_fmap. split.
  - intros (k & -> & Hk%elem_of_seq). lia.
  - intros Hi. exists (N.to_nat (i - low)). split; [lia|]. apply elem_of_seq. lia.
Qed.

Lemma elem_of_top_queues n i j : i ∈ top_queues n → i ≤ j < QOS_QUEUE_COUNT → j ∈ top_queues n.
Proof.
  unfold top_queues, QOS_QUEUE_COUNT. rewrite !elem_of_list_to_set, !elem_of_inclusive. lia.
Qed.

(** One target's queues: all but the thresholds of the profiles it names. *)
Lemma check_qos_target_ok refs e refs' :
  check_qos_target refs e = Ok refs' →
  queues_seen e.2 refs (btree_iter (pq_queues e.2)) (dom (filter (λ c, qq_strict c.2 = true) (pq_queues e.2)), refs')
  ∧ ∀ i c j, pq_queues e.2 !! i = Some c → qq_strict c = true → i ≤ j < QOS_QUEUE_COUNT →
      ∃ c', pq_queues e.2 !! j = Some c' ∧ qq_strict c' = true.
Proof.
  intros ([strict r] & Hq & ([] & Hg%guard_ok & [= <-])%bind_ok)%bind_ok.
  apply (foldM_inv (queues_seen e.2 refs)) in Hq as Hs.
  2: { split; try by intros * ?%elem_of_nil. - intros i. split; [done|]. by intros (c & ?%elem_of_nil & _). - done. }
  2: { intros don x b b' Hb _. by apply check_queue_ok. }
  destruct Hs as [S1 S2 S3 S4 S5]. cbn in S1. split; [split; try done|].
  - cbn. intros i. rewrite elem_of_dom. split.
    + intros [c [Hc Hsc]%map_lookup_filter_Some]. exists c. by rewrite elem_of_btree_iter.
    + intros (c & Hc%elem_of_btree_iter & Hsc). exists c. by apply map_lookup_filter_Some.
  - intros i c j Hi Hc Hj.
    assert (i ∈ strict) as Hin by (apply S1; exists c; by rewrite elem_of_btree_iter).
    assert (j ∈ strict) as Hjn.
    { apply andb_false_iff in Hg as [Hg|Hg]; apply negb_false_iff, bool_decide_eq_true in Hg; [set_solver|].
      rewrite Hg in Hin |- *. by eapply elem_of_top_queues. }
    apply S1 in Hjn as (c' & Hc'%elem_of_btree_iter & ?). by exists c'.
Qed.

Record qos_ok (s : Intents) : Prop := {
  qos_port n p q : i_ports s !! n = Some p → if_qos p = Some q →
    queues_ok (i_wred_profiles s) q ∧ if_channel_group p = None;
  qos_lag g l q : i_lags s !! g = Some l → lag_qos l = Some q → queues_ok (i_wred_profiles s) q;
}.

(** The targets read so far and the profiles they name. *)
Record targets_seen (don : list (string * PortQosIntent)) (refs : gmap string (list string)) : Prop := {
  seen_target n q : (n, q) ∈ don → ∃ refs0 strict, queues_seen q refs0 (btree_iter (pq_queues q)) (strict, refs)
    ∧ ∀ i c j, pq_queues q !! i = Some c → qq_strict c = true → i ≤ j < QOS_QUEUE_COUNT →
        ∃ c', pq_queues q !! j = Some c' ∧ qq_strict c' = true;
}.

Lemma queues_seen_grow q refs0 don strict refs refs' :
  (∀ n, is_Some (refs !! n) → is_Some (refs' !! n)) →
  queues_seen q refs0 don (strict, refs) → queues_seen q refs0 don (strict, refs').
Proof. intros Hg [S1 S2 S3 S4 S5]. split; cbn in *; eauto. Qed.

Lemma targets_loop l refs :
  foldM check_qos_target ∅ l = Ok refs → targets_seen l refs.
Proof.
  apply foldM_inv; [split; by intros * ?%elem_of_nil|].
  intros don e b b' [IH] _ (Hs & Htop)%check_qos_target_ok. split.
  intros n q [Hd|<-%list_elem_of_singleton]%elem_of_app; [|by eauto].
  destruct (IH _ _ Hd) as (refs0 & strict & Hseen & ?). exists refs0, strict. split; [|done].
  eapply queues_seen_grow; [|done]. by destruct Hs.
Qed.

Lemma port_qos_targets_ok l targets :
  foldM port_qos_target [] l = Ok targets → ∀ e, e ∈ l → ∃ ys,
    (∀ q, if_qos e.2 = Some q → if_channel_group e.2 = None ∧ (e.1, q) ∈ ys) ∧ ys ⊆ targets.
Proof.
  apply (foldM_collect port_qos_target (λ e ys, ∀ q, if_qos e.2 = Some q →
    if_channel_group e.2 = None ∧ (e.1, q) ∈ ys)).
  intros acc [n p] acc'. unfold port_qos_target. cbn. destruct (if_qos p) as [q|].
  - destruct (if_channel_group p); [done|]. intros [= <-]. eexists. split; [done|].
    intros q' [= <-]. split; [done|]. by apply list_elem_of_singleton.
  - intros [= <-]. exists []. by rewrite app_nil_r.
Qed.

Lemma check_qos_ok s : check_qos s = Ok tt → qos_ok s.
Proof.
  intros (targets & Ht & (refs & Hr & ([] & Hdef & Hw)%bind_ok)%bind_ok)%bind_ok.
  pose proof (foldM_checks (λ e : string * list string, _) _ _ Hdef) as Hdef'. clear Hdef.
  pose proof (foldM_checks _ _ _ Hw) as Hw'. clear Hw.
  apply targets_loop in Hr as [Hr].
  assert (∀ name, is_Some (refs !! name) → ∃ w lo hi, i_wred_profiles s !! name = Some w
    ∧ wp_min_threshold w = Some lo ∧ wp_max_threshold w = Some hi ∧ lo < hi) as Hprof.
  { intros name [v Hv]. specialize (Hdef' (name, v) (proj2 (elem_of_btree_iter _ _ _) Hv)). cbn in Hdef'.
    apply guard_ok, negb_false_iff, bool_decide_eq_true in Hdef' as [w Hw].
    specialize (Hw' (name, w) (proj2 (elem_of_btree_iter _ _ _) Hw)). unfold check_wred in Hw'. cbn in Hw'.
    assert (bool_decide (is_Some (refs !! name)) = true) as Hb by (apply bool_decide_eq_true; eauto).
    rewrite Hb in Hw'. exists w.
    destruct (wp_min_threshold w) as [lo|], (wp_max_threshold w) as [hi|]; try done.
    apply guard_ok, N.leb_gt in Hw'. by exists lo, hi. }
  assert (∀ n q, (n, q) ∈ targets ++ lag_qos_targets (i_lags s) → queues_ok (i_wred_profiles s) q) as Hok.
  { intros n q (refs0 & strict & [S1 S2 S3 S4 S5] & Htop)%Hr. split.
    - intros i c Hi. by eapply S2, elem_of_btree_iter.
    - done.
    - intros i c qr pr Hi. by eapply S3, elem_of_btree_iter.
    - intros i c name Hi Hn. apply Hprof. apply elem_of_btree_iter in Hi. by eapply S4. }
  split.
  - intros n p q Hn Hq. destruct (port_qos_targets_ok _ _ Ht (n, p)) as (ys & HQ & Hsub);
      [by apply elem_of_btree_iter|]. destruct (HQ q Hq) as [Hcg Hin]. split; [|done].
    apply (Hok n). cbn in Hin. set_solver.
  - intros g l q Hl Hq. apply (Hok (lag_ifname g)). apply elem_of_app. right.
    apply list_elem_of_omap. exists (g, l). cbn. rewrite Hq. split; [by apply elem_of_btree_iter|done].
Qed.

(** ** Routing *)

(** A virtual router's addresses are in the subnet of its interface. *)
Definition vrrp_ok (s : Intents) : Prop :=
  ∀ interface group v, i_vrrp s !! (interface, group) = Some v →
    vr_addresses v ≠ ∅ ∧ ∃ address addr len,
      interface_address s interface = Some (Some address) ∧ parse_cidr address = Ok (addr, len)
      ∧ ∀ vip, vip ∈ vr_addresses v → ∃ a, parse_ip vip = Some a ∧ is_ipv4 a = true ∧ network a len = network addr len.

Lemma check_vrrp_ok s : foldM (λ _ e, check_vrrp s e) tt (btree_iter (i_vrrp s)) = Ok tt → vrrp_ok s.
Proof.
  intros H interface group v Hv.
  pose proof (foldM_checks _ _ _ H _ (proj2 (elem_of_btree_iter _ _ _) Hv)) as Hc. unfold check_vrrp in Hc.
  apply bind_ok in Hc as (address & Ha & ([addr len] & Hp & ([] & Hne & Hl)%bind_ok)%bind_ok).
  apply guard_ok, bool_decide_eq_false in Hne. split; [done|]. exists address, addr, len.
  destruct (interface_address s interface) as [[?|]|]; simplify_eq. destruct (parse_cidr address); simplify_eq.
  split_and!; [done..|]. intros vip Hvip.
  pose proof (foldM_checks _ _ _ Hl vip (proj2 (elem_of_bset_iter _ _) Hvip)) as Hc.
  apply bind_ok in Hc as (a & Hpa%ok_or_ok & Hg%guard_ok). exists a.
  apply orb_false_iff in Hg as [H4%negb_false_iff Hn%negb_false_iff%bool_decide_eq_true]. done.
Qed.

(** What names a routed interface names one with an address. *)
Record l3_ok (s : Intents) : Prop := {
  l3_arp ip e : i_arp_statics s !! ip = Some e → ∃ a, interface_address s (as_interface e) = Some (Some a);
  l3_ospf o n : i_ospf s = Some o → is_Some (ospf_interfaces o !! n) ∨ n ∈ ospf_passive_interfaces o →
    ∃ a, interface_address s n = Some (Some a);
}.

Lemma check_l3_ok s :
  foldM (λ _ e, check_arp_static s e) tt (btree_iter (i_arp_statics s)) = Ok tt → check_ospf s = Ok tt → l3_ok s.
Proof.
  intros Ha Ho. split.
  - intros ip e He. pose proof (foldM_checks _ _ _ Ha _ (proj2 (elem_of_btree_iter _ _ _) He)) as Hc.
    unfold check_arp_static in Hc. cbn in Hc. destruct (interface_address s (as_interface e)) as [[?|]|]; eauto; done.
  - intros o n Eo Hn. unfold check_ospf in Ho. rewrite Eo in Ho.
    pose proof (foldM_checks (λ name, _) _ _ Ho n) as Hc. cbn in Hc.
    destruct (interface_address s n) as [[a|]|]; [by eexists|discriminate Hc..];
      apply elem_of_app; rewrite elem_of_btree_keys, elem_of_bset_iter; done.
Qed.

(** ** DHCP snooping and ARP inspection *)

Record snoop_ok (s : Intents) : Prop := {
  snoop_inspected vlan : vlan ∈ ss_arp_vlans (i_snoop_sec s) →
    vlan ∈ ss_dhcp_vlans (i_snoop_sec s) ∨ ∃ mac, is_Some (ss_static_bindings (i_snoop_sec s) !! (mac, vlan));
  snoop_binding mac vlan b : ss_static_bindings (i_snoop_sec s) !! (mac, vlan) = Some b →
    carries_vlan s (sb_interface b) vlan = true;
}.

Lemma check_snoop_ok s :
  foldM (λ _ vlan, check_inspected s vlan) tt (bset_iter (ss_arp_vlans (i_snoop_sec s))) = Ok tt →
  foldM (λ _ e, check_binding s e) tt (btree_iter (ss_static_bindings (i_snoop_sec s))) = Ok tt → snoop_ok s.
Proof.
  intros Hi Hb. split.
  - intros vlan Hv. pose proof (foldM_checks _ _ _ Hi _ (proj2 (elem_of_bset_iter _ _) Hv)) as Hc.
    apply guard_ok, negb_false_iff, orb_true_iff in Hc as [Hc%bool_decide_eq_true|Hc]; [by left|right].
    apply existsb_exists in Hc as ([mac v] & Hin%list_elem_of_In & Heq%N.eqb_eq). cbn in Heq. subst v.
    exists mac. by apply elem_of_btree_keys.
  - intros mac vlan b He. pose proof (foldM_checks _ _ _ Hb _ (proj2 (elem_of_btree_iter _ _ _) He)) as Hc.
    apply bind_ok in Hc as ([] & _ & Hg%guard_ok). by apply negb_false_iff.
Qed.
