(* ===== verification/IntentAccept.v ===== *)
(** * What [extract] guarantees

    The sections of the extraction, each with what it keeps and what it
    establishes, and the theorems on the intents of an accepted
    configuration. *)

From Stdlib Require Import Ascii NArith Lia.
From stdpp Require Import base tactics list strings option gmap sorting.
From S2P Require Import Prelude Text ConfigTree ConfigParser Net LinkMode Role.
From S2P Require Import IntentTypes IntentPorts IntentSecurity IntentSystem IntentRouting IntentServices IntentExtract.
From S2P Require Import IntentSound.

Local Open Scope N_scope.

(** ** Frames *)

(** Follow one accepted branch of a section to the end. *)
Ltac section_step :=
  repeat match goal with
  | H : Err _ = Ok _ |- _ => discriminate H
  | H : Ok _ = Ok _ |- _ => injection H as <-
  | H : (_ ≫= _) = Ok _ |- _ => apply bind_ok in H as (? & ? & H)
  | H : (if ?b then _ else _) = Ok _ |- _ => destruct b
  | H : match ?k with [] => _ | _ :: _ => _ end = Ok _ |- _ => destruct k
  end.

(** The families whose facts do not come from [finish_validation]. *)
Definition core (s : Intents) :=
  (i_login s, i_routes s, i_bgp s, i_ports s).

Lemma protocols_frame t s s' : protocols t s = Ok s' → core s' = core s.
Proof.
  unfold protocols. destruct (block t "protocols") as [[]|]; [|by intros [= <-]].
  apply foldM_frame. intros b [|] b' H; section_step; done.
Qed.

Lemma switching_frame t s s' : switching t s = Ok s' → core s' = core s.
Proof.
  unfold switching. destruct (block t "switching") as [[]|]; [|by intros [= <-]].
  apply foldM_frame. intros b [|] b' H; section_step; done.
Qed.

Lemma acls_frame its s s' : acls its s = Ok s' → core s' = core s.
Proof. apply foldM_frame. intros b [|] b' H; section_step; done. Qed.

Lemma copp_frame its s s' : copp its s = Ok s' → core s' = core s.
Proof. apply foldM_frame. intros b [|] b' H; section_step; done. Qed.

Lemma dhcp_snooping_frame its s s' : dhcp_snooping its s = Ok s' → core s' = core s.
Proof. unfold dhcp_snooping. intros H. section_step. done. Qed.

Lemma arp_inspection_frame its s s' : arp_inspection its s = Ok s' → core s' = core s.
Proof. unfold arp_inspection. intros H. section_step. done. Qed.

#[local] Hint Resolve acls_frame copp_frame dhcp_snooping_frame arp_inspection_frame : core.

Lemma security_frame t s s' : security t s = Ok s' → core s' = core s.
Proof.
  unfold security. destruct (block t "security") as [[]|]; [|by intros [= <-]].
  apply foldM_frame. intros b [|] b' H; section_step; eauto.
Qed.

Lemma services_frame t s s' : services t s = Ok s' → core s' = core s.
Proof.
  unfold services. destruct (block t "services") as [[]|]; [|by intros [= <-]].
  apply foldM_frame. intros b [|] b' H; section_step; done.
Qed.

Lemma qos_frame t s s' : qos t s = Ok s' → core s' = core s.
Proof.
  unfold qos. destruct (block t "qos") as [[]|]; [|by intros [= <-]].
  apply foldM_frame. intros b [|] b' H; section_step; done.
Qed.

(** ** Logins *)

(** When accounts are configured, one of them can administer the switch. *)
Definition login_ok (users : gmap string UserIntent) : Prop :=
  users ≠ ∅ → ∃ name u, users !! name = Some u ∧ us_role u = Admin ∧ is_Some (us_password_hash u).

Lemma login_admin its users : login its = Ok users → login_ok users.
Proof.
  intros (users' & _ & ([] & Hg & [= <-])%bind_ok)%bind_ok _. apply guard_ok, negb_false_iff in Hg.
  apply existsb_exists in Hg as (u & Hin%list_elem_of_In & Hc).
  apply list_elem_of_fmap in Hin as ([name u'] & -> & Hin). apply elem_of_btree_iter in Hin.
  apply andb_true_iff in Hc as [Hr Hp%bool_decide_eq_true]. exists name, u'. split_and!; [done| |done].
  cbn in Hr. by destruct (us_role u').
Qed.

Definition rest (s : Intents) := (i_routes s, i_bgp s, i_ports s).

Lemma system_block_ok s name keys children s' :
  system_block s name keys children = Ok s' → login_ok (i_login s) →
  login_ok (i_login s') ∧ rest s' = rest s.
Proof. unfold system_block. intros H Hl. section_step; eauto using login_admin. Qed.

Lemma system_ok db t s s' :
  system db t s = Ok s' → login_ok (i_login s) → login_ok (i_login s') ∧ rest s' = rest s.
Proof.
  unfold system. destruct (block t "system") as [[? its]|]; [|by intros [= <-]].
  intros ([s1 identity] & H & ([] & _ & [= <-])%bind_ok)%bind_ok Hl.
  apply (foldM_inv (λ _ st, login_ok (i_login st.1) ∧ rest st.1 = rest s)) in H; [done|done|].
  intros don [name values|name keys children] [b id] b' [IH1 IH2] _ Hb; section_step; [done|].
  cbn in *. rewrite <-IH2. by eapply system_block_ok.
Qed.

(** ** Routing *)

Lemma parse_int_bounds w text lo hi what n : parse_int w text lo hi what = Ok n → lo ≤ n ≤ hi.
Proof.
  unfold parse_int. rewrite ok_or_ok, bind_Some. intros (m & _ & H).
  destruct (N.leb_spec lo m), (N.leb_spec m hi); cbn in H; simplify_eq. lia.
Qed.

(** A route is a canonical prefix that either drops or has next hops of its
    family, with a distance between 1 and 255. *)
Record route_ok (prefix : string) (r : StaticRoute) : Prop := {
  route_canonical : canonical_prefix prefix = Ok prefix;
  route_target : sr_drop r = true ↔ sr_next_hops r = ∅;
  route_hops hop : hop ∈ sr_next_hops r → validate_next_hop prefix hop = Ok tt;
  route_distance : 1 ≤ sr_distance r ≤ 255;
}.

Definition routes_ok (routes : gmap string StaticRoute) : Prop := map_Forall route_ok routes.

(** What an entry satisfies before its first leaf is stored. *)
Lemma route_entry routes prefix :
  routes_ok routes → canonical_prefix prefix = Ok prefix →
  let entry := default default_static_route (routes !! prefix) in
  (sr_drop entry = true → sr_next_hops entry = ∅)
  ∧ (∀ hop, hop ∈ sr_next_hops entry → validate_next_hop prefix hop = Ok tt)
  ∧ 1 ≤ sr_distance entry ≤ 255.
Proof.
  intros Hr Hc. destruct (routes !! prefix) as [r|] eqn:E; cbn; [|done].
  destruct (Hr _ _ E) as [_ Ht Hh Hd]. split_and!; [apply Ht|done|apply Hd|apply Hd].
Qed.

Lemma require_canonical prefix c :
  require_canonical_prefix prefix = Ok c → c = prefix ∧ canonical_prefix prefix = Ok prefix.
Proof. intros (c' & Hc & H)%bind_ok. case_decide; simplify_eq. by split. Qed.

Lemma static_route_ok st i st' : static_route st i = Ok st' → routes_ok st.1 → routes_ok st'.1.
Proof.
  destruct st as [routes ex]. destruct i as [prefix values|]; [|done]. unfold static_route. cbn [fst].
  intros (c & [-> Hc]%map_err_ok%require_canonical & H)%bind_ok Hr.
  destruct (route_entry routes prefix Hr Hc) as (Hdrop & Hhops & Hdist). cbn zeta in *.
  set (entry := default default_static_route (routes !! prefix)) in *.
  destruct values as [|next_hop rest]; [done|].
  destruct (_ && _) eqn:Hd.
  - apply bind_ok in H as ([] & Hg%guard_ok%negb_false_iff%bool_decide_eq_true & [= <-]). cbn.
    apply map_Forall_insert_2; [|done]. split; cbn; [done|by rewrite Hg|done|done].
  - apply bind_ok in H as ([] & Hv%map_err_ok & H). apply bind_ok in H as ([] & Hnd%guard_ok & H).
    apply bind_ok in H as ([entry' ex'] & He & [= <-]). cbn.
    assert (sr_drop entry' = false ∧ sr_next_hops entry' = sr_next_hops entry ∧ 1 ≤ sr_distance entry' ≤ 255)
      as (Hd' & Hn' & Hb').
    { destruct rest as [|k [|v [|]]]; section_step; simplify_eq; try done.
      match goal with H : map_err _ _ = Ok _ |- _ => apply map_err_ok, parse_int_bounds in H end. done. }
    apply map_Forall_insert_2; [|done]. split; cbn; [done| | |done].
    + rewrite Hd', Hn'. split; [done|]. intros Hempty. set_solver.
    + intros hop. rewrite Hn'. set_unfold. intros [->|?]; [done|by apply Hhops].
Qed.

(** A speaker has an AS, and so has every neighbour. *)
Definition bgp_ok (b : option BgpIntent) : Prop :=
  ∀ bgp, b = Some bgp → bgp_as_number bgp ≠ 0
    ∧ ∀ ip nb, bgp_neighbors bgp !! ip = Some nb → is_Some (bn_remote_as nb).

Lemma bgp_intent_ok children bgp : bgp_intent children = Ok bgp → bgp_ok (Some bgp).
Proof.
  intros (bgp' & _ & ([] & Has%guard_ok%N.eqb_neq & ([] & Hn & [= <-])%bind_ok)%bind_ok)%bind_ok ? [= <-].
  split; [done|]. intros ip nb Hnb.
  pose proof (foldM_checks (λ e : string * BgpNeighborIntent, _) _ _ Hn (ip, nb)
    (proj2 (elem_of_btree_iter _ _ _) Hnb)) as Hc.
  apply guard_ok, bool_decide_eq_false in Hc. by apply not_eq_None_Some.
Qed.

Lemma routing_ok t s s' :
  routing t s = Ok s' → routes_ok (i_routes s) ∧ bgp_ok (i_bgp s) →
  (routes_ok (i_routes s') ∧ bgp_ok (i_bgp s')) ∧ i_login s' = i_login s ∧ i_ports s' = i_ports s.
Proof.
  unfold routing. destruct (block t "routing") as [[? its]|]; [|by intros [= <-]]. intros H H0.
  apply (foldM_inv (λ _ s', (routes_ok (i_routes s') ∧ bgp_ok (i_bgp s'))
    ∧ i_login s' = i_login s ∧ i_ports s' = i_ports s)) in H; [done|done|].
  intros don i b b' [[Hr Hb] Hk] _ Hi. unfold routing_item in Hi.
  destruct i as [name values|name keys children]; section_step; try done; cbn; split; try done; split; try done.
  - match goal with H : static_routes _ = Ok _ |- _ => apply bind_ok in H as ([routes ex] & Hs & [= <-]) end.
    apply (foldM_inv (λ _ st, routes_ok st.1)) in Hs; [done|apply map_Forall_empty|].
    intros ? ? ? ? IH _ Hst. by eapply static_route_ok.
  - by eapply bgp_intent_ok.
Qed.

(** ** Interfaces *)

(** A port is routed, switched or a member, and gates its hosts one way. *)
Record port_ok (p : InterfaceIntent) : Prop := {
  port_routed : is_Some (if_address p) → if_switchport p = None ∧ if_channel_group p = None;
  port_gate : if_dot1x p = true → if_port_security p = None;
}.

Definition ports_ok (ports : gmap string InterfaceIntent) : Prop := map_Forall (λ _, port_ok) ports.

Definition others (s : Intents) := (i_login s, i_routes s, i_bgp s).

(** Two settings of which at most one is written. *)
Lemma exclusive {A B} (a : option A) (b : option B) :
  bool_decide (is_Some a) && bool_decide (is_Some b) = false → is_Some b → a = None.
Proof. destruct a, b; cbn; try done; intros ? []; done. Qed.

Lemma port_interface_ok s ifname up address children s' :
  port_interface s ifname up address children = Ok s' → ports_ok (i_ports s) →
  ports_ok (i_ports s') ∧ others s' = others s.
Proof.
  intros H Hp. unfold port_interface in H. section_step. split; [|done].
  repeat match goal with H : guard _ _ = Ok _ |- _ => apply guard_ok in H end.
  apply map_Forall_insert_2; [|done]. split; cbn.
  - intros Ha. split; by eapply exclusive.
  - intros Hx. match goal with H : has_leaf children "dot1x" && _ = false |- _ => rewrite Hx in H end.
    match goal with H : true && bool_decide (is_Some ?o) = false |- _ => by destruct o end.
Qed.

Lemma lag_interface_frame s ifname up address children s' :
  lag_interface s ifname up address children = Ok s' → core s' = core s.
Proof. intros H. unfold lag_interface in H. section_step. done. Qed.

Lemma mgmt_interface_frame s ifname up address children s' :
  mgmt_interface s ifname up address children = Ok s' → core s' = core s.
Proof. intros H. unfold mgmt_interface in H. section_step. done. Qed.

Lemma svi_interface_frame s ifname address children s' :
  svi_interface s ifname address children = Ok s' → core s' = core s.
Proof. intros H. unfold svi_interface in H. cbv zeta in H. section_step; repeat case_decide; done. Qed.

Lemma add_vrrp_frame kind ifname s g s' : add_vrrp kind ifname s g = Ok s' → core s' = core s.
Proof. intros H. unfold add_vrrp in H. section_step. done. Qed.

Lemma interface_block_ok s i s' :
  interface_block s i = Ok s' → ports_ok (i_ports s) → ports_ok (i_ports s') ∧ others s' = others s.
Proof.
  destruct i as [|name keys children]; [by intros [= <-]|]. cbn.
  intros ([kind ifname] & _ & (up & _ & (address & _ & (groups & _ & (s1 & Hv & H)
    %bind_ok)%bind_ok)%bind_ok)%bind_ok)%bind_ok Hp.
  apply (foldM_frame core _ _ _ _ (add_vrrp_frame kind ifname)) in Hv. unfold core in Hv. injection Hv as E1 E2 E3 E4.
  rewrite <-E4 in Hp. destruct kind.
  1: { apply port_interface_ok in H as [H1 H2]; [|done]. split; [done|]. rewrite H2. unfold others. congruence. }
  all: (apply lag_interface_frame in H || apply mgmt_interface_frame in H || apply svi_interface_frame in H);
    unfold core in H; injection H as F1 F2 F3 F4; rewrite F4; split; [done|unfold others; congruence].
Qed.

(** ** The whole extraction *)

Record valid (s : Intents) : Prop := {
  valid_ports : ports_ok (i_ports s);
  valid_routes : routes_ok (i_routes s);
  valid_bgp : bgp_ok (i_bgp s);
  valid_pools : pools_ok (i_dhcp_server s);
  valid_relays : relays_ok s;
  valid_lags : lags_ok s;
  valid_mirrors : mirrors_ok s;
  valid_access : access_ok s;
  valid_dot1x : dot1x_ok s;
  valid_security : secure_ok s;
  valid_qos : qos_ok s;
  valid_vrrp : vrrp_ok s;
  valid_l3 : l3_ok s;
  valid_snoop : snoop_ok s;
}.

(** The checks, one fact each; only the warnings change. *)
Record checked (s : Intents) : Prop := {
  checked_pools : pools_ok (i_dhcp_server s);
  checked_relays : relays_ok s;
  checked_lags : lags_ok s;
  checked_mirrors : mirrors_ok s;
  checked_access : access_ok s;
  checked_dot1x : dot1x_ok s;
  checked_security : secure_ok s;
  checked_qos : qos_ok s;
  checked_vrrp : vrrp_ok s;
  checked_l3 : l3_ok s;
  checked_snoop : snoop_ok s;
}.

(** The facts read no warning. *)
Ltac unwarned :=
  match goal with
  | H : mirrors_ok _ |- mirrors_ok _ => destruct H; by split
  | H : access_ok _ |- access_ok _ => destruct H; by split
  | H : dot1x_ok _ |- dot1x_ok _ => destruct H; by split
  | H : qos_ok _ |- qos_ok _ => destruct H; by split
  | H : snoop_ok _ |- snoop_ok _ => destruct H; by split
  | H : lags_ok _ |- lags_ok _ => destruct H; by split
  | H : l3_ok _ |- l3_ok _ => destruct H; by split
  | |- _ => done
  end.

Lemma checked_warnings w s : checked s → checked (set_i_warnings w s).
Proof. intros []. split; unwarned. Qed.

Lemma finish_validation_ok s s' :
  fits 32 (N.of_nat (size (i_ports s))) → finish_validation s = Ok s' →
  checked s ∧ ∃ w, s' = set_i_warnings w s.
Proof.
  intros Hfit H. unfold finish_validation in H.
  apply bind_ok in H as ([] & [Hpools Hrp]%validate_dhcp_pools_ok & H).
  apply bind_ok in H as ([] & Hrelay & H).
  apply bind_ok in H as ([] & _ & H). apply bind_ok in H as ([] & _ & H).
  apply bind_ok in H as ([] & Harp & H). apply bind_ok in H as ([] & Hospf & H).
  apply bind_ok in H as ([] & Hvrrp%check_vrrp_ok & H).
  apply bind_ok in H as (s1 & (Hlag & w1 & ->)%check_channel_groups_ok & H); [|done].
  apply bind_ok in H as (s2 & (Hmir & w2 & ->)%check_mirror_ok & H).
  apply bind_ok in H as ([] & Hacc%check_access_groups_ok & H).
  apply bind_ok in H as ([] & Hdot%check_dot1x_ok & H).
  apply bind_ok in H as ([] & Hqos%check_qos_ok & H).
  apply bind_ok in H as ([] & Hsec%check_port_security_ok & H).
  apply bind_ok in H as ([] & Hins & H). apply bind_ok in H as ([] & Hbind & [= <-]).
  pose proof (check_snoop_ok _ Hins Hbind) as Hsn.
  split; [|by eexists]. split; try unwarned.
  - apply relays_ok_intro. intros vlan Hv. split; [by apply Hrp|].
    apply (foldM_checks _ _ _ Hrelay). by apply elem_of_btree_keys.
  - by apply check_l3_ok.
Qed.

Lemma finish_validation_frame s s' :
  finish_validation s = Ok s' →
  i_login s' = i_login s ∧ i_routes s' = i_routes s ∧ i_bgp s' = i_bgp s ∧ i_ports s' = i_ports s.
Proof.
  unfold finish_validation, check_channel_groups, check_mirror. intros H. section_step.
  repeat match goal with x : _ * _ |- _ => destruct x end. section_step. done.
Qed.

(** What holds before the cross checks. *)
Lemma extract_sections db t s' :
  extract db t = Ok s' → ∃ s, finish_validation s = Ok s' ∧ login_ok (i_login s)
    ∧ routes_ok (i_routes s) ∧ bgp_ok (i_bgp s) ∧ ports_ok (i_ports s).
Proof.
  unfold extract. cbv zeta. intros (si & _ & (vs & _ & (s1 & H1 & (s2 & H2 & (s3 & H3 & (s4 & H4 & (s5 & H5 &
    (s6 & H6 & (s7 & H7 & H)%bind_ok)%bind_ok)%bind_ok)%bind_ok)%bind_ok)%bind_ok)%bind_ok)%bind_ok)%bind_ok.
  apply system_ok in H1 as [L1 R1]; [|by intros ?]. unfold rest in R1. cbn in R1. injection R1 as R1 B1 P1.
  apply routing_ok in H2 as ((R2 & B2) & L2 & P2); [|rewrite R1, B1; split; [apply map_Forall_empty|by intros ?]].
  apply protocols_frame in H3. apply switching_frame in H4. apply security_frame in H5.
  apply services_frame in H6. apply qos_frame in H7.
  assert (core s7 = core s2) as Hc by congruence. unfold core in Hc. injection Hc as L R B P.
  assert (login_ok (i_login s7) ∧ routes_ok (i_routes s7) ∧ bgp_ok (i_bgp s7) ∧ ports_ok (i_ports s7))
    as (F1 & F2 & F3 & F4).
  { rewrite L, R, B, P, L2, P2, P1. split_and!; [done..|apply map_Forall_empty]. }
  destruct (block t "interfaces") as [[? its]|]; [|by exists s7].
  apply bind_ok in H as (s8 & H8 & H). exists s8. split; [done|].
  apply (foldM_inv (λ _ s, ports_ok (i_ports s) ∧ others s = others s7)) in H8 as [Hp Ho]; [| by split|].
  - unfold others in Ho. injection Ho as -> -> ->. done.
  - intros don i b b' [IH1 IH2] _ [? Hb]%interface_block_ok; [|done]. split; [done|]. congruence.
Qed.

Lemma extract_checked db t s :
  extract db t = Ok s → fits 32 (N.of_nat (size (i_ports s))) → checked s.
Proof.
  intros (s0 & Hf & _)%extract_sections Hfit.
  destruct (finish_validation_frame _ _ Hf) as (_ & _ & _ & Hports). rewrite Hports in Hfit.
  apply finish_validation_ok in Hf as [Hc (w & ->)]; [|done]. by apply checked_warnings.
Qed.

Lemma extract_families db t s :
  extract db t = Ok s → routes_ok (i_routes s) ∧ bgp_ok (i_bgp s) ∧ ports_ok (i_ports s).
Proof.
  intros (s0 & Hf & _ & Hr & Hb & Hp)%extract_sections.
  destruct (finish_validation_frame _ _ Hf) as (_ & -> & -> & ->). done.
Qed.

Lemma extract_all db t s : extract db t = Ok s → fits 32 (N.of_nat (size (i_ports s))) → valid s.
Proof.
  intros Hx Hfit. destruct (extract_families _ _ _ Hx) as (? & ? & ?).
  pose proof (extract_checked _ _ _ Hx Hfit) as []. by split.
Qed.

(** No accepted configuration locks its operators out. *)
Lemma extract_login db t s : extract db t = Ok s → login_ok (i_login s).
Proof.
  intros (s0 & Hf & Hl & _)%extract_sections.
  by rewrite (proj1 (finish_validation_frame _ _ Hf)).
Qed.

(** C3: The intents [extract] returns are consistent across families: [valid]
    collects what the appliers and the switch daemon rely on.  The member
    count of a group is kept in 32 bits. *)
Theorem extract_valid db t s :
  extract db t = Ok s → fits 32 (N.of_nat (size (i_ports s))) → valid s.
Proof. apply extract_all. Qed.

(** ** A configuration that uses most families *)

(** A double quote, ASCII 34. *)
Definition quoted (text : string) : string := String "034" text +:+ String "034" "".

Definition sample_text : string :=
  "system { login { user ops {
     role admin
     password-hash " +:+ quoted ("$6$saltsalt$" +:+
       "aaaaaaaaaaaaaaaaaaaaaaaaaaaaaaaaaaaaaaaaaaaaaaaaaaaaaaaaaaaaaaaaaaaaaaaaaaaaaaaaaaaaaa") +:+ "
   } } }
   vlans { vlan 10 { }
           vlan 20 { } }
   routing { static { 10.9.0.0/16 10.0.1.2
                      10.8.0.0/16 drop }
             bgp { as 65001
                   neighbor 10.0.1.2 { remote-as 65002 } } }
   security { acl { ipv4 guests { rule 10 { permit } } }
              dot1x { radius-server 10.0.1.9 { key s3cret } }
              dhcp-snooping { vlan 10 }
              arp-inspection { vlan 10 } }
   switching { mirror { session 1 { source Ethernet4 rx
                                    destination Ethernet5 }
                        session 2 { source Ethernet4 tx } } }
   services { dhcp-server { pool lab { network 10.0.10.0/24
                                       range 10.0.10.10 10.0.10.99
                                       default-gateway 10.0.10.1 } } }
   qos { wred-profile soft { min-threshold 100
                             max-threshold 200 } }
   interfaces {
     Ethernet1 { channel-group 3 mode active }
     Ethernet2 { channel-group 3 mode active }
     Ethernet3 { address 10.0.1.1/24
                 access-group guests in
                 vrrp 7 { address 10.0.1.254 } }
     Ethernet4 { dot1x
                 switchport { access vlan 10 }
                 qos { shape rate 2g
                       queue 7 { priority strict }
                       queue 6 { priority strict
                                 shape rate 1g
                                 wred-profile soft } } }
     Port-Channel3 { switchport { mode trunk
                                  trunk vlans 10 20 } }
     Vlan20 { address 10.0.20.1/24
              dhcp-relay server 10.0.1.9 } }".

Definition sample_tree : ConfigTree := match parse sample_text with Ok t => t | Err _ => mkTree [] end.

Definition sample : Intents := match extract None sample_tree with Ok s => s | Err _ => default_intents end.

Lemma sample_accepted : extract None sample_tree = Ok sample.
Proof. vm_compute. reflexivity. Qed.

Lemma extract_valid_witness :
  valid sample ∧ size (i_ports sample) = 4%nat ∧ size (i_dhcp_server sample) = 1%nat.
Proof.
  split; [|vm_compute; split; reflexivity].
  apply (extract_valid None sample_tree); [exact sample_accepted|vm_compute; reflexivity].
Defined.
