(* ===== verification/IntentApply.v ===== *)
(** * Applying a configuration delta

    A device is described by what each of its names is programmed with.
    Applying the changes a commit computes, in the order they are listed, to
    a device that holds the running configuration leaves it holding the
    candidate. *)

From Stdlib Require Import Ascii NArith Lia.
From stdpp Require Import base tactics list strings option gmap sorting.
From S2P Require Import Prelude Text ConfigTree Net LinkMode Role.
From S2P Require Import IntentTypes IntentPorts IntentExtract IntentSound IntentAccept IntentDiff.

Local Open Scope N_scope.

(** ** Changes at one name *)

Section programmed.
Context {K C S : Type} `{EqDecision K} (key : C → K) (act : C → S → S).

(** What [k] holds after the changes, in order. *)
Definition programmed (changes : list C) (k : K) (s : S) : S :=
  foldl (λ s c, if decide (key c = k) then act c s else s) s changes.

Lemma programmed_app l1 l2 k s : programmed (l1 ++ l2) k s = programmed l2 k (programmed l1 k s).
Proof. apply foldl_app. Qed.

Lemma programmed_other l k s : k ∉ key <$> l → programmed l k s = s.
Proof.
  revert s. induction l as [|c l IH]; intros s Hn; [done|]. cbn in *.
  apply not_elem_of_cons in Hn as [Hne Hn]. rewrite decide_False by congruence. by apply IH.
Qed.

(** A loop over a map whose changes at each entry touch that entry's name. *)
Lemma programmed_bind {N V} `{Countable N} `{!BTreeKey N} (name : K → N) (f : N * V → list C) (m : gmap N V) k s :
  (∀ e c, c ∈ f e → name (key c) = e.1) →
  programmed (btree_iter m ≫= f) k s
  = match m !! name k with Some v => programmed (f (name k, v)) k s | None => s end.
Proof.
  intros Hkey. assert (∀ l s, name k ∉ l.*1 → programmed (l ≫= f) k s = s) as Hout.
  { intros l s' Hl. apply programmed_other. intros Hin. apply list_elem_of_fmap in Hin as (c & -> & Hc).
    apply list_elem_of_bind in Hc as (e & Hfe & He). apply Hl. rewrite (Hkey _ _ Hfe). by apply list_elem_of_fmap_2. }
  destruct (m !! name k) as [v|] eqn:Hk.
  - apply elem_of_btree_iter in Hk as Hin. apply list_elem_of_split in Hin as (l1 & l2 & Hl).
    pose proof (NoDup_btree_keys m) as Hnd. unfold btree_keys in Hnd. rewrite Hl, fmap_app in Hnd. cbn in Hnd.
    apply NoDup_app in Hnd as (_ & H1 & [H2 _]%NoDup_cons).
    rewrite Hl, bind_app, bind_cons, !programmed_app, (Hout l1), (Hout l2); [done|done|].
    intros Hx. apply (H1 _ Hx). by left.
  - apply Hout. intros Hin. apply list_elem_of_fmap in Hin as ([k' v] & Hk' & Hin%elem_of_btree_iter).
    cbn in *. congruence.
Qed.

(** A loop over a map that makes at most one change per key. *)
Lemma programmed_loop {V} `{Countable K} `{!BTreeKey K} (f : K * V → option C) (m : gmap K V) k s :
  (∀ e c, f e = Some c → key c = e.1) →
  programmed (omap f (btree_iter m)) k s
  = match v ← m !! k; f (k, v) with Some c => act c s | None => s end.
Proof.
  intros Hkey. assert (∀ l, omap f l = l ≫= (option_list ∘ f)) as ->.
  { induction l as [|e l IH]; [done|]. cbn. rewrite IH. by destruct (f e). }
  rewrite (programmed_bind id) by (intros e c; cbn; destruct (f e) eqn:Hf; cbn; [|by intros ?%elem_of_nil];
    intros ->%list_elem_of_singleton; by apply Hkey).
  cbn. destruct (m !! k) as [v|]; [|done]. cbn. destruct (f (k, v)) as [c|] eqn:Hf; [|done].
  cbn. by rewrite decide_True by (by rewrite (Hkey _ _ Hf)).
Qed.
End programmed.

Lemma programmed_fmap {K C D S} `{EqDecision K} (key : D → K) (act : D → S → S) (f : C → D) l k s :
  programmed key act (f <$> l) k s = programmed (key ∘ f) (act ∘ f) l k s.
Proof. unfold programmed. revert s. induction l as [|c l IH]; intros s; [done|]. cbn. apply IH. Qed.

(** Changes that all name [n] first. *)
Lemma programmed_pair {K L C S} `{EqDecision K} `{EqDecision L} (n : K) (key : C → L) (act : C → S → S) l k s :
  programmed (λ c, (n, key c)) act l (n, k) s = programmed key act l k s.
Proof.
  unfold programmed. revert s. induction l as [|c l IH]; intros s; [done|]. cbn. rewrite IH. f_equal.
  destruct (decide (key c = k)) as [->|]; [by rewrite decide_True|by rewrite decide_False by congruence].
Qed.

Lemma programmed_clear {K C S} `{EqDecision K} (key : C → K) (l : list C) k (s : option S) :
  (s ≠ None → k ∈ key <$> l) → programmed key (λ _ _, None) l k s = None.
Proof.
  unfold programmed. revert s. induction l as [|c l IH]; intros s Hs; cbn.
  - destruct s; [|done]. by specialize (Hs ltac:(done)) as ?%elem_of_nil.
  - case_decide as Hc; [by apply IH|]. apply IH. intros Hn. specialize (Hs Hn). cbn in Hs.
    apply elem_of_cons in Hs as [->|]; done.
Qed.

Lemma omap_fst {K V C} (f : K → option C) (l : list (K * V)) : omap f l.*1 = omap (f ∘ fst) l.
Proof. induction l as [|[k v] l IH]; [done|]. cbn. by rewrite IH. Qed.

(** ** Families of whole values *)

Section map_delta.
Context {K V : Type} `{Countable K} `{!BTreeKey K} `{EqDecision V}.
Implicit Types m running wanted : gmap K V.

(** A whole value replaces what was there. *)
Lemma map_delta_programmed running wanted (k : K) :
  programmed fst (λ e (_ : option V), e.2) (map_delta running wanted) k (running !! k) = wanted !! k.
Proof.
  unfold map_delta, btree_keys. rewrite programmed_app, omap_fst.
  rewrite (programmed_loop _ _ _ wanted) by (intros e c; case_decide; naive_solver).
  rewrite (programmed_loop _ _ _ running) by (intros [k' v'] c; cbn; case_decide; naive_solver).
  destruct (wanted !! k) as [w|] eqn:Hw; cbn.
  - destruct (running !! k) as [r|] eqn:Hr; cbn.
    + rewrite (decide_True (P:=is_Some _)) by (rewrite Hw; eauto). case_decide; cbn; congruence.
    + by rewrite decide_False by done.
  - destruct (running !! k) as [r|] eqn:Hr; cbn; [|done].
    rewrite decide_False by (rewrite Hw; by intros []). done.
Qed.

(** Only names whose value differs are touched. *)
Lemma map_delta_minimal running wanted k o :
  (k, o) ∈ map_delta running wanted → o = wanted !! k ∧ running !! k ≠ wanted !! k.
Proof.
  unfold map_delta. rewrite elem_of_app, !list_elem_of_omap. intros [([k' v] & Hin & Hd)|(k' & Hin & Hd)].
  - apply elem_of_btree_iter in Hin. cbn in Hd. case_decide; simplify_eq. by rewrite Hin.
  - apply elem_of_btree_keys in Hin as [v Hv]. case_decide as Hw; simplify_eq.
    apply eq_None_not_Some in Hw. by rewrite Hw, Hv.
Qed.

Lemma map_delta_same m : map_delta m m = [].
Proof.
  destruct (map_delta m m) as [|[k o] l] eqn:E; [done|].
  destruct (map_delta_minimal m m k o) as [_ []]; [rewrite E; by left|done].
Qed.
End map_delta.

(** ** Whole states and single fields *)

Lemma then_some_now {A} `{EqDecision A} (now want : A) : default now (then_some (differ now want) want) = want.
Proof. unfold then_some, differ. by case_bool_decide. Qed.

Lemma then_some_same {A B} `{EqDecision A} (a : A) (v : B) : then_some (differ a a) v = None.
Proof. unfold then_some, differ. by rewrite bool_decide_eq_true_2. Qed.

(** A field whose absence stands for [d]. *)
Lemma then_some_default {A B} `{EqDecision A} (f : A → B) (d : B) (want now : option A) :
  default (default d (f <$> now)) (then_some (differ want now) (default d (f <$> want))) = default d (f <$> want).
Proof. unfold then_some, differ. case_bool_decide; [by subst|done]. Qed.

Lemma admin_delta_now want now : default (default true now) (admin_delta want now) = default true want.
Proof. by destruct want as [[]|], now as [[]|]. Qed.

Lemma admin_delta_same a : admin_delta a a = None.
Proof. by destruct a as [[]|]. Qed.

Lemma description_delta_now want now : default (default "" now) (description_delta want now) = default "" want.
Proof.
  destruct want as [w|], now as [n|]; cbn; try done; unfold says; case_bool_decide; cbn; congruence.
Qed.

Lemma description_delta_same a : description_delta a a = None.
Proof. destruct a as [w|]; [|done]. cbn. unfold says. by rewrite bool_decide_eq_true_2. Qed.

(** ** Ports *)

(** What the switch daemon holds for a port: zero stands for negotiated speed
    and the platform's MTU. *)
Record PortState := mkPortState { ps_admin : bool; ps_desc : string; ps_speed : N; ps_duplex : string; ps_mtu : N }.

Definition apply_port (c : PortChange) (s : PortState) : PortState :=
  mkPortState (default (ps_admin s) (pc_admin_up c)) (default (ps_desc s) (pc_description c))
    (default (ps_speed s) (pc_speed_mbps c)) (default (ps_duplex s) (pc_duplex c)) (default (ps_mtu s) (pc_mtu c)).

Definition port_target (p : InterfaceIntent) : PortState :=
  mkPortState (default true (if_admin_up p)) (default "" (if_description p)) (default 0 (if_speed_mbps p))
    (default "auto" (duplex_str <$> if_duplex p)) (default 0 (if_mtu p)).

Definition port_now (ports : gmap string InterfaceIntent) (name : string) : PortState :=
  port_target (default default_interface (ports !! name)).

Lemma port_change_apply name a d sp du mt s :
  match port_change name a d (sp, du, mt) with Some c => apply_port c s | None => s end
  = mkPortState (default (ps_admin s) a) (default (ps_desc s) d) (default (ps_speed s) sp)
      (default (ps_duplex s) du) (default (ps_mtu s) mt).
Proof. by destruct s, a, d, sp, du, mt. Qed.

Lemma port_change_name name a d l c : port_change name a d l = Some c → pc_name c = name.
Proof. destruct l as [[sp du] mt]. cbn. case_match; naive_solver. Qed.

(** The change to a port's intent, from what it had. *)
Lemma link_delta_apply want now s :
  ps_speed s = default 0 (if_speed_mbps now) → ps_duplex s = default "auto" (duplex_str <$> if_duplex now) →
  ps_mtu s = default 0 (if_mtu now) →
  let '(sp, du, mt) := link_delta want (Some now) in
  default (ps_speed s) sp = default 0 (if_speed_mbps want)
  ∧ default (ps_duplex s) du = default "auto" (duplex_str <$> if_duplex want)
  ∧ default (ps_mtu s) mt = default 0 (if_mtu want).
Proof.
  unfold link_delta. cbn. intros -> -> ->.
  pose proof (then_some_default id 0 (if_speed_mbps want) (if_speed_mbps now)) as H1.
  pose proof (then_some_default id 0 (if_mtu want) (if_mtu now)) as H2.
  rewrite !option_fmap_id in H1, H2. by rewrite H1, H2, then_some_default.
Qed.

Lemma port_delta_apply name want now :
  match port_change name (admin_delta (if_admin_up want) (if_admin_up now))
          (description_delta (if_description want) (if_description now)) (link_delta want (Some now)) with
  | Some c => apply_port c (port_target now) | None => port_target now end = port_target want.
Proof.
  pose proof (link_delta_apply want now (port_target now) eq_refl eq_refl eq_refl) as Hl.
  destruct (link_delta want (Some now)) as [[sp du] mt]. destruct Hl as (Hs & Hd & Hm).
  rewrite port_change_apply, Hs, Hd, Hm. cbn. by rewrite admin_delta_now, description_delta_now.
Qed.

(** No running intent is the default one. *)
Lemma wanted_port_change_eq running name want :
  let now := default default_interface (running !! name) in
  wanted_port_change running (name, want)
  = port_change name (admin_delta (if_admin_up want) (if_admin_up now))
      (description_delta (if_description want) (if_description now)) (link_delta want (Some now)).
Proof. cbn. by destruct (running !! name). Qed.

Lemma gone_port_change_eq candidate name had :
  candidate !! name = None →
  gone_port_change candidate (name, had)
  = port_change name (admin_delta None (if_admin_up had)) (description_delta None (if_description had))
      (link_delta default_interface (Some had)).
Proof. intros Hn. cbn. rewrite decide_False by (rewrite Hn; by intros []). by destruct (if_admin_up had) as [[]|]. Qed.

Lemma wanted_port_name running e c : wanted_port_change running e = Some c → pc_name c = e.1.
Proof. destruct e. apply port_change_name. Qed.

Lemma gone_port_name candidate e c : gone_port_change candidate e = Some c → pc_name c = e.1.
Proof. destruct e. unfold gone_port_change. case_decide; [done|]. apply port_change_name. Qed.

Lemma diff_programmed running candidate name :
  programmed pc_name apply_port (diff running candidate) name (port_now running name) = port_now candidate name.
Proof.
  unfold diff. rewrite programmed_app, !programmed_loop
    by (intros [] c; (apply wanted_port_name || apply gone_port_name)).
  unfold port_now. destruct (candidate !! name) as [want|] eqn:Hc; cbn [mbind option_bind default].
  - rewrite wanted_port_change_eq, port_delta_apply.
    destruct (running !! name); [|done]. cbn [mbind option_bind]. unfold gone_port_change.
    by rewrite decide_True by (rewrite Hc; eauto).
  - destruct (running !! name) as [had|]; [|done]. cbn [mbind option_bind from_option default id].
    rewrite gone_port_change_eq by done. apply (port_delta_apply name default_interface had).
Qed.

(** A loop none of whose elements yields anything. *)
Lemma omap_nil {A B} (f : A → option B) l : (∀ x, x ∈ l → f x = None) → omap f l = [].
Proof.
  induction l as [|x l IH]; intros Hf; [done|]. cbn. rewrite (Hf x) by left. apply IH. intros y Hy. apply Hf. by right.
Qed.

Lemma diff_same ports : diff ports ports = [].
Proof.
  unfold diff. rewrite !omap_nil; [done| |]; intros [n p] Hp%elem_of_btree_iter.
  - unfold gone_port_change. by rewrite decide_True by (rewrite Hp; eauto).
  - unfold wanted_port_change, link_delta. rewrite Hp. cbn.
    by rewrite admin_delta_same, description_delta_same, !then_some_same.
Qed.

(** ** Netdevs *)

Record Netdev := mkNetdev { net_up : bool; net_addresses : gset string; net_mtu : N }.

Definition opt_set (o : option string) : gset string := match o with Some a => {[ a ]} | None => ∅ end.

(** An address change is a removal, then an addition. *)
Definition apply_netdev (c : NetdevChange) (s : Netdev) : Netdev :=
  mkNetdev (default (net_up s) (nd_admin_up c))
    (opt_set (nd_set_address c) ∪ (net_addresses s ∖ opt_set (nd_del_address c)))
    (default (net_mtu s) (nd_set_mtu c)).

Section netdev.
Context {V : Type} (admin : V → option bool) (address : V → option string) (mtu : V → option N) (dflt : N).

Definition netdev_now (m : gmap string V) (name : string) : Netdev :=
  let v := m !! name in
  mkNetdev (default true (v ≫= admin)) (opt_set (v ≫= address)) (default dflt (v ≫= mtu)).

Lemma netdev_change_apply name a adr m s :
  match netdev_change name a adr m with Some c => apply_netdev c s | None => s end
  = mkNetdev (default (net_up s) a) (opt_set adr.1 ∪ (net_addresses s ∖ opt_set adr.2)) (default (net_mtu s) m).
Proof.
  destruct adr as [set del], s as [up addrs mt]. destruct a, set, del, m; cbn; try done.
  f_equal. set_solver.
Qed.

Lemma netdev_change_name name a adr m c : netdev_change name a adr m = Some c → nd_name c = name.
Proof. destruct adr. cbn. case_match; naive_solver. Qed.

Lemma address_delta_now want now :
  opt_set (address_delta want now).1 ∪ (opt_set now ∖ opt_set (address_delta want now).2) = opt_set want.
Proof.
  destruct want as [w|], now as [n|]; cbn; try set_solver. unfold says. case_bool_decide; cbn; set_solver.
Qed.

Lemma mtu_delta_now want now : default (default dflt now) (mtu_delta want now dflt) = default dflt want.
Proof.
  pose proof (then_some_default id dflt want now) as H. by rewrite !option_fmap_id in H.
Qed.

Lemma netdev_delta_programmed running candidate name :
  programmed nd_name apply_netdev (netdev_delta admin address mtu dflt running candidate) name
    (netdev_now running name) = netdev_now candidate name.
Proof.
  unfold netdev_delta. rewrite programmed_app, !programmed_loop.
  2: { intros [n v] c. apply netdev_change_name. }
  2: { intros [n v] c. case_decide; [done|]. apply netdev_change_name. }
  unfold netdev_now. destruct (candidate !! name) as [want|] eqn:Hc; cbn [mbind option_bind fst snd].
  - rewrite netdev_change_apply. cbn [net_up net_addresses net_mtu].
    rewrite admin_delta_now, address_delta_now, mtu_delta_now.
    destruct (running !! name); [|done]. cbn [mbind option_bind].
    by rewrite decide_True by (rewrite Hc; eauto).
  - destruct (running !! name) as [had|]; [|done]. cbn [mbind option_bind].
    rewrite decide_False by (rewrite Hc; by intros []). rewrite netdev_change_apply. cbn [net_up net_addresses net_mtu].
    rewrite mtu_delta_now. f_equal; [by destruct (admin had) as [[]|]|]. cbn. set_solver.
Qed.

Lemma netdev_delta_same m : netdev_delta admin address mtu dflt m m = [].
Proof.
  unfold netdev_delta. rewrite !omap_nil; [done| |]; intros [n v] Hv%elem_of_btree_iter; cbn.
  - by rewrite decide_True by (rewrite Hv; eauto).
  - rewrite Hv. cbn. rewrite admin_delta_same. unfold mtu_delta. rewrite then_some_same.
    destruct (address v) as [a|]; [|done]. cbn. unfold says. by rewrite bool_decide_eq_true_2.
Qed.
End netdev.

(** ** Accounts and virtual routers *)

Lemma user_delta_programmed running candidate name :
  programmed uc_name (λ c _, uc_set c) (user_delta running candidate) name (running !! name)
  = if decide (candidate = ∅) then running !! name else candidate !! name.
Proof.
  destruct (decide (candidate = ∅)) as [->|Hne].
  - unfold user_delta. rewrite btree_iter_empty. done.
  - unfold user_delta, btree_keys. rewrite decide_False by done. rewrite programmed_app, omap_fst.
    rewrite !programmed_loop by (intros [] c; cbn; case_decide; naive_solver).
    destruct (candidate !! name) as [w|] eqn:Hw, (running !! name) as [r|] eqn:Hr; cbn; try done.
    + rewrite (decide_True (P:=is_Some _)) by (rewrite Hw; eauto). case_decide; cbn; congruence.
    + by rewrite decide_False by (by rewrite Hr).
    + by rewrite decide_False by (rewrite Hw; by intros []).
Qed.

Lemma user_delta_same m : user_delta m m = [].
Proof.
  unfold user_delta. rewrite omap_nil; [|intros [n u] Hu%elem_of_btree_iter; cbn; by rewrite decide_True].
  case_decide; [done|]. apply omap_nil. intros n Hn%elem_of_btree_keys. by rewrite decide_True.
Qed.

(** A macvlan exists exactly for the groups of the configuration. *)
Lemma vrrp_delta_programmed running candidate (k : string * N) :
  programmed (λ c, (vm_interface c, vm_group c)) (λ c _, vm_create c) (vrrp_delta running candidate) k
    (bool_decide (is_Some (running !! k))) = bool_decide (is_Some (candidate !! k)).
Proof.
  unfold vrrp_delta, btree_keys. rewrite programmed_app, !omap_fst.
  rewrite !programmed_loop by (intros [[] ?] c; cbn; case_decide; naive_solver).
  destruct (candidate !! k) as [w|] eqn:Hw, (running !! k) as [r|] eqn:Hr; cbn; try done.
  - by rewrite !decide_True by (rewrite ?Hw, ?Hr; eauto).
  - by rewrite decide_False by (rewrite Hr; by intros []).
  - by rewrite decide_False by (rewrite Hw; by intros []).
Qed.

Lemma vrrp_delta_same m : vrrp_delta m m = [].
Proof.
  unfold vrrp_delta. rewrite !omap_nil; [done| |]; intros k Hk%elem_of_btree_keys; by rewrite decide_True.
Qed.

(** ** Switchports, MAC table, storm control *)

Definition switchport_now (s : Intents) (name : string) : option SwitchportIntent :=
  p ← i_ports s !! name; if_switchport p.

Lemma diff_switchports_programmed running candidate name :
  programmed sc_name (λ c _, sc_set c) (diff_switchports running candidate) name (switchport_now running name)
  = switchport_now candidate name.
Proof.
  unfold diff_switchports, switchport_now. rewrite programmed_app, !programmed_loop.
  2: { intros [n p] c. cbn. repeat case_match; naive_solver. }
  2: { intros [n p] c. cbn. case_match; naive_solver. }
  destruct (i_ports candidate !! name) as [w|] eqn:Hw, (i_ports running !! name) as [r|] eqn:Hr; cbn; rewrite ?Hw, ?Hr; cbn; try done.
  - destruct (if_switchport w), (if_switchport r); cbn; try done. case_decide; subst; rewrite ?decide_True by eauto; done.
  - by destruct (if_switchport w).
  - by destruct (if_switchport r).
Qed.

Lemma diff_switchports_same s : diff_switchports s s = [].
Proof.
  unfold diff_switchports. rewrite !omap_nil; [done| |]; intros [n p] Hp%elem_of_btree_iter; cbn; rewrite Hp; cbn.
  - done.
  - destruct (if_switchport p); [|done]. by rewrite decide_True.
Qed.

Lemma mac_table_programmed running candidate k :
  let c := diff_mac_table running candidate in
  programmed (λ e : string * N * FdbTarget, (e.1.1, e.1.2)) (λ e _, Some e.2) (mc_add c) k
    (programmed id (λ _ _, None) (mc_remove c) k (mt_statics (i_mac_table running) !! k))
  = mt_statics (i_mac_table candidate) !! k
  ∧ default (default DEFAULT_FDB_AGING_SECS (mt_aging_time (i_mac_table running))) (mc_aging_time c)
    = default DEFAULT_FDB_AGING_SECS (mt_aging_time (i_mac_table candidate)).
Proof.
  unfold diff_mac_table. cbn [mc_add mc_remove mc_aging_time]. split; [|apply then_some_now].
  unfold btree_keys. rewrite omap_fst, !programmed_loop by (intros [[] ?] c; cbn; case_decide; naive_solver).
  destruct k as [mac vlan]. cbn [fst snd].
  destruct (mt_statics (i_mac_table candidate) !! (mac, vlan)) as [w|] eqn:Hw,
    (mt_statics (i_mac_table running) !! (mac, vlan)) as [r|] eqn:Hr; cbn; rewrite ?Hw, ?Hr; try done.
  - rewrite (decide_True (P:=is_Some _)) by eauto. case_decide; naive_solver.
Qed.

Definition storm_now (s : Intents) (name : string) (kind : StormKind) : option string :=
  default ∅ (storm_state s !! name) !! kind.

Lemma storm_programmed running candidate name kind :
  programmed (λ c, (st_name c, st_kind c)) (λ c _, st_level c) (diff_storm_control running candidate) (name, kind)
    (storm_now running name kind) = storm_now candidate name kind.
Proof.
  unfold diff_storm_control, storm_now. cbv zeta. rewrite programmed_app, !(programmed_bind _ _ fst).
  2: { intros [n v] c Hc. by apply list_elem_of_fmap in Hc as (? & -> & _). }
  2: { intros [n v] c Hc. case_decide; [by apply elem_of_nil in Hc|].
       by apply list_elem_of_fmap in Hc as (? & -> & _). }
  cbn [fst snd]. destruct (storm_state candidate !! name) as [w|] eqn:Hw; cbn [default from_option].
  - rewrite programmed_fmap. unfold compose. cbn [st_name st_kind st_level].
    rewrite (programmed_pair name fst), map_delta_programmed.
    destruct (storm_state running !! name); [|done]. by rewrite decide_True by (rewrite ?Hw; eauto).
  - destruct (storm_state running !! name) as [r|] eqn:Hr; [|done].
    rewrite decide_False by (rewrite ?Hw; by intros []). rewrite programmed_fmap. unfold compose. cbn [st_name st_kind st_level].
    rewrite (programmed_pair name (λ kind, kind)). cbn. rewrite lookup_empty. apply programmed_clear.
    intros Hn. rewrite list_fmap_id. apply elem_of_btree_keys. by apply not_eq_None_Some.
Qed.

Lemma bind_nil_all {A B} (f : A → list B) l : (∀ x, x ∈ l → f x = []) → l ≫= f = [].
Proof.
  induction l as [|x l IH]; intros Hf; [done|]. rewrite bind_cons, (Hf x) by left. apply IH. intros y Hy. apply Hf. by right.
Qed.

Lemma diff_storm_same s : diff_storm_control s s = [].
Proof.
  unfold diff_storm_control. cbv zeta. apply app_nil. split; apply bind_nil_all; intros [n v] Hv%elem_of_btree_iter; cbn.
  - by rewrite Hv, map_delta_same.
  - by rewrite decide_True by (rewrite Hv; eauto).
Qed.

(** ** Port channels *)

(** The port channels after the ports [don]. *)
Definition lags_built (lags : gmap N LagIntent) (don : list (string * InterfaceIntent)) (out : gmap N LagEnsure) : Prop :=
  ∀ g, match out !! g with
       | None => lags !! g = None ∧ ∀ n p, (n, p) ∈ don → ¬ member_of p g
       | Some e =>
           le_lag e = default default_lag (lags !! g)
           ∧ (is_Some (lags !! g) ∨ ∃ n p, (n, p) ∈ don ∧ member_of p g)
           ∧ ∀ n v, le_members e !! n = Some v ↔ ∃ p cg, (n, p) ∈ don ∧ if_channel_group p = Some cg
               ∧ cg_group cg = g ∧ v = (cg_mode cg, default default_port_lacp (if_lacp p))
       end.

Lemma lags_built_start lags : lags_built lags [] ((λ lag, mkLagEnsure lag ∅) <$> lags).
Proof.
  intros g. rewrite lookup_fmap. destruct (lags !! g) as [lag|]; cbn.
  - split_and!; [done|left; eauto|]. intros n v. rewrite lookup_empty. split; [done|].
    by intros (p & cg & ?%elem_of_nil & _).
  - split; [done|]. by intros n p ?%elem_of_nil.
Qed.

(** A port of no group changes nothing. *)
Lemma lags_built_plain lags don out n p :
  if_channel_group p = None → lags_built lags don out → lags_built lags (don ++ [(n, p)]) out.
Proof.
  intros Hn Hb g. specialize (Hb g). destruct (out !! g) as [e|].
  - destruct Hb as (Hl & Hex & Hm). split_and!; [done| |].
    + destruct Hex as [|(n' & p' & ? & ?)]; [by left|right]. exists n', p'. set_solver.
    + intros n' v. rewrite Hm. split; intros (p' & cg & Hin & Hc & Hr); exists p', cg; (split; [|done]); [set_solver|].
      apply elem_of_app in Hin as [|[= -> ->]%list_elem_of_singleton]; [done|congruence].
  - destruct Hb as [? Hm]. split; [done|]. intros n' p' [Hin|[= -> ->]%list_elem_of_singleton]%elem_of_app.
    + by apply (Hm n').
    + by apply member_of_none.
Qed.

Lemma lags_built_member lags don out n p cg :
  if_channel_group p = Some cg → n ∉ don.*1 → lags_built lags don out →
  lags_built lags (don ++ [(n, p)]) (add_member out (n, p)).
Proof.
  intros Hcg Hfresh Hb g. unfold add_member. cbn. rewrite Hcg.
  pose proof (member_of_some p cg g Hcg) as Hmem. specialize (Hb g).
  destruct (decide (cg_group cg = g)) as [Hg|Hg].
  - rewrite Hg, lookup_insert_eq. cbn. split_and!.
    + destruct (out !! g) as [e|]; [by apply Hb|]. by destruct Hb as [-> _].
    + right. exists n, p. split; [set_solver|]. by apply Hmem.
    + intros n' v. destruct (decide (n = n')) as [<-|Hne].
      * rewrite lookup_insert_eq. split.
        -- intros [= <-]. exists p, cg. split_and!; [set_solver|done..].
        -- intros (p' & cg' & Hin & Hc & _ & ->). apply elem_of_app in Hin as [Hin|[= ->]%list_elem_of_singleton]; [|congruence].
           destruct Hfresh. apply list_elem_of_fmap. by exists (n, p').
      * rewrite lookup_insert_ne by done.
        destruct (out !! g) as [e|]; cbn.
        -- destruct Hb as (_ & _ & ->). split; intros (p' & cg' & Hin & Hr); exists p', cg'; (split; [|done]); set_solver.
        -- rewrite lookup_empty. split; [done|]. intros (p' & cg' & Hin & Hc & Hgg & _).
           apply elem_of_app in Hin as [Hin|[= -> ->]%list_elem_of_singleton]; [|done].
           destruct (proj2 Hb _ _ Hin). by apply (member_of_some p' cg').
  - rewrite lookup_insert_ne by done. destruct (out !! g) as [e|].
    + destruct Hb as (Hl & Hex & Hm). split_and!; [done| |].
      * destruct Hex as [|(n' & p' & ? & ?)]; [by left|right]. exists n', p'. set_solver.
      * intros n' v. rewrite Hm. split; intros (p' & cg' & Hin & Hc & Hgg & Hv); exists p', cg'; (split; [|done]); [set_solver|].
        apply elem_of_app in Hin as [|[= -> ->]%list_elem_of_singleton]; [done|congruence].
    + destruct Hb as [? Hm]. split; [done|]. intros n' p' [Hin|[= -> ->]%list_elem_of_singleton]%elem_of_app; [by apply (Hm n')|tauto].
Qed.

Lemma lag_state_built s : lags_built (i_lags s) (btree_iter (i_ports s)) (lag_state s).
Proof.
  unfold lag_state. pose proof (NoDup_btree_keys (i_ports s)) as Hnd. unfold btree_keys in Hnd.
  induction (btree_iter (i_ports s)) as [|[n p] l IH] using rev_ind; [apply lags_built_start|].
  rewrite fmap_app in Hnd. apply NoDup_app in Hnd as (Hnd & Hdis & _). specialize (IH Hnd).
  rewrite foldl_snoc. destruct (if_channel_group p) as [cg|] eqn:Hcg.
  - apply (lags_built_member _ _ _ _ _ cg); [done| |done]. intros Hin. apply (Hdis n Hin). by left.
  - unfold add_member at 1. cbn. rewrite Hcg. by apply lags_built_plain.
Qed.

(** ** A commit's delta *)

(** What each family holds after the changes, against the candidate. *)
Record converged (r c : Intents) : Prop := {
  conv_ports n : programmed pc_name apply_port (diff (i_ports r) (i_ports c)) n (port_now (i_ports r) n)
    = port_now (i_ports c) n;
  conv_management n : let now := netdev_now mg_admin_up mg_address mg_mtu DEFAULT_MTU in
    programmed nd_name apply_netdev (oc_management (diff_os r c)) n (now (i_management r) n) = now (i_management c) n;
  conv_netdevs n : let now := netdev_now (λ _, None) if_address if_mtu DEFAULT_PORT_MTU in
    programmed nd_name apply_netdev (oc_ports (diff_os r c)) n (now (i_ports r) n) = now (i_ports c) n;
  conv_svis n : let now := netdev_now (λ _, None) svi_address svi_mtu DEFAULT_MTU in
    programmed nd_name apply_netdev (oc_svis (diff_os r c)) n (now (i_svis r) n) = now (i_svis c) n;
  conv_routes k : programmed rc_prefix (λ c _, rc_new c) (oc_routes (diff_os r c)) k (i_routes r !! k)
    = i_routes c !! k;
  conv_arp k : programmed ac_ip (λ c _, ac_new c) (oc_arp (diff_os r c)) k (i_arp_statics r !! k)
    = i_arp_statics c !! k;
  conv_vrrp k : programmed (λ c, (vm_interface c, vm_group c)) (λ c _, vm_create c) (oc_vrrp_macvlans (diff_os r c)) k
    (bool_decide (is_Some (i_vrrp r !! k))) = bool_decide (is_Some (i_vrrp c !! k));
  conv_users n : programmed uc_name (λ c _, uc_set c) (oc_users (diff_os r c)) n (i_login r !! n)
    = if decide (i_login c = ∅) then i_login r !! n else i_login c !! n;
  conv_identity : default (i_identity r) (oc_identity (diff_os r c)) = i_identity c;
  conv_ssh : default (i_ssh r) (oc_ssh (diff_os r c)) = i_ssh c;
  conv_web : default (i_web r) (oc_web (diff_os r c)) = i_web c;
  conv_ntp : default (i_ntp r) (oc_ntp (diff_os r c)) = i_ntp c;
  conv_vlans k : programmed vc_id (λ c _, vc_ensure c) (diff_vlans r c) k (i_vlans r !! k) = i_vlans c !! k;
  conv_switchports n : programmed sc_name (λ c _, sc_set c) (diff_switchports r c) n (switchport_now r n)
    = switchport_now c n;
  conv_lags k : programmed lc_group (λ c _, lc_ensure c) (diff_lags r c) k (lag_state r !! k) = lag_state c !! k;
  conv_stp : default (stp_state r) (diff_stp r c) = stp_state c;
  conv_lldp : default (lldp_state r) (diff_lldp r c) = lldp_state c;
  conv_sflow : default (sflow_state r) (diff_sflow r c) = sflow_state c;
  conv_igmp : default (i_igmp_snooping r) (diff_snooping (i_igmp_snooping r) (i_igmp_snooping c)) = i_igmp_snooping c;
  conv_mac k : programmed (λ e : string * N * FdbTarget, (e.1.1, e.1.2)) (λ e _, Some e.2) (mc_add (diff_mac_table r c)) k
      (programmed id (λ _ _, None) (mc_remove (diff_mac_table r c)) k (mt_statics (i_mac_table r) !! k))
    = mt_statics (i_mac_table c) !! k;
  conv_storm n kind : programmed (λ c, (st_name c, st_kind c)) (λ c _, st_level c) (diff_storm_control r c) (n, kind)
    (storm_now r n kind) = storm_now c n kind;
  conv_mirror k : programmed mch_session (λ c _, mch_ensure c) (diff_mirror r c) k (i_mirror r !! k) = i_mirror c !! k;
  conv_acls k : programmed acl_name (λ c _, acl_ensure c) (diff_acls r c) k (i_acls r !! k) = i_acls c !! k;
  conv_bindings k : programmed (λ c, (ab_target c, ab_egress c)) (λ c _, ab_acl c) (diff_acl_bindings r c) k
    (acl_bindings r !! k) = acl_bindings c !! k;
  conv_copp k : programmed cp_class (λ c _, cp_set c) (diff_copp r c) k (i_copp r !! k) = i_copp c !! k;
  conv_security k : programmed psc_port (λ c _, psc_set c) (diff_port_security r c) k (port_security_state r !! k)
    = port_security_state c !! k;
  conv_dot1x : default (dot1x_state r) (diff_dot1x r c) = dot1x_state c;
  conv_snoopsec : default (snoopsec_state r) (diff_snoopsec r c) = snoopsec_state c;
  conv_qos_maps : default (i_qos_maps r) (diff_qos_maps r c) = i_qos_maps c;
  conv_wred k : programmed wc_name (λ c _, wc_ensure c) (diff_wred_profiles r c) k (i_wred_profiles r !! k)
    = i_wred_profiles c !! k;
  conv_port_qos k : programmed pqc_port (λ c _, pqc_set c) (diff_port_qos r c) k (port_qos_state r !! k)
    = port_qos_state c !! k;
}.

(** Whole values under another key and change record. *)
Lemma map_delta_change {K V C} `{Countable K} `{!BTreeKey K} `{EqDecision V} (mk : K * option V → C)
    (key : C → K) (set : C → option V) (running wanted : gmap K V) k :
  (∀ e, key (mk e) = e.1) → (∀ e, set (mk e) = e.2) →
  programmed key (λ c _, set c) (mk <$> map_delta running wanted) k (running !! k) = wanted !! k.
Proof.
  intros Hk Hs. rewrite programmed_fmap, <-(map_delta_programmed running wanted k). unfold programmed, compose.
  generalize (running !! k). induction (map_delta running wanted) as [|e l IH]; intros s; [done|].
  cbn. rewrite IH, Hk, Hs. done.
Qed.


(** A commit that changes nothing pushes nothing. *)
Theorem commit_delta_quiet s :
  diff (i_ports s) (i_ports s) = [] ∧ os_is_empty (diff_os s s) = true ∧ diff_vlans s s = []
  ∧ diff_switchports s s = [] ∧ diff_lags s s = [] ∧ diff_stp s s = None ∧ diff_lldp s s = None
  ∧ diff_sflow s s = None ∧ mac_changes_empty (diff_mac_table s s) = true ∧ diff_storm_control s s = []
  ∧ diff_mirror s s = [] ∧ diff_acls s s = [] ∧ diff_acl_bindings s s = [] ∧ diff_copp s s = []
  ∧ diff_port_security s s = [] ∧ diff_dot1x s s = None ∧ diff_snoopsec s s = None ∧ diff_qos_maps s s = None
  ∧ diff_wred_profiles s s = [] ∧ diff_port_qos s s = [].
Proof.
  split_and!; try apply then_some_same.
  - apply diff_same.
  - unfold os_is_empty, diff_os. cbn.
    by rewrite !netdev_delta_same, !map_delta_same, vrrp_delta_same, user_delta_same, !then_some_same.
  - unfold diff_vlans. by rewrite map_delta_same.
  - apply diff_switchports_same.
  - unfold diff_lags. by rewrite map_delta_same.
  - unfold mac_changes_empty, diff_mac_table. cbn. rewrite then_some_same, !omap_nil; [done| |].
    + intros k Hk%elem_of_btree_keys. by rewrite decide_True.
    + intros [k v] Hk%elem_of_btree_iter. by rewrite decide_True.
  - apply diff_storm_same.
  - unfold diff_mirror. by rewrite map_delta_same.
  - unfold diff_acls. by rewrite map_delta_same.
  - unfold diff_acl_bindings. by rewrite map_delta_same.
  - unfold diff_copp. by rewrite map_delta_same.
  - unfold diff_port_security. by rewrite map_delta_same.
  - unfold diff_wred_profiles. by rewrite map_delta_same.
  - unfold diff_port_qos. by rewrite map_delta_same.
Qed.

(** The members of a pushed group are among the group's ports. *)
Lemma members_cover l (m : gmap string (LacpMode * PortLacpIntent)) g :
  (∀ n v, m !! n = Some v ↔ ∃ p cg, (n, p) ∈ l ∧ if_channel_group p = Some cg ∧ cg_group cg = g
     ∧ v = (cg_mode cg, default default_port_lacp (if_lacp p))) →
  (size m ≤ length (members l g))%nat.
Proof.
  intros Hm. rewrite <-size_dom, <-(length_fmap fst (members l g)). unfold size, set_size.
  apply submseteq_length, NoDup_submseteq; [apply NoDup_elements|]. intros n [v Hv]%elem_of_elements%elem_of_dom.
  apply Hm in Hv as (p & cg & Hin & Hc & Hg & _). apply list_elem_of_fmap. exists (n, p).
  split; [done|]. apply list_elem_of_filter. split; [|done]. by apply (member_of_some p cg).
Qed.

(** C6: The port channels pushed for an accepted configuration: a group exists
    when it is configured or has a member, holds exactly its members, at most
    eight, all in one mode. *)
Theorem accepted_lags db t s :
  extract db t = Ok s → fits 32 (N.of_nat (size (i_ports s))) →
  (∀ g, is_Some (lag_state s !! g) ↔
     is_Some (i_lags s !! g) ∨ ∃ n p, i_ports s !! n = Some p ∧ member_of p g)
  ∧ ∀ g e, lag_state s !! g = Some e →
      le_lag e = default default_lag (i_lags s !! g)
      ∧ (∀ n, is_Some (le_members e !! n) ↔ ∃ p, i_ports s !! n = Some p ∧ member_of p g)
      ∧ (size (le_members e) ≤ 8)%nat
      ∧ ∀ n1 n2 v1 v2, le_members e !! n1 = Some v1 → le_members e !! n2 = Some v2 → v1.1 = v2.1.
Proof.
  intros Hx Hf. destruct (extract_checked _ _ _ Hx Hf) as [_ _ [_ Hmode Hsize] _ _ _ _ _ _ _ _].
  pose proof (lag_state_built s) as Hb. split.
  - intros g. specialize (Hb g). destruct (lag_state s !! g) as [e|].
    + destruct Hb as (_ & Hex & _). split; [intros _|eauto].
      destruct Hex as [|(n & p & Hin%elem_of_btree_iter & Hm)]; [by left|right; eauto].
    + destruct Hb as [Hn Hm]. split; [by intros []|]. rewrite Hn.
      intros [[]|(n & p & Hp%elem_of_btree_iter & Hmem)]; [done|]. by destruct (Hm n p).
  - intros g e He. specialize (Hb g). rewrite He in Hb. destruct Hb as (Hl & _ & Hm). split_and!; [done| | |].
    + intros n. split.
      * intros [v (p & cg & Hin%elem_of_btree_iter & Hc & Hg & _)%Hm]. exists p. split; [done|].
        by apply (member_of_some p cg).
      * intros (p & Hp & Hmem). destruct (if_channel_group p) as [cg|] eqn:Hc.
        -- eexists. apply Hm. exists p, cg. split_and!; [by apply elem_of_btree_iter|done| |done].
           by apply (member_of_some p cg).
        -- by destruct (member_of_none p g Hc).
    + etransitivity; [|apply (Hsize g)]. by apply members_cover.
    + intros n1 n2 v1 v2 (p1 & cg1 & H1%elem_of_btree_iter & C1 & G1 & ->)%Hm
        (p2 & cg2 & H2%elem_of_btree_iter & C2 & G2 & ->)%Hm. cbn.
      apply (Hmode n1 p1 n2 p2); congruence.
Qed.

Lemma accepted_lags_witness : ∃ e, lag_state sample !! 3 = Some e ∧ (size (le_members e) ≤ 8)%nat.
Proof.
  destruct (accepted_lags None sample_tree sample sample_accepted ltac:(vm_compute; reflexivity)) as [Hex Hall].
  destruct (proj2 (Hex 3)) as [e He]; [left; vm_compute; eauto|]. exists e. split; [done|]. by apply (Hall 3 e He).
Defined.
