(* ===== verification/CommitIntents.v ===== *)
(** * The commit engine on the real extractor

    [CommitEngine] is proved against the class [IntentEngine].  Here the class
    is discharged by [extract] of [IntentExtract], and what the two together
    guarantee is stated: the running configuration is always one the
    extractor accepts. *)

From Stdlib Require Import Ascii NArith Lia.
From stdpp Require Import base tactics list strings option gmap relations.
From S2P Require Import Prelude ConfigTree ConfigParser Role.
From S2P Require Import IntentTypes IntentSystem IntentExtract IntentSound IntentAccept.
From S2P Require Import Sessions Store CommitEngine.

Local Open Scope N_scope.

(** What the engine reads of the intents: the accounts. *)
Definition login_intents (s : IntentTypes.Intents) : gmap string LoginIntent :=
  (λ u, mkLogin (us_role u) (us_password_hash u)) <$> i_login s.

Definition extract_ok (db : option (gset string)) (t : ConfigTree) : option IntentTypes.Intents :=
  match IntentExtract.extract db t with Ok s => Some s | Err _ => None end.

#[export] Instance mgmtd_intents (db : option (gset string)) : IntentEngine := {
  CommitEngine.Intents := IntentTypes.Intents;
  CommitEngine.extract := extract_ok db;
  CommitEngine.login := login_intents;
}.

(** ** Only accepted texts run *)

Section accepted.
Context {J : JsonMeta} {I : IntentEngine}.

Definition accepted (text : string) : Prop := is_Some (parse_intents text).

(** The running text and every text a timer may restore. *)
Record accepted_inv (s : system) : Prop := {
  acc_running : accepted (running (store (engine s)));
  acc_tasks id t : tasks s !! id = Some t → accepted (pre_commit_running t);
}.

Lemma take_pending_accepted s : accepted_inv s → accepted_inv (take_pending s).2.
Proof.
  intros [Hr Ht]. split; [done|]. cbn. intros id t. destruct (pending_confirm (engine s)) as [p|]; [|apply Ht].
  intros (t0 & Ht0 & <- & _)%cancel_task_lookup. by eapply Ht.
Qed.

Lemma apply_accepted push stamp text c u k e e' :
  apply_and_persist push stamp text c u k e = Some e' → accepted (running (store e')).
Proof.
  intros H. pose proof (apply_and_persist_running _ _ _ _ _ _ _ _ H) as (-> & _).
  unfold apply_and_persist in H. unfold accepted. destruct (parse_intents text); [eauto|done].
Qed.

Lemma commit_accepted ok push stamp req s : accepted_inv s → accepted_inv (commit_rpc ok push stamp req s).2.
Proof.
  intros Hinv%take_pending_accepted. unfold commit_rpc. set (s0 := (take_pending s).2) in *.
  destruct Hinv as [Hr Ht]. case_match; [|done].
  destruct (apply_and_persist _ _ _ _ _ _ _) as [e|] eqn:He; [|done]. apply apply_accepted in He.
  case_match; (split; [done|]); cbn; [|done].
  intros id t. rewrite lookup_insert. case_decide; [intros [= <-]; done|apply Ht].
Qed.

Lemma timer_accepted push stamp id t s : accepted_inv s → accepted_inv (timer_body push stamp id t s).
Proof.
  intros Hinv. unfold timer_body. set (s1 := mkSystem (engine s) (delete id (tasks s)) (next_task s)).
  assert (accepted_inv s1) as H1.
  { split; [apply Hinv|]. cbn. intros i x [_ Hx]%lookup_delete_Some. by eapply acc_tasks. }
  pose proof (take_pending_accepted s1 H1) as H2. destruct (take_pending s1) as [[p|] s2]; [|done]. cbn in H2.
  destruct (apply_and_persist _ _ _ _ _ _ _) as [e|] eqn:He; [|done]. apply apply_accepted in He.
  split; [done|]. apply H2.
Qed.

Lemma step_accepted s l s' : step s l s' → accepted_inv s → accepted_inv s'.
Proof.
  intros Hs Hinv. destruct Hs as [ok text|ok push stamp req| |n| |id text Hid|push stamp id t Hid Hph|id t Hid Hph Hc].
  - unfold set_candidate_rpc. case_match; [by destruct Hinv; split|done].
  - by apply commit_accepted.
  - by apply take_pending_accepted.
  - unfold rollback_rpc. case_match; [by destruct Hinv; split|done].
  - by destruct Hinv; split.
  - destruct Hinv as [Hr Ht]. split; [done|]. cbn. intros i x. rewrite lookup_insert.
    case_decide; [|apply Ht]. intros [= <-]. apply (Ht _ _ Hid).
  - by apply timer_accepted.
  - destruct Hinv as [Hr Ht]. split; [done|]. cbn. intros i x [_ Hx]%lookup_delete_Some. by eapply Ht.
Qed.

Lemma runs_accepted st ls s : accepted (running st) → runs (boot st) ls s → accepted_inv s.
Proof.
  intros Hb Hr. assert (accepted_inv (boot st)) as Hinv by (split; [done|]; cbn; intros; simplify_map_eq).
  induction Hr; eauto using step_accepted.
Qed.
End accepted.

(** ** End to end *)

(** C4: From a running configuration the extractor accepts, whatever is drafted,
    committed, confirmed, rolled back or expires, the running configuration
    is one the extractor accepts, with someone left to administer the
    switch; and the configuration a pending timer would restore is one too. *)
Theorem running_never_locks_out {J : JsonMeta} db st ls s :
  accepted (I := mgmtd_intents db) (running st) →
  runs (I := mgmtd_intents db) (boot st) ls s →
  (∃ t i, parse (running (store (engine s))) = Ok t ∧ IntentExtract.extract db t = Ok i
     ∧ login_ok (i_login i) ∧ (fits 32 (N.of_nat (size (i_ports i))) → valid i))
  ∧ ∀ id task, tasks s !! id = Some task → accepted (I := mgmtd_intents db) (pre_commit_running task).
Proof.
  intros Hb Hr. destruct (runs_accepted (I := mgmtd_intents db) _ _ _ Hb Hr) as [[i Hi] Ht]. split; [|done].
  unfold parse_intents in Hi. destruct (parse _) as [t|] eqn:Hp; [|done]. cbn in Hi. unfold extract_ok in Hi.
  destruct (IntentExtract.extract db t) as [i'|] eqn:Hx; [|done]. injection Hi as ->.
  exists t, i. split_and!; [done|done|by eapply extract_login|].
  intros Hfit. by eapply extract_all.
Qed.

(** The sample drafted and committed on an empty switch, with a window. *)
Definition sample_run : list label :=
  [LSetCandidate true sample_text; LCommit true true "t0" (mkCommit "ops" "cli" "" 300)].

Definition after_sample : system :=
  (commit_rpc (J := FieldFormat.json) (I := mgmtd_intents None) true true "t0" (mkCommit "ops" "cli" "" 300)
     (set_candidate_rpc (I := mgmtd_intents None) true sample_text (boot empty_store)).2).2.

Lemma running_never_locks_out_witness :
  running (store (engine after_sample)) = sample_text ∧ pending_confirm (engine after_sample) = Some 0
  ∧ ∃ t i, parse (running (store (engine after_sample))) = Ok t ∧ IntentExtract.extract None t = Ok i
     ∧ login_ok (i_login i) ∧ (fits 32 (N.of_nat (size (i_ports i))) → valid i).
Proof.
  split_and!; [vm_compute; reflexivity..|].
  refine (proj1 (running_never_locks_out (J := FieldFormat.json) None empty_store sample_run after_sample _ _)).
  - eexists. vm_compute. reflexivity.
  - eapply runs_cons; [apply step_set_candidate|]. eapply runs_cons; [apply step_commit|apply runs_nil].
Defined.
